(** * SmartTEAM Live (live.js)

    A shallow embedding of the TurboWarp extension [live.js] (the sandboxed
    variant, first in the source file): the connection supervisor
    ([setRoom], [reconnect], [disconnect], the asynchronous open sequence,
    the retry timer with its backoff table) and the message interpreter
    ([onmessage], [safeJsonParse], [toFiniteNumber], [round2]).

    The file has these layers.
    - [JS]: the part of the JavaScript platform the extension relies on:
      strings as UTF-16 code units, numbers as IEEE-754 binary64 values
      (the Standard Library's [spec_float] at precision 53), [Math.round],
      [String.prototype.trim], [Number(...)] and [JSON.parse].
    - [Live]: the extension itself.  The object's fields are the record
      [Ext]; the browser side (the WebSocket objects created so far, the
      timers set so far, the permission checks requested so far) is kept
      next to it in [World], and every callback the browser can run is an
      [Event] interpreted by [step].
    - [Blocks]: the block descriptors of [getInfo] and the translation
      table.
    - [URLSearch] and [Unsandboxed]: the second variant in the source
      file, which reads the room from the address of the editor page with
      [URLSearchParams] and probes for it on an interval.
    - the theorems about the extension, followed by runs of it on a
      sample platform. *)

From Stdlib Require Import ZArith NArith Lia Bool List String Ascii.
From Stdlib Require Import Floats.SpecFloat.
From stdpp Require Import base list.

#[local] Set Warnings "-register-all".

(* ===================================================================== *)
(** * The JavaScript platform                                             *)
(* ===================================================================== *)

Module JS.

(** ** Strings *)

(** A JavaScript string is a finite sequence of UTF-16 code units. *)
Definition jsstring := list N.

(** ASCII literals. *)
Definition str (s : string) : jsstring :=
  map N_of_ascii (list_ascii_of_string s).

Fixpoint streq (a b : jsstring) : bool :=
  match a, b with
  | [], [] => true
  | x :: a', y :: b' => N.eqb x y && streq a' b'
  | _, _ => false
  end.

(** [!s] for a string: only the empty string is falsy. *)
Definition is_empty (s : jsstring) : bool :=
  match s with [] => true | _ => false end.

(** WhiteSpace and LineTerminator code units (ECMA-262, 12.2 and 12.3):
    TAB, LF, VT, FF, CR, SP, NBSP, the Unicode space separators, LS, PS
    and the byte order mark. *)
Definition isWhiteSpace (c : N) : bool :=
  (N.eqb c 9 || N.eqb c 10 || N.eqb c 11 || N.eqb c 12 || N.eqb c 13
   || N.eqb c 32 || N.eqb c 160 || N.eqb c 5760
   || (N.leb 8192 c && N.leb c 8202)
   || N.eqb c 8232 || N.eqb c 8233 || N.eqb c 8239 || N.eqb c 8287
   || N.eqb c 12288 || N.eqb c 65279)%bool.

Fixpoint trimStart (s : jsstring) : jsstring :=
  match s with
  | [] => []
  | c :: r => if isWhiteSpace c then trimStart r else s
  end.

Definition trimEnd (s : jsstring) : jsstring := rev (trimStart (rev s)).

(** [String.prototype.trim]. *)
Definition trim (s : jsstring) : jsstring := trimEnd (trimStart s).

(** ** Numbers *)

(** A JavaScript number is a binary64 value. *)
Definition number := spec_float.
Definition prec : Z := 53.
Definition emax : Z := 1024.

Definition num_of_Z (z : Z) : number := binary_normalize prec emax z 0 false.
Definition NaN : number := S754_nan.
Definition pos_zero : number := S754_zero false.
Definition neg_zero : number := S754_zero true.
Definition pos_infinity : number := S754_infinity false.
Definition neg_infinity : number := S754_infinity true.

Definition mul (x y : number) : number := SFmul prec emax x y.
Definition div (x y : number) : number := SFdiv prec emax x y.

(** [Number.isFinite] on a number. *)
Definition Number_isFinite (n : number) : bool :=
  match n with
  | S754_zero _ | S754_finite _ _ _ => true
  | S754_infinity _ | S754_nan => false
  end.

(** [Object.is(r, -0)]. *)
Definition Object_is_negzero (r : number) : bool :=
  match r with
  | S754_zero true => true
  | _ => false
  end.

(** The integer [floor (x + 1/2)] for the finite value
    [x = (-1)^s * m * 2^e] with [e < 0], computed exactly. *)
Definition round_half_up (s : bool) (m : positive) (e : Z) : Z :=
  ((2 * cond_Zopp s (Zpos m) + 2 ^ (- e)) / 2 ^ (1 - e))%Z.

(** [Math.round]: the integral number closest to [x], ties towards
    +Infinity; NaN, the infinities and the zeros are returned unchanged,
    and a result of zero keeps the sign of [x]. *)
Definition Math_round (x : number) : number :=
  match x with
  | S754_finite s m e =>
      if (0 <=? e)%Z then x
      else binary_normalize prec emax (round_half_up s m e) 0 s
  | _ => x
  end.

(** The number denoted by the decimal numeral [(-1)^neg * m * 10^e10],
    rounded to nearest, ties to even. *)
Definition decimal_to_number (neg : bool) (m : N) (e10 : Z) : number :=
  match m with
  | N0 => S754_zero neg
  | Npos p =>
      if (0 <=? e10)%Z
      then binary_normalize prec emax (cond_Zopp neg (Zpos p * 10 ^ e10)) 0 neg
      else
        let '(q, e, l) :=
          SFdiv_core_binary prec emax (Zpos p) 0 (10 ^ (- e10)) 0 in
        binary_round_aux prec emax neg q e l
  end.

(** ** Numerals *)

Definition digit_val (c : N) : option N :=
  if (N.leb 48 c && N.leb c 57)%bool then Some (c - 48)%N else None.

Definition hex_val (c : N) : option N :=
  if (N.leb 48 c && N.leb c 57)%bool then Some (c - 48)%N
  else if (N.leb 97 c && N.leb c 102)%bool then Some (c - 87)%N
  else if (N.leb 65 c && N.leb c 70)%bool then Some (c - 55)%N
  else None.

(** Reads the longest run of digits in base [base] at the front of [s]:
    the value read so far, how many digits were read, and the rest. *)
Fixpoint take_digits (val : N -> option N) (base : N) (s : jsstring)
    (acc : N) (count : nat) : N * nat * jsstring :=
  match s with
  | [] => (acc, count, [])
  | c :: r =>
      match val c with
      | Some d => take_digits val base r (acc * base + d)%N (S count)
      | None => (acc, count, s)
      end
  end.

(** An optional exponent part [e|E (+|-)? digits]; [None] when an [e] is
    not followed by at least one digit. *)
Definition take_exponent (s : jsstring) : option (Z * jsstring) :=
  match s with
  | c :: r =>
      if (N.eqb c 101 || N.eqb c 69)%bool then
        let '(neg, r1) :=
          match r with
          | d :: r' =>
              if N.eqb d 45 then (true, r')
              else if N.eqb d 43 then (false, r')
              else (false, r)
          | [] => (false, r)
          end in
        let '(v, n, r2) := take_digits digit_val 10 r1 0%N 0%nat in
        match n with
        | O => None
        | S _ => Some (cond_Zopp neg (Z.of_N v), r2)
        end
      else Some (0%Z, s)
  | [] => Some (0%Z, s)
  end.

(** Does [s] start with the code units of [p]?  Returns the rest. *)
Fixpoint strip_prefix (p s : jsstring) : option jsstring :=
  match p, s with
  | [], _ => Some s
  | x :: p', y :: s' => if N.eqb x y then strip_prefix p' s' else None
  | _ :: _, [] => None
  end.

(** A whole string of digits in base [base], at least one. *)
Definition radix_literal (val : N -> option N) (base : N) (s : jsstring)
    : option number :=
  match take_digits val base s 0%N 0%nat with
  | (v, S _, []) => Some (num_of_Z (Z.of_N v))
  | _ => None
  end.

(** StrUnsignedDecimalLiteral: [Infinity], [digits], [digits.],
    [digits.digits], [.digits], each but the first with an optional
    exponent, and nothing after it. *)
Definition unsigned_decimal_literal (neg : bool) (s : jsstring)
    : option number :=
  match strip_prefix (str "Infinity") s with
  | Some [] => Some (S754_infinity neg)
  | Some (_ :: _) => None
  | None =>
      let '(i, ni, r1) := take_digits digit_val 10 s 0%N 0%nat in
      let '(m, nf, r2) :=
        match r1 with
        | c :: r =>
            if N.eqb c 46 then take_digits digit_val 10 r i 0%nat
            else (i, 0%nat, r1)
        | [] => (i, 0%nat, r1)
        end in
      match (ni + nf)%nat with
      | O => None
      | S _ =>
          match take_exponent r2 with
          | Some (e, []) => Some (decimal_to_number neg m (e - Z.of_nat nf))
          | _ => None
          end
      end
  end.

(** StringNumericLiteral, after trimming. *)
Definition string_numeric_literal (t : jsstring) : option number :=
  match t with
  | c :: d :: r =>
      if (N.eqb c 48 && (N.eqb d 120 || N.eqb d 88))%bool
      then radix_literal hex_val 16 r
      else if (N.eqb c 48 && (N.eqb d 111 || N.eqb d 79))%bool
      then radix_literal (fun x => if N.ltb x 56 then digit_val x else None) 8 r
      else if (N.eqb c 48 && (N.eqb d 98 || N.eqb d 66))%bool
      then radix_literal (fun x => if N.ltb x 50 then digit_val x else None) 2 r
      else if N.eqb c 45 then unsigned_decimal_literal true (d :: r)
      else if N.eqb c 43 then unsigned_decimal_literal false (d :: r)
      else unsigned_decimal_literal false t
  | _ => unsigned_decimal_literal false t
  end.

(** StringToNumber (ECMA-262, 7.1.4.1.1): the empty or all-blank string is
    +0, a string that is no numeric literal is NaN. *)
Definition StringToNumber (s : jsstring) : number :=
  match trim s with
  | [] => pos_zero
  | t => match string_numeric_literal t with
         | Some n => n
         | None => NaN
         end
  end.

(** ** Values *)

(** The values [JSON.parse] can produce, and [undefined] for the read of
    an absent property.  An object keeps its members in source order; a
    later member with the same key overrides an earlier one. *)
Inductive jsval :=
| JUndefined
| JNull
| JBool (b : bool)
| JNum (n : number)
| JStr (s : jsstring)
| JArr (elems : list jsval)
| JObj (members : list (jsstring * jsval)).

Inductive jstype := TUndefined | TObject | TBoolean | TNumber | TString.

Definition typeof (v : jsval) : jstype :=
  match v with
  | JUndefined => TUndefined
  | JNull => TObject
  | JBool _ => TBoolean
  | JNum _ => TNumber
  | JStr _ => TString
  | JArr _ => TObject
  | JObj _ => TObject
  end.

(** ToBoolean. *)
Definition truthy (v : jsval) : bool :=
  match v with
  | JUndefined | JNull => false
  | JBool b => b
  | JNum (S754_zero _) | JNum S754_nan => false
  | JNum _ => true
  | JStr s => negb (is_empty s)
  | JArr _ | JObj _ => true
  end.

Fixpoint lookup_member (k : jsstring) (members : list (jsstring * jsval))
    (found : jsval) : jsval :=
  match members with
  | [] => found
  | (k', v) :: rest =>
      lookup_member k rest (if streq k k' then v else found)
  end.

(** [v.k] for one of the names [type], [label], [confidence],
    [subscribers]: an own member of a decoded object, [undefined] on
    anything else (neither [Object.prototype] nor [Array.prototype] has a
    property of one of these names).  Not to be used on [null] or
    [undefined], where JavaScript throws. *)
Definition get (v : jsval) (k : jsstring) : jsval :=
  match v with
  | JObj members => lookup_member k members JUndefined
  | _ => JUndefined
  end.

(** [v === "s"]. *)
Definition is_string (v : jsval) (s : jsstring) : bool :=
  match v with
  | JStr t => streq t s
  | _ => false
  end.

(** [ToNumber(ToString(n))] for a number [n]: printing a number and
    reading it back gives the same number, except that -0 prints as "0"
    (ECMA-262, note to Number::toString). *)
Definition print_and_read (n : number) : number :=
  match n with
  | S754_zero _ => pos_zero
  | _ => n
  end.

(** The outcome of an operation that may throw. *)
Inductive completion (A : Type) :=
| Normal (a : A)
| Throw.
Arguments Normal {A} a.
Arguments Throw {A}.

Fixpoint has_own (k : jsstring) (members : list (jsstring * jsval)) : bool :=
  match members with
  | [] => false
  | (k', _) :: rest => (streq k k' || has_own k rest)%bool
  end.

(** ToPrimitive (ECMA-262, 7.1.1) turns an object into a string by
    calling its [toString].  A decoded object inherits a callable one
    from [Object.prototype] unless it has a member of that name of its
    own, whose value, coming from JSON, is not callable: then there is
    nothing to call and ToPrimitive throws a TypeError.  An array's
    [toString] joins the strings of its elements and so throws when one
    of them does. *)
Fixpoint cannot_convert (v : jsval) : bool :=
  match v with
  | JObj members => has_own (str "toString") members
  | JArr elems => existsb cannot_convert elems
  | _ => false
  end.

(** The number [Number(v)] returns when ToPrimitive does not throw.  An
    object or array is first turned into a string: a plain object is
    "[object Object]"; an array is its elements joined with commas,
    [null] printing as the empty string, so that an array of two or more
    elements, whose string has a comma, is NaN. *)
Fixpoint number_of (v : jsval) : number :=
  match v with
  | JUndefined => NaN
  | JNull => pos_zero
  | JBool b => if b then num_of_Z 1 else pos_zero
  | JNum n => n
  | JStr s => StringToNumber s
  | JObj _ => NaN
  | JArr [] => pos_zero
  | JArr [x] =>
      match x with
      | JUndefined | JNull => pos_zero
      | JBool _ => NaN
      | JNum n => print_and_read n
      | JStr s => StringToNumber s
      | JObj _ => NaN
      | JArr _ => number_of x
      end
  | JArr (_ :: _ :: _) => NaN
  end.

(** [Number(v)]. *)
Definition ToNumber (v : jsval) : completion number :=
  if cannot_convert v then Throw else Normal (number_of v).

(** ** JSON.parse *)

(** JSON white space: TAB, LF, CR and SP only. *)
Definition isJsonSpace (c : N) : bool :=
  (N.eqb c 9 || N.eqb c 10 || N.eqb c 13 || N.eqb c 32)%bool.

Fixpoint skip_ws (s : jsstring) : jsstring :=
  match s with
  | [] => []
  | c :: r => if isJsonSpace c then skip_ws r else s
  end.

(** The characters of a JSON string after its opening quote, up to and
    including the closing quote.  [acc] holds the decoded code units in
    reverse.  A raw control character (below U+0020), an unknown escape
    and a missing closing quote are syntax errors. *)
Fixpoint parse_string_body (s : jsstring) (acc : jsstring)
    : option (jsstring * jsstring) :=
  match s with
  | [] => None
  | c :: r =>
      if N.eqb c 34 then Some (rev acc, r)
      else if N.ltb c 32 then None
      else if N.eqb c 92 then
        match r with
        | [] => None
        | e :: r1 =>
            if N.eqb e 34 then parse_string_body r1 (34%N :: acc)
            else if N.eqb e 92 then parse_string_body r1 (92%N :: acc)
            else if N.eqb e 47 then parse_string_body r1 (47%N :: acc)
            else if N.eqb e 98 then parse_string_body r1 (8%N :: acc)
            else if N.eqb e 102 then parse_string_body r1 (12%N :: acc)
            else if N.eqb e 110 then parse_string_body r1 (10%N :: acc)
            else if N.eqb e 114 then parse_string_body r1 (13%N :: acc)
            else if N.eqb e 116 then parse_string_body r1 (9%N :: acc)
            else if N.eqb e 117 then
              match r1 with
              | h1 :: h2 :: h3 :: h4 :: r2 =>
                  match hex_val h1, hex_val h2, hex_val h3, hex_val h4 with
                  | Some a, Some b, Some c', Some d =>
                      parse_string_body r2
                        (((a * 16 + b) * 16 + c') * 16 + d :: acc)%N
                  | _, _, _, _ => None
                  end
              | _ => None
              end
            else None
        end
      else parse_string_body r (c :: acc)
  end.

(** A JSON number: [-? (0 | [1-9] digits) (. digits+)? (e|E (+|-)? digits+)?]. *)
Definition parse_number (s : jsstring) : option (number * jsstring) :=
  let '(neg, s1) :=
    match s with
    | c :: r => if N.eqb c 45 then (true, r) else (false, s)
    | [] => (false, s)
    end in
  let '(i, ni, r1) := take_digits digit_val 10 s1 0%N 0%nat in
  let leading_zero :=
    match s1 with
    | c :: _ => (N.eqb c 48 && negb (Nat.eqb ni 1))%bool
    | [] => false
    end in
  match ni with
  | O => None
  | S _ =>
      if leading_zero then None
      else
        let frac :=
          match r1 with
          | c :: r =>
              if N.eqb c 46 then
                match take_digits digit_val 10 r i 0%nat with
                | (_, O, _) => None
                | (m, S nf', r2) => Some (m, S nf', r2)
                end
              else Some (i, 0%nat, r1)
          | [] => Some (i, 0%nat, r1)
          end in
        match frac with
        | None => None
        | Some (m, nf, r2) =>
            match take_exponent r2 with
            | Some (e, r3) =>
                Some (decimal_to_number neg m (e - Z.of_nat nf), r3)
            | None => None
            end
        end
  end.

(** The outcome of parsing a prefix of the text. *)
Inductive presult :=
| POk (v : jsval) (rest : jsstring)
| PSyntaxError
| POutOfFuel.

(** Recursive descent over the JSON grammar.  A value and the list it
    belongs to each take one unit of fuel and every nested value starts
    after at least one more character, so fuel above twice the length of
    the text is never used up (lemma [JSON_parse_fuel] below). *)
Fixpoint parse_value (fuel : nat) (s : jsstring) {struct fuel} : presult :=
  match fuel with
  | O => POutOfFuel
  | S f =>
      match skip_ws s with
      | [] => PSyntaxError
      | c :: r =>
          if N.eqb c 123 then
            match skip_ws r with
            | c' :: r' =>
                if N.eqb c' 125 then POk (JObj []) r'
                else parse_members f [] (c' :: r')
            | [] => PSyntaxError
            end
          else if N.eqb c 91 then
            match skip_ws r with
            | c' :: r' =>
                if N.eqb c' 93 then POk (JArr []) r'
                else parse_elements f [] (c' :: r')
            | [] => PSyntaxError
            end
          else if N.eqb c 34 then
            match parse_string_body r [] with
            | Some (t, r') => POk (JStr t) r'
            | None => PSyntaxError
            end
          else
            match strip_prefix (str "true") (c :: r),
                  strip_prefix (str "false") (c :: r),
                  strip_prefix (str "null") (c :: r) with
            | Some r', _, _ => POk (JBool true) r'
            | _, Some r', _ => POk (JBool false) r'
            | _, _, Some r' => POk JNull r'
            | None, None, None =>
                match parse_number (c :: r) with
                | Some (n, r') => POk (JNum n) r'
                | None => PSyntaxError
                end
            end
      end
  end

with parse_elements (fuel : nat) (acc : list jsval) (s : jsstring)
    {struct fuel} : presult :=
  match fuel with
  | O => POutOfFuel
  | S f =>
      match parse_value f s with
      | POk v r =>
          match skip_ws r with
          | c :: r' =>
              if N.eqb c 44 then parse_elements f (v :: acc) r'
              else if N.eqb c 93 then POk (JArr (rev (v :: acc))) r'
              else PSyntaxError
          | [] => PSyntaxError
          end
      | PSyntaxError => PSyntaxError
      | POutOfFuel => POutOfFuel
      end
  end

with parse_members (fuel : nat) (acc : list (jsstring * jsval))
    (s : jsstring) {struct fuel} : presult :=
  match fuel with
  | O => POutOfFuel
  | S f =>
      match skip_ws s with
      | q :: r =>
          if N.eqb q 34 then
            match parse_string_body r [] with
            | Some (k, r1) =>
                match skip_ws r1 with
                | colon :: r2 =>
                    if N.eqb colon 58 then
                      match parse_value f r2 with
                      | POk v r3 =>
                          match skip_ws r3 with
                          | c :: r4 =>
                              if N.eqb c 44
                              then parse_members f ((k, v) :: acc) r4
                              else if N.eqb c 125
                              then POk (JObj (rev ((k, v) :: acc))) r4
                              else PSyntaxError
                          | [] => PSyntaxError
                          end
                      | PSyntaxError => PSyntaxError
                      | POutOfFuel => POutOfFuel
                      end
                    else PSyntaxError
                | [] => PSyntaxError
                end
            | None => PSyntaxError
            end
          else PSyntaxError
      | [] => PSyntaxError
      end
  end.

(** [JSON.parse(text)]: [None] stands for the SyntaxError it throws. *)
Definition JSON_parse (text : jsstring) : option jsval :=
  match parse_value (S (2 * length text)) text with
  | POk v rest =>
      match skip_ws rest with
      | [] => Some v
      | _ :: _ => None
      end
  | PSyntaxError => None
  | POutOfFuel => None
  end.

End JS.


(* ===================================================================== *)
(** * The extension                                                       *)
(* ===================================================================== *)

Module Live.
Import JS.

Definition DEFAULT_WS_BASE : jsstring :=
  str "wss://smartteam-gesture-bridge.marianobat.workers.dev/ws".

(** Backoff sequence (ms). Cap is handled by last value. *)
Definition BACKOFF_MS : list Z := [1000; 2000; 3000; 5000]%Z.

(** The URL class of the host, as far as the extension uses it. *)
Class Platform := {
  (** [new URL(s)]: [None] when the constructor throws, otherwise the
      pair of [u.protocol] and [u.toString()]. *)
  URL_parse : jsstring -> option (jsstring * jsstring);
  (** [u = new URL(base); u.searchParams.set("room", room); u.toString()]:
      [None] when the constructor throws. *)
  URL_with_room : jsstring -> jsstring -> option jsstring
}.

(** ** Helpers of the source file *)

Definition normalizeWsBase `{Platform} (maybeWsBase : jsstring) : jsstring :=
  let raw := trim maybeWsBase in
  if is_empty raw then DEFAULT_WS_BASE
  else
    match URL_parse raw with
    | Some (protocol, href) =>
        if (streq protocol (str "ws:") || streq protocol (str "wss:"))%bool
        then href
        else DEFAULT_WS_BASE
    | None => DEFAULT_WS_BASE
    end.

(** [String(room || "").trim()], for the string the [ROOM] argument
    (declared [ArgumentType.STRING]) carries. *)
Definition normalizeRoom (room : jsstring) : jsstring := trim room.

(** Safe parse JSON. Returns null on failure. *)
Definition safeJsonParse (text : jsstring) : jsval :=
  match JSON_parse text with
  | Some v => v
  | None => JNull
  end.

(** Coerce to finite number. *)
Definition toFiniteNumber (x : jsval) (fallback : number)
    : completion number :=
  match ToNumber x with
  | Normal n => Normal (if Number_isFinite n then n else fallback)
  | Throw => Throw
  end.

(** Round to 2 decimals for reporting. *)
Definition round2 (n : number) : number :=
  let r := div (Math_round (mul n (num_of_Z 100))) (num_of_Z 100) in
  if Object_is_negzero r then pos_zero else r.

(** ** The fields of the extension object *)

(** [_confidence] and [_subscribers] only ever hold numbers (0, or a
    result of [toFiniteNumber] with a number as fallback) and
    [_backoffIndex] only natural numbers; [_ws] and [_reconnectTimer] are
    [null] or a reference to a WebSocket object, respectively a timer id,
    given here by its position in the world's tables.  (The ids that
    [setTimeout] returns are greater than zero, so that the source's test
    [if (this._reconnectTimer)] is the test for [Some].) *)
Record Ext := {
  _connected : bool;
  _room : jsstring;
  _wsBase : jsstring;
  _gesture : jsstring;
  _confidence : number;
  _subscribers : number;
  _defaultRoom : jsstring;
  _ws : option nat;
  _shouldReconnect : bool;
  _reconnectTimer : option nat;
  _backoffIndex : nat
}.

Definition set_connected (v : bool) (e : Ext) : Ext :=
  {| _connected := v; _room := _room e; _wsBase := _wsBase e;
     _gesture := _gesture e; _confidence := _confidence e;
     _subscribers := _subscribers e; _defaultRoom := _defaultRoom e;
     _ws := _ws e; _shouldReconnect := _shouldReconnect e;
     _reconnectTimer := _reconnectTimer e; _backoffIndex := _backoffIndex e |}.

Definition set_room (v : jsstring) (e : Ext) : Ext :=
  {| _connected := _connected e; _room := v; _wsBase := _wsBase e;
     _gesture := _gesture e; _confidence := _confidence e;
     _subscribers := _subscribers e; _defaultRoom := _defaultRoom e;
     _ws := _ws e; _shouldReconnect := _shouldReconnect e;
     _reconnectTimer := _reconnectTimer e; _backoffIndex := _backoffIndex e |}.

Definition set_wsBase (v : jsstring) (e : Ext) : Ext :=
  {| _connected := _connected e; _room := _room e; _wsBase := v;
     _gesture := _gesture e; _confidence := _confidence e;
     _subscribers := _subscribers e; _defaultRoom := _defaultRoom e;
     _ws := _ws e; _shouldReconnect := _shouldReconnect e;
     _reconnectTimer := _reconnectTimer e; _backoffIndex := _backoffIndex e |}.

Definition set_gesture (v : jsstring) (e : Ext) : Ext :=
  {| _connected := _connected e; _room := _room e; _wsBase := _wsBase e;
     _gesture := v; _confidence := _confidence e;
     _subscribers := _subscribers e; _defaultRoom := _defaultRoom e;
     _ws := _ws e; _shouldReconnect := _shouldReconnect e;
     _reconnectTimer := _reconnectTimer e; _backoffIndex := _backoffIndex e |}.

Definition set_confidence (v : number) (e : Ext) : Ext :=
  {| _connected := _connected e; _room := _room e; _wsBase := _wsBase e;
     _gesture := _gesture e; _confidence := v;
     _subscribers := _subscribers e; _defaultRoom := _defaultRoom e;
     _ws := _ws e; _shouldReconnect := _shouldReconnect e;
     _reconnectTimer := _reconnectTimer e; _backoffIndex := _backoffIndex e |}.

Definition set_subscribers (v : number) (e : Ext) : Ext :=
  {| _connected := _connected e; _room := _room e; _wsBase := _wsBase e;
     _gesture := _gesture e; _confidence := _confidence e;
     _subscribers := v; _defaultRoom := _defaultRoom e;
     _ws := _ws e; _shouldReconnect := _shouldReconnect e;
     _reconnectTimer := _reconnectTimer e; _backoffIndex := _backoffIndex e |}.

Definition set_defaultRoom (v : jsstring) (e : Ext) : Ext :=
  {| _connected := _connected e; _room := _room e; _wsBase := _wsBase e;
     _gesture := _gesture e; _confidence := _confidence e;
     _subscribers := _subscribers e; _defaultRoom := v;
     _ws := _ws e; _shouldReconnect := _shouldReconnect e;
     _reconnectTimer := _reconnectTimer e; _backoffIndex := _backoffIndex e |}.

Definition set_ws (v : option nat) (e : Ext) : Ext :=
  {| _connected := _connected e; _room := _room e; _wsBase := _wsBase e;
     _gesture := _gesture e; _confidence := _confidence e;
     _subscribers := _subscribers e; _defaultRoom := _defaultRoom e;
     _ws := v; _shouldReconnect := _shouldReconnect e;
     _reconnectTimer := _reconnectTimer e; _backoffIndex := _backoffIndex e |}.

Definition set_shouldReconnect (v : bool) (e : Ext) : Ext :=
  {| _connected := _connected e; _room := _room e; _wsBase := _wsBase e;
     _gesture := _gesture e; _confidence := _confidence e;
     _subscribers := _subscribers e; _defaultRoom := _defaultRoom e;
     _ws := _ws e; _shouldReconnect := v;
     _reconnectTimer := _reconnectTimer e; _backoffIndex := _backoffIndex e |}.

Definition set_reconnectTimer (v : option nat) (e : Ext) : Ext :=
  {| _connected := _connected e; _room := _room e; _wsBase := _wsBase e;
     _gesture := _gesture e; _confidence := _confidence e;
     _subscribers := _subscribers e; _defaultRoom := _defaultRoom e;
     _ws := _ws e; _shouldReconnect := _shouldReconnect e;
     _reconnectTimer := v; _backoffIndex := _backoffIndex e |}.

Definition set_backoffIndex (v : nat) (e : Ext) : Ext :=
  {| _connected := _connected e; _room := _room e; _wsBase := _wsBase e;
     _gesture := _gesture e; _confidence := _confidence e;
     _subscribers := _subscribers e; _defaultRoom := _defaultRoom e;
     _ws := _ws e; _shouldReconnect := _shouldReconnect e;
     _reconnectTimer := _reconnectTimer e; _backoffIndex := v |}.

(** ** The browser side *)

(** A WebSocket object.  [sock_handlers] tells whether its four [on...]
    properties still hold the extension's callbacks ([_closeWs] sets them
    to [null]).  [CLOSED] covers both CLOSING and CLOSED: once [close] has
    been called, or the connection is lost, the transport is not live. *)
Inductive ReadyState := CONNECTING | OPEN | CLOSED.

Record Socket := {
  sock_url : jsstring;
  sock_handlers : bool;
  sock_state : ReadyState;
  (** the arguments of the [close(code, reason)] call, if one was made *)
  sock_close : option (Z * jsstring)
}.

Inductive TimerState := Pending | Fired | Cleared.

(** A [setTimeout] of the retry callback. *)
Record Timer := {
  timer_delay : Z;
  timer_state : TimerState
}.

(** A call of [Scratch.canFetch(wsUrl)]; [check_pending] holds until the
    promise settles and the suspended [_openWsAsync] resumes. *)
Record Check := {
  check_url : jsstring;
  check_pending : bool
}.

(** The extension object together with every socket, timer and
    permission check it has created, in order of creation: the n-th
    element of a table is the object with id n. *)
Record World := {
  ext : Ext;
  sockets : list Socket;
  timers : list Timer;
  checks : list Check
}.

Definition with_ext (f : Ext -> Ext) (w : World) : World :=
  {| ext := f (ext w); sockets := sockets w; timers := timers w;
     checks := checks w |}.

Definition with_sockets (f : list Socket -> list Socket) (w : World) : World :=
  {| ext := ext w; sockets := f (sockets w); timers := timers w;
     checks := checks w |}.

Definition with_timers (f : list Timer -> list Timer) (w : World) : World :=
  {| ext := ext w; sockets := sockets w; timers := f (timers w);
     checks := checks w |}.

Definition with_checks (f : list Check -> list Check) (w : World) : World :=
  {| ext := ext w; sockets := sockets w; timers := timers w;
     checks := f (checks w) |}.

(** [setTimeout(callback, delay)]; the callback is always the retry
    callback [retry_callback] below.  Returns the new timer's id. *)
Definition setTimeout (delay : Z) (w : World) : nat * World :=
  (length (timers w),
   with_timers
     (fun l => l ++ [{| timer_delay := delay; timer_state := Pending |}]) w).

(** [clearTimeout(t)]: a timer that has not fired yet never will. *)
Definition clearTimeout (t : nat) (w : World) : World :=
  with_timers
    (alter (fun tm =>
              match timer_state tm with
              | Pending => {| timer_delay := timer_delay tm;
                              timer_state := Cleared |}
              | _ => tm
              end) t) w.

(** [Scratch.canFetch(url)]: the promise is settled later, by the event
    [CanFetchSettles]. *)
Definition canFetch (url : jsstring) (w : World) : World :=
  with_checks
    (fun l => l ++ [{| check_url := url; check_pending := true |}]) w.

(** [new WebSocket(url)] followed by the assignment of the four handlers.
    Returns the new socket's id. *)
Definition new_WebSocket (url : jsstring) (w : World) : nat * World :=
  (length (sockets w),
   with_sockets
     (fun l => l ++ [{| sock_url := url; sock_handlers := true;
                        sock_state := CONNECTING; sock_close := None |}]) w).

(** [ws.onopen = null; ...; ws.onclose = null; ws.close(code, reason)]. *)
Definition detach_and_close (code : Z) (reason : jsstring) (i : nat)
    (w : World) : World :=
  with_sockets
    (alter (fun s => {| sock_url := sock_url s; sock_handlers := false;
                        sock_state := CLOSED;
                        sock_close := Some (code, reason) |}) i) w.

(** ** Internal logic *)

Definition _clearReconnectTimer (w : World) : World :=
  match _reconnectTimer (ext w) with
  | Some t =>
      let w := clearTimeout t w in
      with_ext (set_reconnectTimer None) w
  | None => w
  end.

Definition _closeWs (reason : jsstring) (w : World) : World :=
  let ws := _ws (ext w) in
  let w := with_ext (set_ws None) w in
  match ws with
  | Some i =>
      detach_and_close 1000
        (if is_empty reason then str "close" else reason) i w
  | None => w
  end.

Definition _scheduleReconnect (w : World) : World :=
  if negb (_shouldReconnect (ext w)) then w
  else if is_empty (_room (ext w)) then w
  else
    match _reconnectTimer (ext w) with
    | Some _ => w
    | None =>
        let idx := Nat.min (_backoffIndex (ext w)) (length BACKOFF_MS - 1) in
        let delay := nth idx BACKOFF_MS 0%Z in
        let w :=
          with_ext
            (set_backoffIndex
               (Nat.min (_backoffIndex (ext w) + 1) (length BACKOFF_MS - 1)))
            w in
        let '(t, w) := setTimeout delay w in
        with_ext (set_reconnectTimer (Some t)) w
    end.

Definition _buildWsUrl `{Platform} (e : Ext) : option jsstring :=
  let base := if is_empty (_wsBase e) then DEFAULT_WS_BASE else _wsBase e in
  URL_with_room base (_room e).

(** [_openWs], that is [_openWsAsync] up to the point where it suspends
    at [await Scratch.canFetch(wsUrl)]. *)
Definition _openWs `{Platform} (w : World) : World :=
  if is_empty (_room (ext w)) then with_ext (set_connected false) w
  else if negb (_shouldReconnect (ext w)) then with_ext (set_connected false) w
  else
    match _buildWsUrl (ext w) with
    | Some wsUrl => canFetch wsUrl w
    | None =>
        let w := with_ext (set_wsBase DEFAULT_WS_BASE) w in
        match _buildWsUrl (ext w) with
        | Some wsUrl => canFetch wsUrl w
        | None =>
            let w := with_ext (set_connected false) w in
            _scheduleReconnect w
        end
    end.

(** How a permission check ends: the promise resolves to [true]
    ([Allowed]; the flag tells whether [new WebSocket(wsUrl)] then
    throws), resolves to [false], or is rejected. *)
Inductive Settled :=
| Allowed (constructor_throws : bool)
| Refused
| Failed.

Definition onopen (w : World) : World :=
  let w := with_ext (set_connected true) w in
  with_ext (set_backoffIndex 0) w.

(** A handler returns or throws; either way the fields are as it has
    left them. *)
Inductive Handled :=
| Returned (e : Ext)
| Threw (e : Ext).

Definition fields_after (h : Handled) : Ext :=
  match h with
  | Returned e => e
  | Threw e => e
  end.

(** [Number(...)], called in [toFiniteNumber], is the one call of the
    handler that can throw; it comes before the handler's first
    assignment. *)
Definition onmessage (data : jsstring) (e : Ext) : Handled :=
  let msg := safeJsonParse data in
  if (negb (truthy msg)
      || negb match typeof msg with TObject => true | _ => false end)%bool
  then Returned e
  else if is_string (get msg (str "type")) (str "gesture") then
    let label :=
      match get msg (str "label") with
      | JStr l => l
      | _ => []
      end in
    match toFiniteNumber (get msg (str "confidence")) pos_zero with
    | Throw => Threw e
    | Normal conf =>
        let e := set_gesture label e in
        Returned (set_confidence conf e)
    end
  else if is_string (get msg (str "type")) (str "presence") then
    match toFiniteNumber (get msg (str "subscribers")) (_subscribers e) with
    | Throw => Threw e
    | Normal subs => Returned (set_subscribers subs e)
    end
  else Returned e.

Definition onerror (w : World) : World :=
  with_ext (set_connected false) w.

Definition onclose (w : World) : World :=
  let w := with_ext (set_connected false) w in
  let w := with_ext (set_ws None) w in
  _scheduleReconnect w.

(** [_openWsAsync] from the point where [await] returns or throws. *)
Definition _openWsAsync_resume (wsUrl : jsstring) (o : Settled) (w : World)
    : World :=
  match o with
  | Failed =>
      let w := with_ext (set_connected false) w in
      _scheduleReconnect w
  | Refused =>
      let w := with_ext (set_connected false) w in
      _scheduleReconnect w
  | Allowed true =>
      let w := with_ext (set_connected false) w in
      let w := with_ext (set_ws None) w in
      _scheduleReconnect w
  | Allowed false =>
      let '(ws, w) := new_WebSocket wsUrl w in
      with_ext (set_ws (Some ws)) w
  end.

(** The callback given to [setTimeout] in [_scheduleReconnect]. *)
Definition retry_callback `{Platform} (w : World) : World :=
  let w := with_ext (set_reconnectTimer None) w in
  match _ws (ext w) with
  | Some _ => w
  | None =>
      if negb (_shouldReconnect (ext w)) then w
      else if is_empty (_room (ext w)) then w
      else _openWs w
  end.

Definition setRoomInternal `{Platform} (room : jsstring) (auto : bool)
    (w : World) : World :=
  if is_empty room then
    let w := with_ext (set_room []) w in
    let w := with_ext (set_connected false) w in
    if negb auto then
      let w := with_ext (set_shouldReconnect false) w in
      let w := _clearReconnectTimer w in
      _closeWs (str "room cleared") w
    else w
  else
    (* Keep default in sync for convenience. *)
    let w := with_ext (set_defaultRoom room) w in
    (* If unchanged, do nothing. *)
    if (streq room (_room (ext w))
        && match _ws (ext w) with Some _ => true | None => false end)%bool
    then w
    else
      let w := with_ext (set_room room) w in
      (* Reset values when room changes. *)
      let w := with_ext (set_gesture []) w in
      let w := with_ext (set_confidence pos_zero) w in
      let w := with_ext (set_subscribers pos_zero) w in
      (* (Re)connect *)
      let w := with_ext (set_backoffIndex 0) w in
      let w := with_ext (set_shouldReconnect true) w in
      let w := _clearReconnectTimer w in
      let w := _closeWs (str "room changed") w in
      _openWs w.

(** ** Reporters *)

Definition getRoom (e : Ext) : jsstring := _room e.

Definition isConnected (e : Ext) : bool := _connected e.

Definition getGesture (e : Ext) : jsstring := _gesture e.

Definition getConfidence (e : Ext) : completion number :=
  match toFiniteNumber (JNum (_confidence e)) pos_zero with
  | Normal n => Normal (round2 n)
  | Throw => Throw
  end.

Definition getSubscribers (e : Ext) : completion number :=
  toFiniteNumber (JNum (_subscribers e)) pos_zero.

(** ** Commands *)

Definition setRoom `{Platform} (ROOM : jsstring) (w : World) : World :=
  let room := normalizeRoom ROOM in
  setRoomInternal room false w.

Definition reconnect `{Platform} (w : World) : World :=
  if is_empty (_room (ext w)) then with_ext (set_connected false) w
  else
    let w := with_ext (set_backoffIndex 0) w in
    let w := with_ext (set_shouldReconnect true) w in
    let w := _clearReconnectTimer w in
    let w := _closeWs (str "manual reconnect") w in
    _openWs w.

Definition disconnect (w : World) : World :=
  let w := with_ext (set_shouldReconnect false) w in
  let w := _clearReconnectTimer w in
  let w := _closeWs (str "manual disconnect") w in
  with_ext (set_connected false) w.

(** ** Construction *)

(** [new SmartteamLiveExtension()].  The two arguments are what
    [getParamFromCurrentScript] reads from the script URL for [wsBase] and
    [room] (the empty string when the parameter is absent). *)
Definition SmartteamLiveExtension `{Platform}
    (wsBaseFromScript roomFromScript : jsstring) : World :=
  let w :=
    {| ext := {| _connected := false; _room := [];
                 _wsBase := DEFAULT_WS_BASE; _gesture := [];
                 _confidence := pos_zero; _subscribers := pos_zero;
                 _defaultRoom := []; _ws := None;
                 _shouldReconnect := false; _reconnectTimer := None;
                 _backoffIndex := 0 |};
       sockets := []; timers := []; checks := [] |} in
  let w := with_ext (set_wsBase (normalizeWsBase wsBaseFromScript)) w in
  let roomFromScript := normalizeRoom roomFromScript in
  let w := with_ext (set_defaultRoom roomFromScript) w in
  if negb (is_empty roomFromScript)
  then setRoomInternal roomFromScript true w
  else with_ext (set_connected false) w.

(** ** Events *)

(** Everything that can happen to the extension after its construction:
    the host runs one of the three command blocks, a permission check
    settles, a timer fires, a socket reports an event.  Each runs to
    completion before the next. *)
Inductive Event :=
| SetRoom (ROOM : jsstring)
| Reconnect
| Disconnect
| CanFetchSettles (c : nat) (o : Settled)
| TimerFires (t : nat)
| WsOpen (i : nat)
| WsMessage (i : nat) (data : jsstring)
| WsError (i : nat)
| WsClose (i : nat).

Definition set_sock_state (st : ReadyState) (s : Socket) : Socket :=
  {| sock_url := sock_url s; sock_handlers := sock_handlers s;
     sock_state := st; sock_close := sock_close s |}.

(** An event that the browser cannot produce in the current world (a
    check that has settled, a timer that is not pending, [open] on a
    socket that is not connecting, [message] on one that is not open,
    anything on a closed one) leaves the world as it is.  A socket event
    runs the extension's handler only while the handler is attached; an
    exception the handler throws ends the handler and nothing else. *)
Definition step `{Platform} (ev : Event) (w : World) : World :=
  match ev with
  | SetRoom ROOM => setRoom ROOM w
  | Reconnect => reconnect w
  | Disconnect => disconnect w
  | CanFetchSettles c o =>
      match checks w !! c with
      | Some ck =>
          if check_pending ck then
            let w :=
              with_checks
                (<[c := {| check_url := check_url ck;
                           check_pending := false |}]>) w in
            _openWsAsync_resume (check_url ck) o w
          else w
      | None => w
      end
  | TimerFires t =>
      match timers w !! t with
      | Some tm =>
          match timer_state tm with
          | Pending =>
              let w :=
                with_timers
                  (<[t := {| timer_delay := timer_delay tm;
                             timer_state := Fired |}]>) w in
              retry_callback w
          | _ => w
          end
      | None => w
      end
  | WsOpen i =>
      match sockets w !! i with
      | Some s =>
          match sock_state s with
          | CONNECTING =>
              let w := with_sockets (<[i := set_sock_state OPEN s]>) w in
              if sock_handlers s then onopen w else w
          | _ => w
          end
      | None => w
      end
  | WsMessage i data =>
      match sockets w !! i with
      | Some s =>
          match sock_state s with
          | OPEN =>
              if sock_handlers s
              then with_ext (fun e => fields_after (onmessage data e)) w
              else w
          | _ => w
          end
      | None => w
      end
  | WsError i =>
      match sockets w !! i with
      | Some s =>
          match sock_state s with
          | CLOSED => w
          | _ => if sock_handlers s then onerror w else w
          end
      | None => w
      end
  | WsClose i =>
      match sockets w !! i with
      | Some s =>
          match sock_state s with
          | CLOSED => w
          | _ =>
              let w := with_sockets (<[i := set_sock_state CLOSED s]>) w in
              if sock_handlers s then onclose w else w
          end
      | None => w
      end
  end.

(** A run of events, oldest first. *)
Definition run `{Platform} (evs : list Event) (w : World) : World :=
  fold_left (fun w ev => step ev w) evs w.

(** ** Observations on a world *)

Definition is_live (s : Socket) : bool :=
  match sock_state s with
  | CLOSED => false
  | _ => true
  end.

Definition is_pending (t : Timer) : bool :=
  match timer_state t with
  | Pending => true
  | _ => false
  end.

(** The transports that are live, the retry timers that are pending. *)
Definition live_transports (w : World) : list Socket :=
  filter (fun s => is_live s = true) (sockets w).

Definition pending_retries (w : World) : list Timer :=
  filter (fun t => is_pending t = true) (timers w).

(** The delays of all retries scheduled so far, oldest first. *)
Definition scheduled_delays (w : World) : list Z :=
  map timer_delay (timers w).

End Live.

(* ===================================================================== *)
(** * The block descriptors                                               *)
(* ===================================================================== *)

Module Blocks.
Import JS Live.

(** The members of [Scratch.BlockType] and [Scratch.ArgumentType] that
    [getInfo] names. *)
Inductive BlockType := REPORTER | BOOLEAN | COMMAND.
Inductive ArgumentType := STRING.

Record Argument := {
  arg_type : ArgumentType;
  arg_defaultValue : jsstring
}.

(** An entry of [blocks]: a block, or the separator ["---"]. *)
Inductive BlockInfo :=
| Block (opcode : jsstring) (blockType : BlockType) (text : jsstring)
    (arguments : list (jsstring * Argument))
| Separator.

Record Info := {
  info_id : jsstring;
  info_name : jsstring;
  info_blocks : list BlockInfo
}.

(** The messages of the extension in Spanish; [191] is the inverted
    question mark. *)
Definition spanish : list (jsstring * jsstring) :=
  [ (str "SmartTEAM Live", str "SmartTEAM Live");
    (str "room", str "sala");
    (str "connected?", 191%N :: str "conectado?");
    (str "class", str "clase");
    (str "confidence", str "confianza");
    (str "subscribers", str "suscriptores");
    (str "set room to [ROOM]", str "establecer sala a [ROOM]");
    (str "reconnect", str "reconectar");
    (str "disconnect", str "desconectar") ].

(** The table given to [Scratch.translate.setup]. *)
Definition translations : list (jsstring * list (jsstring * jsstring)) :=
  [ (str "en",
     [ (str "SmartTEAM Live", str "SmartTEAM Live");
       (str "room", str "room");
       (str "connected?", str "connected?");
       (str "class", str "class");
       (str "confidence", str "confidence");
       (str "subscribers", str "subscribers");
       (str "set room to [ROOM]", str "set room to [ROOM]");
       (str "reconnect", str "reconnect");
       (str "disconnect", str "disconnect") ]);
    (str "es", spanish);
    (str "es-419", spanish);
    (str "es-ES", spanish) ].

(** [tr(str)]; the argument is [Scratch.translate], when the host has
    one. *)
Definition tr (translate : option (jsstring -> jsstring)) (s : jsstring)
    : jsstring :=
  match translate with
  | Some f => f s
  | None => s
  end.

Definition getInfo (translate : option (jsstring -> jsstring)) (e : Ext)
    : Info :=
  {| info_id := str "smartteamlive";
     info_name := tr translate (str "SmartTEAM Live");
     info_blocks :=
       [ Block (str "getRoom") REPORTER (tr translate (str "room")) [];
         Block (str "isConnected") BOOLEAN (tr translate (str "connected?")) [];
         Block (str "getGesture") REPORTER (tr translate (str "class")) [];
         Block (str "getConfidence") REPORTER
           (tr translate (str "confidence")) [];
         Block (str "getSubscribers") REPORTER
           (tr translate (str "subscribers")) [];
         Separator;
         Block (str "setRoom") COMMAND
           (tr translate (str "set room to [ROOM]"))
           [ (str "ROOM",
              {| arg_type := STRING;
                 (* Default value shows the session room passed via script
                    URL (if any). *)
                 arg_defaultValue :=
                   if is_empty (_defaultRoom e) then str "ST-XXXXXXX"
                   else _defaultRoom e |}) ];
         Block (str "reconnect") COMMAND (tr translate (str "reconnect")) [];
         Block (str "disconnect") COMMAND
           (tr translate (str "disconnect")) [] ] |}.

End Blocks.

(* ===================================================================== *)
(** * URLSearchParams                                                     *)
(* ===================================================================== *)

Module URLSearch.
Import JS.

(** ** Strings of scalar values *)

Definition is_lead (c : N) : bool := (N.leb 55296 c && N.leb c 56319)%bool.
Definition is_trail (c : N) : bool := (N.leb 56320 c && N.leb c 57343)%bool.

(** The conversion of a JavaScript string to a [USVString] (Web IDL),
    given as the list of its scalar values: a surrogate pair is one
    scalar value, a surrogate that has no partner is U+FFFD. *)
Fixpoint to_scalars (s : jsstring) : list N :=
  match s with
  | [] => []
  | c :: r =>
      if is_lead c then
        match r with
        | d :: r' =>
            if is_trail d
            then (65536 + (c - 55296) * 1024 + (d - 56320))%N :: to_scalars r'
            else 65533%N :: to_scalars r
        | [] => [65533%N]
        end
      else if is_trail c then 65533%N :: to_scalars r
      else c :: to_scalars r
  end.

(** The JavaScript string of a list of scalar values. *)
Definition code_units (cp : N) : jsstring :=
  if N.ltb cp 65536 then [cp]
  else [(55296 + (cp - 65536) / 1024)%N; (56320 + (cp - 65536) mod 1024)%N].

Definition of_scalars (l : list N) : jsstring := flat_map code_units l.

(** ** UTF-8 *)

(** UTF-8 encode (Encoding Standard): the bytes of one scalar value. *)
Definition utf8_bytes (cp : N) : list N :=
  if N.ltb cp 128 then [cp]
  else if N.ltb cp 2048 then
    [(192 + cp / 64)%N; (128 + cp mod 64)%N]
  else if N.ltb cp 65536 then
    [(224 + cp / 4096)%N; (128 + (cp / 64) mod 64)%N; (128 + cp mod 64)%N]
  else
    [(240 + cp / 262144)%N; (128 + (cp / 4096) mod 64)%N;
     (128 + (cp / 64) mod 64)%N; (128 + cp mod 64)%N].

Definition utf8_encode (l : list N) : list N := flat_map utf8_bytes l.

(** The state of the UTF-8 decoder of the Encoding Standard. *)
Record Decoder := {
  code_point : N;
  bytes_seen : N;
  bytes_needed : N;
  lower_boundary : N;
  upper_boundary : N
}.

Definition decoder_start : Decoder :=
  {| code_point := 0; bytes_seen := 0; bytes_needed := 0;
     lower_boundary := 128; upper_boundary := 191 |}.

(** The decoder's handler on a byte when no byte is needed: the state
    after it and what it emits. *)
Definition decode_first (b : N) : Decoder * list N :=
  if N.leb b 127 then (decoder_start, [b])
  else if (N.leb 194 b && N.leb b 223)%bool then
    ({| code_point := N.land b 31; bytes_seen := 0; bytes_needed := 1;
        lower_boundary := 128; upper_boundary := 191 |}, [])
  else if (N.leb 224 b && N.leb b 239)%bool then
    ({| code_point := N.land b 15; bytes_seen := 0; bytes_needed := 2;
        lower_boundary := if N.eqb b 224 then 160 else 128;
        upper_boundary := if N.eqb b 237 then 159 else 191 |}, [])
  else if (N.leb 240 b && N.leb b 244)%bool then
    ({| code_point := N.land b 7; bytes_seen := 0; bytes_needed := 3;
        lower_boundary := if N.eqb b 240 then 144 else 128;
        upper_boundary := if N.eqb b 244 then 143 else 191 |}, [])
  else (decoder_start, [65533%N]).

(** The handler on a byte.  A byte outside the boundaries is an error,
    U+FFFD, and is then handled again from the start state. *)
Definition decode_byte (d : Decoder) (b : N) : Decoder * list N :=
  if N.eqb (bytes_needed d) 0 then decode_first b
  else if negb (N.leb (lower_boundary d) b && N.leb b (upper_boundary d))%bool
  then
    let '(d', out) := decode_first b in
    (d', 65533%N :: out)
  else
    let cp := N.lor (N.shiftl (code_point d) 6) (N.land b 63) in
    let seen := (bytes_seen d + 1)%N in
    if negb (N.eqb seen (bytes_needed d)) then
      ({| code_point := cp; bytes_seen := seen;
          bytes_needed := bytes_needed d;
          lower_boundary := 128; upper_boundary := 191 |}, [])
    else (decoder_start, [cp]).

(** At the end of the input a sequence that is not complete is an
    error. *)
Fixpoint decode_from (d : Decoder) (bytes : list N) : list N :=
  match bytes with
  | [] => if N.eqb (bytes_needed d) 0 then [] else [65533%N]
  | b :: r =>
      let '(d', out) := decode_byte d b in
      out ++ decode_from d' r
  end.

(** UTF-8 decode without BOM. *)
Definition utf8_decode (bytes : list N) : list N :=
  decode_from decoder_start bytes.

(** ** Percent-decoding (URL Standard) *)

Fixpoint percent_decode (bytes : list N) : list N :=
  match bytes with
  | [] => []
  | b :: r =>
      if N.eqb b 37 then
        match r with
        | h1 :: h2 :: r' =>
            match hex_val h1, hex_val h2 with
            | Some a, Some c => (a * 16 + c)%N :: percent_decode r'
            | _, _ => b :: percent_decode r
            end
        | _ => b :: percent_decode r
        end
      else b :: percent_decode r
  end.

(** ** The application/x-www-form-urlencoded parser *)

(** Splits [bytes] on every [sep]; [cur] holds the current piece in
    reverse. *)
Fixpoint split_on (sep : N) (bytes : list N) (cur : list N) : list (list N) :=
  match bytes with
  | [] => [rev cur]
  | b :: r =>
      if N.eqb b sep then rev cur :: split_on sep r []
      else split_on sep r (b :: cur)
  end.

(** The bytes before the first [sep] and those after it, when there is
    one. *)
Fixpoint split_first (sep : N) (bytes : list N) : option (list N * list N) :=
  match bytes with
  | [] => None
  | b :: r =>
      if N.eqb b sep then Some ([], r)
      else match split_first sep r with
           | Some (n, v) => Some (b :: n, v)
           | None => None
           end
  end.

Definition plus_to_space (bytes : list N) : list N :=
  map (fun b => if N.eqb b 43 then 32%N else b) bytes.

Definition decode_component (bytes : list N) : jsstring :=
  of_scalars (utf8_decode (percent_decode (plus_to_space bytes))).

(** The name-value tuples of a sequence of bytes. *)
Definition parse_urlencoded (input : list N) : list (jsstring * jsstring) :=
  flat_map
    (fun bytes =>
       match bytes with
       | [] => []
       | _ :: _ =>
           let '(name, value) :=
             match split_first 61 bytes with
             | Some (n, v) => (n, v)
             | None => (bytes, [])
             end in
           [(decode_component name, decode_component value)]
       end)
    (split_on 38 input []).

(** [new URLSearchParams(init)] for a string: a leading [?] is dropped
    and the rest is parsed.  It does not throw. *)
Definition URLSearchParams (init : jsstring) : list (jsstring * jsstring) :=
  let init := to_scalars init in
  let init :=
    match init with
    | c :: r => if N.eqb c 63 then r else init
    | [] => init
    end in
  parse_urlencoded (utf8_encode init).

(** [params.get(name)]: the value of the first tuple of that name, or
    [null]. *)
Fixpoint first_named (name : jsstring) (l : list (jsstring * jsstring))
    : option jsstring :=
  match l with
  | [] => None
  | (n, v) :: r => if streq n name then Some v else first_named name r
  end.

Definition URLSearchParams_get (params : list (jsstring * jsstring))
    (name : jsstring) : option jsstring :=
  first_named (of_scalars (to_scalars name)) params.

End URLSearch.

(* ===================================================================== *)
(** * Reading the room from the editor's address                          *)
(* ===================================================================== *)

(** The second variant in the source file, the one that is loaded
    unsandboxed and looks for the room in the address of the editor page.
    Its constants [DEFAULT_WS_BASE] and [BACKOFF_MS] and its helpers
    [normalizeWsBase], [normalizeRoom], [safeJsonParse], [toFiniteNumber]
    and [round2] are, word for word, those of the first variant, and so
    are the sockets, timers and outcomes of a permission check of the
    browser side: they are taken from [Live]. *)
Module Unsandboxed.
Import JS URLSearch.
Import Live (DEFAULT_WS_BASE, BACKOFF_MS, Platform, URL_parse, URL_with_room,
  normalizeWsBase, normalizeRoom, safeJsonParse, toFiniteNumber, round2,
  ReadyState, CONNECTING, OPEN, CLOSED, Socket, sock_url, sock_handlers,
  sock_state, sock_close, TimerState, Pending, Fired, Cleared, Timer,
  timer_delay, timer_state, Settled, Allowed, Refused, Failed).

(** [window.location], as far as the helpers read it. *)
Record Location := {
  search : jsstring;
  hash : jsstring
}.

(** Read a querystring param from a given search string ("?a=b")
    safely. *)
Definition getQueryParamFromSearch (search name : jsstring) : jsstring :=
  let params := URLSearchParams search in
  match URLSearchParams_get params name with
  | None => []
  | Some v => v
  end.

(** Read a querystring param from current page
    (window.location.search). *)
Definition getQueryParam (location : Location) (name : jsstring) : jsstring :=
  getQueryParamFromSearch (search location) name.

(** [h.indexOf("?")]: [None] stands for -1. *)
Fixpoint indexOf (c : N) (h : jsstring) : option nat :=
  match h with
  | [] => None
  | x :: r =>
      if N.eqb x c then Some 0
      else match indexOf c r with
           | Some i => Some (S i)
           | None => None
           end
  end.

(** [h.slice(i)] for an index within the string. *)
Definition slice (h : jsstring) (i : nat) : jsstring := skipn i h.

(** [h.startsWith("#")]. *)
Definition startsWith_hash (h : jsstring) : bool :=
  match h with
  | c :: _ => N.eqb c 35
  | [] => false
  end.

(** Room can appear in search or sometimes in hash.  This function
    checks both. *)
Definition getRoomFromWindow (location : Location) : jsstring :=
  let fromSearch := getQueryParamFromSearch (search location) (str "room") in
  if negb (is_empty fromSearch) then fromSearch
  else
    let h := hash location in
    let fromHashQuery :=
      match indexOf 63 h with
      | Some qIndex => getQueryParamFromSearch (slice h qIndex) (str "room")
      | None => []
      end in
    if negb (is_empty fromHashQuery) then fromHashQuery
    else
      let fromHash :=
        if startsWith_hash h
        then getQueryParamFromSearch (slice h 1) (str "room")
        else [] in
      if negb (is_empty fromHash) then fromHash
      else [].

(** What [new URL(wsUrl)] gives once its protocol has been changed from
    [wss:] to [https:] or from [ws:] to [http:]. *)
Class HttpUrl := {
  (** [u = new URL(wsUrl); if (u.protocol === "wss:") u.protocol =
      "https:"; else if (u.protocol === "ws:") u.protocol = "http:";
      u.toString()]: [None] when the constructor throws. *)
  URL_as_http : jsstring -> option jsstring
}.

(** Scratch.canFetch is designed around http/https permissions.  For
    ws/wss URLs, check permissions using an equivalent http/https URL. *)
Definition toCanFetchUrl `{HttpUrl} (wsUrl : jsstring) : jsstring :=
  match URL_as_http wsUrl with
  | Some u => u
  | None => []
  end.

(** ** The fields of the extension object *)

Record Ext := {
  _connected : bool;
  _room : jsstring;
  _wsBase : jsstring;
  _gesture : jsstring;
  _confidence : number;
  _subscribers : number;
  _ws : option nat;
  _shouldReconnect : bool;
  _reconnectTimer : option nat;
  _backoffIndex : nat;
  _roomProbeTimer : option nat
}.

Definition set_connected (v : bool) (e : Ext) : Ext :=
  {| _connected := v; _room := _room e; _wsBase := _wsBase e;
     _gesture := _gesture e; _confidence := _confidence e;
     _subscribers := _subscribers e; _ws := _ws e;
     _shouldReconnect := _shouldReconnect e;
     _reconnectTimer := _reconnectTimer e; _backoffIndex := _backoffIndex e;
     _roomProbeTimer := _roomProbeTimer e |}.

Definition set_room (v : jsstring) (e : Ext) : Ext :=
  {| _connected := _connected e; _room := v; _wsBase := _wsBase e;
     _gesture := _gesture e; _confidence := _confidence e;
     _subscribers := _subscribers e; _ws := _ws e;
     _shouldReconnect := _shouldReconnect e;
     _reconnectTimer := _reconnectTimer e; _backoffIndex := _backoffIndex e;
     _roomProbeTimer := _roomProbeTimer e |}.

Definition set_wsBase (v : jsstring) (e : Ext) : Ext :=
  {| _connected := _connected e; _room := _room e; _wsBase := v;
     _gesture := _gesture e; _confidence := _confidence e;
     _subscribers := _subscribers e; _ws := _ws e;
     _shouldReconnect := _shouldReconnect e;
     _reconnectTimer := _reconnectTimer e; _backoffIndex := _backoffIndex e;
     _roomProbeTimer := _roomProbeTimer e |}.

Definition set_gesture (v : jsstring) (e : Ext) : Ext :=
  {| _connected := _connected e; _room := _room e; _wsBase := _wsBase e;
     _gesture := v; _confidence := _confidence e;
     _subscribers := _subscribers e; _ws := _ws e;
     _shouldReconnect := _shouldReconnect e;
     _reconnectTimer := _reconnectTimer e; _backoffIndex := _backoffIndex e;
     _roomProbeTimer := _roomProbeTimer e |}.

Definition set_confidence (v : number) (e : Ext) : Ext :=
  {| _connected := _connected e; _room := _room e; _wsBase := _wsBase e;
     _gesture := _gesture e; _confidence := v;
     _subscribers := _subscribers e; _ws := _ws e;
     _shouldReconnect := _shouldReconnect e;
     _reconnectTimer := _reconnectTimer e; _backoffIndex := _backoffIndex e;
     _roomProbeTimer := _roomProbeTimer e |}.

Definition set_subscribers (v : number) (e : Ext) : Ext :=
  {| _connected := _connected e; _room := _room e; _wsBase := _wsBase e;
     _gesture := _gesture e; _confidence := _confidence e;
     _subscribers := v; _ws := _ws e;
     _shouldReconnect := _shouldReconnect e;
     _reconnectTimer := _reconnectTimer e; _backoffIndex := _backoffIndex e;
     _roomProbeTimer := _roomProbeTimer e |}.

Definition set_ws (v : option nat) (e : Ext) : Ext :=
  {| _connected := _connected e; _room := _room e; _wsBase := _wsBase e;
     _gesture := _gesture e; _confidence := _confidence e;
     _subscribers := _subscribers e; _ws := v;
     _shouldReconnect := _shouldReconnect e;
     _reconnectTimer := _reconnectTimer e; _backoffIndex := _backoffIndex e;
     _roomProbeTimer := _roomProbeTimer e |}.

Definition set_shouldReconnect (v : bool) (e : Ext) : Ext :=
  {| _connected := _connected e; _room := _room e; _wsBase := _wsBase e;
     _gesture := _gesture e; _confidence := _confidence e;
     _subscribers := _subscribers e; _ws := _ws e;
     _shouldReconnect := v;
     _reconnectTimer := _reconnectTimer e; _backoffIndex := _backoffIndex e;
     _roomProbeTimer := _roomProbeTimer e |}.

Definition set_reconnectTimer (v : option nat) (e : Ext) : Ext :=
  {| _connected := _connected e; _room := _room e; _wsBase := _wsBase e;
     _gesture := _gesture e; _confidence := _confidence e;
     _subscribers := _subscribers e; _ws := _ws e;
     _shouldReconnect := _shouldReconnect e;
     _reconnectTimer := v; _backoffIndex := _backoffIndex e;
     _roomProbeTimer := _roomProbeTimer e |}.

Definition set_backoffIndex (v : nat) (e : Ext) : Ext :=
  {| _connected := _connected e; _room := _room e; _wsBase := _wsBase e;
     _gesture := _gesture e; _confidence := _confidence e;
     _subscribers := _subscribers e; _ws := _ws e;
     _shouldReconnect := _shouldReconnect e;
     _reconnectTimer := _reconnectTimer e; _backoffIndex := v;
     _roomProbeTimer := _roomProbeTimer e |}.

Definition set_roomProbeTimer (v : option nat) (e : Ext) : Ext :=
  {| _connected := _connected e; _room := _room e; _wsBase := _wsBase e;
     _gesture := _gesture e; _confidence := _confidence e;
     _subscribers := _subscribers e; _ws := _ws e;
     _shouldReconnect := _shouldReconnect e;
     _reconnectTimer := _reconnectTimer e; _backoffIndex := _backoffIndex e;
     _roomProbeTimer := v |}.

(** ** The browser side *)

(** A permission check requested with [Scratch.canFetch(canFetchUrl)],
    together with the [wsUrl] the suspended [_openWsAsync] goes on
    with. *)
Record Check := {
  check_url : jsstring;
  check_wsUrl : jsstring;
  check_pending : bool
}.

(** An interval set with [setInterval] for the callback of
    [_startRoomProbe]; [tries] is the variable of that name the callback
    closes over. *)
Record Interval := {
  interval_ms : Z;
  interval_running : bool;
  tries : nat
}.

(** The extension object together with every socket, timer, permission
    check and interval it has created, in order of creation: the n-th
    element of a table is the object with id n. *)
Record World := {
  ext : Ext;
  sockets : list Socket;
  timers : list Timer;
  checks : list Check;
  intervals : list Interval
}.

Definition with_ext (f : Ext -> Ext) (w : World) : World :=
  {| ext := f (ext w); sockets := sockets w; timers := timers w;
     checks := checks w; intervals := intervals w |}.

Definition with_sockets (f : list Socket -> list Socket) (w : World) : World :=
  {| ext := ext w; sockets := f (sockets w); timers := timers w;
     checks := checks w; intervals := intervals w |}.

Definition with_timers (f : list Timer -> list Timer) (w : World) : World :=
  {| ext := ext w; sockets := sockets w; timers := f (timers w);
     checks := checks w; intervals := intervals w |}.

Definition with_checks (f : list Check -> list Check) (w : World) : World :=
  {| ext := ext w; sockets := sockets w; timers := timers w;
     checks := f (checks w); intervals := intervals w |}.

Definition with_intervals (f : list Interval -> list Interval) (w : World)
    : World :=
  {| ext := ext w; sockets := sockets w; timers := timers w;
     checks := checks w; intervals := f (intervals w) |}.

Definition setTimeout (delay : Z) (w : World) : nat * World :=
  (length (timers w),
   with_timers
     (fun l => l ++ [{| timer_delay := delay; timer_state := Pending |}]) w).

Definition clearTimeout (t : nat) (w : World) : World :=
  with_timers
    (alter (fun tm =>
              match timer_state tm with
              | Pending => {| timer_delay := timer_delay tm;
                              timer_state := Cleared |}
              | _ => tm
              end) t) w.

(** [setInterval(callback, ms)] with a callback whose [tries] is 0.
    Returns the new interval's id. *)
Definition setInterval (ms : Z) (w : World) : nat * World :=
  (length (intervals w),
   with_intervals
     (fun l => l ++ [{| interval_ms := ms; interval_running := true;
                        tries := 0 |}]) w).

(** [clearInterval(p)]: the callback is not called again. *)
Definition clearInterval (p : nat) (w : World) : World :=
  with_intervals
    (alter (fun iv => {| interval_ms := interval_ms iv;
                         interval_running := false;
                         tries := tries iv |}) p) w.

Definition canFetch (canFetchUrl wsUrl : jsstring) (w : World) : World :=
  with_checks
    (fun l => l ++ [{| check_url := canFetchUrl; check_wsUrl := wsUrl;
                       check_pending := true |}]) w.

Definition new_WebSocket (url : jsstring) (w : World) : nat * World :=
  (length (sockets w),
   with_sockets
     (fun l => l ++ [{| sock_url := url; sock_handlers := true;
                        sock_state := CONNECTING; sock_close := None |}]) w).

Definition detach_and_close (code : Z) (reason : jsstring) (i : nat)
    (w : World) : World :=
  with_sockets
    (alter (fun s => {| sock_url := sock_url s; sock_handlers := false;
                        sock_state := CLOSED;
                        sock_close := Some (code, reason) |}) i) w.

(** ** Internal logic *)

Definition _stopRoomProbe (w : World) : World :=
  match _roomProbeTimer (ext w) with
  | Some p =>
      let w := clearInterval p w in
      with_ext (set_roomProbeTimer None) w
  | None => w
  end.

Definition _clearReconnectTimer (w : World) : World :=
  match _reconnectTimer (ext w) with
  | Some t =>
      let w := clearTimeout t w in
      with_ext (set_reconnectTimer None) w
  | None => w
  end.

Definition _closeWs (reason : jsstring) (w : World) : World :=
  let ws := _ws (ext w) in
  let w := with_ext (set_ws None) w in
  match ws with
  | Some i =>
      detach_and_close 1000
        (if is_empty reason then str "close" else reason) i w
  | None => w
  end.

Definition _scheduleReconnect (w : World) : World :=
  if negb (_shouldReconnect (ext w)) then w
  else if is_empty (_room (ext w)) then w
  else
    match _reconnectTimer (ext w) with
    | Some _ => w
    | None =>
        let idx := Nat.min (_backoffIndex (ext w)) (length BACKOFF_MS - 1) in
        let delay := nth idx BACKOFF_MS 0%Z in
        let w :=
          with_ext
            (set_backoffIndex
               (Nat.min (_backoffIndex (ext w) + 1) (length BACKOFF_MS - 1)))
            w in
        let '(t, w) := setTimeout delay w in
        with_ext (set_reconnectTimer (Some t)) w
    end.

Definition _buildWsUrl `{Platform} (e : Ext) : option jsstring :=
  let base := if is_empty (_wsBase e) then DEFAULT_WS_BASE else _wsBase e in
  URL_with_room base (_room e).

(** What [_openWsAsync] does with the address it has built, up to the
    point where it suspends at [await Scratch.canFetch(canFetchUrl)]. *)
Definition check_permission `{HttpUrl} (wsUrl : jsstring) (w : World)
    : World :=
  (* Permission check (use http/https equivalent for ws/wss) *)
  let canFetchUrl := toCanFetchUrl wsUrl in
  if is_empty canFetchUrl then
    let w := with_ext (set_connected false) w in
    _scheduleReconnect w
  else canFetch canFetchUrl wsUrl w.

(** [_openWs], that is [_openWsAsync] up to the point where it
    suspends. *)
Definition _openWs `{Platform} `{HttpUrl} (w : World) : World :=
  if is_empty (_room (ext w)) then with_ext (set_connected false) w
  else if negb (_shouldReconnect (ext w)) then with_ext (set_connected false) w
  else
    match _buildWsUrl (ext w) with
    | Some wsUrl => check_permission wsUrl w
    | None =>
        let w := with_ext (set_wsBase DEFAULT_WS_BASE) w in
        match _buildWsUrl (ext w) with
        | Some wsUrl => check_permission wsUrl w
        | None =>
            let w := with_ext (set_connected false) w in
            _scheduleReconnect w
        end
    end.

Definition onopen (w : World) : World :=
  let w := with_ext (set_connected true) w in
  with_ext (set_backoffIndex 0) w.

Inductive Handled :=
| Returned (e : Ext)
| Threw (e : Ext).

Definition fields_after (h : Handled) : Ext :=
  match h with
  | Returned e => e
  | Threw e => e
  end.

Definition onmessage (data : jsstring) (e : Ext) : Handled :=
  let msg := safeJsonParse data in
  if (negb (truthy msg)
      || negb match typeof msg with TObject => true | _ => false end)%bool
  then Returned e
  else if is_string (get msg (str "type")) (str "gesture") then
    let label :=
      match get msg (str "label") with
      | JStr l => l
      | _ => []
      end in
    match toFiniteNumber (get msg (str "confidence")) pos_zero with
    | Throw => Threw e
    | Normal conf =>
        let e := set_gesture label e in
        Returned (set_confidence conf e)
    end
  else if is_string (get msg (str "type")) (str "presence") then
    match toFiniteNumber (get msg (str "subscribers")) (_subscribers e) with
    | Throw => Threw e
    | Normal subs => Returned (set_subscribers subs e)
    end
  else Returned e.

Definition onerror (w : World) : World :=
  with_ext (set_connected false) w.

Definition onclose (w : World) : World :=
  let w := with_ext (set_connected false) w in
  let w := with_ext (set_ws None) w in
  _scheduleReconnect w.

(** [_openWsAsync] from the point where [await] returns or throws. *)
Definition _openWsAsync_resume (wsUrl : jsstring) (o : Settled) (w : World)
    : World :=
  match o with
  | Failed =>
      let w := with_ext (set_connected false) w in
      _scheduleReconnect w
  | Refused =>
      let w := with_ext (set_connected false) w in
      _scheduleReconnect w
  | Allowed true =>
      let w := with_ext (set_connected false) w in
      let w := with_ext (set_ws None) w in
      _scheduleReconnect w
  | Allowed false =>
      let '(ws, w) := new_WebSocket wsUrl w in
      with_ext (set_ws (Some ws)) w
  end.

(** The callback given to [setTimeout] in [_scheduleReconnect]. *)
Definition retry_callback `{Platform} `{HttpUrl} (w : World) : World :=
  let w := with_ext (set_reconnectTimer None) w in
  match _ws (ext w) with
  | Some _ => w
  | None =>
      if negb (_shouldReconnect (ext w)) then w
      else if is_empty (_room (ext w)) then w
      else _openWs w
  end.

Definition setRoomInternal `{Platform} `{HttpUrl} (room : jsstring)
    (auto : bool) (w : World) : World :=
  if is_empty room then
    let w := with_ext (set_room []) w in
    let w := with_ext (set_connected false) w in
    if negb auto then
      let w := with_ext (set_shouldReconnect false) w in
      let w := _clearReconnectTimer w in
      _closeWs (str "room cleared") w
    else w
  else
    (* If unchanged, do nothing. *)
    if (streq room (_room (ext w))
        && match _ws (ext w) with Some _ => true | None => false end)%bool
    then w
    else
      let w := with_ext (set_room room) w in
      (* Reset values when room changes. *)
      let w := with_ext (set_gesture []) w in
      let w := with_ext (set_confidence pos_zero) w in
      let w := with_ext (set_subscribers pos_zero) w in
      (* (Re)connect *)
      let w := with_ext (set_backoffIndex 0) w in
      let w := with_ext (set_shouldReconnect true) w in
      let w := _clearReconnectTimer w in
      let w := _closeWs (str "room changed") w in
      _openWs w.

(** ** The room probe *)

Definition maxTries : nat := 20.
Definition intervalMs : Z := 250.

(** [roomFromEditor || roomFromScript] for what the address of the page
    and the extension's script URL give at the moment. *)
Definition room_found (location : Location) (roomFromScript : jsstring)
    : jsstring :=
  let roomFromEditor := normalizeRoom (getRoomFromWindow location) in
  let roomFromScript := normalizeRoom roomFromScript in
  if negb (is_empty roomFromEditor) then roomFromEditor else roomFromScript.

(** The callback given to [setInterval] in [_startRoomProbe], for the
    interval [p]; [location] is [window.location] and [roomFromScript]
    what [getParamFromCurrentScript("room")] returns when it runs. *)
Definition probe_callback `{Platform} `{HttpUrl} (p : nat)
    (location : Location) (roomFromScript : jsstring) (w : World) : World :=
  let w :=
    with_intervals
      (alter (fun iv => {| interval_ms := interval_ms iv;
                           interval_running := interval_running iv;
                           tries := tries iv + 1 |}) p) w in
  if negb (is_empty (_room (ext w))) then _stopRoomProbe w
  else
    let found := room_found location roomFromScript in
    if negb (is_empty found) then
      let w := _stopRoomProbe w in
      setRoomInternal found true w
    else
      match intervals w !! p with
      | Some iv => if (maxTries <=? tries iv)%nat then _stopRoomProbe w else w
      | None => w
      end.

(** Try for ~5 seconds to catch cases where URL params appear after
    extension executes. *)
Definition _startRoomProbe (w : World) : World :=
  match _roomProbeTimer (ext w) with
  | Some _ => w
  | None =>
      let '(p, w) := setInterval intervalMs w in
      with_ext (set_roomProbeTimer (Some p)) w
  end.

(** ** Reporters *)

Definition getRoom (e : Ext) : jsstring := _room e.

Definition isConnected (e : Ext) : bool := _connected e.

(** ** Commands *)

Definition setRoom `{Platform} `{HttpUrl} (ROOM : jsstring) (w : World)
    : World :=
  let room := normalizeRoom ROOM in
  setRoomInternal room false w.

Definition reconnect `{Platform} `{HttpUrl} (w : World) : World :=
  if is_empty (_room (ext w)) then with_ext (set_connected false) w
  else
    let w := with_ext (set_backoffIndex 0) w in
    let w := with_ext (set_shouldReconnect true) w in
    let w := _clearReconnectTimer w in
    let w := _closeWs (str "manual reconnect") w in
    _openWs w.

Definition disconnect (w : World) : World :=
  let w := with_ext (set_shouldReconnect false) w in
  let w := _clearReconnectTimer w in
  let w := _stopRoomProbe w in
  let w := _closeWs (str "manual disconnect") w in
  with_ext (set_connected false) w.

(** ** Construction *)

(** [new SmartteamLiveExtension()].  [location] is [window.location]
    when the script runs; the other two arguments are what
    [getParamFromCurrentScript] reads from the script URL for [wsBase]
    and [room]. *)
Definition SmartteamLiveExtension `{Platform} `{HttpUrl}
    (location : Location) (wsBaseFromScript roomFromScript : jsstring)
    : World :=
  let w :=
    {| ext := {| _connected := false; _room := [];
                 _wsBase := DEFAULT_WS_BASE; _gesture := [];
                 _confidence := pos_zero; _subscribers := pos_zero;
                 _ws := None; _shouldReconnect := false;
                 _reconnectTimer := None; _backoffIndex := 0;
                 _roomProbeTimer := None |};
       sockets := []; timers := []; checks := []; intervals := [] |} in
  (* wsBase: from editor URL first, then from extension URL *)
  let wsBaseFromEditor := getQueryParam location (str "wsBase") in
  let w :=
    with_ext
      (set_wsBase
         (normalizeWsBase
            (if negb (is_empty wsBaseFromEditor) then wsBaseFromEditor
             else wsBaseFromScript))) w in
  (* room: editor URL (search/hash), then extension URL *)
  let urlRoom := room_found location roomFromScript in
  if negb (is_empty urlRoom) then setRoomInternal urlRoom true w
  else
    let w := with_ext (set_connected false) w in
    _startRoomProbe w.

(** ** Events *)

Inductive Event :=
| SetRoom (ROOM : jsstring)
| Reconnect
| Disconnect
| CanFetchSettles (c : nat) (o : Settled)
| TimerFires (t : nat)
| ProbeTick (p : nat) (location : Location) (roomFromScript : jsstring)
| WsOpen (i : nat)
| WsMessage (i : nat) (data : jsstring)
| WsError (i : nat)
| WsClose (i : nat).

Definition set_sock_state (st : ReadyState) (s : Socket) : Socket :=
  {| sock_url := sock_url s; sock_handlers := sock_handlers s;
     sock_state := st; sock_close := sock_close s |}.

(** As for the first variant; the callback of an interval runs only
    while the interval has not been cleared. *)
Definition step `{Platform} `{HttpUrl} (ev : Event) (w : World) : World :=
  match ev with
  | SetRoom ROOM => setRoom ROOM w
  | Reconnect => reconnect w
  | Disconnect => disconnect w
  | CanFetchSettles c o =>
      match checks w !! c with
      | Some ck =>
          if check_pending ck then
            let w :=
              with_checks
                (<[c := {| check_url := check_url ck;
                           check_wsUrl := check_wsUrl ck;
                           check_pending := false |}]>) w in
            _openWsAsync_resume (check_wsUrl ck) o w
          else w
      | None => w
      end
  | TimerFires t =>
      match timers w !! t with
      | Some tm =>
          match timer_state tm with
          | Pending =>
              let w :=
                with_timers
                  (<[t := {| timer_delay := timer_delay tm;
                             timer_state := Fired |}]>) w in
              retry_callback w
          | _ => w
          end
      | None => w
      end
  | ProbeTick p location roomFromScript =>
      match intervals w !! p with
      | Some iv =>
          if interval_running iv
          then probe_callback p location roomFromScript w
          else w
      | None => w
      end
  | WsOpen i =>
      match sockets w !! i with
      | Some s =>
          match sock_state s with
          | CONNECTING =>
              let w := with_sockets (<[i := set_sock_state OPEN s]>) w in
              if sock_handlers s then onopen w else w
          | _ => w
          end
      | None => w
      end
  | WsMessage i data =>
      match sockets w !! i with
      | Some s =>
          match sock_state s with
          | OPEN =>
              if sock_handlers s
              then with_ext (fun e => fields_after (onmessage data e)) w
              else w
          | _ => w
          end
      | None => w
      end
  | WsError i =>
      match sockets w !! i with
      | Some s =>
          match sock_state s with
          | CLOSED => w
          | _ => if sock_handlers s then onerror w else w
          end
      | None => w
      end
  | WsClose i =>
      match sockets w !! i with
      | Some s =>
          match sock_state s with
          | CLOSED => w
          | _ =>
              let w := with_sockets (<[i := set_sock_state CLOSED s]>) w in
              if sock_handlers s then onclose w else w
          end
      | None => w
      end
  end.

Definition run `{Platform} `{HttpUrl} (evs : list Event) (w : World) : World :=
  fold_left (fun w ev => step ev w) evs w.

End Unsandboxed.

(* ===================================================================== *)
(** * Vocabulary of the statements                                        *)
(* ===================================================================== *)

Import JS Live.

(** ** Invariants of the supervisor *)

(** A timer that is still pending is the one [_reconnectTimer] holds. *)
Definition timers_ok (w : World) : Prop :=
  forall t tm, timers w !! t = Some tm -> timer_state tm = Pending ->
               _reconnectTimer (ext w) = Some t.

(** The socket [_ws] holds has its handlers attached and is live. *)
Definition handle_ok (w : World) : Prop :=
  forall i, _ws (ext w) = Some i ->
            exists s, sockets w !! i = Some s /\ sock_handlers s = true /\
                      is_live s = true.

(** While a room is set, the default shown in the block is that room. *)
Definition default_ok (w : World) : Prop :=
  _room (ext w) <> [] -> _defaultRoom (ext w) = _room (ext w).

(** The backoff index stays within the table. *)
Definition index_ok (w : World) : Prop :=
  _backoffIndex (ext w) < length BACKOFF_MS.

(** The stored confidence and subscriber count are finite numbers. *)
Definition facts_finite (w : World) : Prop :=
  Number_isFinite (_confidence (ext w)) = true /\
  Number_isFinite (_subscribers (ext w)) = true.

(** The fields no internal operation writes: they change only in the
    three commands and, for the facts, in the message handler. *)
Definition session_part (w : World) :=
  (_room (ext w), _defaultRoom (ext w), _gesture (ext w),
   _confidence (ext w), _subscribers (ext w), _shouldReconnect (ext w)).

Definition has_ws (w : World) : bool :=
  match _ws (ext w) with
  | Some _ => true
  | None => false
  end.

Create Rewrite HintDb session.

Record Inv (w : World) : Prop := {
  inv_timers : timers_ok w;
  inv_handle : handle_ok w;
  inv_default : default_ok w;
  inv_index : index_ok w;
  inv_facts : facts_finite w
}.

(** ** After [disconnect] *)

(** The events other than a call of [setRoom] or [reconnect]. *)
Definition no_command (ev : Event) : bool :=
  match ev with
  | SetRoom _ | Reconnect => false
  | _ => true
  end.

(** The intent flag is down and no retry is scheduled. *)
Definition quiet (w : World) : Prop :=
  _shouldReconnect (ext w) = false /\
  _reconnectTimer (ext w) = None /\
  timers_ok w.

(** No permission check is in flight. *)
Definition all_settled (w : World) : Prop :=
  forall c ck, checks w !! c = Some ck -> check_pending ck = false.

(** ** Frames the interpreter discards *)

(** The payload does not decode, or decodes to something that is not a
    keyed structure, or to one whose [type] is neither ["gesture"] nor
    ["presence"]. *)
Definition discarded_frame (data : jsstring) : Prop :=
  match JSON_parse data with
  | None => True
  | Some (JObj members) =>
      is_string (get (JObj members) (str "type")) (str "gesture") = false /\
      is_string (get (JObj members) (str "type")) (str "presence") = false
  | Some _ => True
  end.

(** JSON text for the examples, written with ['] where the text has a
    double quote. *)
Definition json (s : string) : jsstring :=
  map (fun c => if N.eqb c 39 then 34%N else c) (str s).

(** ** Numbers with two decimals *)

(** The number nearest to [k / 100]. *)
Definition hundredth (k : nat) : number :=
  decimal_to_number false (N.of_nat k) (-2).

Definition number_eqb (a b : number) : bool :=
  match a, b with
  | S754_zero s, S754_zero t => Bool.eqb s t
  | S754_infinity s, S754_infinity t => Bool.eqb s t
  | S754_nan, S754_nan => true
  | S754_finite s m e, S754_finite t n f =>
      (Bool.eqb s t && Pos.eqb m n && Z.eqb e f)%bool
  | _, _ => false
  end.

(** ** Failed connect attempts *)

(** The ways a connect attempt can fail before the transport opens: the
    permission check resolves to [false] or is rejected, the WebSocket
    constructor throws, the socket closes without having opened, with or
    without an [error] event before. *)
Inductive Failure :=
| PermissionRefused
| PermissionFailed
| ConstructorThrows
| ClosedBeforeOpen
| ErrorThenClosed.

(** The permission check requested last, the timer set last. *)
Definition last_check (w : World) : nat := length (checks w) - 1.
Definition last_timer (w : World) : nat := length (timers w) - 1.

(** The events of the failure [k] of the attempt whose permission check
    was requested last; the socket it creates, if any, gets the next id. *)
Definition failure_events (k : Failure) (w : World) : list Event :=
  let c := last_check w in
  let i := length (sockets w) in
  match k with
  | PermissionRefused => [CanFetchSettles c Refused]
  | PermissionFailed => [CanFetchSettles c Failed]
  | ConstructorThrows => [CanFetchSettles c (Allowed true)]
  | ClosedBeforeOpen => [CanFetchSettles c (Allowed false); WsClose i]
  | ErrorThenClosed =>
      [CanFetchSettles c (Allowed false); WsError i; WsClose i]
  end.

(** One failed attempt, then the retry timer it scheduled fires. *)
Definition fail_and_retry `{Platform} (k : Failure) (w : World) : World :=
  let w := run (failure_events k w) w in
  step (TimerFires (last_timer w)) w.

Definition fail_repeatedly `{Platform} (ks : list Failure) (w : World)
    : World :=
  fold_left (fun w k => fail_and_retry k w) ks w.

(** One connect attempt is under way and nothing else: a room is set,
    the intent flag is up, no retry is scheduled, no socket is held, the
    permission check requested last has not settled, and the address can
    be built. *)
Definition attempting `{Platform} (w : World) : Prop :=
  _room (ext w) <> [] /\
  _shouldReconnect (ext w) = true /\
  _reconnectTimer (ext w) = None /\
  _ws (ext w) = None /\
  (exists cs ck, checks w = cs ++ [ck] /\ check_pending ck = true) /\
  is_Some (_buildWsUrl (ext w)).

(** The delay of the n-th consecutive failure, counting from 0, in the
    words of the specification: 1000, 2000, 3000, then 5000 for ever. *)
Definition backoff_delay (n : nat) : Z :=
  match n with
  | 0 => 1000
  | 1 => 2000
  | 2 => 3000
  | _ => 5000
  end.

(** What a failed attempt leaves behind. *)
Definition failed_once (w w1 : World) : Prop :=
  timers w1 =
    timers w ++ [{| timer_delay := backoff_delay (_backoffIndex (ext w));
                    timer_state := Pending |}] /\
  _reconnectTimer (ext w1) = Some (length (timers w)) /\
  _backoffIndex (ext w1) = Nat.min (_backoffIndex (ext w) + 1) 3 /\
  session_part w1 = session_part w /\
  _ws (ext w1) = None /\
  _wsBase (ext w1) = _wsBase (ext w) /\
  _connected (ext w1) = false.

(** ** Permission checks that settle at once *)

(** The permission check requested last settles, if it is in flight. *)
Definition settle_now `{Platform} (o : Settled) (w : World) : World :=
  match checks w !! last_check w with
  | Some ck =>
      if check_pending ck then step (CanFetchSettles (last_check w) o) w
      else w
  | None => w
  end.

(** An event, then the settling of the check it has requested, if any. *)
Definition atomic_step `{Platform} (w : World) (evo : Event * Settled)
    : World :=
  settle_now (snd evo) (step (fst evo) w).

Definition is_settle (ev : Event) : bool :=
  match ev with
  | CanFetchSettles _ _ => true
  | _ => false
  end.

(** Every live transport is the one the extension holds. *)
Definition live_held (w : World) : Prop :=
  forall i s, sockets w !! i = Some s -> is_live s = true ->
              _ws (ext w) = Some i.

Definition none_live (w : World) : Prop :=
  forall i s, sockets w !! i = Some s -> is_live s = false.

(** What an operation does to the table of permission checks: nothing,
    or it requests one, and then no transport is live. *)
Definition requested (before : list Check) (w' : World) : Prop :=
  checks w' = before \/
  (exists u, checks w' =
             before ++ [{| check_url := u; check_pending := true |}]) /\
  none_live w'.

(** ** Blank strings *)

(** Every code unit is white space, as [trim] sees it. *)
Definition blank (s : jsstring) : bool := forallb isWhiteSpace s.

(** ** More invariants of the supervisor *)

(** The intent flag is up only while a room is set. *)
Definition intent_ok (w : World) : Prop :=
  _shouldReconnect (ext w) = true -> _room (ext w) <> [].

(** The timer [_reconnectTimer] holds is pending, and a retry is
    scheduled only while the intent flag is up. *)
Definition retry_ok (w : World) : Prop :=
  forall t, _reconnectTimer (ext w) = Some t ->
    _shouldReconnect (ext w) = true /\
    exists tm, timers w !! t = Some tm /\ timer_state tm = Pending.

(** From [w] to [w'] at most one retry has been scheduled, with a delay
    of the table. *)
Definition scheduled_one (w w' : World) : Prop :=
  exists ds, scheduled_delays w' = scheduled_delays w ++ ds /\
             length ds <= 1 /\ Forall (fun d => In d BACKOFF_MS) ds.

(** The connection flag has not gone up from [w] to [w']. *)
Definition not_raised (w w' : World) : Prop :=
  _connected (ext w') = true -> _connected (ext w) = true.

Definition is_open (ev : Event) : bool :=
  match ev with
  | WsOpen _ => true
  | _ => false
  end.

(** ** Reading a block descriptor *)

Import Blocks.

Definition block_opcode (b : BlockInfo) : option jsstring :=
  match b with
  | Block opcode _ _ _ => Some opcode
  | Separator => None
  end.

Definition block_text (b : BlockInfo) : option jsstring :=
  match b with
  | Block _ _ text _ => Some text
  | Separator => None
  end.

Fixpoint assoc {A} (k : jsstring) (l : list (jsstring * A)) : option A :=
  match l with
  | [] => None
  | (k', v) :: r => if streq k k' then Some v else assoc k r
  end.

(** The default value of the argument [arg] of the block [opcode]. *)
Definition default_of (info : Info) (opcode arg : jsstring) : option jsstring :=
  match
    filter (fun b => block_opcode b = Some opcode) (info_blocks info)
  with
  | Block _ _ _ args :: _ =>
      match assoc arg args with
      | Some a => Some (arg_defaultValue a)
      | None => None
      end
  | _ => None
  end.

(** Every message the descriptor shows has an entry in every language of
    the table. *)
Definition all_translated (info : Info) : bool :=
  forallb
    (fun lang =>
       forallb
         (fun b => match block_text b with
                   | Some t => match assoc t (snd lang) with
                               | Some _ => true
                               | None => false
                               end
                   | None => true
                   end)
         (info_blocks info)
       && match assoc (info_name info) (snd lang) with
          | Some _ => true
          | None => false
          end)
    translations.

(** ** Query strings *)

(** A code unit of the ASCII range; one that, in a query string, stands
    for itself and ends neither a name nor a value. *)
Definition ascii_unit (c : N) : bool := N.ltb c 128.

Definition plain (c : N) : bool :=
  (N.ltb c 128 && negb (N.eqb c 38) && negb (N.eqb c 61)
   && negb (N.eqb c 43) && negb (N.eqb c 37) && negb (N.eqb c 63))%bool.

(** What follows a parameter in a query string: nothing, or [&] and
    further parameters. *)
Definition more_params (rest : jsstring) : Prop :=
  rest = [] \/ exists rest', rest = 38%N :: rest'.

(** The form encoding of an ASCII string, as [URLSearchParams] writes
    it: a space as [+], a code unit with a meaning of its own in a query
    string as [%] and two hexadecimal digits. *)
Definition hex_digit (d : N) : N := if N.ltb d 10 then 48 + d else 55 + d.

Definition form_encode_unit (c : N) : jsstring :=
  if N.eqb c 32 then [43%N]
  else if plain c then [c]
  else [37%N; hex_digit (c / 16); hex_digit (c mod 16)].

Definition form_encode (s : jsstring) : jsstring :=
  flat_map form_encode_unit s.

(** The name-value tuples [URLSearchParams] reads from a query string
    without its leading [?]. *)
Definition tuples_of (query : jsstring) : list (jsstring * jsstring) :=
  URLSearch.parse_urlencoded
    (URLSearch.utf8_encode (URLSearch.to_scalars query)).

(** Bytes that can stand in a value: ASCII other than [&]. *)
Definition value_unit (c : N) : bool := (N.ltb c 128 && negb (N.eqb c 38))%bool.

(** ** Sockets and permission checks *)

(** A permission check for the address [u] has been requested and has
    settled. *)
Definition asked (w : World) (u : jsstring) : Prop :=
  exists c ck, checks w !! c = Some ck /\ check_url ck = u /\
               check_pending ck = false.

Definition sockets_asked (w : World) : Prop :=
  forall i s, sockets w !! i = Some s -> asked w (sock_url s).

(** From [w] to [w'] no socket has been created and no settled check
    forgotten. *)
Definition no_new_socket (w w' : World) : Prop :=
  map sock_url (sockets w') = map sock_url (sockets w) /\
  forall u, asked w u -> asked w' u.

(** ** The room probe *)

(** The interval table and the interval the extension holds. *)
Definition probe_part (w : Unsandboxed.World)
    : list Unsandboxed.Interval * option nat :=
  (Unsandboxed.intervals w, Unsandboxed._roomProbeTimer (Unsandboxed.ext w)).

(** The callback of an interval has run at most [maxTries] times, fewer
    while the interval has not been cleared, and an interval that has
    not been cleared is the one [_roomProbeTimer] holds; there is one
    interval at most. *)
Definition probe_ok (w : Unsandboxed.World) : Prop :=
  length (Unsandboxed.intervals w) <= 1 /\
  forall p iv, Unsandboxed.intervals w !! p = Some iv ->
    Unsandboxed.tries iv <= Unsandboxed.maxTries /\
    (Unsandboxed.interval_running iv = true ->
     Unsandboxed.tries iv < Unsandboxed.maxTries /\
     Unsandboxed._roomProbeTimer (Unsandboxed.ext w) = Some p).

(** No interval is left running. *)
Definition probe_over (w : Unsandboxed.World) : Prop :=
  Unsandboxed._roomProbeTimer (Unsandboxed.ext w) = None /\
  forall p iv, Unsandboxed.intervals w !! p = Some iv ->
               Unsandboxed.interval_running iv = false.

(** The world after the callback of the interval [p] has counted a
    tick. *)
Definition counted (p : nat) (w : Unsandboxed.World) : Unsandboxed.World :=
  Unsandboxed.with_intervals
    (alter (fun iv =>
              {| Unsandboxed.interval_ms := Unsandboxed.interval_ms iv;
                 Unsandboxed.interval_running := Unsandboxed.interval_running iv;
                 Unsandboxed.tries := Unsandboxed.tries iv + 1 |}) p) w.

(** The room and the intent flag. *)
Definition intent_part (w : Unsandboxed.World) : jsstring * bool :=
  (Unsandboxed._room (Unsandboxed.ext w),
   Unsandboxed._shouldReconnect (Unsandboxed.ext w)).

(** A URL class for the examples of the second variant: [wss:] becomes
    [https:] and [ws:] becomes [http:]. *)
Definition example_http : Unsandboxed.HttpUrl :=
  {| Unsandboxed.URL_as_http s :=
       match strip_prefix (str "wss:") s, strip_prefix (str "ws:") s with
       | Some r, _ => Some (str "https:" ++ r)
       | None, Some r => Some (str "http:" ++ r)
       | None, None => None
       end |}.

(** ** Progress *)

(** A permission check is in flight. *)
Definition check_in_flight (w : World) : Prop :=
  exists c ck, checks w !! c = Some ck /\ check_pending ck = true.

(** While the extension means to be connected and holds no socket, a
    retry is pending or a permission check is in flight. *)
Definition progress_ok (w : World) : Prop :=
  _shouldReconnect (ext w) = true -> _ws (ext w) = None ->
  _reconnectTimer (ext w) <> None \/ check_in_flight w.

(** The socket [s] after [_closeWs] with the reason [r]. *)
Definition closed_for (r : jsstring) (s : Socket) : Socket :=
  {| sock_url := sock_url s; sock_handlers := false; sock_state := CLOSED;
     sock_close := Some (1000%Z, r) |}.

(** ** Permission checks of the second variant *)

(** The check is asked for the http form of the address the socket is to
    be opened with, and that form is not empty. *)
Definition check_ok `{Unsandboxed.HttpUrl} (ck : Unsandboxed.Check) : Prop :=
  Unsandboxed.check_url ck =
    Unsandboxed.toCanFetchUrl (Unsandboxed.check_wsUrl ck) /\
  Unsandboxed.check_url ck <> [].

(** Every check is as [check_ok] says, and every socket has the address
    of a check that has settled. *)
Definition checked `{Unsandboxed.HttpUrl} (w : Unsandboxed.World) : Prop :=
  (forall c ck, Unsandboxed.checks w !! c = Some ck -> check_ok ck) /\
  (forall i s, Unsandboxed.sockets w !! i = Some s ->
     exists c ck, Unsandboxed.checks w !! c = Some ck /\
                  Unsandboxed.check_wsUrl ck = sock_url s /\
                  Unsandboxed.check_pending ck = false).

(** From [w] to [w'] no socket has been created, and the checks
    requested are as [check_ok] says. *)
Definition requests `{Unsandboxed.HttpUrl} (w w' : Unsandboxed.World) : Prop :=
  map sock_url (Unsandboxed.sockets w') = map sock_url (Unsandboxed.sockets w) /\
  exists new, Unsandboxed.checks w' = Unsandboxed.checks w ++ new /\
              Forall check_ok new.

(** ** Where the extension connects to *)

(** The address [u] is the base [b], or the default base, with a room
    of [G], which is not empty, as [_buildWsUrl] puts them together. *)
Definition built `{Platform} (b : jsstring) (G : jsstring -> Prop)
    (u : jsstring) : Prop :=
  exists base room,
    (base = b \/ base = DEFAULT_WS_BASE) /\ G room /\ room <> [] /\
    URL_with_room base room = Some u.

(** The base address is [b] or the default, the room is empty or one of
    [G], and the address of every permission check and every socket is
    [built] from them. *)
Definition given_ok `{Platform} (b : jsstring) (G : jsstring -> Prop)
    (w : World) : Prop :=
  (_wsBase (ext w) = b \/ _wsBase (ext w) = DEFAULT_WS_BASE) /\
  (_room (ext w) <> [] -> G (_room (ext w))) /\
  (forall c ck, checks w !! c = Some ck -> built b G (check_url ck)) /\
  (forall i s, sockets w !! i = Some s -> built b G (sock_url s)).

(** From [w] to [w'] the base address, the room and the addresses of the
    checks and of the sockets are the same. *)
Definition same_place (w w' : World) : Prop :=
  _wsBase (ext w') = _wsBase (ext w) /\ _room (ext w') = _room (ext w) /\
  map check_url (checks w') = map check_url (checks w) /\
  map sock_url (sockets w') = map sock_url (sockets w).

(** ** A platform for the examples *)

(** A URL class that takes any string starting with [ws:] or [wss:] for
    a URL and appends the room as the query. *)
Definition example_platform : Platform :=
  {| URL_parse s :=
       match strip_prefix (str "wss:") s, strip_prefix (str "ws:") s with
       | Some _, _ => Some (str "wss:", s)
       | None, Some _ => Some (str "ws:", s)
       | None, None => None
       end;
     URL_with_room base room :=
       match strip_prefix (str "ws") base with
       | Some _ => Some (base ++ str "?room=" ++ room)
       | None => None
       end |}.

(** The extension as it is after loading [live.js] without parameters. *)
Definition fresh : World := @SmartteamLiveExtension example_platform [] [].

Definition exrun (evs : list Event) : World := @run example_platform evs fresh.

Definition exstep (ev : Event) (w : World) : World :=
  @step example_platform ev w.

Definition room_A : jsstring := str "ST-A".
Definition room_B : jsstring := str "ST-B".

(* ===================================================================== *)
(** * Properties                                                          *)
(* ===================================================================== *)

(** ** Strings *)

Lemma streq_eq (a b : jsstring) : streq a b = true <-> a = b.
Proof.
  revert b; induction a as [|x a IH]; intros [|y b]; simpl; try easy.
  rewrite andb_true_iff, N.eqb_eq, IH. split.
  - intros [-> ->]; reflexivity.
  - intros [= -> ->]; split; reflexivity.
Qed.

Lemma streq_refl (a : jsstring) : streq a a = true.
Proof. apply streq_eq; reflexivity. Qed.

Lemma is_empty_true (s : jsstring) : is_empty s = true <-> s = [].
Proof. destruct s; simpl; split; congruence. Qed.

Lemma is_empty_false (s : jsstring) : is_empty s = false <-> s <> [].
Proof. destruct s; simpl; split; congruence. Qed.

(** ** The parser never runs out of fuel *)

Lemma skip_ws_length (s : jsstring) : length (skip_ws s) <= length s.
Proof.
  induction s as [|c s IH]; simpl; [lia|].
  destruct (isJsonSpace c); simpl; lia.
Qed.

Lemma strip_prefix_length (p s r : jsstring) :
  strip_prefix p s = Some r -> length r + length p = length s.
Proof.
  revert s. induction p as [|x p IH]; intros [|y s]; simpl;
    try discriminate; try (intros [= <-]; simpl; lia).
  destruct (N.eqb x y); [|discriminate]. intros Hr%IH. lia.
Qed.

Lemma take_digits_length (val : N -> option N) (base : N) (s : jsstring)
    (acc : N) (count : nat) (v : N) (n : nat) (r : jsstring) :
  take_digits val base s acc count = (v, n, r) ->
  length r + n = length s + count.
Proof.
  revert acc count. induction s as [|c s IH]; intros acc count; simpl.
  - intros [= <- <- <-]. simpl. lia.
  - destruct (val c).
    + intros Hr%IH. lia.
    + intros [= <- <- <-]. simpl. lia.
Qed.

Lemma take_exponent_length (s : jsstring) (e : Z) (r : jsstring) :
  take_exponent s = Some (e, r) -> length r <= length s.
Proof.
  unfold take_exponent. destruct s as [|c s]; [intros [= <- <-]; lia|].
  destruct (N.eqb c 101 || N.eqb c 69)%bool; [|intros [= <- <-]; lia].
  destruct s as [|d s'].
  - simpl. discriminate.
  - destruct (N.eqb d 45); [|destruct (N.eqb d 43)];
      match goal with
      | |- context [take_digits ?a ?b ?c ?d ?f] =>
          destruct (take_digits a b c d f) as [[v n] r2] eqn:Ht;
          apply take_digits_length in Ht
      end; destruct n; try discriminate; intros [= <- <-]; simpl in *; lia.
Qed.

Lemma parse_number_length (s : jsstring) (n : number) (r : jsstring) :
  parse_number s = Some (n, r) -> length r < length s.
Proof.
  unfold parse_number.
  set (p := match s with
            | [] => (false, s)
            | c :: r0 => if N.eqb c 45 then (true, r0) else (false, s)
            end).
  assert (Hp : length (snd p) <= length s).
  { unfold p. destruct s as [|c r0]; [simpl; lia|].
    destruct (N.eqb c 45); simpl; lia. }
  destruct p as [neg s1]. simpl in Hp.
  destruct (take_digits digit_val 10 s1 0%N 0) as [[i ni] r1] eqn:Hi.
  apply take_digits_length in Hi.
  destruct ni as [|ni]; [discriminate|].
  match goal with |- (if ?b then _ else _) = _ -> _ => destruct b end;
    [discriminate|].
  destruct r1 as [|c r1'].
  - destruct (take_exponent []) as [[e r3]|] eqn:He; [|discriminate].
    apply take_exponent_length in He. intros [= _ <-]. simpl in *. lia.
  - destruct (N.eqb c 46).
    + destruct (take_digits digit_val 10 r1' i 0) as [[m nf] r2] eqn:Hf.
      apply take_digits_length in Hf. destruct nf; [discriminate|].
      destruct (take_exponent r2) as [[e r3]|] eqn:He; [|discriminate].
      apply take_exponent_length in He. intros [= _ <-]. simpl in *. lia.
    + destruct (take_exponent (c :: r1')) as [[e r3]|] eqn:He; [|discriminate].
      apply take_exponent_length in He. intros [= _ <-]. simpl in *. lia.
Qed.

Lemma parse_string_body_length (n : nat) (s acc t r : jsstring) :
  length s <= n -> parse_string_body s acc = Some (t, r) ->
  length r < length s.
Proof.
  revert s acc. induction n as [|n IH]; intros s acc Hn.
  - destruct s; [discriminate|simpl in Hn; lia].
  - destruct s as [|c s]; [discriminate|]. simpl in Hn.
    cbn [parse_string_body].
    destruct (N.eqb c 34); [intros [= _ <-]; simpl; lia|].
    destruct (N.ltb c 32); [discriminate|].
    destruct (N.eqb c 92).
    + destruct s as [|e s1]; [discriminate|]. simpl in Hn.
      repeat match goal with
             | |- (if ?b then _ else _) = _ -> _ =>
                 destruct b;
                 [intros Hr; apply IH in Hr; [simpl; lia|simpl; lia]|]
             end.
      destruct (N.eqb e 117); [|discriminate].
      destruct s1 as [|h1 [|h2 [|h3 [|h4 s2]]]]; try discriminate.
      destruct (hex_val h1), (hex_val h2), (hex_val h3), (hex_val h4);
        try discriminate.
      intros Hr. apply IH in Hr; simpl in *; lia.
    + intros Hr. apply IH in Hr; simpl; lia.
Qed.

Lemma parse_fuel (fuel : nat) :
  (forall s, 2 * length s < fuel ->
     parse_value fuel s <> POutOfFuel /\
     forall v r, parse_value fuel s = POk v r -> length r < length s) /\
  (forall acc s, 2 * length s + 1 < fuel ->
     parse_elements fuel acc s <> POutOfFuel /\
     forall v r, parse_elements fuel acc s = POk v r -> length r < length s) /\
  (forall acc s, 2 * length s + 1 < fuel ->
     parse_members fuel acc s <> POutOfFuel /\
     forall v r, parse_members fuel acc s = POk v r -> length r < length s).
Proof.
  induction fuel as [|f (IHv & IHe & IHm)].
  - repeat split; intros; lia.
  - split; [|split].
    + intros s Hs. cbn [parse_value].
      pose proof (skip_ws_length s) as Hsk.
      destruct (skip_ws s) as [|c r]; [split; [discriminate|discriminate]|].
      simpl in Hsk.
      destruct (N.eqb c 123).
      { pose proof (skip_ws_length r) as Hsk'.
        destruct (skip_ws r) as [|c' r']; [split; discriminate|]. simpl in Hsk'.
        destruct (N.eqb c' 125).
        - split; [discriminate|]. intros v r0 [= _ <-]. lia.
        - destruct (IHm [] (c' :: r')) as [Hf Hl]; [simpl; lia|].
          split; [exact Hf|]. intros v r0 Hr. apply Hl in Hr. simpl in Hr. lia. }
      destruct (N.eqb c 91).
      { pose proof (skip_ws_length r) as Hsk'.
        destruct (skip_ws r) as [|c' r']; [split; discriminate|]. simpl in Hsk'.
        destruct (N.eqb c' 93).
        - split; [discriminate|]. intros v r0 [= _ <-]. lia.
        - destruct (IHe [] (c' :: r')) as [Hf Hl]; [simpl; lia|].
          split; [exact Hf|]. intros v r0 Hr. apply Hl in Hr. simpl in Hr. lia. }
      destruct (N.eqb c 34).
      { destruct (parse_string_body r []) as [[t r']|] eqn:Hb;
          [|split; discriminate].
        apply (parse_string_body_length (length r)) in Hb; [|lia].
        split; [discriminate|]. intros v r0 [= _ <-]. lia. }
      destruct (strip_prefix (str "true") (c :: r)) as [r1|] eqn:H1.
      { apply strip_prefix_length in H1. simpl in H1.
        split; [discriminate|]. intros v r0 [= _ <-]. lia. }
      destruct (strip_prefix (str "false") (c :: r)) as [r2|] eqn:H2.
      { apply strip_prefix_length in H2. simpl in H2.
        split; [discriminate|]. intros v r0 [= _ <-]. lia. }
      destruct (strip_prefix (str "null") (c :: r)) as [r3|] eqn:H3.
      { apply strip_prefix_length in H3. simpl in H3.
        split; [discriminate|]. intros v r0 [= _ <-]. lia. }
      destruct (parse_number (c :: r)) as [[n r4]|] eqn:Hn;
        [|split; discriminate].
      apply parse_number_length in Hn. simpl in Hn.
      split; [discriminate|]. intros v r0 [= _ <-]. lia.
    + intros acc s Hs. cbn [parse_elements].
      destruct (IHv s) as [Hf Hl]; [lia|].
      destruct (parse_value f s) as [v r| |] eqn:Hv;
        [|split; discriminate|congruence].
      specialize (Hl v r eq_refl).
      pose proof (skip_ws_length r) as Hsk.
      destruct (skip_ws r) as [|c r']; [split; discriminate|]. simpl in Hsk.
      destruct (N.eqb c 44).
      * destruct (IHe (v :: acc) r') as [Hf' Hl']; [lia|].
        split; [exact Hf'|]. intros v0 r0 Hr. apply Hl' in Hr. lia.
      * destruct (N.eqb c 93); [|split; discriminate].
        split; [discriminate|]. intros v0 r0 [= _ <-]. lia.
    + intros acc s Hs. cbn [parse_members].
      pose proof (skip_ws_length s) as Hsk.
      destruct (skip_ws s) as [|q r]; [split; discriminate|]. simpl in Hsk.
      destruct (N.eqb q 34); [|split; discriminate].
      destruct (parse_string_body r []) as [[k r1]|] eqn:Hb;
        [|split; discriminate].
      apply (parse_string_body_length (length r)) in Hb; [|lia].
      pose proof (skip_ws_length r1) as Hsk1.
      destruct (skip_ws r1) as [|colon r2]; [split; discriminate|].
      simpl in Hsk1.
      destruct (N.eqb colon 58); [|split; discriminate].
      destruct (IHv r2) as [Hf Hl]; [lia|].
      destruct (parse_value f r2) as [v r3| |] eqn:Hv;
        [|split; discriminate|congruence].
      specialize (Hl v r3 eq_refl).
      pose proof (skip_ws_length r3) as Hsk3.
      destruct (skip_ws r3) as [|c r4]; [split; discriminate|]. simpl in Hsk3.
      destruct (N.eqb c 44).
      * destruct (IHm ((k, v) :: acc) r4) as [Hf' Hl']; [lia|].
        split; [exact Hf'|]. intros v0 r0 Hr. apply Hl' in Hr. lia.
      * destruct (N.eqb c 125); [|split; discriminate].
        split; [discriminate|]. intros v0 r0 [= _ <-]. lia.
Qed.

(** [JSON.parse] gives the parser enough fuel for every text: [None] is
    always a syntax error. *)
Lemma JSON_parse_fuel (text : jsstring) :
  parse_value (S (2 * length text)) text <> POutOfFuel.
Proof. apply parse_fuel. lia. Qed.

(** ** What each operation touches *)

(** The timer table and [_reconnectTimer] are touched by
    [_clearReconnectTimer], [_scheduleReconnect] and the firing of a
    timer only; the socket table and [_ws] by [_closeWs], the socket
    events and the resumed [_openWsAsync] only. *)

Ltac unfold_ops :=
  unfold onopen, onclose, onerror, _openWsAsync_resume, retry_callback,
    _openWs, _closeWs, _clearReconnectTimer, _scheduleReconnect, canFetch,
    new_WebSocket, setTimeout, clearTimeout, detach_and_close, with_ext,
    with_sockets, with_timers, with_checks in *.

Lemma timers_ok_frame (w w' : World) :
  timers w' = timers w ->
  _reconnectTimer (ext w') = _reconnectTimer (ext w) ->
  timers_ok w -> timers_ok w'.
Proof. unfold timers_ok; intros -> ->; auto. Qed.

Lemma handle_ok_frame (w w' : World) :
  sockets w' = sockets w -> _ws (ext w') = _ws (ext w) ->
  handle_ok w -> handle_ok w'.
Proof. unfold handle_ok; intros -> ->; auto. Qed.

Lemma timers_ok_none (w : World) :
  (forall t tm, timers w !! t = Some tm -> timer_state tm <> Pending) ->
  timers_ok w.
Proof. intros Hn t tm Ht Hp. destruct (Hn t tm Ht Hp). Qed.

Lemma no_pending_of_none (w : World) :
  timers_ok w -> _reconnectTimer (ext w) = None ->
  forall t tm, timers w !! t = Some tm -> timer_state tm <> Pending.
Proof. intros Hok Hn t tm Ht Hp. specialize (Hok t tm Ht Hp). congruence. Qed.

(** After [_clearReconnectTimer] no timer is pending. *)
Lemma clearReconnectTimer_no_pending (w : World) :
  timers_ok w ->
  _reconnectTimer (ext (_clearReconnectTimer w)) = None /\
  forall t tm, timers (_clearReconnectTimer w) !! t = Some tm ->
               timer_state tm <> Pending.
Proof.
  intros Hok. unfold _clearReconnectTimer.
  destruct (_reconnectTimer (ext w)) as [t0|] eqn:Hh.
  - split; [reflexivity|]. simpl. intros t tm Ht Hp.
    destruct (decide (t = t0)) as [->|Hne].
    + rewrite list_lookup_alter_eq in Ht.
      destruct (timers w !! t0) as [tm0|] eqn:H0; simpl in Ht; [|discriminate].
      injection Ht as <-. destruct (timer_state tm0) eqn:Hs; simpl in Hp; congruence.
    + rewrite list_lookup_alter_ne in Ht by congruence.
      specialize (Hok t tm Ht Hp). congruence.
  - split; [exact Hh|]. apply no_pending_of_none; assumption.
Qed.

Lemma timers_ok_clearReconnectTimer (w : World) :
  timers_ok w -> timers_ok (_clearReconnectTimer w).
Proof. intros Hok. apply timers_ok_none, clearReconnectTimer_no_pending, Hok. Qed.

Lemma timers_ok_scheduleReconnect (w : World) :
  timers_ok w -> timers_ok (_scheduleReconnect w).
Proof.
  intros Hok. unfold _scheduleReconnect.
  destruct (negb (_shouldReconnect (ext w))); [exact Hok|].
  destruct (is_empty (_room (ext w))); [exact Hok|].
  destruct (_reconnectTimer (ext w)) eqn:Hh; [exact Hok|].
  simpl. intros t tm Ht Hp. simpl in *.
  apply lookup_app_Some in Ht as [Hl|[Hlen Hl]].
  - destruct (no_pending_of_none w Hok Hh t tm Hl Hp).
  - f_equal. destruct (t - length (timers w)) eqn:Hd; [lia|]. discriminate.
Qed.

Section Properties.
Context `{Platform}.

Ltac leaf :=
  intros; unfold session_part, index_ok in *;
  unfold _closeWs, _clearReconnectTimer, _scheduleReconnect, canFetch,
    new_WebSocket, setTimeout, clearTimeout, detach_and_close, with_ext,
    with_sockets, with_timers, with_checks in *;
  repeat case_match; simpl in *; try reflexivity; try lia; eauto.

(** *** The fields only the commands write *)

Lemma session_part_clearReconnectTimer (w : World) :
  session_part (_clearReconnectTimer w) = session_part w.
Proof. leaf. Qed.

Lemma session_part_closeWs (r : jsstring) (w : World) :
  session_part (_closeWs r w) = session_part w.
Proof. leaf. Qed.

Lemma session_part_scheduleReconnect (w : World) :
  session_part (_scheduleReconnect w) = session_part w.
Proof. leaf. Qed.

Lemma session_part_openWs (w : World) :
  session_part (_openWs w) = session_part w.
Proof.
  unfold _openWs. repeat case_match; try reflexivity.
  rewrite session_part_scheduleReconnect. reflexivity.
Qed.

Lemma session_part_resume (u : jsstring) (o : Settled) (w : World) :
  session_part (_openWsAsync_resume u o w) = session_part w.
Proof.
  unfold _openWsAsync_resume. destruct o as [[|]| |]; simpl;
    rewrite ?session_part_scheduleReconnect; reflexivity.
Qed.

Lemma session_part_onopen (w : World) : session_part (onopen w) = session_part w.
Proof. reflexivity. Qed.

Lemma session_part_onerror (w : World) : session_part (onerror w) = session_part w.
Proof. reflexivity. Qed.

Lemma session_part_onclose (w : World) : session_part (onclose w) = session_part w.
Proof. unfold onclose. rewrite session_part_scheduleReconnect. reflexivity. Qed.

Lemma session_part_retry_callback (w : World) :
  session_part (retry_callback w) = session_part w.
Proof.
  unfold retry_callback. repeat case_match;
    rewrite ?session_part_openWs; reflexivity.
Qed.

(** *** The backoff index *)

Lemma index_ok_scheduleReconnect (w : World) :
  index_ok w -> index_ok (_scheduleReconnect w).
Proof. leaf. Qed.

Lemma index_ok_clearReconnectTimer (w : World) :
  index_ok w -> index_ok (_clearReconnectTimer w).
Proof. leaf. Qed.

Lemma index_ok_closeWs (r : jsstring) (w : World) :
  index_ok w -> index_ok (_closeWs r w).
Proof. leaf. Qed.

Lemma index_ok_openWs (w : World) : index_ok w -> index_ok (_openWs w).
Proof.
  intros Hw. unfold _openWs. repeat case_match; try exact Hw.
  apply index_ok_scheduleReconnect. exact Hw.
Qed.

Lemma index_ok_resume (u : jsstring) (o : Settled) (w : World) :
  index_ok w -> index_ok (_openWsAsync_resume u o w).
Proof.
  intros Hw. unfold _openWsAsync_resume. destruct o as [[|]| |]; simpl;
    try apply index_ok_scheduleReconnect; exact Hw.
Qed.

Lemma index_ok_onopen (w : World) : index_ok (onopen w).
Proof. unfold index_ok; simpl; lia. Qed.

Lemma index_ok_onclose (w : World) : index_ok w -> index_ok (onclose w).
Proof. intros Hw. unfold onclose. apply index_ok_scheduleReconnect. exact Hw. Qed.

Lemma index_ok_retry_callback (w : World) :
  index_ok w -> index_ok (retry_callback w).
Proof.
  intros Hw. unfold retry_callback. repeat case_match; try exact Hw.
  apply index_ok_openWs. exact Hw.
Qed.

(** *** The timer table *)

Lemma timers_ok_closeWs (r : jsstring) (w : World) :
  timers_ok w -> timers_ok (_closeWs r w).
Proof. apply timers_ok_frame; leaf. Qed.

Lemma timers_ok_openWs (w : World) : timers_ok w -> timers_ok (_openWs w).
Proof.
  intros Hw. unfold _openWs. repeat case_match; try exact Hw.
  apply timers_ok_scheduleReconnect. exact Hw.
Qed.

Lemma timers_ok_resume (u : jsstring) (o : Settled) (w : World) :
  timers_ok w -> timers_ok (_openWsAsync_resume u o w).
Proof.
  intros Hw. unfold _openWsAsync_resume. destruct o as [[|]| |]; simpl;
    try apply timers_ok_scheduleReconnect; exact Hw.
Qed.

Lemma timers_ok_onclose (w : World) : timers_ok w -> timers_ok (onclose w).
Proof. intros Hw. unfold onclose. apply timers_ok_scheduleReconnect. exact Hw. Qed.

(** When a pending timer fires it is the one the extension holds, so
    that afterwards no timer is pending until the callback schedules a
    new one. *)
Lemma timers_ok_fires (t : nat) (tm : Timer) (w : World) :
  timers_ok w -> timers w !! t = Some tm -> timer_state tm = Pending ->
  timers_ok
    (retry_callback
       (with_timers (<[t := {| timer_delay := timer_delay tm;
                               timer_state := Fired |}]>) w)).
Proof.
  intros Hw Ht Hp.
  assert (Hnone : timers_ok
            (with_ext (set_reconnectTimer None)
               (with_timers (<[t := {| timer_delay := timer_delay tm;
                                       timer_state := Fired |}]>) w))).
  { apply timers_ok_none. simpl. intros t' tm' Ht' Hp'.
    destruct (decide (t = t')) as [<-|Hne].
    - rewrite list_lookup_insert_eq in Ht' by (eapply lookup_lt_Some; eauto).
      injection Ht' as <-. discriminate.
    - rewrite list_lookup_insert_ne in Ht' by assumption.
      pose proof (Hw t tm Ht Hp). pose proof (Hw t' tm' Ht' Hp'). congruence. }
  unfold retry_callback. repeat case_match; try exact Hnone.
  apply timers_ok_openWs. exact Hnone.
Qed.

(** *** The socket the extension holds *)

Lemma handle_ok_none (w : World) : _ws (ext w) = None -> handle_ok w.
Proof. intros Hn i Hi. congruence. Qed.

Lemma handle_ok_closeWs (r : jsstring) (w : World) : handle_ok (_closeWs r w).
Proof. apply handle_ok_none. leaf. Qed.

Lemma handle_ok_clearReconnectTimer (w : World) :
  handle_ok w -> handle_ok (_clearReconnectTimer w).
Proof. apply handle_ok_frame; leaf. Qed.

Lemma handle_ok_scheduleReconnect (w : World) :
  handle_ok w -> handle_ok (_scheduleReconnect w).
Proof. apply handle_ok_frame; leaf. Qed.

Lemma handle_ok_openWs (w : World) : handle_ok w -> handle_ok (_openWs w).
Proof.
  intros Hw. unfold _openWs. repeat case_match; try exact Hw.
  apply handle_ok_scheduleReconnect. exact Hw.
Qed.

Lemma handle_ok_retry_callback (w : World) :
  handle_ok w -> handle_ok (retry_callback w).
Proof.
  intros Hw. unfold retry_callback. repeat case_match; try exact Hw.
  apply handle_ok_openWs. exact Hw.
Qed.

Lemma handle_ok_onclose (w : World) : handle_ok (onclose w).
Proof.
  unfold onclose. apply handle_ok_scheduleReconnect, handle_ok_none.
  reflexivity.
Qed.

Lemma handle_ok_resume (u : jsstring) (o : Settled) (w : World) :
  handle_ok w -> handle_ok (_openWsAsync_resume u o w).
Proof.
  intros Hw. unfold _openWsAsync_resume.
  destruct o as [[|]| |];
    try (apply handle_ok_scheduleReconnect; try exact Hw;
         apply handle_ok_none; reflexivity).
  simpl. intros i [= <-]. eexists. split; [|split].
  - simpl. apply list_lookup_middle. reflexivity.
  - reflexivity.
  - reflexivity.
Qed.

(** A state change of one socket that keeps it live. *)
Lemma handle_ok_set_state (i : nat) (s : Socket) (st : ReadyState) (w : World) :
  handle_ok w -> sockets w !! i = Some s -> st <> CLOSED ->
  handle_ok (with_sockets (<[i := set_sock_state st s]>) w).
Proof.
  intros Hw Hs Hst j Hj. simpl in Hj. destruct (Hw j Hj) as (s' & Hs' & Hh & Hl).
  simpl. destruct (decide (i = j)) as [<-|Hne].
  - rewrite list_lookup_insert_eq by (eapply lookup_lt_Some; eauto).
    eexists; split; [reflexivity|]. simpl. split; [congruence|].
    unfold is_live; simpl. destruct st; congruence.
  - rewrite list_lookup_insert_ne by assumption. eauto.
Qed.

(** The close of a socket whose handlers are detached. *)
Lemma handle_ok_close_detached (i : nat) (s : Socket) (w : World) :
  handle_ok w -> sockets w !! i = Some s -> sock_handlers s = false ->
  handle_ok (with_sockets (<[i := set_sock_state CLOSED s]>) w).
Proof.
  intros Hw Hs Hd j Hj. simpl in Hj. destruct (Hw j Hj) as (s' & Hs' & Hh & Hl).
  simpl. destruct (decide (i = j)) as [<-|Hne]; [congruence|].
  rewrite list_lookup_insert_ne by assumption. eauto.
Qed.

(** *** The message handler writes the three facts only *)

Lemma onmessage_control (data : jsstring) (e : Ext) :
  let e' := fields_after (onmessage data e) in
  _connected e' = _connected e /\
  _room e' = _room e /\
  _wsBase e' = _wsBase e /\
  _defaultRoom e' = _defaultRoom e /\
  _ws e' = _ws e /\
  _shouldReconnect e' = _shouldReconnect e /\
  _reconnectTimer e' = _reconnectTimer e /\
  _backoffIndex e' = _backoffIndex e.
Proof. unfold onmessage. repeat case_match; simpl; repeat split. Qed.

Lemma onmessage_reconnectTimer (data : jsstring) (e : Ext) :
  _reconnectTimer (fields_after (onmessage data e)) = _reconnectTimer e.
Proof. apply onmessage_control. Qed.

Lemma onmessage_ws (data : jsstring) (e : Ext) :
  _ws (fields_after (onmessage data e)) = _ws e.
Proof. apply onmessage_control. Qed.

Lemma onmessage_backoffIndex (data : jsstring) (e : Ext) :
  _backoffIndex (fields_after (onmessage data e)) = _backoffIndex e.
Proof. apply onmessage_control. Qed.

(** *** Every event preserves the invariants *)

Lemma timers_ok_with_ext (f : Ext -> Ext) (w : World) :
  (forall e, _reconnectTimer (f e) = _reconnectTimer e) ->
  timers_ok w -> timers_ok (with_ext f w).
Proof. intros Hf. apply timers_ok_frame; [reflexivity|apply Hf]. Qed.

Lemma handle_ok_with_ext (f : Ext -> Ext) (w : World) :
  (forall e, _ws (f e) = _ws e) -> handle_ok w -> handle_ok (with_ext f w).
Proof. intros Hf. apply handle_ok_frame; [reflexivity|apply Hf]. Qed.

Lemma index_ok_with_ext (f : Ext -> Ext) (w : World) :
  (forall e, _backoffIndex (f e) = _backoffIndex e) ->
  index_ok w -> index_ok (with_ext f w).
Proof. unfold index_ok; simpl; intros ->; auto. Qed.

Lemma index_ok_reset (w : World) : index_ok (with_ext (set_backoffIndex 0) w).
Proof. unfold index_ok; simpl; lia. Qed.

Ltac chain :=
  unfold onopen, onerror;
  repeat first
    [ assumption
    | apply timers_ok_openWs | apply timers_ok_closeWs
    | apply timers_ok_clearReconnectTimer | apply timers_ok_scheduleReconnect
    | apply timers_ok_resume | apply timers_ok_onclose
    | apply timers_ok_with_ext; [intros; reflexivity|]
    | apply timers_ok_with_ext; [intros; apply onmessage_reconnectTimer|]
    | apply handle_ok_with_ext; [intros; apply onmessage_ws|]
    | apply index_ok_with_ext; [intros; apply onmessage_backoffIndex|]
    | apply (timers_ok_frame _ (with_sockets _ _)); [reflexivity|reflexivity|]
    | apply (timers_ok_frame _ (with_checks _ _)); [reflexivity|reflexivity|]
    | apply handle_ok_closeWs | apply handle_ok_onclose
    | apply handle_ok_openWs | apply handle_ok_clearReconnectTimer
    | apply handle_ok_scheduleReconnect | apply handle_ok_resume
    | apply handle_ok_retry_callback
    | apply handle_ok_with_ext; [intros; reflexivity|]
    | apply (handle_ok_frame _ (with_timers _ _)); [reflexivity|reflexivity|]
    | apply (handle_ok_frame _ (with_checks _ _)); [reflexivity|reflexivity|]
    | apply index_ok_onopen | apply index_ok_reset
    | apply index_ok_openWs | apply index_ok_closeWs
    | apply index_ok_clearReconnectTimer | apply index_ok_scheduleReconnect
    | apply index_ok_resume | apply index_ok_onclose
    | apply index_ok_retry_callback
    | apply index_ok_with_ext; [intros; reflexivity|]
    | apply (index_ok_with_ext (fun e => e)); [intros; reflexivity|] ].

Lemma timers_ok_setRoomInternal (room : jsstring) (auto : bool) (w : World) :
  timers_ok w -> timers_ok (setRoomInternal room auto w).
Proof. intros Hw. unfold setRoomInternal. repeat case_match; chain. Qed.

Lemma handle_ok_setRoomInternal (room : jsstring) (auto : bool) (w : World) :
  handle_ok w -> handle_ok (setRoomInternal room auto w).
Proof. intros Hw. unfold setRoomInternal. repeat case_match; chain. Qed.

Lemma index_ok_setRoomInternal (room : jsstring) (auto : bool) (w : World) :
  index_ok w -> index_ok (setRoomInternal room auto w).
Proof. intros Hw. unfold setRoomInternal. repeat case_match; chain. Qed.

Lemma timers_ok_step (ev : Event) (w : World) :
  timers_ok w -> timers_ok (step ev w).
Proof.
  intros Hw. destruct ev; simpl.
  - apply timers_ok_setRoomInternal, Hw.
  - unfold reconnect. repeat case_match; chain.
  - unfold disconnect. chain.
  - repeat case_match; chain.
  - destruct (timers w !! t) as [tm|] eqn:Ht; [|exact Hw].
    destruct (timer_state tm) eqn:Hp; try exact Hw.
    apply timers_ok_fires; assumption.
  - repeat case_match; chain.
  - repeat case_match; chain.
  - repeat case_match; chain.
  - repeat case_match; chain.
Qed.

Lemma handle_ok_step (ev : Event) (w : World) :
  handle_ok w -> handle_ok (step ev w).
Proof.
  intros Hw. destruct ev; simpl.
  - apply handle_ok_setRoomInternal, Hw.
  - unfold reconnect. repeat case_match; chain.
  - unfold disconnect. chain.
  - repeat case_match; chain.
  - repeat case_match; chain.
  - destruct (sockets w !! i) as [s|] eqn:Hs; [|exact Hw].
    destruct (sock_state s); try exact Hw.
    assert (handle_ok (with_sockets (<[i := set_sock_state OPEN s]>) w))
      by (apply handle_ok_set_state; [assumption|assumption|discriminate]).
    destruct (sock_handlers s); chain.
  - repeat case_match; chain.
  - repeat case_match; chain.
  - destruct (sockets w !! i) as [s|] eqn:Hs; [|exact Hw].
    destruct (sock_state s); try exact Hw;
      (destruct (sock_handlers s) eqn:Hh;
       [apply handle_ok_onclose|apply handle_ok_close_detached; assumption]).
Qed.

Lemma index_ok_step (ev : Event) (w : World) :
  index_ok w -> index_ok (step ev w).
Proof.
  intros Hw. destruct ev; simpl.
  - apply index_ok_setRoomInternal, Hw.
  - unfold reconnect. repeat case_match; chain.
  - unfold disconnect. chain.
  - repeat case_match; chain.
  - repeat case_match; chain.
  - repeat case_match; chain.
  - repeat case_match; chain.
  - repeat case_match; chain.
  - repeat case_match; chain.
Qed.

(** *** What the commands do to the fields they own *)

Lemma session_part_control (w : World) :
  (forall b, session_part (with_ext (set_connected b) w) = session_part w) /\
  (forall b, session_part (with_ext (set_wsBase b) w) = session_part w) /\
  (forall i, session_part (with_ext (set_ws i) w) = session_part w) /\
  (forall t, session_part (with_ext (set_reconnectTimer t) w) = session_part w) /\
  (forall n, session_part (with_ext (set_backoffIndex n) w) = session_part w) /\
  (forall f, session_part (with_sockets f w) = session_part w) /\
  (forall f, session_part (with_timers f w) = session_part w) /\
  (forall f, session_part (with_checks f w) = session_part w).
Proof. repeat split. Qed.

Lemma session_part_set_connected (b : bool) (w : World) :
  session_part (with_ext (set_connected b) w) = session_part w.
Proof. reflexivity. Qed.

Lemma session_part_set_backoffIndex (n : nat) (w : World) :
  session_part (with_ext (set_backoffIndex n) w) = session_part w.
Proof. reflexivity. Qed.

Lemma session_part_set_reconnectTimer (t : option nat) (w : World) :
  session_part (with_ext (set_reconnectTimer t) w) = session_part w.
Proof. reflexivity. Qed.

Lemma session_part_with_sockets (f : list Socket -> list Socket) (w : World) :
  session_part (with_sockets f w) = session_part w.
Proof. reflexivity. Qed.

Lemma session_part_with_timers (f : list Timer -> list Timer) (w : World) :
  session_part (with_timers f w) = session_part w.
Proof. reflexivity. Qed.

Lemma session_part_with_checks (f : list Check -> list Check) (w : World) :
  session_part (with_checks f w) = session_part w.
Proof. reflexivity. Qed.

#[local] Hint Rewrite session_part_clearReconnectTimer session_part_closeWs
  session_part_scheduleReconnect session_part_openWs session_part_resume
  session_part_onopen session_part_onerror session_part_onclose
  session_part_retry_callback session_part_set_connected
  session_part_set_backoffIndex session_part_set_reconnectTimer
  session_part_with_sockets session_part_with_timers
  session_part_with_checks : session.

Lemma setRoomInternal_session (room : jsstring) (auto : bool) (w : World) :
  session_part (setRoomInternal room auto w) =
  if is_empty room then
    ([], _defaultRoom (ext w), _gesture (ext w), _confidence (ext w),
     _subscribers (ext w),
     if auto then _shouldReconnect (ext w) else false)
  else if (streq room (_room (ext w)) && has_ws w)%bool then
    (_room (ext w), room, _gesture (ext w), _confidence (ext w),
     _subscribers (ext w), _shouldReconnect (ext w))
  else (room, room, [], pos_zero, pos_zero, true).
Proof.
  unfold setRoomInternal, has_ws.
  destruct (is_empty room).
  - destruct auto; simpl; autorewrite with session; reflexivity.
  - cbn [with_ext ext set_defaultRoom _room _ws].
    destruct (streq room (_room (ext w)) && _)%bool; [reflexivity|].
    autorewrite with session. reflexivity.
Qed.

Lemma reconnect_session (w : World) :
  session_part (reconnect w) =
  (_room (ext w), _defaultRoom (ext w), _gesture (ext w), _confidence (ext w),
   _subscribers (ext w),
   if is_empty (_room (ext w)) then _shouldReconnect (ext w) else true).
Proof.
  unfold reconnect. destruct (is_empty (_room (ext w))); [reflexivity|].
  autorewrite with session. reflexivity.
Qed.

Lemma disconnect_session (w : World) :
  session_part (disconnect w) =
  (_room (ext w), _defaultRoom (ext w), _gesture (ext w), _confidence (ext w),
   _subscribers (ext w), false).
Proof. unfold disconnect. autorewrite with session. reflexivity. Qed.

(** The events other than the commands and an inbound message. *)
Definition internal_event (ev : Event) : bool :=
  match ev with
  | SetRoom _ | Reconnect | Disconnect | WsMessage _ _ => false
  | _ => true
  end.

Lemma session_part_internal (ev : Event) (w : World) :
  internal_event ev = true -> session_part (step ev w) = session_part w.
Proof.
  destruct ev; try discriminate; intros _; simpl; repeat case_match;
    autorewrite with session; reflexivity.
Qed.

Lemma toFiniteNumber_finite (x : jsval) (fallback n : number) :
  Number_isFinite fallback = true ->
  toFiniteNumber x fallback = Normal n ->
  Number_isFinite n = true.
Proof.
  intros Hf. unfold toFiniteNumber.
  destruct (ToNumber x) as [m|]; [|discriminate].
  intros [= <-]. destruct (Number_isFinite m) eqn:Hn; assumption.
Qed.

Lemma onmessage_finite (data : jsstring) (e : Ext) :
  Number_isFinite (_confidence e) = true ->
  Number_isFinite (_subscribers e) = true ->
  Number_isFinite (_confidence (fields_after (onmessage data e))) = true /\
  Number_isFinite (_subscribers (fields_after (onmessage data e))) = true.
Proof.
  intros Hc Hs. unfold onmessage.
  repeat case_match; simpl; split; try assumption;
    match goal with
    | Hn : toFiniteNumber ?x ?fb = Normal ?n |- Number_isFinite ?n = true =>
        apply (toFiniteNumber_finite x fb n);
        [first [assumption|reflexivity]|exact Hn]
    end.
Qed.

Lemma default_ok_session (w w' : World) :
  _room (ext w') = _room (ext w) ->
  _defaultRoom (ext w') = _defaultRoom (ext w) ->
  default_ok w -> default_ok w'.
Proof. unfold default_ok. intros -> ->. auto. Qed.

Lemma facts_finite_session (w w' : World) :
  _confidence (ext w') = _confidence (ext w) ->
  _subscribers (ext w') = _subscribers (ext w) ->
  facts_finite w -> facts_finite w'.
Proof. unfold facts_finite. intros -> ->. auto. Qed.

Lemma session_fields (w w' : World) :
  session_part w' = session_part w ->
  _room (ext w') = _room (ext w) /\
  _defaultRoom (ext w') = _defaultRoom (ext w) /\
  _gesture (ext w') = _gesture (ext w) /\
  _confidence (ext w') = _confidence (ext w) /\
  _subscribers (ext w') = _subscribers (ext w) /\
  _shouldReconnect (ext w') = _shouldReconnect (ext w).
Proof. unfold session_part. intros [= -> -> -> -> -> ->]. repeat split. Qed.

Lemma default_ok_setRoomInternal (room : jsstring) (auto : bool) (w : World) :
  default_ok w -> default_ok (setRoomInternal room auto w).
Proof.
  intros Hw. pose proof (setRoomInternal_session room auto w) as Hs.
  unfold default_ok. unfold session_part in Hs at 1.
  destruct (is_empty room) eqn:He.
  - injection Hs as Hr _ _ _ _ _. congruence.
  - destruct (streq room (_room (ext w)) && has_ws w)%bool eqn:Hn;
      injection Hs as Hr Hd _ _ _ _; intros _; rewrite Hr, Hd; [|reflexivity].
    apply andb_true_iff in Hn as [Hn _]. apply streq_eq in Hn. congruence.
Qed.

Lemma facts_finite_setRoomInternal (room : jsstring) (auto : bool) (w : World) :
  facts_finite w -> facts_finite (setRoomInternal room auto w).
Proof.
  intros [Hc Hs']. pose proof (setRoomInternal_session room auto w) as Hs.
  unfold facts_finite. unfold session_part in Hs at 1.
  destruct (is_empty room); [|destruct (_ && _)%bool];
    injection Hs as _ _ _ -> ->; auto.
Qed.

Lemma default_ok_step (ev : Event) (w : World) :
  default_ok w -> default_ok (step ev w).
Proof.
  intros Hw. destruct ev;
    try (apply (default_ok_session w); [| |exact Hw];
         apply (session_fields w), session_part_internal; reflexivity).
  - apply default_ok_setRoomInternal, Hw.
  - change (step Reconnect w) with (reconnect w).
    pose proof (reconnect_session w) as Hs; unfold session_part in Hs at 1.
    apply (default_ok_session w); [| |exact Hw]; congruence.
  - change (step Disconnect w) with (disconnect w).
    pose proof (disconnect_session w) as Hs; unfold session_part in Hs at 1.
    apply (default_ok_session w); [| |exact Hw]; congruence.
  - simpl. repeat case_match; try exact Hw.
    apply (default_ok_session w); [| |exact Hw]; apply onmessage_control.
Qed.

Lemma facts_finite_step (ev : Event) (w : World) :
  facts_finite w -> facts_finite (step ev w).
Proof.
  intros Hw. destruct ev;
    try (apply (facts_finite_session w); [| |exact Hw];
         apply (session_fields w), session_part_internal; reflexivity).
  - apply facts_finite_setRoomInternal, Hw.
  - change (step Reconnect w) with (reconnect w).
    pose proof (reconnect_session w) as Hs; unfold session_part in Hs at 1.
    apply (facts_finite_session w); [| |exact Hw]; congruence.
  - change (step Disconnect w) with (disconnect w).
    pose proof (disconnect_session w) as Hs; unfold session_part in Hs at 1.
    apply (facts_finite_session w); [| |exact Hw]; congruence.
  - simpl. repeat case_match; try exact Hw.
    destruct Hw. apply onmessage_finite; assumption.
Qed.

(** The invariants hold when the extension has been constructed, and
    every event keeps them. *)
Lemma Inv_setRoomInternal (room : jsstring) (auto : bool) (w : World) :
  Inv w -> Inv (setRoomInternal room auto w).
Proof.
  intros [H1 H2 H3 H4 H5]. split.
  - apply timers_ok_setRoomInternal, H1.
  - apply handle_ok_setRoomInternal, H2.
  - apply default_ok_setRoomInternal, H3.
  - apply index_ok_setRoomInternal, H4.
  - apply facts_finite_setRoomInternal, H5.
Qed.

Lemma Inv_new (wsBaseFromScript roomFromScript : jsstring) :
  Inv (SmartteamLiveExtension wsBaseFromScript roomFromScript).
Proof.
  unfold SmartteamLiveExtension.
  match goal with
  | |- context [with_ext (set_defaultRoom ?d) ?w0] =>
      assert (Hi : Inv (with_ext (set_defaultRoom d) w0))
  end.
  { split.
    - intros t tm Ht; discriminate.
    - intros i Hi; discriminate.
    - intros Hr; simpl in Hr; congruence.
    - unfold index_ok; simpl; lia.
    - split; reflexivity. }
  destruct (negb (is_empty (normalizeRoom roomFromScript))).
  - apply Inv_setRoomInternal, Hi.
  - destruct Hi as [H1 H2 H3 H4 H5]. split; assumption.
Qed.

Lemma Inv_step (ev : Event) (w : World) : Inv w -> Inv (step ev w).
Proof.
  intros [H1 H2 H3 H4 H5]. split.
  - apply timers_ok_step, H1.
  - apply handle_ok_step, H2.
  - apply default_ok_step, H3.
  - apply index_ok_step, H4.
  - apply facts_finite_step, H5.
Qed.

Lemma Inv_run (evs : list Event) (w : World) : Inv w -> Inv (run evs w).
Proof.
  revert w. induction evs as [|ev evs IH]; intros w Hw; [exact Hw|].
  apply IH, Inv_step, Hw.
Qed.

(** ** Lists *)

Lemma filter_none {A} (P : A -> Prop) `{forall x, Decision (P x)} (l : list A) :
  (forall i x, l !! i = Some x -> ~ P x) -> filter P l = [].
Proof.
  induction l as [|a l IH]; intros Hn; [reflexivity|].
  rewrite filter_cons. destruct (decide (P a)) as [Hp|_].
  - destruct (Hn 0 a eq_refl Hp).
  - apply IH. intros i x Hi. apply (Hn (S i) x Hi).
Qed.

Lemma filter_at_most_one {A} (P : A -> Prop) `{forall x, Decision (P x)}
    (l : list A) :
  (forall i j x y, l !! i = Some x -> l !! j = Some y -> P x -> P y -> i = j) ->
  length (filter P l) <= 1.
Proof.
  induction l as [|a l IH]; intros Hu; [simpl; lia|].
  rewrite filter_cons. destruct (decide (P a)) as [Hp|_].
  - rewrite (filter_none P l); [simpl; lia|].
    intros i x Hi Hx. specialize (Hu 0 (S i) a x eq_refl Hi Hp Hx). discriminate.
  - apply IH. intros i j x y Hi Hj Hx Hy.
    specialize (Hu (S i) (S j) x y Hi Hj Hx Hy). congruence.
Qed.

Lemma is_pending_true (tm : Timer) :
  is_pending tm = true <-> timer_state tm = Pending.
Proof. unfold is_pending. destruct (timer_state tm); split; congruence. Qed.

(** In a world that satisfies the invariants at most one retry is
    pending, and none when [_reconnectTimer] is [null]. *)
Lemma pending_retries_at_most_one (w : World) :
  timers_ok w -> length (pending_retries w) <= 1.
Proof.
  intros Hw. unfold pending_retries. apply filter_at_most_one.
  intros i j x y Hi Hj Hx%is_pending_true Hy%is_pending_true.
  pose proof (Hw i x Hi Hx). pose proof (Hw j y Hj Hy). congruence.
Qed.

Lemma pending_retries_none (w : World) :
  timers_ok w -> _reconnectTimer (ext w) = None -> pending_retries w = [].
Proof.
  intros Hw Hn. unfold pending_retries. apply filter_none.
  intros i x Hi Hx%is_pending_true.
  exact (no_pending_of_none w Hw Hn i x Hi Hx).
Qed.

(** ** What [_clearReconnectTimer] and [_closeWs] leave alone *)

Lemma closeWs_timer_part (r : jsstring) (w : World) :
  timers (_closeWs r w) = timers w /\
  checks (_closeWs r w) = checks w /\
  _reconnectTimer (ext (_closeWs r w)) = _reconnectTimer (ext w) /\
  _connected (ext (_closeWs r w)) = _connected (ext w) /\
  _backoffIndex (ext (_closeWs r w)) = _backoffIndex (ext w) /\
  _ws (ext (_closeWs r w)) = None /\
  length (sockets (_closeWs r w)) = length (sockets w).
Proof.
  unfold _closeWs, detach_and_close. destruct (_ws (ext w)); simpl;
    rewrite ?length_alter; repeat split.
Qed.

Lemma clearReconnectTimer_socket_part (w : World) :
  sockets (_clearReconnectTimer w) = sockets w /\
  checks (_clearReconnectTimer w) = checks w /\
  _ws (ext (_clearReconnectTimer w)) = _ws (ext w) /\
  _connected (ext (_clearReconnectTimer w)) = _connected (ext w) /\
  _backoffIndex (ext (_clearReconnectTimer w)) = _backoffIndex (ext w) /\
  map timer_delay (timers (_clearReconnectTimer w)) = map timer_delay (timers w).
Proof.
  unfold _clearReconnectTimer, clearTimeout.
  destruct (_reconnectTimer (ext w)) as [t|]; simpl; repeat split.
  generalize (timers w). clear. intros l. revert t.
  induction l as [|a l IH]; intros [|t]; simpl; try reflexivity.
  - destruct (timer_state a); reflexivity.
  - f_equal. apply IH.
Qed.

(** [_closeWs] closes the socket the extension holds, with code 1000 and
    the given reason, after detaching its handlers. *)
Lemma closeWs_closes (r : jsstring) (w : World) (i : nat) (s : Socket) :
  _ws (ext w) = Some i -> sockets w !! i = Some s -> r <> [] ->
  sockets (_closeWs r w) !! i =
  Some {| sock_url := sock_url s; sock_handlers := false;
          sock_state := CLOSED; sock_close := Some (1000%Z, r) |}.
Proof.
  intros Hi Hs Hr. unfold _closeWs, detach_and_close. rewrite Hi. simpl.
  rewrite list_lookup_alter_eq, Hs. simpl.
  destruct r; [congruence|reflexivity].
Qed.

(** ** Clearing the room *)

(** What [setRoom] with a value that normalizes to the empty string does
    in every world the extension can reach: it clears the room,
    withdraws the reconnection intent, leaves no retry pending, closes
    the socket the extension holds (handlers detached, code 1000) and
    forgets it, and leaves label, confidence and subscriber count as
    they were; the caller sees [connected = false].  No socket,
    permission check or timer is created.  A live socket the extension
    does not hold is not closed: see the runs at the end. *)
Theorem setRoom_empty_clears
    (wsBaseFromScript roomFromScript : jsstring) (evs : list Event)
    (ROOM : jsstring) :
  normalizeRoom ROOM = [] ->
  let w := run evs (SmartteamLiveExtension wsBaseFromScript roomFromScript) in
  let w' := step (SetRoom ROOM) w in
  getRoom (ext w') = [] /\
  _shouldReconnect (ext w') = false /\
  _reconnectTimer (ext w') = None /\
  pending_retries w' = [] /\
  _ws (ext w') = None /\
  (forall i, _ws (ext w) = Some i ->
     exists s s', sockets w !! i = Some s /\ is_live s = true /\
       sockets w' !! i = Some s' /\ is_live s' = false /\
       sock_handlers s' = false /\
       sock_close s' = Some (1000%Z, str "room cleared")) /\
  getGesture (ext w') = getGesture (ext w) /\
  _confidence (ext w') = _confidence (ext w) /\
  _subscribers (ext w') = _subscribers (ext w) /\
  isConnected (ext w') = false /\
  length (sockets w') = length (sockets w) /\
  checks w' = checks w /\
  scheduled_delays w' = scheduled_delays w.
Proof.
  intros Hroom w w'.
  assert (Hinv : Inv w) by apply Inv_run, Inv_new.
  assert (Hinv' : Inv w') by apply Inv_step, Hinv.
  assert (Hw' : w' = _closeWs (str "room cleared")
                       (_clearReconnectTimer
                          (with_ext (set_shouldReconnect false)
                             (with_ext (set_connected false)
                                (with_ext (set_room []) w))))).
  { unfold w'. simpl. unfold setRoom. rewrite Hroom. reflexivity. }
  pose proof (setRoomInternal_session [] false w) as Hs.
  change (setRoomInternal [] false w) with (setRoomInternal (normalizeRoom []) false w) in Hs.
  assert (Hs' : session_part w' =
                ([], _defaultRoom (ext w), _gesture (ext w),
                 _confidence (ext w), _subscribers (ext w), false)).
  { unfold w'. simpl. unfold setRoom. rewrite Hroom. exact Hs. }
  unfold session_part in Hs'. injection Hs' as Hr _ Hg Hc Hsub Hi.
  set (w1 := with_ext (set_shouldReconnect false)
               (with_ext (set_connected false) (with_ext (set_room []) w))) in *.
  destruct (closeWs_timer_part (str "room cleared") (_clearReconnectTimer w1))
    as (Ht & Hck & Hrt & Hcon & _ & Hws & Hlen).
  destruct (clearReconnectTimer_socket_part w1) as (Hso & Hck1 & Hws1 & Hcon1 & _ & Hd).
  assert (Hok1 : timers_ok w1).
  { apply timers_ok_with_ext; [reflexivity|].
    apply timers_ok_with_ext; [reflexivity|].
    apply timers_ok_with_ext; [reflexivity|]. apply Hinv. }
  destruct (clearReconnectTimer_no_pending w1 Hok1) as [Hnone _].
  assert (Htimer : _reconnectTimer (ext w') = None) by (rewrite Hw', Hrt; exact Hnone).
  repeat split; try assumption.
  - apply pending_retries_none; [apply Hinv'|exact Htimer].
  - rewrite Hw'. exact Hws.
  - intros i Hi'. destruct (inv_handle w Hinv i Hi') as (s & Hsi & _ & Hl).
    exists s. eexists. split; [exact Hsi|]. split; [exact Hl|].
    rewrite Hw'. split.
    + apply closeWs_closes with (s := s).
      * rewrite Hws1. exact Hi'.
      * rewrite Hso. exact Hsi.
      * discriminate.
    + repeat split.
  - unfold isConnected. rewrite Hw', Hcon, Hcon1. reflexivity.
  - rewrite Hw', Hlen, Hso. reflexivity.
  - rewrite Hw', Hck, Hck1. reflexivity.
  - unfold scheduled_delays. rewrite Hw', Ht, Hd. reflexivity.
Qed.

(** ** The message interpreter *)

Lemma with_ext_same (f : Ext -> Ext) (w : World) :
  f (ext w) = ext w -> with_ext f w = w.
Proof. destruct w; unfold with_ext; simpl; intros ->; reflexivity. Qed.

(** A message event runs [onmessage] when the socket is open and its
    handlers are attached, and does nothing otherwise. *)
Lemma step_message (w : World) (i : nat) (data : jsstring) :
  step (WsMessage i data) w =
    with_ext (fun e => fields_after (onmessage data e)) w \/
  step (WsMessage i data) w = w.
Proof. simpl. repeat case_match; auto. Qed.

Lemma step_message_open (w : World) (i : nat) (s : Socket) (data : jsstring) :
  sockets w !! i = Some s -> sock_state s = OPEN -> sock_handlers s = true ->
  step (WsMessage i data) w =
  with_ext (fun e => fields_after (onmessage data e)) w.
Proof. intros Hs Ho Hh. simpl. rewrite Hs, Ho, Hh. reflexivity. Qed.

Lemma onmessage_discarded (data : jsstring) (e : Ext) :
  discarded_frame data -> onmessage data e = Returned e.
Proof.
  unfold discarded_frame, onmessage, safeJsonParse.
  destruct (JSON_parse data) as [v|]; [|reflexivity].
  destruct v as [| |b|n|t|l|members]; simpl; try reflexivity.
  - destruct b; reflexivity.
  - destruct n as [| | |[]]; reflexivity.
  - destruct t; reflexivity.
  - intros [-> ->]. reflexivity.
Qed.

(** C6.  For a frame whose payload does not decode, or decodes to
    something that is not a keyed structure, or to one whose [type] is
    neither ["gesture"] nor ["presence"], the handler returns without
    throwing and with every field as it was, and the message event
    leaves the world unchanged, whatever the socket and the world.  In
    particular, when a presence frame with 3 subscribers is followed by
    such a frame, the subscriber count reported is still 3. *)
Theorem discarded_frame_changes_nothing
    (w : World) (i : nat) (data : jsstring) :
  discarded_frame data ->
  onmessage data (ext w) = Returned (ext w) /\
  step (WsMessage i data) w = w /\
  (forall s, sockets w !! i = Some s -> sock_state s = OPEN ->
             sock_handlers s = true ->
     getSubscribers
       (ext (run [WsMessage i (json "{'type':'presence','subscribers':3}");
                  WsMessage i data] w)) = Normal (num_of_Z 3)).
Proof.
  intros Hd.
  assert (Hstep : forall w0, step (WsMessage i data) w0 = w0).
  { intros w0. destruct (step_message w0 i data) as [->| ->]; [|reflexivity].
    apply with_ext_same. rewrite onmessage_discarded by exact Hd. reflexivity. }
  split; [apply onmessage_discarded, Hd|]. split; [apply Hstep|].
  intros s Hs Ho Hh. unfold run, fold_left. rewrite Hstep.
  rewrite (step_message_open w i s _ Hs Ho Hh).
  unfold getSubscribers. cbn [ext with_ext].
  vm_compute. reflexivity.
Qed.

(** What the handler does with a frame that decodes to a keyed
    structure of kind ["gesture"] or ["presence"]: when the coercion of
    the number field does not throw, it returns after storing, for a
    gesture, the label (or the empty string when it is no string) and the
    coerced confidence when that is finite and 0 otherwise, and, for a
    presence, the coerced subscribers when that is finite and the current
    count otherwise; when the coercion throws, the handler throws and has
    stored nothing. *)
Lemma onmessage_overwrites_facts
    (data : jsstring) (members : list (jsstring * jsval)) (e : Ext) :
  JSON_parse data = Some (JObj members) ->
  let msg := JObj members in
  (is_string (get msg (str "type")) (str "gesture") = true ->
   onmessage data e =
   match ToNumber (get msg (str "confidence")) with
   | Normal n =>
       Returned
         {| _connected := _connected e; _room := _room e;
            _wsBase := _wsBase e;
            _gesture := match get msg (str "label") with
                        | JStr l => l
                        | _ => []
                        end;
            _confidence := if Number_isFinite n then n else pos_zero;
            _subscribers := _subscribers e;
            _defaultRoom := _defaultRoom e; _ws := _ws e;
            _shouldReconnect := _shouldReconnect e;
            _reconnectTimer := _reconnectTimer e;
            _backoffIndex := _backoffIndex e |}
   | Throw => Threw e
   end) /\
  (is_string (get msg (str "type")) (str "presence") = true ->
   onmessage data e =
   match ToNumber (get msg (str "subscribers")) with
   | Normal n =>
       Returned
         {| _connected := _connected e; _room := _room e;
            _wsBase := _wsBase e; _gesture := _gesture e;
            _confidence := _confidence e;
            _subscribers := if Number_isFinite n then n else _subscribers e;
            _defaultRoom := _defaultRoom e; _ws := _ws e;
            _shouldReconnect := _shouldReconnect e;
            _reconnectTimer := _reconnectTimer e;
            _backoffIndex := _backoffIndex e |}
   | Throw => Threw e
   end).
Proof.
  intros Hp msg. unfold onmessage, safeJsonParse, toFiniteNumber.
  rewrite Hp. fold msg. cbn [truthy typeof negb orb]. split.
  - intros ->. destruct (ToNumber _); reflexivity.
  - intros Hpr.
    destruct (is_string (get msg (str "type")) (str "gesture")) eqn:Hg.
    + exfalso. destruct (get msg (str "type")); try discriminate.
      simpl in Hg, Hpr. apply streq_eq in Hg, Hpr. subst. discriminate.
    + rewrite Hpr. destruct (ToNumber _); reflexivity.
Qed.

(** A missing field reads as [undefined], which is coerced to NaN; the
    coercion of a number is the number. *)
Lemma ToNumber_primitive :
  ToNumber JUndefined = Normal NaN /\
  ToNumber JNull = Normal pos_zero /\
  (forall n, ToNumber (JNum n) = Normal n) /\
  (forall s, ToNumber (JStr s) = Normal (StringToNumber s)).
Proof. repeat split. Qed.

(** ** The confidence reporter *)

Lemma number_eqb_eq (a b : number) : number_eqb a b = true -> a = b.
Proof.
  destruct a as [s|s| |s m e], b as [t|t| |t n f]; simpl; try discriminate.
  - intros Hb%Bool.eqb_prop. congruence.
  - intros Hb%Bool.eqb_prop. congruence.
  - reflexivity.
  - rewrite !andb_true_iff. intros [[Hs%Bool.eqb_prop Hm%Pos.eqb_eq] He%Z.eqb_eq].
    congruence.
Qed.

(** [Math.round] of a finite number with a fractional part is the
    integer [n] with [n - 1/2 <= x < n + 1/2]: the nearest integer, the
    upper one on a tie. *)
Lemma round_half_up_nearest (s : bool) (m : positive) (e : Z) :
  (e < 0)%Z ->
  let n := round_half_up s m e in
  ((2 * n - 1) * 2 ^ (- e) <= 2 * cond_Zopp s (Zpos m)
   < (2 * n + 1) * 2 ^ (- e))%Z.
Proof.
  intros He n. unfold n, round_half_up.
  replace (1 - e)%Z with (Z.succ (- e)) by lia.
  rewrite Z.pow_succ_r by lia.
  assert (HD : (0 < 2 ^ (- e))%Z) by (apply Z.pow_pos_nonneg; lia).
  set (D := (2 ^ (- e))%Z) in *. set (x := cond_Zopp s (Z.pos m)).
  pose proof (Z.div_mod (2 * x + D) (2 * D) ltac:(lia)) as Hdm.
  pose proof (Z.mod_pos_bound (2 * x + D) (2 * D) ltac:(lia)) as Hb.
  nia.
Qed.

Lemma Math_round_fractional (s : bool) (m : positive) (e : Z) :
  (e < 0)%Z ->
  Math_round (S754_finite s m e) =
  binary_normalize prec emax (round_half_up s m e) 0 s.
Proof. intros He. unfold Math_round. destruct (Z.leb_spec 0 e); [lia|reflexivity]. Qed.

Lemma round2_not_negzero (n : number) : round2 n <> neg_zero.
Proof.
  unfold round2.
  destruct (div (Math_round (mul n (num_of_Z 100))) (num_of_Z 100))
    as [[|]|[|]| |[|] m e]; simpl; discriminate.
Qed.

Lemma getConfidence_hundredths :
  forallb (fun k => number_eqb (round2 (hundredth k)) (hundredth k))
    (seq 0 101) &&
  forallb (fun k => Number_isFinite (hundredth k)) (seq 0 101) = true.
Proof. vm_compute. reflexivity. Qed.

(** What the confidence reporter does for every stored value: it never
    throws and never returns -0; a stored -0.00001 is reported as +0,
    and each of the values 0.00, 0.01, ..., 1.00 is reported unchanged.
    With [c] the stored value, read as 0 when it is not finite, the
    result is [q], the quotient [Math.round(c * 100) / 100] of binary64
    arithmetic, with -0 replaced by +0.  That it is [c] rounded to two
    decimals is not said here, and is false where [c * 100] overflows:
    see the runs at the end. *)
Theorem getConfidence_rounds (e : Ext) :
  let c := if Number_isFinite (_confidence e) then _confidence e
           else pos_zero in
  let q := div (Math_round (mul c (num_of_Z 100))) (num_of_Z 100) in
  exists r,
    getConfidence e = Normal r /\
    r <> neg_zero /\
    (q <> neg_zero -> r = q) /\
    (q = neg_zero -> r = pos_zero) /\
    (_confidence e = decimal_to_number true 1 (-5) -> r = pos_zero) /\
    (forall k, k <= 100 -> _confidence e = hundredth k -> r = hundredth k).
Proof.
  cbv zeta. unfold getConfidence, toFiniteNumber, ToNumber.
  cbn [cannot_convert number_of].
  generalize (_confidence e). clear e. intros c0.
  set (c := if Number_isFinite c0 then c0 else pos_zero).
  exists (round2 c). split; [reflexivity|].
  split; [apply round2_not_negzero|]. split; [|split; [|split]].
  - intros Hq. unfold round2.
    destruct (div (Math_round (mul c (num_of_Z 100))) (num_of_Z 100))
      as [[|]|[|]| |[|] m x]; try reflexivity.
    destruct (Hq eq_refl).
  - intros Hq. unfold round2. rewrite Hq. reflexivity.
  - intros Hc. unfold c. rewrite Hc. vm_compute. reflexivity.
  - intros k Hk Hc.
    pose proof getConfidence_hundredths as Hall.
    apply andb_true_iff in Hall as [Hr Hf].
    rewrite forallb_forall in Hr, Hf.
    assert (Hin : In k (seq 0 101)) by (apply in_seq; lia).
    unfold c. rewrite Hc, (Hf k Hin). apply number_eqb_eq, Hr, Hin.
Qed.

(** ** The events, one at a time *)

Lemma ext_closeWs (r : jsstring) (w : World) :
  ext (_closeWs r w) = set_ws None (ext w).
Proof. unfold _closeWs. destruct (_ws (ext w)); reflexivity. Qed.

Lemma ext_clearReconnectTimer (w : World) :
  ext (_clearReconnectTimer w) = set_reconnectTimer None (ext w).
Proof.
  unfold _clearReconnectTimer.
  destruct (_reconnectTimer (ext w)) eqn:Ht; [reflexivity|].
  destruct (ext w); simpl in *; subst; reflexivity.
Qed.

Lemma nth_backoff (idx : nat) :
  nth (Nat.min idx (length BACKOFF_MS - 1)) BACKOFF_MS 0%Z = backoff_delay idx.
Proof. destruct idx as [|[|[|[|idx]]]]; reflexivity. Qed.

Lemma backoff_delay_saturates (n : nat) :
  backoff_delay (Nat.min n 3) = backoff_delay n.
Proof. destruct n as [|[|[|[|n]]]]; reflexivity. Qed.

(** With the intent flag up, a room set and no retry pending,
    [_scheduleReconnect] sets one timer, with the delay the table gives
    for the current index, and moves the index on by one, up to the
    last entry. *)
Lemma scheduleReconnect_schedules (w : World) :
  _shouldReconnect (ext w) = true -> _room (ext w) <> [] ->
  _reconnectTimer (ext w) = None ->
  _scheduleReconnect w =
  with_ext (set_reconnectTimer (Some (length (timers w))))
    (with_timers
       (fun l => l ++ [{| timer_delay := backoff_delay (_backoffIndex (ext w));
                          timer_state := Pending |}])
       (with_ext (set_backoffIndex (Nat.min (_backoffIndex (ext w) + 1) 3)) w)).
Proof.
  intros Hi Hr Ht. unfold _scheduleReconnect.
  rewrite Hi, Ht. apply is_empty_false in Hr. rewrite Hr.
  cbn [negb]. rewrite nth_backoff. reflexivity.
Qed.

(** Without the intent flag, or without a room, or with a retry
    pending, it does nothing. *)
Lemma scheduleReconnect_idle (w : World) :
  _shouldReconnect (ext w) = false \/ _room (ext w) = [] \/
  _reconnectTimer (ext w) <> None ->
  _scheduleReconnect w = w.
Proof.
  unfold _scheduleReconnect. intros [->| [->|Ht]]; [reflexivity| |].
  - destruct (negb _); reflexivity.
  - destruct (negb _); [reflexivity|]. destruct (is_empty _); [reflexivity|].
    destruct (_reconnectTimer (ext w)); [reflexivity|congruence].
Qed.

Lemma openWs_requests (w : World) (u : jsstring) :
  _room (ext w) <> [] -> _shouldReconnect (ext w) = true ->
  _buildWsUrl (ext w) = Some u ->
  _openWs w = canFetch u w.
Proof.
  intros Hr%is_empty_false Hi Hu. unfold _openWs.
  rewrite Hr, Hi, Hu. reflexivity.
Qed.

Lemma step_settle (w : World) (c : nat) (ck : Check) (o : Settled) :
  checks w !! c = Some ck -> check_pending ck = true ->
  step (CanFetchSettles c o) w =
  _openWsAsync_resume (check_url ck) o
    (with_checks (<[c := {| check_url := check_url ck;
                            check_pending := false |}]>) w).
Proof. intros Hc Hp. simpl. rewrite Hc, Hp. reflexivity. Qed.

Lemma step_fire (w : World) (t : nat) (tm : Timer) :
  timers w !! t = Some tm -> timer_state tm = Pending ->
  step (TimerFires t) w =
  retry_callback
    (with_timers (<[t := {| timer_delay := timer_delay tm;
                            timer_state := Fired |}]>) w).
Proof. intros Ht Hp. simpl. rewrite Ht, Hp. reflexivity. Qed.

Lemma step_open (w : World) (i : nat) (s : Socket) :
  sockets w !! i = Some s -> sock_state s = CONNECTING ->
  sock_handlers s = true ->
  step (WsOpen i) w = onopen (with_sockets (<[i := set_sock_state OPEN s]>) w).
Proof. intros Hs Hst Hh. simpl. rewrite Hs, Hst, Hh. reflexivity. Qed.

Lemma step_error (w : World) (i : nat) (s : Socket) :
  sockets w !! i = Some s -> sock_state s <> CLOSED ->
  sock_handlers s = true ->
  step (WsError i) w = onerror w.
Proof.
  intros Hs Hst Hh. simpl. rewrite Hs, Hh.
  destruct (sock_state s); congruence.
Qed.

Lemma step_close (w : World) (i : nat) (s : Socket) :
  sockets w !! i = Some s -> sock_state s <> CLOSED ->
  sock_handlers s = true ->
  step (WsClose i) w =
  onclose (with_sockets (<[i := set_sock_state CLOSED s]>) w).
Proof.
  intros Hs Hst Hh. simpl. rewrite Hs, Hh.
  destruct (sock_state s); congruence.
Qed.

Lemma retry_callback_opens (w : World) (u : jsstring) :
  _ws (ext w) = None -> _shouldReconnect (ext w) = true ->
  _room (ext w) <> [] -> _buildWsUrl (ext w) = Some u ->
  retry_callback w = canFetch u (with_ext (set_reconnectTimer None) w).
Proof.
  intros Hw Hi Hr Hu. unfold retry_callback.
  cbn [with_ext ext set_reconnectTimer _ws _shouldReconnect _room].
  rewrite Hw, Hi. apply is_empty_false in Hr as Hr'. rewrite Hr'. cbn [negb].
  apply openWs_requests; assumption.
Qed.


(** ** Failed attempts and the backoff table *)

Lemma last_snoc {A} (l : list A) (x : A) : length (l ++ [x]) - 1 = length l.
Proof. rewrite length_app. simpl. lia. Qed.

Lemma delays_insert_fired (l : list Timer) (t : nat) (tm : Timer) :
  l !! t = Some tm ->
  map timer_delay
    (<[t := {| timer_delay := timer_delay tm; timer_state := Fired |}]> l) =
  map timer_delay l.
Proof.
  intros Ht. change (map timer_delay) with (fmap (M := list) timer_delay).
  rewrite list_fmap_insert. simpl. apply list_insert_id.
  rewrite list_lookup_fmap, Ht. reflexivity.
Qed.

Lemma schedule_after_failure (w : World) :
  _shouldReconnect (ext w) = true -> _room (ext w) <> [] ->
  _reconnectTimer (ext w) = None -> _ws (ext w) = None ->
  _connected (ext w) = false ->
  failed_once w (_scheduleReconnect w).
Proof.
  intros Hi Hr Ht Hw Hc. rewrite scheduleReconnect_schedules by assumption.
  unfold failed_once. simpl. repeat split; assumption.
Qed.

Lemma failed_once_frame (w w0 w1 : World) :
  timers w0 = timers w -> _backoffIndex (ext w0) = _backoffIndex (ext w) ->
  session_part w0 = session_part w -> _wsBase (ext w0) = _wsBase (ext w) ->
  failed_once w0 w1 -> failed_once w w1.
Proof.
  unfold failed_once. intros Ht Hb Hs Hw. rewrite Ht, Hb, Hs, Hw. auto.
Qed.

Ltac after_failure :=
  match goal with
  | |- failed_once ?w (_scheduleReconnect ?w0) =>
      apply (failed_once_frame w w0); try reflexivity;
      apply schedule_after_failure; simpl; first [assumption|reflexivity]
  end.

Lemma failure_schedules (k : Failure) (w : World) :
  attempting w -> failed_once w (run (failure_events k w) w).
Proof.
  intros (Hroom & Hint & Htim & Hws & (cs & ck & Hcs & Hpend) & _).
  assert (Hc : checks w !! last_check w = Some ck).
  { unfold last_check. rewrite Hcs, last_snoc. apply list_lookup_middle.
    reflexivity. }
  set (new := {| sock_url := check_url ck; sock_handlers := true;
                 sock_state := CONNECTING; sock_close := None |}).
  set (w0 := with_checks
               (<[last_check w := {| check_url := check_url ck;
                                     check_pending := false |}]>) w).
  assert (Hnew : forall w1 : World,
             sockets w1 = sockets w ++ [new] ->
             sockets w1 !! length (sockets w) = Some new).
  { intros w1 ->. apply list_lookup_middle. reflexivity. }
  unfold failure_events.
  destruct k; unfold run, fold_left; rewrite (step_settle _ _ ck) by assumption;
    fold w0; unfold _openWsAsync_resume.
  - after_failure.
  - after_failure.
  - after_failure.
  - cbn [new_WebSocket]. fold new.
    rewrite (step_close _ _ new); [|apply Hnew; reflexivity|discriminate|reflexivity].
    unfold onclose. after_failure.
  - cbn [new_WebSocket]. fold new.
    rewrite (step_error _ _ new); [|apply Hnew; reflexivity|discriminate|reflexivity].
    unfold onerror.
    rewrite (step_close _ _ new); [|apply Hnew; reflexivity|discriminate|reflexivity].
    unfold onclose. after_failure.
Qed.

Lemma buildWsUrl_frame (e e' : Ext) :
  _wsBase e' = _wsBase e -> _room e' = _room e ->
  _buildWsUrl e' = _buildWsUrl e.
Proof. unfold _buildWsUrl. intros -> ->. reflexivity. Qed.

Lemma fail_and_retry_spec (k : Failure) (w : World) :
  attempting w ->
  attempting (fail_and_retry k w) /\
  scheduled_delays (fail_and_retry k w) =
    scheduled_delays w ++ [backoff_delay (_backoffIndex (ext w))] /\
  _backoffIndex (ext (fail_and_retry k w)) = Nat.min (_backoffIndex (ext w) + 1) 3.
Proof.
  intros Ha. pose proof (failure_schedules k w Ha) as Hf.
  destruct Ha as (Hroom & Hint & Htim & Hws & _ & [u Hu]).
  unfold fail_and_retry. set (w1 := run (failure_events k w) w) in *.
  destruct Hf as (Ht & Hh & Hb & Hs & Hw1 & Hbase & Hcon).
  destruct (session_fields w w1 Hs) as (Hr1 & _ & _ & _ & _ & Hi1).
  set (tm := {| timer_delay := backoff_delay (_backoffIndex (ext w));
                timer_state := Pending |}) in *.
  assert (Hl : timers w1 !! last_timer w1 = Some tm).
  { unfold last_timer. rewrite Ht, last_snoc. apply list_lookup_middle.
    reflexivity. }
  rewrite (step_fire _ _ tm) by (assumption || reflexivity).
  set (w2 := with_timers _ w1).
  assert (Hu2 : _buildWsUrl (ext w2) = Some u).
  { rewrite <- Hu. apply buildWsUrl_frame; assumption. }
  rewrite (retry_callback_opens _ u);
    [|exact Hw1|unfold w2; simpl; congruence|unfold w2; simpl; congruence
     |exact Hu2].
  split; [|split].
  - unfold attempting. cbn [ext canFetch with_checks with_ext checks].
    split; [unfold w2; simpl; congruence|].
    split; [unfold w2; simpl; congruence|].
    split; [reflexivity|]. split; [exact Hw1|]. split.
    + eexists _, _. split; reflexivity.
    + exists u. rewrite <- Hu2. apply buildWsUrl_frame; reflexivity.
  - unfold scheduled_delays, w2.
    cbn [timers canFetch with_checks with_ext with_timers].
    rewrite delays_insert_fired by assumption.
    rewrite Ht, map_app. reflexivity.
  - exact Hb.
Qed.

Lemma seq_shift_map (f : nat -> Z) (i n : nat) :
  map (fun j => f (i + j)) (seq 0 n) = map f (seq i n).
Proof.
  revert i. induction n as [|n IH]; intros i; [reflexivity|].
  rewrite !seq_S, !map_app, IH. simpl. reflexivity.
Qed.

Lemma fail_repeatedly_spec (ks : list Failure) (w : World) :
  attempting w ->
  attempting (fail_repeatedly ks w) /\
  scheduled_delays (fail_repeatedly ks w) =
    scheduled_delays w ++
    map (fun n => backoff_delay (_backoffIndex (ext w) + n)) (seq 0 (length ks)).
Proof.
  revert w. induction ks as [|k ks IH]; intros w Ha.
  - simpl. rewrite app_nil_r. split; [assumption|reflexivity].
  - destruct (fail_and_retry_spec k w Ha) as (Ha1 & Hd1 & Hb1).
    destruct (IH _ Ha1) as (Ha2 & Hd2).
    change (fail_repeatedly (k :: ks) w) with (fail_repeatedly ks (fail_and_retry k w)).
    split; [assumption|].
    rewrite Hd2, Hd1, Hb1. rewrite <- app_assoc. f_equal.
    simpl. rewrite Nat.add_0_r. f_equal.
    rewrite <- seq_shift, map_map. apply map_ext. intros n.
    rewrite <- (backoff_delay_saturates (_  + S n)).
    rewrite <- (backoff_delay_saturates (Nat.min _ 3 + n)). f_equal. lia.
Qed.

(** ** The connect sequence of [setRoom] and [reconnect] *)

(** Both commands end in [_clearReconnectTimer], [_closeWs], [_openWs].
    With the intent flag up, a room set and an address that can be
    built, this leaves no retry scheduled and no socket held, and
    requests one permission check; it does not write [_connected]. *)
Lemma connect_sequence (r : jsstring) (w : World) (u : jsstring) :
  _shouldReconnect (ext w) = true -> _room (ext w) <> [] ->
  _buildWsUrl (ext w) = Some u ->
  let w' := _openWs (_closeWs r (_clearReconnectTimer w)) in
  ext w' = set_ws None (set_reconnectTimer None (ext w)) /\
  checks w' = checks w ++ [{| check_url := u; check_pending := true |}] /\
  scheduled_delays w' = scheduled_delays w /\
  length (sockets w') = length (sockets w).
Proof.
  intros Hi Hr Hu w'.
  destruct (closeWs_timer_part r (_clearReconnectTimer w))
    as (Ht & Hck & _ & _ & _ & _ & Hlen).
  destruct (clearReconnectTimer_socket_part w) as (Hso & Hck1 & _ & _ & _ & Hd).
  assert (He : ext (_closeWs r (_clearReconnectTimer w)) =
               set_ws None (set_reconnectTimer None (ext w))).
  { rewrite ext_closeWs, ext_clearReconnectTimer. reflexivity. }
  unfold w'. rewrite (openWs_requests _ u).
  - unfold scheduled_delays.
    cbn [canFetch with_checks ext checks sockets timers].
    split; [exact He|]. split; [rewrite Hck, Hck1; reflexivity|].
    split; [|rewrite Hlen, Hso; reflexivity].
    rewrite Ht. exact Hd.
  - rewrite He. exact Hr.
  - rewrite He. exact Hi.
  - rewrite <- Hu. apply buildWsUrl_frame; rewrite He; reflexivity.
Qed.

Lemma attempting_after_connect (w' w : World) (u : jsstring) :
  ext w' = set_ws None (set_reconnectTimer None (ext w)) ->
  checks w' = checks w ++ [{| check_url := u; check_pending := true |}] ->
  _shouldReconnect (ext w) = true -> _room (ext w) <> [] ->
  _buildWsUrl (ext w) = Some u ->
  attempting w'.
Proof.
  intros He Hc Hi Hr Hu. unfold attempting. rewrite He, Hc.
  repeat split; try assumption.
  - eexists _, _. split; reflexivity.
  - exists u. rewrite <- Hu. apply buildWsUrl_frame; reflexivity.
Qed.

(** [setRoom] with a non-empty room that differs from the current one,
    or while no socket is held: the room is recorded, label, confidence
    and subscriber count are reset, the backoff index is 0, the intent
    flag is up, no retry is scheduled, no socket is held and a
    permission check has been requested.  [_connected] is not written. *)
Lemma setRoom_connects (w : World) (ROOM u : jsstring) :
  normalizeRoom ROOM <> [] ->
  normalizeRoom ROOM <> _room (ext w) \/ _ws (ext w) = None ->
  _buildWsUrl (set_room (normalizeRoom ROOM) (ext w)) = Some u ->
  let w' := step (SetRoom ROOM) w in
  ext w' =
    {| _connected := _connected (ext w); _room := normalizeRoom ROOM;
       _wsBase := _wsBase (ext w); _gesture := [];
       _confidence := pos_zero; _subscribers := pos_zero;
       _defaultRoom := normalizeRoom ROOM; _ws := None;
       _shouldReconnect := true; _reconnectTimer := None;
       _backoffIndex := 0 |} /\
  checks w' = checks w ++ [{| check_url := u; check_pending := true |}] /\
  scheduled_delays w' = scheduled_delays w /\
  length (sockets w') = length (sockets w) /\
  attempting w'.
Proof.
  intros Hne Heff Hu w'. set (room := normalizeRoom ROOM) in *.
  assert (Hnoop : (streq room (_room (ext w)) && has_ws w)%bool = false).
  { destruct Heff as [Hd|Hn].
    - destruct (streq room (_room (ext w))) eqn:Hs; [|reflexivity].
      apply streq_eq in Hs. contradiction.
    - unfold has_ws. rewrite Hn. apply andb_false_r. }
  set (w1 := with_ext (set_shouldReconnect true)
               (with_ext (set_backoffIndex 0)
                  (with_ext (set_subscribers pos_zero)
                     (with_ext (set_confidence pos_zero)
                        (with_ext (set_gesture [])
                           (with_ext (set_room room)
                              (with_ext (set_defaultRoom room) w))))))).
  assert (Hw' : w' = _openWs (_closeWs (str "room changed")
                                (_clearReconnectTimer w1))).
  { unfold w'. cbn [step]. unfold setRoom, setRoomInternal. fold room.
    apply is_empty_false in Hne. rewrite Hne.
    cbn [with_ext ext set_defaultRoom _room _ws]. unfold has_ws in Hnoop.
    rewrite Hnoop. reflexivity. }
  assert (Hu1 : _buildWsUrl (ext w1) = Some u).
  { rewrite <- Hu. apply buildWsUrl_frame; reflexivity. }
  destruct (connect_sequence (str "room changed") w1 u eq_refl Hne Hu1)
    as (He & Hc & Hd & Hl).
  rewrite Hw'. split; [rewrite He; reflexivity|].
  split; [exact Hc|]. split; [exact Hd|]. split; [exact Hl|].
  apply (attempting_after_connect _ w1 u); try assumption. reflexivity.
Qed.

(** [reconnect] while a room is set. *)
Lemma reconnect_connects (w : World) (u : jsstring) :
  _room (ext w) <> [] -> _buildWsUrl (ext w) = Some u ->
  let w' := step Reconnect w in
  _backoffIndex (ext w') = 0 /\
  _connected (ext w') = _connected (ext w) /\
  checks w' = checks w ++ [{| check_url := u; check_pending := true |}] /\
  scheduled_delays w' = scheduled_delays w /\
  attempting w'.
Proof.
  intros Hr Hu w'.
  set (w1 := with_ext (set_shouldReconnect true)
               (with_ext (set_backoffIndex 0) w)).
  assert (Hw' : w' = _openWs (_closeWs (str "manual reconnect")
                                (_clearReconnectTimer w1))).
  { unfold w'. cbn [step]. unfold reconnect.
    apply is_empty_false in Hr. rewrite Hr. reflexivity. }
  assert (Hu1 : _buildWsUrl (ext w1) = Some u).
  { rewrite <- Hu. apply buildWsUrl_frame; reflexivity. }
  destruct (connect_sequence (str "manual reconnect") w1 u eq_refl Hr Hu1)
    as (He & Hc & Hd & Hl).
  rewrite Hw'. rewrite He. split; [reflexivity|]. split; [reflexivity|].
  split; [exact Hc|]. split; [exact Hd|].
  apply (attempting_after_connect _ w1 u); try assumption. reflexivity.
Qed.

(** C3, amended.  Counting from a state in which a connect attempt is
    under way and the backoff index is 0, the delays scheduled for N
    consecutive failed attempts, of whatever kind, are the first N of
    1000, 2000, 3000, 5000, 5000, ...  The index is 0 again, so that the
    next failures count from 1000 again, after the [open] event of a
    socket whose handlers are attached, after [reconnect] while a room is
    set, and after [setRoom] with a non-empty room that differs from the
    current one or finds no socket held.  ([setRoom] with the current
    room while a socket is held is a no-op and leaves the index.) *)
Theorem backoff_sequence :
  (forall (w : World) (ks : list Failure),
     attempting w -> _backoffIndex (ext w) = 0 ->
     scheduled_delays (fail_repeatedly ks w) =
     scheduled_delays w ++ map backoff_delay (seq 0 (length ks))) /\
  (forall (w : World) (i : nat) (s : Socket),
     sockets w !! i = Some s -> sock_state s = CONNECTING ->
     sock_handlers s = true ->
     _backoffIndex (ext (step (WsOpen i) w)) = 0 /\
     (_shouldReconnect (ext w) = true -> _room (ext w) <> [] ->
      _reconnectTimer (ext w) = None ->
      scheduled_delays (run [WsOpen i; WsClose i] w) =
      scheduled_delays w ++ [1000%Z])) /\
  (forall (w : World),
     _room (ext w) <> [] -> is_Some (_buildWsUrl (ext w)) ->
     attempting (step Reconnect w) /\
     _backoffIndex (ext (step Reconnect w)) = 0) /\
  (forall (w : World) (ROOM : jsstring),
     normalizeRoom ROOM <> [] ->
     normalizeRoom ROOM <> _room (ext w) \/ _ws (ext w) = None ->
     is_Some (_buildWsUrl (set_room (normalizeRoom ROOM) (ext w))) ->
     attempting (step (SetRoom ROOM) w) /\
     _backoffIndex (ext (step (SetRoom ROOM) w)) = 0).
Proof.
  split; [|split; [|split]].
  - intros w ks Ha Hz. destruct (fail_repeatedly_spec ks w Ha) as [_ Hd].
    rewrite Hd, Hz. reflexivity.
  - intros w i s Hs Hc Hh. rewrite (step_open w i s Hs Hc Hh).
    split; [reflexivity|]. intros Hi Hr Ht.
    unfold run, fold_left. rewrite (step_open w i s Hs Hc Hh).
    rewrite (step_close _ i (set_sock_state OPEN s)).
    + unfold onclose. rewrite scheduleReconnect_schedules by assumption.
      unfold scheduled_delays. cbn [timers with_ext with_timers onopen].
      rewrite map_app. reflexivity.
    + cbn [onopen with_ext with_sockets sockets].
      apply list_lookup_insert_eq. eapply lookup_lt_Some; eassumption.
    + discriminate.
    + exact Hh.
  - intros w Hr [u Hu]. destruct (reconnect_connects w u Hr Hu) as (Hb & _ & _ & _ & Ha).
    split; assumption.
  - intros w ROOM Hne Heff [u Hu].
    destruct (setRoom_connects w ROOM u Hne Heff Hu) as (He & _ & _ & _ & Ha).
    split; [assumption|]. rewrite He. reflexivity.
Qed.

(** ** Setting the room it already has *)


(** ** One pending retry at most *)

(** In every world the extension can reach at most one retry timer is
    pending, and it is the one [_reconnectTimer] holds. *)
Lemma at_most_one_pending_retry
    (wsBaseFromScript roomFromScript : jsstring) (evs : list Event) :
  let w := run evs (SmartteamLiveExtension wsBaseFromScript roomFromScript) in
  length (pending_retries w) <= 1 /\ timers_ok w.
Proof.
  intros w. assert (Hinv : Inv w) by apply Inv_run, Inv_new.
  split; [apply pending_retries_at_most_one|]; apply Hinv.
Qed.

(** ** After [disconnect] *)

Lemma clearReconnectTimer_idle (w : World) :
  _reconnectTimer (ext w) = None -> _clearReconnectTimer w = w.
Proof. unfold _clearReconnectTimer. intros ->. reflexivity. Qed.

Lemma quiet_disconnect (w : World) : timers_ok w -> quiet (step Disconnect w).
Proof.
  intros Hw. cbn [step]. unfold disconnect.
  set (w1 := with_ext (set_shouldReconnect false) w).
  assert (H1 : timers_ok w1) by (apply timers_ok_with_ext; [reflexivity|exact Hw]).
  destruct (clearReconnectTimer_no_pending w1 H1) as [Hn _].
  destruct (closeWs_timer_part (str "manual disconnect") (_clearReconnectTimer w1))
    as (_ & _ & Hrt & _).
  pose proof (session_part_closeWs (str "manual disconnect")
                (_clearReconnectTimer w1)) as Hs.
  rewrite session_part_clearReconnectTimer in Hs.
  apply session_fields in Hs as (_ & _ & _ & _ & _ & Hi).
  split; [exact Hi|]. split; [cbn [with_ext ext set_connected _reconnectTimer]; congruence|].
  apply timers_ok_with_ext; [reflexivity|].
  apply timers_ok_closeWs, timers_ok_clearReconnectTimer, H1.
Qed.

(** While the extension is quiet, every event other than a call of
    [setRoom] or [reconnect] leaves it quiet and sets no timer; no timer
    fires, as none is pending; and when no permission check is in flight
    either, no socket is created. *)
Lemma quiet_step (ev : Event) (w : World) :
  no_command ev = true -> quiet w ->
  quiet (step ev w) /\
  timers (step ev w) = timers w /\
  (all_settled w ->
   all_settled (step ev w) /\ length (sockets (step ev w)) = length (sockets w)).
Proof.
  intros Hev (Hi & Ht & Hok).
  assert (Hidle : forall w0, _shouldReconnect (ext w0) = false ->
                             _scheduleReconnect w0 = w0).
  { intros w0 H0. apply scheduleReconnect_idle. auto. }
  destruct ev; try discriminate; clear Hev.
  - (* disconnect *)
    split; [apply quiet_disconnect, Hok|].
    cbn [step]. unfold disconnect.
    rewrite clearReconnectTimer_idle by exact Ht.
    destruct (closeWs_timer_part (str "manual disconnect")
                (with_ext (set_shouldReconnect false) w))
      as (Htm & Hck & _ & _ & _ & _ & Hlen).
    split; [exact Htm|]. intros Hs. split; [|exact Hlen].
    intros c ck. cbn [with_ext checks]. rewrite Hck. apply Hs.
  - (* a permission check settles *)
    cbn [step]. destruct (checks w !! c) as [ck|] eqn:Hc;
      [|repeat split; auto].
    destruct (check_pending ck) eqn:Hp; [|repeat split; auto].
    split; [|split].
    + unfold _openWsAsync_resume.
      destruct o as [[|]| |]; rewrite ?Hidle by exact Hi;
        (split; [exact Hi|split; [exact Ht|]]);
        repeat (apply timers_ok_with_ext; [reflexivity|]); exact Hok.
    + unfold _openWsAsync_resume.
      destruct o as [[|]| |]; rewrite ?Hidle by exact Hi; reflexivity.
    + intros Hs. specialize (Hs c ck Hc). congruence.
  - (* a timer fires: none is pending *)
    cbn [step]. destruct (timers w !! t) as [tm|] eqn:Htm;
      [|repeat split; auto].
    destruct (timer_state tm) eqn:Hp; try (repeat split; auto; fail).
    pose proof (Hok t tm Htm Hp). congruence.
  - (* open *)
    cbn [step]. destruct (sockets w !! i) as [s|] eqn:Hs;
      [|repeat split; auto].
    destruct (sock_state s); try (repeat split; auto; fail).
    destruct (sock_handlers s); unfold onopen;
      (split; [split; [exact Hi|split; [exact Ht|exact Hok]]|]);
      (split; [reflexivity|]); intros Hall;
      (split; [exact Hall|apply length_insert]).
  - (* message *)
    cbn [step]. destruct (sockets w !! i) as [s|] eqn:Hs;
      [|repeat split; auto].
    destruct (sock_state s); try (repeat split; auto; fail).
    destruct (sock_handlers s); [|repeat split; auto].
    destruct (onmessage_control data (ext w))
      as (_ & _ & _ & _ & _ & Hi' & Ht' & _).
    split; [split; [|split]|].
    + cbn [with_ext ext]. congruence.
    + cbn [with_ext ext]. congruence.
    + apply timers_ok_with_ext; [intros; apply onmessage_reconnectTimer|exact Hok].
    + split; [reflexivity|]. intros Hall. split; [exact Hall|reflexivity].
  - (* error *)
    cbn [step]. destruct (sockets w !! i) as [s|] eqn:Hs;
      [|repeat split; auto].
    destruct (sock_state s), (sock_handlers s); repeat split; auto.
  - (* close *)
    cbn [step]. destruct (sockets w !! i) as [s|] eqn:Hs;
      [|repeat split; auto].
    destruct (sock_state s), (sock_handlers s); unfold onclose;
      rewrite ?Hidle by exact Hi;
      try (repeat split; auto; fail);
      (split; [split; [exact Hi|split; [exact Ht|exact Hok]]|]);
      (split; [reflexivity|]); intros Hall;
      (split; [exact Hall|apply length_insert]).
Qed.

(** X25.  After [disconnect], for as long as neither [setRoom] nor
    [reconnect] is called, no retry is pending and none is scheduled; and
    when no permission check was in flight at the [disconnect], no socket
    is created either. *)
Lemma no_retry_after_disconnect
    (wsBaseFromScript roomFromScript : jsstring) (before after : list Event) :
  forallb no_command after = true ->
  let w := step Disconnect
             (run before (SmartteamLiveExtension wsBaseFromScript roomFromScript)) in
  let w' := run after w in
  pending_retries w' = [] /\
  timers w' = timers w /\
  (all_settled w -> length (sockets w') = length (sockets w)).
Proof.
  intros Hall w w'.
  assert (Hq : quiet w).
  { apply quiet_disconnect. apply Inv_run, Inv_new. }
  clearbody w. unfold w'. clear w'.
  revert w Hq. induction after as [|ev evs IH]; intros w Hq.
  - simpl. destruct Hq as (_ & Ht & Hok).
    split; [apply pending_retries_none; assumption|]. split; [reflexivity|auto].
  - simpl in Hall. apply andb_true_iff in Hall as [Hev Hevs].
    destruct (quiet_step ev w Hev Hq) as (Hq' & Htm & Hs).
    destruct (IH Hevs (step ev w) Hq') as (Hp & Htm' & Hs').
    change (run (ev :: evs) w) with (run evs (step ev w)).
    split; [exact Hp|]. split; [congruence|].
    intros Hset. destruct (Hs Hset) as [Hset' Hlen]. rewrite (Hs' Hset'). exact Hlen.
Qed.

(** The resumed [_openWsAsync] looks at neither the intent flag nor the
    room, nor at the socket the extension holds: whenever a permission
    check that is in flight resolves to [true] and the constructor does
    not throw, a socket is created and the extension holds it. *)
Lemma resume_opens_unconditionally (w : World) (c : nat) (ck : Check) :
  checks w !! c = Some ck -> check_pending ck = true ->
  let w' := step (CanFetchSettles c (Allowed false)) w in
  sockets w' =
    sockets w ++ [{| sock_url := check_url ck; sock_handlers := true;
                     sock_state := CONNECTING; sock_close := None |}] /\
  _ws (ext w') = Some (length (sockets w)).
Proof.
  intros Hc Hp w'. unfold w'. rewrite (step_settle w c ck _ Hc Hp).
  split; reflexivity.
Qed.

(** ** Permission checks that settle at once *)

Lemma none_live_held (w : World) : none_live w -> live_held w.
Proof. intros Hn i s Hs Hl. rewrite (Hn i s Hs) in Hl. discriminate. Qed.

Lemma none_live_frame (w w' : World) :
  sockets w' = sockets w -> none_live w -> none_live w'.
Proof. unfold none_live. intros ->. auto. Qed.

Lemma live_held_frame (w w' : World) :
  sockets w' = sockets w -> _ws (ext w') = _ws (ext w) ->
  live_held w -> live_held w'.
Proof. unfold live_held. intros -> ->. auto. Qed.

Lemma none_live_of_held (w : World) :
  live_held w -> _ws (ext w) = None -> none_live w.
Proof.
  intros Hh Hn i s Hs. destruct (is_live s) eqn:Hl; [|reflexivity].
  specialize (Hh i s Hs Hl). congruence.
Qed.

Lemma none_live_closeWs (r : jsstring) (w : World) :
  live_held w -> none_live (_closeWs r w).
Proof.
  intros Hh. unfold _closeWs, detach_and_close.
  destruct (_ws (ext w)) as [i|] eqn:Hw.
  - intros j s. cbn [with_sockets with_ext sockets]. intros Hs.
    destruct (decide (i = j)) as [<-|Hne].
    + rewrite list_lookup_alter_eq in Hs.
      destruct (sockets w !! i); [|discriminate]. injection Hs as <-. reflexivity.
    + rewrite list_lookup_alter_ne in Hs by assumption.
      destruct (is_live s) eqn:Hl; [|reflexivity].
      specialize (Hh j s Hs Hl). congruence.
  - apply (none_live_frame w); [reflexivity|].
    apply none_live_of_held; assumption.
Qed.

Lemma scheduleReconnect_socket_part (w : World) :
  sockets (_scheduleReconnect w) = sockets w /\
  _ws (ext (_scheduleReconnect w)) = _ws (ext w) /\
  checks (_scheduleReconnect w) = checks w.
Proof.
  unfold _scheduleReconnect, setTimeout. repeat case_match; repeat split.
Qed.

(** The teardown that starts every connect sequence leaves no transport
    live and requests nothing. *)
Lemma teardown_none_live (r : jsstring) (w w0 : World) :
  sockets w0 = sockets w -> _ws (ext w0) = _ws (ext w) ->
  checks w0 = checks w -> live_held w ->
  none_live (_closeWs r (_clearReconnectTimer w0)) /\
  checks (_closeWs r (_clearReconnectTimer w0)) = checks w.
Proof.
  intros Hs Hw Hc Hh.
  destruct (clearReconnectTimer_socket_part w0) as (Hs1 & Hc1 & Hw1 & _).
  destruct (closeWs_timer_part r (_clearReconnectTimer w0)) as (_ & Hc2 & _).
  split; [|congruence].
  apply none_live_closeWs. apply (live_held_frame w); [congruence|congruence|exact Hh].
Qed.

Lemma openWs_requested (before : list Check) (w : World) :
  none_live w -> checks w = before ->
  live_held (_openWs w) /\ requested before (_openWs w).
Proof.
  intros Hn Hc.
  assert (Hidle : forall f, live_held (with_ext f w) /\ requested before (with_ext f w)).
  { intros f. split; [|left; exact Hc].
    apply none_live_held, (none_live_frame w); [reflexivity|exact Hn]. }
  assert (Hreq : forall f u, live_held (canFetch u (with_ext f w)) /\
                             requested before (canFetch u (with_ext f w))).
  { intros f u.
    assert (Hn' : none_live (canFetch u (with_ext f w)))
      by (apply (none_live_frame w); [reflexivity|exact Hn]).
    split; [apply none_live_held, Hn'|].
    right. split; [|exact Hn']. exists u. cbn [canFetch with_checks with_ext checks].
    rewrite Hc. reflexivity. }
  unfold _openWs.
  destruct (is_empty (_room (ext w))); [apply Hidle|].
  destruct (negb (_shouldReconnect (ext w))); [apply Hidle|].
  destruct (_buildWsUrl (ext w)) as [u|].
  - apply (Hreq (fun e => e) u).
  - destruct (_buildWsUrl (ext (with_ext (set_wsBase DEFAULT_WS_BASE) w))) as [u|].
    + apply Hreq.
    + match goal with |- context [_scheduleReconnect ?x] =>
        destruct (scheduleReconnect_socket_part x) as (Hs' & Hw' & Hc')
      end.
      split; [|left; rewrite Hc'; exact Hc].
      apply none_live_held. eapply none_live_frame; [exact Hs'|].
      apply (none_live_frame w); [reflexivity|exact Hn].
Qed.

(** Every event other than the settling of a permission check keeps the
    live transports held, and requests at most one check, after having
    torn down the transport it held. *)
Lemma step_requested (ev : Event) (w : World) :
  is_settle ev = false -> live_held w ->
  live_held (step ev w) /\ requested (checks w) (step ev w).
Proof.
  intros Hev Hh. destruct ev; try discriminate; clear Hev; cbn [step].
  - (* setRoom *)
    unfold setRoom, setRoomInternal.
    destruct (is_empty (normalizeRoom ROOM)).
    + cbn [negb].
      match goal with |- context [_closeWs ?r (_clearReconnectTimer ?x)] =>
        destruct (teardown_none_live r w x) as [Hn Hc]; try reflexivity; try exact Hh
      end.
      split; [apply none_live_held, Hn|left; exact Hc].
    + match goal with |- context [if ?b then _ else _] => destruct b end.
      * split; [|left; reflexivity].
        apply (live_held_frame w); [reflexivity|reflexivity|exact Hh].
      * match goal with |- context [_closeWs ?r (_clearReconnectTimer ?x)] =>
          destruct (teardown_none_live r w x) as [Hn Hc]; try reflexivity; try exact Hh
        end.
        apply openWs_requested; assumption.
  - (* reconnect *)
    unfold reconnect. destruct (is_empty (_room (ext w))).
    + split; [|left; reflexivity].
      apply (live_held_frame w); [reflexivity|reflexivity|exact Hh].
    + match goal with |- context [_closeWs ?r (_clearReconnectTimer ?x)] =>
        destruct (teardown_none_live r w x) as [Hn Hc]; try reflexivity; try exact Hh
      end.
      apply openWs_requested; assumption.
  - (* disconnect *)
    unfold disconnect.
    match goal with |- context [_closeWs ?r (_clearReconnectTimer ?x)] =>
      destruct (teardown_none_live r w x) as [Hn Hc]; try reflexivity; try exact Hh
    end.
    split; [|left; exact Hc].
    apply none_live_held. eapply none_live_frame; [|exact Hn]. reflexivity.
  - (* a timer fires *)
    destruct (timers w !! t) as [tm|]; [|split; [exact Hh|left; reflexivity]].
    destruct (timer_state tm); try (split; [exact Hh|left; reflexivity]).
    unfold retry_callback. cbn [with_ext with_timers ext set_reconnectTimer _ws].
    destruct (_ws (ext w)) eqn:Hw.
    + split; [|left; reflexivity].
      apply (live_held_frame w); [reflexivity|reflexivity|exact Hh].
    + simpl (_shouldReconnect (set_reconnectTimer _ _)).
      simpl (_room (set_reconnectTimer _ _)).
      destruct (negb (_shouldReconnect (ext w)));
        [split; [|left; reflexivity];
         apply (live_held_frame w); [reflexivity|reflexivity|exact Hh]|].
      destruct (is_empty (_room (ext w)));
        [split; [|left; reflexivity];
         apply (live_held_frame w); [reflexivity|reflexivity|exact Hh]|].
      apply openWs_requested; [|reflexivity].
      apply (none_live_frame w); [reflexivity|].
      apply none_live_of_held; assumption.
  - (* open *)
    destruct (sockets w !! i) as [s|] eqn:Hs; [|split; [exact Hh|left; reflexivity]].
    destruct (sock_state s) eqn:Hst; try (split; [exact Hh|left; reflexivity]).
    assert (Hi : _ws (ext w) = Some i).
    { apply (Hh i s Hs). unfold is_live. rewrite Hst. reflexivity. }
    split; [|destruct (sock_handlers s); left; reflexivity].
    assert (Hl : live_held (with_sockets (<[i := set_sock_state OPEN s]>) w)).
    { intros j s'. cbn [with_sockets sockets ext]. intros Hs' Hl.
      destruct (decide (i = j)) as [<-|Hne]; [exact Hi|].
      rewrite list_lookup_insert_ne in Hs' by assumption. eauto. }
    destruct (sock_handlers s); [|exact Hl].
    eapply live_held_frame; [| |exact Hl]; reflexivity.
  - (* message *)
    destruct (sockets w !! i) as [s|]; [|split; [exact Hh|left; reflexivity]].
    destruct (sock_state s); try (split; [exact Hh|left; reflexivity]).
    destruct (sock_handlers s); [|split; [exact Hh|left; reflexivity]].
    split; [|left; reflexivity].
    apply (live_held_frame w); [reflexivity| |exact Hh].
    apply onmessage_control.
  - (* error *)
    destruct (sockets w !! i) as [s|]; [|split; [exact Hh|left; reflexivity]].
    destruct (sock_state s), (sock_handlers s);
      (split; [|left; reflexivity]); try exact Hh;
      (apply (live_held_frame w); [reflexivity|reflexivity|exact Hh]).
  - (* close *)
    destruct (sockets w !! i) as [s|] eqn:Hs; [|split; [exact Hh|left; reflexivity]].
    assert (Hcl : sock_state s <> CLOSED ->
              live_held (with_sockets (<[i := set_sock_state CLOSED s]>) w)).
    { intros Hst j s'. cbn [with_sockets sockets ext]. intros Hs' Hl.
      destruct (decide (i = j)) as [<-|Hne].
      - rewrite list_lookup_insert_eq in Hs' by (eapply lookup_lt_Some; eauto).
        injection Hs' as <-. discriminate.
      - rewrite list_lookup_insert_ne in Hs' by assumption. eauto. }
    assert (Hon : sock_state s <> CLOSED ->
              live_held (onclose (with_sockets (<[i := set_sock_state CLOSED s]>) w))).
    { intros Hst. unfold onclose.
      match goal with |- context [_scheduleReconnect ?x] =>
        destruct (scheduleReconnect_socket_part x) as (Hs' & Hw' & Hc')
      end.
      apply none_live_held. eapply none_live_frame; [exact Hs'|].
      intros j s' Hj. cbn [with_ext with_sockets sockets] in Hj.
      destruct (decide (i = j)) as [<-|Hne].
      - rewrite list_lookup_insert_eq in Hj by (eapply lookup_lt_Some; eauto).
        injection Hj as <-. reflexivity.
      - rewrite list_lookup_insert_ne in Hj by assumption.
        destruct (is_live s') eqn:Hl; [|reflexivity].
        assert (Hli : is_live s = true)
          by (unfold is_live; destruct (sock_state s); congruence).
        pose proof (Hh i s Hs Hli). pose proof (Hh j s' Hj Hl). congruence. }
    assert (Hck : checks (onclose (with_sockets (<[i := set_sock_state CLOSED s]>) w))
                  = checks w).
    { unfold onclose.
      match goal with |- context [_scheduleReconnect ?x] =>
        destruct (scheduleReconnect_socket_part x) as (_ & _ & ->)
      end. reflexivity. }
    destruct (sock_state s) eqn:Hst; try (split; [exact Hh|left; reflexivity]);
      destruct (sock_handlers s);
      (split; [first [apply Hon|apply Hcl]; discriminate
              |left; first [exact Hck|reflexivity]]).
Qed.

Lemma all_settled_frame (w w' : World) :
  checks w' = checks w -> all_settled w -> all_settled w'.
Proof. unfold all_settled. intros ->. auto. Qed.

(** Settling at once the check an operation has requested. *)
Lemma settle_now_requested (o : Settled) (before : list Check) (w' : World) :
  (forall c ck, before !! c = Some ck -> check_pending ck = false) ->
  live_held w' -> requested before w' ->
  all_settled (settle_now o w') /\ live_held (settle_now o w').
Proof.
  intros Hall Hh [Hc|[[u Hc] Hn]]; unfold settle_now.
  - assert (Hall' : all_settled w') by (unfold all_settled; rewrite Hc; exact Hall).
    destruct (checks w' !! last_check w') as [ck|] eqn:Hck; [|auto].
    rewrite (Hall' _ _ Hck). auto.
  - assert (Hlast : last_check w' = length before).
    { unfold last_check. rewrite Hc, length_app. simpl. lia. }
    rewrite Hlast.
    assert (Hck : checks w' !! length before =
                  Some {| check_url := u; check_pending := true |}).
    { rewrite Hc. apply list_lookup_middle. reflexivity. }
    rewrite Hck. cbn [check_pending step]. rewrite Hck. cbn [check_pending check_url].
    set (w1 := with_checks _ w').
    assert (H1 : all_settled w1).
    { intros c ck. unfold w1. cbn [with_checks checks]. rewrite Hc. intros Hl.
      destruct (decide (length before = c)) as [<-|Hne].
      - rewrite list_lookup_insert_eq in Hl by (rewrite length_app; simpl; lia).
        injection Hl as <-. reflexivity.
      - rewrite list_lookup_insert_ne in Hl by assumption.
        apply lookup_app_Some in Hl as [Hl|[Hlen Hl]]; [eauto|].
        destruct (c - length before) as [|k] eqn:Hk; [lia|].
        discriminate. }
    assert (Hn1 : none_live w1)
      by (apply (none_live_frame w'); [reflexivity|exact Hn]).
    unfold _openWsAsync_resume. destruct o as [[|]| |];
      try match goal with |- context [_scheduleReconnect ?x] =>
            destruct (scheduleReconnect_socket_part x) as (Hs' & Hw' & Hc');
            split;
            [eapply all_settled_frame; [exact Hc'|exact H1]
            |apply none_live_held; eapply none_live_frame; [exact Hs'|exact Hn1]]
          end.
    split; [exact H1|].
    cbn [new_WebSocket]. intros i s.
    cbn [with_ext with_sockets sockets ext set_ws _ws].
    intros Hs Hl. apply lookup_app_Some in Hs as [Hs|[Hlen Hs]].
    + rewrite (Hn1 i s Hs) in Hl. discriminate.
    + f_equal. destruct (i - length (sockets w1)) eqn:Hd; [lia|discriminate].
Qed.

(** The live transports are at most the one the extension holds. *)
Lemma live_held_at_most_one (w : World) :
  live_held w -> length (live_transports w) <= 1.
Proof.
  intros Hh. unfold live_transports. apply filter_at_most_one.
  intros i j x y Hi Hj Hx Hy.
  pose proof (Hh i x Hi Hx). pose proof (Hh j y Hj Hy). congruence.
Qed.

Lemma live_held_new (a b : jsstring) :
  live_held (SmartteamLiveExtension a b) /\
  requested [] (SmartteamLiveExtension a b).
Proof.
  unfold SmartteamLiveExtension.
  destruct (negb (is_empty (normalizeRoom b))) eqn:Hb.
  - unfold setRoomInternal. apply negb_true_iff in Hb. rewrite Hb.
    cbn [with_ext ext set_defaultRoom set_wsBase _room _ws andb].
    rewrite andb_false_r.
    match goal with |- context [_closeWs ?r (_clearReconnectTimer ?x)] =>
      destruct (teardown_none_live r x x) as [Hn Hc]; try reflexivity
    end.
    { intros i s Hs. discriminate. }
    apply openWs_requested; [exact Hn|exact Hc].
  - split; [intros i s Hs; discriminate|left; reflexivity].
Qed.

(** X24.  When every permission check settles before anything else
    happens, at most one transport is live in every world the extension
    reaches, whatever the checks answer. *)
Lemma one_live_transport_when_checks_settle_at_once
    (wsBaseFromScript roomFromScript : jsstring) (o : Settled)
    (evs : list (Event * Settled)) :
  forallb (fun evo => negb (is_settle (fst evo))) evs = true ->
  let w := fold_left atomic_step evs
             (settle_now o
                (SmartteamLiveExtension wsBaseFromScript roomFromScript)) in
  length (live_transports w) <= 1.
Proof.
  intros Hevs w. apply live_held_at_most_one.
  assert (H0 : all_settled
                 (settle_now o (SmartteamLiveExtension wsBaseFromScript roomFromScript)) /\
               live_held
                 (settle_now o (SmartteamLiveExtension wsBaseFromScript roomFromScript))).
  { destruct (live_held_new wsBaseFromScript roomFromScript) as [Hh Hr].
    eapply settle_now_requested; [|exact Hh|exact Hr].
    intros c ck Hc. destruct c; discriminate. }
  unfold w. clear w. revert H0.
  generalize (settle_now o (SmartteamLiveExtension wsBaseFromScript roomFromScript)).
  induction evs as [|[ev o'] evs IH]; intros w [Hall Hh]; [exact Hh|].
  simpl in Hevs. apply andb_true_iff in Hevs as [Hev Hevs].
  apply negb_true_iff in Hev.
  cbn [fold_left]. apply (IH Hevs).
  unfold atomic_step. cbn [fst snd].
  destruct (step_requested ev w Hev Hh) as [Hh' Hr].
  apply (settle_now_requested o' (checks w)); assumption.
Qed.

(** ** Trimming *)

Lemma trimStart_split (s : jsstring) :
  exists l, s = l ++ trimStart s /\ blank l = true.
Proof.
  induction s as [|c s [l [Hs Hl]]]; [exists []; auto|].
  simpl. destruct (isWhiteSpace c) eqn:Hc.
  - exists (c :: l). simpl. rewrite Hc, Hl. split; [congruence|reflexivity].
  - exists []. auto.
Qed.

Lemma trimStart_head (s : jsstring) (c : N) :
  head (trimStart s) = Some c -> isWhiteSpace c = false.
Proof.
  induction s as [|a s IH]; [discriminate|].
  simpl. destruct (isWhiteSpace a) eqn:Ha; [exact IH|].
  simpl. congruence.
Qed.

Lemma trimStart_blank_app (l s : jsstring) :
  blank l = true -> trimStart (l ++ s) = trimStart s.
Proof.
  induction l as [|c l IH]; [reflexivity|].
  simpl. intros [-> Hl]%andb_true_iff. auto.
Qed.

Lemma trimStart_blank (s : jsstring) : trimStart s = [] <-> blank s = true.
Proof.
  induction s as [|c s IH]; [split; reflexivity|].
  simpl. destruct (isWhiteSpace c); simpl; [exact IH|].
  split; discriminate.
Qed.

Lemma trimStart_app (s r : jsstring) :
  blank s = false -> trimStart (s ++ r) = trimStart s ++ r.
Proof.
  induction s as [|c s IH]; [discriminate|].
  simpl. destruct (isWhiteSpace c); simpl; auto.
Qed.

Lemma blank_rev (s : jsstring) : blank (rev s) = blank s.
Proof.
  unfold blank. induction s as [|c s IH]; [reflexivity|].
  simpl. rewrite forallb_app, IH. simpl. rewrite andb_true_r. apply andb_comm.
Qed.

Lemma trimEnd_split (s : jsstring) :
  exists r, s = trimEnd s ++ r /\ blank r = true.
Proof.
  unfold trimEnd. destruct (trimStart_split (rev s)) as [l [Hs Hl]].
  exists (rev l). rewrite blank_rev. split; [|exact Hl].
  rewrite <- rev_app_distr, <- Hs, rev_involutive. reflexivity.
Qed.

Lemma last_rev_head {A} (l : list A) : last (rev l) = head l.
Proof.
  destruct l as [|a l]; [reflexivity|]. simpl. rewrite last_app. reflexivity.
Qed.

Lemma trimEnd_last (s : jsstring) (c : N) :
  last (trimEnd s) = Some c -> isWhiteSpace c = false.
Proof. unfold trimEnd. rewrite last_rev_head. apply trimStart_head. Qed.

Lemma trimEnd_blank_app (s r : jsstring) :
  blank r = true -> trimEnd (s ++ r) = trimEnd s.
Proof.
  intros Hr. unfold trimEnd. rewrite rev_app_distr.
  rewrite trimStart_blank_app by (rewrite blank_rev; exact Hr). reflexivity.
Qed.

(** [trim] removes a blank prefix and a blank suffix, and what is left
    neither starts nor ends with white space. *)
Lemma trim_split (s : jsstring) :
  exists l r, s = l ++ trim s ++ r /\ blank l = true /\ blank r = true.
Proof.
  destruct (trimStart_split s) as [l [Hs Hl]].
  destruct (trimEnd_split (trimStart s)) as [r [Ht Hr]].
  exists l, r. unfold trim. rewrite <- Ht. auto.
Qed.

Lemma trim_head (s : jsstring) (c : N) :
  head (trim s) = Some c -> isWhiteSpace c = false.
Proof.
  intros Hc. destruct (trimEnd_split (trimStart s)) as [r [Ht _]].
  apply (trimStart_head s). rewrite Ht, head_app. unfold trim in Hc.
  rewrite Hc. reflexivity.
Qed.

Lemma trim_last (s : jsstring) (c : N) :
  last (trim s) = Some c -> isWhiteSpace c = false.
Proof. apply trimEnd_last. Qed.

Lemma trim_blank (s : jsstring) : trim s = [] <-> blank s = true.
Proof.
  rewrite <- trimStart_blank. unfold trim. split.
  - intros Ht. destruct (trimStart s) as [|c t] eqn:Hs; [reflexivity|].
    exfalso. assert (Hc : isWhiteSpace c = false)
      by (apply (trimStart_head s); rewrite Hs; reflexivity).
    unfold trimEnd in Ht. apply (f_equal (@rev N)) in Ht.
    rewrite rev_involutive in Ht.
    change (trimStart (rev (c :: t)) = []) in Ht.
    apply trimStart_blank in Ht. rewrite blank_rev in Ht.
    simpl in Ht. rewrite Hc in Ht. discriminate.
  - intros ->. reflexivity.
Qed.

Lemma trim_pad (l s r : jsstring) :
  blank l = true -> blank r = true -> trim (l ++ s ++ r) = trim s.
Proof.
  intros Hl Hr. unfold trim. rewrite trimStart_blank_app by exact Hl.
  destruct (blank s) eqn:Hs.
  - assert (Hb : blank (s ++ r) = true)
      by (unfold blank in *; rewrite forallb_app, Hs, Hr; reflexivity).
    apply trimStart_blank in Hb, Hs. rewrite Hb, Hs. reflexivity.
  - rewrite trimStart_app by exact Hs. apply trimEnd_blank_app, Hr.
Qed.

Lemma trim_idempotent (s : jsstring) : trim (trim s) = trim s.
Proof.
  destruct (trim_split s) as (l & r & Hs & Hl & Hr).
  rewrite Hs at 2. symmetry. apply trim_pad; assumption.
Qed.

(** X1.  [normalizeRoom] removes exactly the white space around the room:
    the argument is the result between two blank strings, and the result
    neither starts nor ends with white space; it is empty exactly when
    the argument is blank. *)
Theorem normalizeRoom_strips_blanks (room : jsstring) :
  (exists l r, room = l ++ normalizeRoom room ++ r /\
               blank l = true /\ blank r = true) /\
  (forall c, head (normalizeRoom room) = Some c -> isWhiteSpace c = false) /\
  (forall c, last (normalizeRoom room) = Some c -> isWhiteSpace c = false) /\
  (normalizeRoom room = [] <-> blank room = true).
Proof.
  unfold normalizeRoom. split; [apply trim_split|].
  split; [apply trim_head|]. split; [apply trim_last|apply trim_blank].
Qed.

(** X2.  Normalizing a room twice is normalizing it once, and [setRoom]
    does to the extension what it does when given the normalized room:
    white space around the [ROOM] argument makes no difference. *)
Theorem setRoom_normalizes (ROOM : jsstring) (w : World) :
  normalizeRoom (normalizeRoom ROOM) = normalizeRoom ROOM /\
  step (SetRoom (normalizeRoom ROOM)) w = step (SetRoom ROOM) w /\
  (forall l r, blank l = true -> blank r = true ->
               step (SetRoom (l ++ ROOM ++ r)) w = step (SetRoom ROOM) w).
Proof.
  unfold normalizeRoom. split; [apply trim_idempotent|]. split.
  - cbn [step]. unfold setRoom, normalizeRoom. rewrite trim_idempotent.
    reflexivity.
  - intros l r Hl Hr. cbn [step]. unfold setRoom, normalizeRoom.
    rewrite trim_pad by assumption. reflexivity.
Qed.

(** X3.  [normalizeWsBase] returns the default base unless its argument,
    trimmed, is a URL whose protocol is [ws:] or [wss:], and then it is
    that URL's serialization: a blank argument, one that is no URL and a
    URL of another protocol all give the default.  White space around the
    argument makes no difference. *)
Theorem normalizeWsBase_allows_ws_only (maybeWsBase : jsstring) :
  (blank maybeWsBase = true -> normalizeWsBase maybeWsBase = DEFAULT_WS_BASE) /\
  (URL_parse (trim maybeWsBase) = None ->
   normalizeWsBase maybeWsBase = DEFAULT_WS_BASE) /\
  (forall protocol href,
     URL_parse (trim maybeWsBase) = Some (protocol, href) ->
     protocol <> str "ws:" -> protocol <> str "wss:" ->
     normalizeWsBase maybeWsBase = DEFAULT_WS_BASE) /\
  (forall protocol href,
     blank maybeWsBase = false ->
     URL_parse (trim maybeWsBase) = Some (protocol, href) ->
     protocol = str "ws:" \/ protocol = str "wss:" ->
     normalizeWsBase maybeWsBase = href) /\
  (forall l r, blank l = true -> blank r = true ->
     normalizeWsBase (l ++ maybeWsBase ++ r) = normalizeWsBase maybeWsBase).
Proof.
  unfold normalizeWsBase. repeat split.
  - intros Hb. apply trim_blank in Hb. rewrite Hb. reflexivity.
  - intros ->. destruct (is_empty _); reflexivity.
  - intros protocol href -> Hw Hs. destruct (is_empty _); [reflexivity|].
    destruct (streq protocol (str "ws:")) eqn:H1;
      [apply streq_eq in H1; contradiction|].
    destruct (streq protocol (str "wss:")) eqn:H2;
      [apply streq_eq in H2; contradiction|]. reflexivity.
  - intros protocol href Hb -> Hp.
    destruct (is_empty (trim maybeWsBase)) eqn:He.
    + apply is_empty_true, trim_blank in He. congruence.
    + destruct Hp as [-> | ->]; reflexivity.
  - intros l r Hl Hr. rewrite trim_pad by assumption. reflexivity.
Qed.

(** ** The message handler and the reporters *)

(** X4.  What [toFiniteNumber] makes of the values a decoded frame can
    hold: a missing field ([undefined]), a number that is not finite and
    a plain object give the fallback; [null], [false] and a blank string
    give 0, [true] gives 1, a finite number itself; and whenever the
    fallback is finite, so is the result. *)
Theorem toFiniteNumber_coerces (fallback : number) :
  toFiniteNumber JUndefined fallback = Normal fallback /\
  toFiniteNumber JNull fallback = Normal pos_zero /\
  toFiniteNumber (JBool false) fallback = Normal pos_zero /\
  toFiniteNumber (JBool true) fallback = Normal (num_of_Z 1) /\
  (forall n, toFiniteNumber (JNum n) fallback =
             Normal (if Number_isFinite n then n else fallback)) /\
  (forall s, blank s = true ->
             toFiniteNumber (JStr s) fallback = Normal pos_zero) /\
  (forall members, has_own (str "toString") members = false ->
             toFiniteNumber (JObj members) fallback = Normal fallback) /\
  (forall x n, Number_isFinite fallback = true ->
               toFiniteNumber x fallback = Normal n ->
               Number_isFinite n = true).
Proof.
  repeat split; try reflexivity.
  - intros s Hs. unfold toFiniteNumber, ToNumber. cbn [cannot_convert number_of].
    unfold StringToNumber. apply trim_blank in Hs. rewrite Hs. reflexivity.
  - intros members Hm. unfold toFiniteNumber, ToNumber.
    cbn [cannot_convert number_of]. rewrite Hm. reflexivity.
  - intros x n Hf Hn. exact (toFiniteNumber_finite x fallback n Hf Hn).
Qed.

(** X5.  Whatever the frame, the message handler writes none of the
    fields that steer the connection, and the message event leaves the
    sockets, the timers and the permission checks alone; a handler that
    throws has written nothing; and a frame changes the gesture facts or
    the subscriber count, never both. *)
Theorem message_touches_facts_only (w : World) (i : nat) (data : jsstring) :
  let e := ext w in
  let e' := ext (step (WsMessage i data) w) in
  sockets (step (WsMessage i data) w) = sockets w /\
  timers (step (WsMessage i data) w) = timers w /\
  checks (step (WsMessage i data) w) = checks w /\
  (_connected e' = _connected e /\ _room e' = _room e /\
   _wsBase e' = _wsBase e /\ _defaultRoom e' = _defaultRoom e /\
   _ws e' = _ws e /\ _shouldReconnect e' = _shouldReconnect e /\
   _reconnectTimer e' = _reconnectTimer e /\
   _backoffIndex e' = _backoffIndex e) /\
  (_subscribers e' = _subscribers e \/
   _gesture e' = _gesture e /\ _confidence e' = _confidence e) /\
  (forall e1, onmessage data e = Threw e1 -> e1 = e /\ e' = e).
Proof.
  cbv zeta.
  assert (Hthrow : forall e1, onmessage data (ext w) = Threw e1 -> e1 = ext w).
  { intros e1. unfold onmessage. repeat case_match; congruence. }
  destruct (step_message w i data) as [-> | ->].
  - cbn [with_ext sockets timers checks ext].
    split; [reflexivity|]. split; [reflexivity|]. split; [reflexivity|].
    split; [apply onmessage_control|]. split.
    + unfold onmessage. repeat case_match; simpl; auto.
    + intros e1 He. split; [apply Hthrow, He|].
      rewrite He. apply Hthrow, He.
  - repeat split; auto.
Qed.

(** X6.  In every world the extension reaches, the stored confidence
    and subscriber count are finite numbers: the reporters do not throw,
    [getSubscribers] returns the stored count itself and [getConfidence]
    the stored confidence rounded by [round2]; their fallback 0 is never
    used. *)
Theorem reporters_return_stored_facts
    (wsBaseFromScript roomFromScript : jsstring) (evs : list Event) :
  let w := run evs (SmartteamLiveExtension wsBaseFromScript roomFromScript) in
  Number_isFinite (_confidence (ext w)) = true /\
  Number_isFinite (_subscribers (ext w)) = true /\
  getSubscribers (ext w) = Normal (_subscribers (ext w)) /\
  getConfidence (ext w) = Normal (round2 (_confidence (ext w))).
Proof.
  intros w. assert (Hinv : Inv w) by apply Inv_run, Inv_new.
  destruct (inv_facts w Hinv) as [Hc Hs].
  split; [exact Hc|]. split; [exact Hs|].
  unfold getSubscribers, getConfidence, toFiniteNumber, ToNumber.
  cbn [cannot_convert number_of]. rewrite Hc, Hs. split; reflexivity.
Qed.

(** ** More invariants of the supervisor *)

Lemma retry_ok_none (w : World) : _reconnectTimer (ext w) = None -> retry_ok w.
Proof. intros Hn t Ht. congruence. Qed.

Lemma retry_ok_frame (w w' : World) :
  timers w' = timers w ->
  _reconnectTimer (ext w') = _reconnectTimer (ext w) ->
  _shouldReconnect (ext w') = _shouldReconnect (ext w) ->
  retry_ok w -> retry_ok w'.
Proof. unfold retry_ok. intros -> -> ->. auto. Qed.

Lemma retry_ok_scheduleReconnect (w : World) :
  retry_ok w -> retry_ok (_scheduleReconnect w).
Proof.
  intros Hw. unfold _scheduleReconnect.
  destruct (negb (_shouldReconnect (ext w))) eqn:Hi; [exact Hw|].
  destruct (is_empty (_room (ext w))); [exact Hw|].
  destruct (_reconnectTimer (ext w)); [exact Hw|].
  apply negb_false_iff in Hi.
  intros t. cbn [setTimeout with_ext with_timers ext timers set_reconnectTimer
                 set_backoffIndex _reconnectTimer _shouldReconnect].
  intros [= <-]. split; [exact Hi|].
  eexists. split; [apply list_lookup_middle; reflexivity|reflexivity].
Qed.

Lemma retry_ok_clearReconnectTimer (w : World) :
  retry_ok (_clearReconnectTimer w).
Proof. apply retry_ok_none. rewrite ext_clearReconnectTimer. reflexivity. Qed.

Lemma reconnectTimer_closeWs (r : jsstring) (w : World) :
  _reconnectTimer (ext (_closeWs r w)) = _reconnectTimer (ext w).
Proof. rewrite ext_closeWs. reflexivity. Qed.

Lemma retry_ok_closeWs (r : jsstring) (w : World) :
  retry_ok w -> retry_ok (_closeWs r w).
Proof.
  apply retry_ok_frame.
  - apply closeWs_timer_part.
  - apply reconnectTimer_closeWs.
  - rewrite ext_closeWs. reflexivity.
Qed.

Lemma retry_ok_with_ext (f : Ext -> Ext) (w : World) :
  (forall e, _reconnectTimer (f e) = _reconnectTimer e) ->
  (forall e, _shouldReconnect (f e) = _shouldReconnect e) ->
  retry_ok w -> retry_ok (with_ext f w).
Proof. intros H1 H2. apply retry_ok_frame; [reflexivity|apply H1|apply H2]. Qed.

Lemma retry_ok_openWs (w : World) : retry_ok w -> retry_ok (_openWs w).
Proof.
  intros Hw. unfold _openWs. repeat case_match;
    try (apply (retry_ok_frame w); [reflexivity..|exact Hw]).
  apply retry_ok_scheduleReconnect.
  apply (retry_ok_frame w); [reflexivity..|exact Hw].
Qed.

Lemma retry_ok_resume (u : jsstring) (o : Settled) (w : World) :
  retry_ok w -> retry_ok (_openWsAsync_resume u o w).
Proof.
  intros Hw. unfold _openWsAsync_resume. destruct o as [[|]| |];
    try (apply retry_ok_scheduleReconnect);
    (apply (retry_ok_frame w); [reflexivity..|exact Hw]).
Qed.

Lemma retry_ok_onclose (w : World) : retry_ok w -> retry_ok (onclose w).
Proof.
  intros Hw. unfold onclose. apply retry_ok_scheduleReconnect.
  apply (retry_ok_frame w); [reflexivity..|exact Hw].
Qed.

Lemma retry_ok_retry_callback (w : World) : retry_ok (retry_callback w).
Proof.
  unfold retry_callback. repeat case_match;
    try (apply retry_ok_none; reflexivity).
  apply retry_ok_openWs, retry_ok_none. reflexivity.
Qed.

Lemma retry_ok_setRoomInternal (room : jsstring) (auto : bool) (w : World) :
  retry_ok w -> retry_ok (setRoomInternal room auto w).
Proof.
  intros Hw. unfold setRoomInternal. destruct (is_empty room).
  - destruct (negb auto).
    + apply retry_ok_closeWs, retry_ok_clearReconnectTimer.
    + apply (retry_ok_frame w); [reflexivity..|exact Hw].
  - match goal with |- context [if ?b then _ else _] => destruct b end.
    + apply (retry_ok_frame w); [reflexivity..|exact Hw].
    + apply retry_ok_openWs, retry_ok_closeWs, retry_ok_clearReconnectTimer.
Qed.

Lemma retry_ok_step (ev : Event) (w : World) :
  retry_ok w -> retry_ok (step ev w).
Proof.
  intros Hw. destruct ev; cbn [step].
  - apply retry_ok_setRoomInternal, Hw.
  - unfold reconnect. case_match.
    + apply (retry_ok_frame w); [reflexivity..|exact Hw].
    + apply retry_ok_openWs, retry_ok_closeWs, retry_ok_clearReconnectTimer.
  - unfold disconnect.
    apply retry_ok_with_ext; [reflexivity..|].
    apply retry_ok_closeWs, retry_ok_clearReconnectTimer.
  - repeat case_match; try exact Hw. apply retry_ok_resume.
    apply (retry_ok_frame w); [reflexivity..|exact Hw].
  - repeat case_match; try exact Hw. apply retry_ok_retry_callback.
  - repeat case_match; try exact Hw; unfold onopen;
      (apply (retry_ok_frame w); [reflexivity..|exact Hw]).
  - repeat case_match; try exact Hw.
    apply retry_ok_with_ext; [intros; apply onmessage_control..|exact Hw].
  - repeat case_match; try exact Hw;
      (apply (retry_ok_frame w); [reflexivity..|exact Hw]).
  - repeat case_match; try exact Hw;
      try (apply retry_ok_onclose);
      (apply (retry_ok_frame w); [reflexivity..|exact Hw]).
Qed.

Lemma intent_ok_session (w w' : World) :
  session_part w' = session_part w -> intent_ok w -> intent_ok w'.
Proof.
  intros Hs. apply session_fields in Hs as (Hr & _ & _ & _ & _ & Hi).
  unfold intent_ok. rewrite Hr, Hi. auto.
Qed.

Lemma intent_ok_setRoomInternal (room : jsstring) (w : World) :
  intent_ok w -> intent_ok (setRoomInternal room false w).
Proof.
  intros Hw. pose proof (setRoomInternal_session room false w) as Hs.
  unfold intent_ok. unfold session_part in Hs at 1.
  destruct (is_empty room) eqn:He.
  - injection Hs as _ _ _ _ _ Hi. congruence.
  - destruct (streq room (_room (ext w)) && has_ws w)%bool.
    + injection Hs as Hr _ _ _ _ Hi. rewrite Hr, Hi. exact Hw.
    + injection Hs as Hr _ _ _ _ _. rewrite Hr. intros _.
      apply is_empty_false, He.
Qed.

Lemma intent_ok_step (ev : Event) (w : World) :
  intent_ok w -> intent_ok (step ev w).
Proof.
  intros Hw. destruct ev;
    try (apply (intent_ok_session w); [|exact Hw];
         apply session_part_internal; reflexivity).
  - apply intent_ok_setRoomInternal, Hw.
  - change (step Reconnect w) with (reconnect w).
    pose proof (reconnect_session w) as Hs; unfold session_part in Hs at 1.
    unfold intent_ok. injection Hs as Hr _ _ _ _ Hi. rewrite Hr, Hi.
    destruct (is_empty (_room (ext w))) eqn:He; [exact Hw|].
    intros _. apply is_empty_false, He.
  - change (step Disconnect w) with (disconnect w).
    pose proof (disconnect_session w) as Hs; unfold session_part in Hs at 1.
    unfold intent_ok. injection Hs as _ _ _ _ _ Hi.
    change (_shouldReconnect (ext (disconnect w)) = false) in Hi. congruence.
  - simpl. repeat case_match; try exact Hw.
    unfold intent_ok. cbn [with_ext ext].
    destruct (onmessage_control data (ext w)) as (_ & -> & _ & _ & _ & -> & _).
    exact Hw.
Qed.

Lemma intent_retry_new (a b : jsstring) :
  intent_ok (SmartteamLiveExtension a b) /\
  retry_ok (SmartteamLiveExtension a b).
Proof.
  unfold SmartteamLiveExtension.
  destruct (negb (is_empty (normalizeRoom b))) eqn:Hb.
  - split.
    + apply negb_true_iff in Hb.
      match goal with |- intent_ok (setRoomInternal ?r true ?w0) =>
        pose proof (setRoomInternal_session r true w0) as Hs
      end.
      rewrite Hb in Hs. unfold intent_ok. unfold session_part in Hs at 1.
      destruct (_ && _)%bool; injection Hs as Hr _ _ _ _ Hi;
        rewrite Hr; [rewrite Hi; discriminate|].
      intros _. apply is_empty_false, Hb.
    + apply retry_ok_setRoomInternal, retry_ok_none. reflexivity.
  - split; [discriminate|apply retry_ok_none; reflexivity].
Qed.

(** X7.  In every world the extension reaches at most one retry timer
    is pending; [_reconnectTimer] holds a timer exactly when that timer
    is pending; and while a retry is pending the intent flag is up and a
    room is set. *)
Theorem retry_timer_invariant
    (wsBaseFromScript roomFromScript : jsstring) (evs : list Event) :
  let w := run evs (SmartteamLiveExtension wsBaseFromScript roomFromScript) in
  length (pending_retries w) <= 1 /\
  (forall t, _reconnectTimer (ext w) = Some t <->
             exists tm, timers w !! t = Some tm /\ timer_state tm = Pending) /\
  (_reconnectTimer (ext w) <> None ->
   _shouldReconnect (ext w) = true /\ _room (ext w) <> []) /\
  (_shouldReconnect (ext w) = true -> _room (ext w) <> []).
Proof.
  intros w. assert (Hinv : Inv w) by apply Inv_run, Inv_new.
  assert (Hir : intent_ok w /\ retry_ok w).
  { unfold w. clear. generalize (intent_retry_new wsBaseFromScript roomFromScript).
    generalize (SmartteamLiveExtension wsBaseFromScript roomFromScript).
    induction evs as [|ev evs IH]; intros w0 [Hi Hr]; [split; assumption|].
    apply IH. split; [apply intent_ok_step, Hi|apply retry_ok_step, Hr]. }
  destruct Hir as [Hi Hr].
  split; [apply pending_retries_at_most_one, Hinv|]. split; [|split].
  - intros t. split; [intros Ht; apply (Hr t Ht)|].
    intros (tm & Ht & Hp). exact (inv_timers w Hinv t tm Ht Hp).
  - intros Hn. destruct (_reconnectTimer (ext w)) as [t|] eqn:Ht; [|congruence].
    destruct (Hr t Ht) as [Hs _]. split; [exact Hs|apply Hi, Hs].
  - exact Hi.
Qed.

(** ** The delays that are scheduled *)

Lemma scheduled_one_same (w w' : World) :
  scheduled_delays w' = scheduled_delays w -> scheduled_one w w'.
Proof.
  intros Hd. exists []. rewrite app_nil_r. split; [exact Hd|].
  split; [simpl; lia|constructor].
Qed.

Lemma scheduled_one_after (w w1 w2 : World) :
  scheduled_delays w1 = scheduled_delays w ->
  scheduled_one w1 w2 -> scheduled_one w w2.
Proof. unfold scheduled_one. intros ->. auto. Qed.

Lemma scheduled_one_then (w w1 w2 : World) :
  scheduled_one w w1 -> scheduled_delays w2 = scheduled_delays w1 ->
  scheduled_one w w2.
Proof. unfold scheduled_one. intros Hs ->. exact Hs. Qed.

Lemma backoff_delay_in_table (n : nat) : In (backoff_delay n) BACKOFF_MS.
Proof. destruct n as [|[|[|n]]]; simpl; auto. Qed.

Lemma scheduled_one_scheduleReconnect (w : World) :
  scheduled_one w (_scheduleReconnect w).
Proof.
  unfold _scheduleReconnect.
  destruct (negb (_shouldReconnect (ext w))); [apply scheduled_one_same; reflexivity|].
  destruct (is_empty (_room (ext w))); [apply scheduled_one_same; reflexivity|].
  destruct (_reconnectTimer (ext w)); [apply scheduled_one_same; reflexivity|].
  rewrite nth_backoff.
  exists [backoff_delay (_backoffIndex (ext w))].
  split; [|split; [simpl; lia|]].
  - unfold scheduled_delays. cbn [setTimeout with_ext with_timers timers].
    rewrite map_app. reflexivity.
  - constructor; [apply backoff_delay_in_table|constructor].
Qed.

Lemma delays_clearReconnectTimer (w : World) :
  scheduled_delays (_clearReconnectTimer w) = scheduled_delays w.
Proof. apply clearReconnectTimer_socket_part. Qed.

Lemma delays_closeWs (r : jsstring) (w : World) :
  scheduled_delays (_closeWs r w) = scheduled_delays w.
Proof.
  unfold scheduled_delays.
  destruct (closeWs_timer_part r w) as [-> _]. reflexivity.
Qed.

Lemma scheduled_one_openWs (w : World) : scheduled_one w (_openWs w).
Proof.
  unfold _openWs. repeat case_match;
    try (apply scheduled_one_same; reflexivity).
  eapply scheduled_one_after; [|apply scheduled_one_scheduleReconnect].
  reflexivity.
Qed.

Lemma scheduled_one_resume (u : jsstring) (o : Settled) (w : World) :
  scheduled_one w (_openWsAsync_resume u o w).
Proof.
  unfold _openWsAsync_resume. destruct o as [[|]| |];
    try (eapply scheduled_one_after; [|apply scheduled_one_scheduleReconnect];
         reflexivity).
  apply scheduled_one_same. reflexivity.
Qed.

Lemma scheduled_one_onclose (w : World) : scheduled_one w (onclose w).
Proof.
  unfold onclose.
  eapply scheduled_one_after; [|apply scheduled_one_scheduleReconnect].
  reflexivity.
Qed.

Lemma scheduled_one_retry_callback (w : World) :
  scheduled_one w (retry_callback w).
Proof.
  unfold retry_callback. repeat case_match;
    try (apply scheduled_one_same; reflexivity).
  eapply scheduled_one_after; [|apply scheduled_one_openWs]. reflexivity.
Qed.

Lemma scheduled_one_connect (r : jsstring) (w w0 : World) :
  scheduled_delays w0 = scheduled_delays w ->
  scheduled_one w (_openWs (_closeWs r (_clearReconnectTimer w0))).
Proof.
  intros Hd. eapply scheduled_one_after; [|apply scheduled_one_openWs].
  rewrite delays_closeWs, delays_clearReconnectTimer. exact Hd.
Qed.

Lemma scheduled_one_setRoomInternal (room : jsstring) (auto : bool) (w : World) :
  scheduled_one w (setRoomInternal room auto w).
Proof.
  unfold setRoomInternal. destruct (is_empty room).
  - destruct (negb auto); apply scheduled_one_same; [|reflexivity].
    rewrite delays_closeWs, delays_clearReconnectTimer. reflexivity.
  - match goal with |- context [if ?b then _ else _] => destruct b end.
    + apply scheduled_one_same. reflexivity.
    + apply scheduled_one_connect. reflexivity.
Qed.

Lemma scheduled_one_step (ev : Event) (w : World) :
  scheduled_one w (step ev w).
Proof.
  destruct ev; cbn [step].
  - apply scheduled_one_setRoomInternal.
  - unfold reconnect. destruct (is_empty (_room (ext w))).
    + apply scheduled_one_same. reflexivity.
    + apply scheduled_one_connect. reflexivity.
  - unfold disconnect. apply scheduled_one_same.
    change (scheduled_delays (with_ext ?f ?x)) with (scheduled_delays x).
    rewrite delays_closeWs, delays_clearReconnectTimer. reflexivity.
  - repeat case_match; try (apply scheduled_one_same; reflexivity).
    eapply scheduled_one_after; [|apply scheduled_one_resume]. reflexivity.
  - destruct (timers w !! t) as [tm|] eqn:Ht;
      [|apply scheduled_one_same; reflexivity].
    destruct (timer_state tm); try (apply scheduled_one_same; reflexivity).
    eapply scheduled_one_after; [|apply scheduled_one_retry_callback].
    unfold scheduled_delays. cbn [with_timers timers].
    apply delays_insert_fired, Ht.
  - repeat case_match; apply scheduled_one_same; reflexivity.
  - repeat case_match; apply scheduled_one_same; reflexivity.
  - repeat case_match; apply scheduled_one_same; reflexivity.
  - repeat case_match; try (apply scheduled_one_same; reflexivity).
    all: eapply scheduled_one_after; [|apply scheduled_one_onclose]; reflexivity.
Qed.

(** X8.  In every world the extension reaches the backoff index is at
    most 3, the last position of the table; every delay that has been
    scheduled is an entry of the table; and every event schedules at most
    one further retry. *)
Theorem delays_come_from_table
    (wsBaseFromScript roomFromScript : jsstring) (evs : list Event) :
  let w := run evs (SmartteamLiveExtension wsBaseFromScript roomFromScript) in
  _backoffIndex (ext w) <= 3 /\
  Forall (fun d => In d BACKOFF_MS) (scheduled_delays w) /\
  (forall ev, exists ds,
     scheduled_delays (step ev w) = scheduled_delays w ++ ds /\
     length ds <= 1).
Proof.
  intros w. assert (Hinv : Inv w) by apply Inv_run, Inv_new.
  split; [pose proof (inv_index w Hinv) as Hi; unfold index_ok in Hi;
          simpl in Hi; lia|].
  split.
  - unfold w. clear.
    assert (H0 : Forall (fun d => In d BACKOFF_MS)
                   (scheduled_delays
                      (SmartteamLiveExtension wsBaseFromScript roomFromScript))).
    { unfold SmartteamLiveExtension.
      destruct (negb (is_empty (normalizeRoom roomFromScript)));
        [|constructor].
      match goal with |- context [setRoomInternal ?r ?a ?w0] =>
        destruct (scheduled_one_setRoomInternal r a w0) as (ds & -> & _ & Hds)
      end. exact Hds. }
    revert H0. generalize (SmartteamLiveExtension wsBaseFromScript roomFromScript).
    induction evs as [|ev evs IH]; intros w0 Hw0; [exact Hw0|].
    apply IH. destruct (scheduled_one_step ev w0) as (ds & -> & _ & Hds).
    apply Forall_app. split; assumption.
  - intros ev. destruct (scheduled_one_step ev w) as (ds & Hd & Hl & _).
    exists ds. split; assumption.
Qed.

(** X9.  In every world the extension reaches, the socket [_ws] holds
    is one of the sockets created, its handlers are attached and it has
    not been closed. *)
Theorem held_socket_is_live
    (wsBaseFromScript roomFromScript : jsstring) (evs : list Event) (i : nat) :
  let w := run evs (SmartteamLiveExtension wsBaseFromScript roomFromScript) in
  _ws (ext w) = Some i ->
  exists s, sockets w !! i = Some s /\ sock_handlers s = true /\
            sock_state s <> CLOSED.
Proof.
  intros w Hi. assert (Hinv : Inv w) by apply Inv_run, Inv_new.
  destruct (inv_handle w Hinv i Hi) as (s & Hs & Hh & Hl).
  exists s. split; [exact Hs|]. split; [exact Hh|].
  unfold is_live in Hl. destruct (sock_state s); congruence.
Qed.

(** ** The connection flag *)

Lemma not_raised_same (w w' : World) :
  _connected (ext w') = _connected (ext w) -> not_raised w w'.
Proof. unfold not_raised. intros ->. auto. Qed.

Lemma not_raised_down (w w' : World) :
  _connected (ext w') = false -> not_raised w w'.
Proof. unfold not_raised. intros ->. discriminate. Qed.

Lemma not_raised_trans (w w1 w2 : World) :
  not_raised w w1 -> not_raised w1 w2 -> not_raised w w2.
Proof. unfold not_raised. auto. Qed.

Lemma connected_scheduleReconnect (w : World) :
  _connected (ext (_scheduleReconnect w)) = _connected (ext w).
Proof. unfold _scheduleReconnect, setTimeout. repeat case_match; reflexivity. Qed.

Lemma connected_closeWs (r : jsstring) (w : World) :
  _connected (ext (_closeWs r w)) = _connected (ext w).
Proof. apply closeWs_timer_part. Qed.

Lemma connected_clearReconnectTimer (w : World) :
  _connected (ext (_clearReconnectTimer w)) = _connected (ext w).
Proof. apply clearReconnectTimer_socket_part. Qed.

Lemma not_raised_openWs (w : World) : not_raised w (_openWs w).
Proof.
  unfold _openWs. repeat case_match;
    try (apply not_raised_down; reflexivity);
    try (apply not_raised_same; reflexivity).
  apply not_raised_down. rewrite connected_scheduleReconnect. reflexivity.
Qed.

Lemma not_raised_connect (r : jsstring) (w w0 : World) :
  _connected (ext w0) = _connected (ext w) ->
  not_raised w (_openWs (_closeWs r (_clearReconnectTimer w0))).
Proof.
  intros Hc. eapply not_raised_trans; [|apply not_raised_openWs].
  apply not_raised_same.
  rewrite connected_closeWs, connected_clearReconnectTimer. exact Hc.
Qed.

Lemma not_raised_step (ev : Event) (w : World) :
  is_open ev = false -> not_raised w (step ev w).
Proof.
  intros Hev. destruct ev; try discriminate Hev; clear Hev; cbn [step].
  - unfold setRoom, setRoomInternal. destruct (is_empty (normalizeRoom ROOM)).
    + cbn [negb]. apply not_raised_down.
      rewrite connected_closeWs, connected_clearReconnectTimer. reflexivity.
    + match goal with |- context [if ?b then _ else _] => destruct b end.
      * apply not_raised_same. reflexivity.
      * apply not_raised_connect. reflexivity.
  - unfold reconnect. destruct (is_empty (_room (ext w))).
    + apply not_raised_down. reflexivity.
    + apply not_raised_connect. reflexivity.
  - apply not_raised_down. reflexivity.
  - repeat case_match; try (apply not_raised_same; reflexivity).
    unfold _openWsAsync_resume.
    destruct o as [[|]| |]; try (apply not_raised_same; reflexivity);
      apply not_raised_down; rewrite connected_scheduleReconnect; reflexivity.
  - repeat case_match; try (apply not_raised_same; reflexivity).
    unfold retry_callback. repeat case_match;
      try (apply not_raised_same; reflexivity).
    eapply not_raised_trans; [|apply not_raised_openWs].
    apply not_raised_same. reflexivity.
  - repeat case_match; try (apply not_raised_same; reflexivity).
    apply not_raised_same. cbn [with_ext ext]. apply onmessage_control.
  - repeat case_match; try (apply not_raised_same; reflexivity);
      apply not_raised_down; reflexivity.
  - repeat case_match; try (apply not_raised_same; reflexivity);
      apply not_raised_down; unfold onclose;
      rewrite connected_scheduleReconnect; reflexivity.
Qed.

(** X10.  Only the [open] event of a socket raises the connection flag:
    every other event leaves [isConnected] as it is or lowers it, and
    after a run without an [open] event [isConnected] is false. *)
Theorem connected_only_by_open :
  (forall (ev : Event) (w : World),
     is_open ev = false ->
     isConnected (ext (step ev w)) = true -> isConnected (ext w) = true) /\
  (forall (wsBaseFromScript roomFromScript : jsstring) (evs : list Event),
     forallb (fun ev => negb (is_open ev)) evs = true ->
     isConnected
       (ext (run evs (SmartteamLiveExtension wsBaseFromScript roomFromScript)))
     = false).
Proof.
  split; [exact not_raised_step|].
  intros a b evs Hevs.
  assert (H0 : isConnected (ext (SmartteamLiveExtension a b)) = false).
  { unfold SmartteamLiveExtension.
    destruct (negb (is_empty (normalizeRoom b))) eqn:Hb; [|reflexivity].
    apply negb_true_iff in Hb. unfold setRoomInternal. rewrite Hb.
    cbn [with_ext ext set_defaultRoom set_wsBase _room _ws].
    rewrite andb_false_r.
    unfold isConnected.
    match goal with
    | |- _connected (ext (_openWs (_closeWs ?r (_clearReconnectTimer ?w0)))) = _ =>
        pose proof (not_raised_connect r w0 w0 eq_refl) as Hn
    end.
    unfold not_raised in Hn.
    match goal with |- ?c = false => destruct c; [|reflexivity] end.
    specialize (Hn eq_refl). discriminate Hn. }
  revert H0. generalize (SmartteamLiveExtension a b).
  induction evs as [|ev evs IH]; intros w Hw; [exact Hw|].
  simpl in Hevs. apply andb_true_iff in Hevs as [Hev Hevs].
  apply negb_true_iff in Hev. apply (IH Hevs).
  destruct (isConnected (ext (step ev w))) eqn:Hc; [|reflexivity].
  apply (not_raised_step ev w Hev) in Hc. unfold isConnected in Hw. congruence.
Qed.

(** ** How the commands compose *)

Lemma set_ws_None_id (e : Ext) : _ws e = None -> set_ws None e = e.
Proof. destruct e; simpl; intros ->; reflexivity. Qed.

Lemma closeWs_idle (r : jsstring) (w : World) :
  _ws (ext w) = None -> _closeWs r w = w.
Proof.
  intros Hw. unfold _closeWs. rewrite Hw.
  apply with_ext_same, set_ws_None_id, Hw.
Qed.

Lemma disconnect_fields (w : World) :
  _shouldReconnect (ext (disconnect w)) = false /\
  _reconnectTimer (ext (disconnect w)) = None /\
  _ws (ext (disconnect w)) = None /\
  _connected (ext (disconnect w)) = false.
Proof.
  unfold disconnect. cbn [with_ext ext set_connected _shouldReconnect
                          _reconnectTimer _ws _connected].
  rewrite ext_closeWs, ext_clearReconnectTimer. repeat split.
Qed.

Lemma disconnect_idle (w : World) :
  _shouldReconnect (ext w) = false -> _reconnectTimer (ext w) = None ->
  _ws (ext w) = None -> _connected (ext w) = false ->
  disconnect w = w.
Proof.
  intros Hi Ht Hw Hc. unfold disconnect.
  assert (H1 : with_ext (set_shouldReconnect false) w = w).
  { apply with_ext_same. destruct (ext w); simpl in *; subst; reflexivity. }
  rewrite H1, clearReconnectTimer_idle by exact Ht.
  rewrite closeWs_idle by exact Hw.
  apply with_ext_same. destruct (ext w); simpl in *; subst; reflexivity.
Qed.

Lemma setRoom_blank (ROOM : jsstring) (w : World) :
  blank ROOM = true ->
  step (SetRoom ROOM) w =
  _closeWs (str "room cleared")
    (_clearReconnectTimer
       (with_ext (set_shouldReconnect false)
          (with_ext (set_connected false) (with_ext (set_room []) w)))).
Proof.
  intros Hb. cbn [step]. unfold setRoom, setRoomInternal, normalizeRoom.
  apply trim_blank in Hb. rewrite Hb. reflexivity.
Qed.

(** X11.  [disconnect] done twice is [disconnect] done once, and
    [setRoom] with a blank room leaves the extension as [disconnect]
    does but for the room, which it clears, and for the reason given to
    the socket it closes; after it, [disconnect] changes nothing and
    [reconnect] neither: without a room there is nothing to reconnect
    to. *)
Theorem disconnect_and_clear_compose (ROOM : jsstring) (w : World) :
  step Disconnect (step Disconnect w) = step Disconnect w /\
  (blank ROOM = true ->
   ext (step (SetRoom ROOM) w) = set_room [] (ext (step Disconnect w)) /\
   timers (step (SetRoom ROOM) w) = timers (step Disconnect w) /\
   checks (step (SetRoom ROOM) w) = checks (step Disconnect w) /\
   map sock_state (sockets (step (SetRoom ROOM) w)) =
     map sock_state (sockets (step Disconnect w)) /\
   map sock_handlers (sockets (step (SetRoom ROOM) w)) =
     map sock_handlers (sockets (step Disconnect w)) /\
   step Disconnect (step (SetRoom ROOM) w) = step (SetRoom ROOM) w /\
   step Reconnect (step (SetRoom ROOM) w) = step (SetRoom ROOM) w).
Proof.
  split.
  - cbn [step]. destruct (disconnect_fields w) as (Hi & Ht & Hw & Hc).
    apply disconnect_idle; assumption.
  - intros Hb. rewrite (setRoom_blank ROOM w Hb). cbn [step].
    set (w' := _closeWs _ _).
    assert (He : ext w' = set_room [] (ext (disconnect w))).
    { unfold w', disconnect. cbn [with_ext ext].
      rewrite !ext_closeWs, !ext_clearReconnectTimer. reflexivity. }
    assert (Hsock : forall r1 r2 (w1 w2 : World),
              sockets w1 = sockets w2 -> _ws (ext w1) = _ws (ext w2) ->
              map sock_state (sockets (_closeWs r1 w1)) =
                map sock_state (sockets (_closeWs r2 w2)) /\
              map sock_handlers (sockets (_closeWs r1 w1)) =
                map sock_handlers (sockets (_closeWs r2 w2))).
    { intros r1 r2 w1 w2 Hs Hh. unfold _closeWs, detach_and_close.
      rewrite <- Hh. destruct (_ws (ext w1)) as [i|];
        cbn [with_sockets with_ext sockets]; rewrite <- Hs; [|split; reflexivity].
      generalize (sockets w1). clear. intros l. revert i.
      induction l as [|a l IH]; intros [|i]; simpl; try (split; reflexivity).
      destruct (IH i) as [H1 H2]. split; f_equal; assumption. }
    split; [exact He|].
    split.
    { unfold w', disconnect. cbn [with_ext timers].
      destruct (closeWs_timer_part (str "room cleared")
                  (_clearReconnectTimer
                     (with_ext (set_shouldReconnect false)
                        (with_ext (set_connected false)
                           (with_ext (set_room []) w))))) as [-> _].
      destruct (closeWs_timer_part (str "manual disconnect")
                  (_clearReconnectTimer (with_ext (set_shouldReconnect false) w)))
        as [-> _].
      unfold _clearReconnectTimer. cbn [with_ext ext set_shouldReconnect
        set_connected set_room _reconnectTimer].
      destruct (_reconnectTimer (ext w)); reflexivity. }
    split.
    { unfold w', disconnect. cbn [with_ext checks].
      destruct (closeWs_timer_part (str "room cleared")
                  (_clearReconnectTimer
                     (with_ext (set_shouldReconnect false)
                        (with_ext (set_connected false)
                           (with_ext (set_room []) w))))) as (_ & -> & _).
      destruct (closeWs_timer_part (str "manual disconnect")
                  (_clearReconnectTimer (with_ext (set_shouldReconnect false) w)))
        as (_ & -> & _).
      unfold _clearReconnectTimer. cbn [with_ext ext set_shouldReconnect
        set_connected set_room _reconnectTimer].
      destruct (_reconnectTimer (ext w)); reflexivity. }
    assert (Hpre : sockets
                     (_clearReconnectTimer
                        (with_ext (set_shouldReconnect false)
                           (with_ext (set_connected false)
                              (with_ext (set_room []) w)))) =
                   sockets (_clearReconnectTimer
                              (with_ext (set_shouldReconnect false) w)) /\
                   _ws (ext (_clearReconnectTimer
                        (with_ext (set_shouldReconnect false)
                           (with_ext (set_connected false)
                              (with_ext (set_room []) w))))) =
                   _ws (ext (_clearReconnectTimer
                              (with_ext (set_shouldReconnect false) w)))).
    { rewrite !ext_clearReconnectTimer.
      destruct (clearReconnectTimer_socket_part
                  (with_ext (set_shouldReconnect false)
                     (with_ext (set_connected false)
                        (with_ext (set_room []) w)))) as [-> _].
      destruct (clearReconnectTimer_socket_part
                  (with_ext (set_shouldReconnect false) w)) as [-> _].
      split; reflexivity. }
    destruct Hpre as [Hp1 Hp2].
    destruct (Hsock (str "room cleared") (str "manual disconnect") _ _ Hp1 Hp2)
      as [Hs1 Hs2].
    split; [exact Hs1|]. split; [exact Hs2|].
    destruct (disconnect_fields w) as (Hi & Ht & Hw & Hc).
    split.
    + apply disconnect_idle; rewrite He; assumption.
    + unfold reconnect. rewrite He. cbn [set_room _room is_empty].
      apply with_ext_same. rewrite He.
      cbn [set_connected set_room _connected]. f_equal; symmetry; exact Hc.
Qed.

(** X12.  Constructing the extension with a room in the script URL is
    constructing it without one and then calling [setRoom] with that
    room. *)
Theorem constructor_is_setRoom (wsBaseFromScript roomFromScript : jsstring) :
  SmartteamLiveExtension wsBaseFromScript roomFromScript =
  step (SetRoom roomFromScript) (SmartteamLiveExtension wsBaseFromScript []).
Proof.
  cbn [step]. unfold SmartteamLiveExtension, setRoom.
  change (normalizeRoom []) with (@nil N). cbn [is_empty negb].
  destruct (is_empty (normalizeRoom roomFromScript)) eqn:Hb; cbn [negb].
  - apply is_empty_true in Hb. rewrite Hb. reflexivity.
  - unfold setRoomInternal. rewrite Hb. reflexivity.
Qed.

(** ** The block descriptors *)

(** X13.  The default value [getInfo] gives for the [ROOM] argument of
    the [setRoom] block is never empty: it is ["ST-XXXXXXX"] until a room
    has been given, and in every world the extension reaches in which a
    room is set, it is that room.  [setRoom] with a room that is not
    blank makes the normalized room the default, also when it is
    otherwise a no-op.  Every message of the descriptor has an entry in
    every language of the translation table. *)
Theorem getInfo_default_room
    (translate : option (jsstring -> jsstring)) :
  (forall e, exists d,
     default_of (getInfo translate e) (str "setRoom") (str "ROOM") = Some d /\
     d <> [] /\
     (_defaultRoom e = [] -> d = str "ST-XXXXXXX") /\
     (_defaultRoom e <> [] -> d = _defaultRoom e)) /\
  (forall wsBaseFromScript roomFromScript evs,
     let w := run evs (SmartteamLiveExtension wsBaseFromScript roomFromScript) in
     getRoom (ext w) <> [] ->
     default_of (getInfo translate (ext w)) (str "setRoom") (str "ROOM") =
     Some (getRoom (ext w))) /\
  (forall ROOM w,
     blank ROOM = false ->
     default_of (getInfo translate (ext (step (SetRoom ROOM) w)))
       (str "setRoom") (str "ROOM") = Some (normalizeRoom ROOM)) /\
  (forall e, all_translated (getInfo None e) = true).
Proof.
  assert (Hd : forall e,
            default_of (getInfo translate e) (str "setRoom") (str "ROOM") =
            Some (if is_empty (_defaultRoom e) then str "ST-XXXXXXX"
                  else _defaultRoom e)).
  { intros e. reflexivity. }
  split; [|split; [|split]].
  - intros e. eexists. split; [apply Hd|].
    destruct (_defaultRoom e) as [|c r]; simpl.
    + split; [discriminate|]. split; [reflexivity|congruence].
    + split; [discriminate|]. split; [discriminate|reflexivity].
  - intros a b evs w Hr. rewrite Hd.
    assert (Hinv : Inv w) by apply Inv_run, Inv_new.
    rewrite (inv_default w Hinv Hr). unfold getRoom in *.
    apply is_empty_false in Hr. rewrite Hr. reflexivity.
  - intros ROOM w Hb. rewrite Hd.
    assert (Hn : is_empty (normalizeRoom ROOM) = false).
    { destruct (is_empty (normalizeRoom ROOM)) eqn:He; [|reflexivity].
      apply is_empty_true, trim_blank in He. congruence. }
    cbn [step]. unfold setRoom.
    pose proof (setRoomInternal_session (normalizeRoom ROOM) false w) as Hs.
    rewrite Hn in Hs. unfold session_part in Hs at 1.
    destruct (_ && _)%bool; injection Hs as _ -> _ _ _ _; rewrite Hn; reflexivity.
  - intros e. vm_compute. reflexivity.
Qed.

(** ** Frames that are no keyed structure *)

Lemma parse_elements_array (fuel : nat) :
  forall acc s v r, parse_elements fuel acc s = POk v r ->
                    exists l, v = JArr l.
Proof.
  induction fuel as [|f IH]; intros acc s v r; [discriminate|].
  cbn [parse_elements].
  destruct (parse_value f s) as [v0 r0| |]; try discriminate.
  destruct (skip_ws r0) as [|c r']; [discriminate|].
  destruct (N.eqb c 44); [apply IH|].
  destruct (N.eqb c 93); [|discriminate].
  intros [= <- _]. eauto.
Qed.

Lemma parse_value_not_object (fuel : nat) (s : jsstring) (v : jsval)
    (r : jsstring) :
  head (skip_ws s) <> Some 123%N ->
  parse_value fuel s = POk v r ->
  forall members, v <> JObj members.
Proof.
  intros Hh. destruct fuel as [|f]; [discriminate|].
  cbn [parse_value].
  destruct (skip_ws s) as [|c t]; [discriminate|].
  destruct (N.eqb c 123) eqn:Hc.
  { apply N.eqb_eq in Hc. subst c. destruct Hh. reflexivity. }
  destruct (N.eqb c 91).
  { destruct (skip_ws t) as [|c' t']; [discriminate|].
    destruct (N.eqb c' 93); [intros [= <- _]; discriminate|].
    intros Hp members. apply parse_elements_array in Hp as [l ->]. discriminate. }
  destruct (N.eqb c 34).
  { destruct (parse_string_body t []) as [[x y]|]; [|discriminate].
    intros [= <- _]. discriminate. }
  destruct (strip_prefix (str "true") (c :: t));
    [intros [= <- _]; discriminate|].
  destruct (strip_prefix (str "false") (c :: t));
    [intros [= <- _]; discriminate|].
  destruct (strip_prefix (str "null") (c :: t));
    [intros [= <- _]; discriminate|].
  destruct (parse_number (c :: t)) as [[n y]|]; [|discriminate].
  intros [= <- _]. discriminate.
Qed.

(** X14.  A frame whose first character after JSON white space is not
    an opening brace is ignored, whatever follows: the handler returns
    with every field as it was. *)
Theorem frame_without_brace_ignored (data : jsstring) (e : Ext) :
  head (skip_ws data) <> Some 123%N ->
  onmessage data e = Returned e.
Proof.
  intros Hh. apply onmessage_discarded. unfold discarded_frame, JSON_parse.
  destruct (parse_value (S (2 * length data)) data) as [v r| |] eqn:Hp; auto.
  destruct (skip_ws r); [|exact I].
  destruct v; auto.
  destruct (parse_value_not_object _ _ _ _ Hh Hp members eq_refl).
Qed.

(** ** What the internal events leave alone *)

(** X18.  An event that is neither one of the three commands nor an
    inbound message (a permission check that settles, a timer that
    fires, the [open], [error] or [close] of a socket) changes neither
    the room, the default room, the gesture facts, the subscriber count
    nor the intent flag; and no event at all changes the base address
    other than to the default. *)
Theorem internal_events_keep_session (ev : Event) (w : World) :
  (internal_event ev = true ->
   _room (ext (step ev w)) = _room (ext w) /\
   _defaultRoom (ext (step ev w)) = _defaultRoom (ext w) /\
   _gesture (ext (step ev w)) = _gesture (ext w) /\
   _confidence (ext (step ev w)) = _confidence (ext w) /\
   _subscribers (ext (step ev w)) = _subscribers (ext w) /\
   _shouldReconnect (ext (step ev w)) = _shouldReconnect (ext w)) /\
  (_wsBase (ext (step ev w)) = _wsBase (ext w) \/
   _wsBase (ext (step ev w)) = DEFAULT_WS_BASE).
Proof.
  split.
  - intros Hev. apply session_fields, session_part_internal, Hev.
  - assert (Hsched : forall w0, _wsBase (ext (_scheduleReconnect w0)) =
                                _wsBase (ext w0)).
    { intros w0. unfold _scheduleReconnect, setTimeout.
      repeat case_match; reflexivity. }
    assert (Hopen : forall w0, _wsBase (ext (_openWs w0)) = _wsBase (ext w0) \/
                               _wsBase (ext (_openWs w0)) = DEFAULT_WS_BASE).
    { intros w0. unfold _openWs. repeat case_match; auto;
        right; rewrite Hsched; reflexivity. }
    assert (Hconn : forall r w0 w1, _wsBase (ext w1) = _wsBase (ext w0) ->
              _wsBase (ext (_openWs (_closeWs r (_clearReconnectTimer w1)))) =
                _wsBase (ext w0) \/
              _wsBase (ext (_openWs (_closeWs r (_clearReconnectTimer w1)))) =
                DEFAULT_WS_BASE).
    { intros r w0 w1 H1.
      destruct (Hopen (_closeWs r (_clearReconnectTimer w1))) as [-> | ->]; auto.
      left. rewrite ext_closeWs, ext_clearReconnectTimer. exact H1. }
    destruct ev; cbn [step].
    + unfold setRoom, setRoomInternal. destruct (is_empty (normalizeRoom ROOM)).
      * left. cbn [negb]. rewrite ext_closeWs, ext_clearReconnectTimer.
        reflexivity.
      * match goal with |- context [if ?b then _ else _] => destruct b end;
          [left; reflexivity|apply Hconn; reflexivity].
    + unfold reconnect. destruct (is_empty (_room (ext w)));
        [left; reflexivity|apply Hconn; reflexivity].
    + left. unfold disconnect. cbn [with_ext ext].
      rewrite ext_closeWs, ext_clearReconnectTimer. reflexivity.
    + repeat case_match; auto. left. unfold _openWsAsync_resume.
      destruct o as [[|]| |]; rewrite ?Hsched; reflexivity.
    + repeat case_match; auto. unfold retry_callback.
      repeat case_match; auto.
      match goal with |- context [_openWs ?x] =>
        destruct (Hopen x) as [-> | ->]; auto
      end.
    + repeat case_match; auto.
    + repeat case_match; auto. left. cbn [with_ext ext].
      apply onmessage_control.
    + repeat case_match; auto.
    + repeat case_match; auto; left; unfold onclose; rewrite Hsched;
        reflexivity.
Qed.

(** ** No socket without a permission check *)

Lemma no_new_socket_refl (w : World) : no_new_socket w w.
Proof. split; auto. Qed.

Lemma no_new_socket_trans (w w1 w2 : World) :
  no_new_socket w w1 -> no_new_socket w1 w2 -> no_new_socket w w2.
Proof. intros [H1 H2] [H3 H4]. split; [congruence|auto]. Qed.

Lemma no_new_socket_frame (w w' : World) :
  sockets w' = sockets w -> checks w' = checks w -> no_new_socket w w'.
Proof. intros Hs Hc. unfold no_new_socket, asked. rewrite Hs, Hc. auto. Qed.

Lemma sockets_asked_after (w w' : World) :
  no_new_socket w w' -> sockets_asked w -> sockets_asked w'.
Proof.
  intros [Hs Ha] Hw i s' Hi.
  assert (Hu : map sock_url (sockets w') !! i = Some (sock_url s')).
  { change (map sock_url) with (fmap (M := list) sock_url).
    rewrite list_lookup_fmap, Hi. reflexivity. }
  rewrite Hs in Hu. change (map sock_url) with (fmap (M := list) sock_url) in Hu.
  rewrite list_lookup_fmap in Hu.
  destruct (sockets w !! i) as [s|] eqn:Hsi; [|discriminate].
  injection Hu as <-. apply Ha, (Hw i s Hsi).
Qed.

Lemma no_new_socket_closeWs (r : jsstring) (w : World) :
  no_new_socket w (_closeWs r w).
Proof.
  split.
  - unfold _closeWs, detach_and_close. destruct (_ws (ext w)) as [i|];
      [|reflexivity].
    cbn [with_sockets with_ext sockets]. generalize (sockets w). clear.
    intros l. revert i. induction l as [|a l IH]; intros [|i]; simpl;
      try reflexivity. f_equal. apply IH.
  - unfold asked. destruct (closeWs_timer_part r w) as (_ & -> & _). auto.
Qed.

Lemma no_new_socket_clearReconnectTimer (w : World) :
  no_new_socket w (_clearReconnectTimer w).
Proof.
  apply no_new_socket_frame; apply clearReconnectTimer_socket_part.
Qed.

Lemma no_new_socket_scheduleReconnect (w : World) :
  no_new_socket w (_scheduleReconnect w).
Proof.
  apply no_new_socket_frame; apply scheduleReconnect_socket_part.
Qed.

Lemma asked_canFetch (u u0 : jsstring) (w : World) :
  asked w u0 -> asked (canFetch u w) u0.
Proof.
  intros (c & ck & Hc & Hu & Hp). exists c, ck.
  split; [|auto]. cbn [canFetch with_checks checks].
  apply lookup_app_l_Some, Hc.
Qed.

Lemma no_new_socket_openWs (w : World) : no_new_socket w (_openWs w).
Proof.
  unfold _openWs. repeat case_match;
    try (apply no_new_socket_frame; reflexivity);
    try (split; [reflexivity|]; intros u0 Hu0; apply asked_canFetch; exact Hu0).
  eapply no_new_socket_trans; [|apply no_new_socket_scheduleReconnect].
  apply no_new_socket_frame; reflexivity.
Qed.

Lemma no_new_socket_connect (r : jsstring) (w w0 : World) :
  sockets w0 = sockets w -> checks w0 = checks w ->
  no_new_socket w (_openWs (_closeWs r (_clearReconnectTimer w0))).
Proof.
  intros Hs Hc.
  eapply no_new_socket_trans; [apply no_new_socket_frame; eassumption|].
  eapply no_new_socket_trans; [apply no_new_socket_clearReconnectTimer|].
  eapply no_new_socket_trans; [apply no_new_socket_closeWs|].
  apply no_new_socket_openWs.
Qed.

Lemma no_new_socket_set_state (i : nat) (s : Socket) (st : ReadyState)
    (w : World) :
  sockets w !! i = Some s ->
  no_new_socket w (with_sockets (<[i := set_sock_state st s]>) w).
Proof.
  intros Hs. split; [|auto]. cbn [with_sockets sockets].
  change (map sock_url) with (fmap (M := list) sock_url).
  rewrite list_fmap_insert. apply list_insert_id.
  rewrite list_lookup_fmap, Hs. reflexivity.
Qed.

Lemma sockets_asked_step (ev : Event) (w : World) :
  sockets_asked w -> sockets_asked (step ev w).
Proof.
  intros Hw.
  assert (Hframe : forall w', no_new_socket w w' -> sockets_asked w')
    by (intros w' Hn; apply (sockets_asked_after w); assumption).
  destruct ev; cbn [step].
  - apply Hframe. unfold setRoom, setRoomInternal.
    destruct (is_empty (normalizeRoom ROOM)).
    + cbn [negb].
      eapply no_new_socket_trans; [|apply no_new_socket_closeWs].
      eapply no_new_socket_trans; [|apply no_new_socket_clearReconnectTimer].
      apply no_new_socket_frame; reflexivity.
    + match goal with |- context [if ?b then _ else _] => destruct b end.
      * apply no_new_socket_frame; reflexivity.
      * apply no_new_socket_connect; reflexivity.
  - apply Hframe. unfold reconnect. destruct (is_empty (_room (ext w))).
    + apply no_new_socket_frame; reflexivity.
    + apply no_new_socket_connect; reflexivity.
  - apply Hframe. unfold disconnect.
    eapply no_new_socket_trans; [|apply no_new_socket_frame; reflexivity].
    eapply no_new_socket_trans; [|apply no_new_socket_closeWs].
    eapply no_new_socket_trans; [|apply no_new_socket_clearReconnectTimer].
    apply no_new_socket_frame; reflexivity.
  - destruct (checks w !! c) as [ck|] eqn:Hc; [|exact Hw].
    destruct (check_pending ck) eqn:Hp; [|exact Hw].
    set (w1 := with_checks _ w).
    assert (Hn1 : no_new_socket w w1).
    { split; [reflexivity|]. intros u (c0 & ck0 & Hc0 & Hu0 & Hp0).
      exists c0, ck0. split; [|auto]. unfold w1. cbn [with_checks checks].
      rewrite list_lookup_insert_ne; [exact Hc0|]. congruence. }
    assert (Hask : asked w1 (check_url ck)).
    { exists c, {| check_url := check_url ck; check_pending := false |}.
      split; [|split; reflexivity].
      unfold w1. cbn [with_checks checks].
      apply list_lookup_insert_eq. eapply lookup_lt_Some, Hc. }
    assert (H1 : sockets_asked w1) by (apply Hframe, Hn1).
    unfold _openWsAsync_resume. destruct o as [[|]| |];
      try (apply (sockets_asked_after w1); [|exact H1];
           eapply no_new_socket_trans; [|apply no_new_socket_scheduleReconnect];
           apply no_new_socket_frame; reflexivity).
    intros i s. cbn [new_WebSocket with_ext with_sockets sockets].
    intros Hi. unfold asked.
    change (checks (with_ext ?f ?x)) with (checks x).
    change (checks (with_sockets ?f ?x)) with (checks x).
    apply lookup_app_Some in Hi as [Hi|[_ Hi]]; [apply (H1 i s Hi)|].
    destruct (i - length (sockets w1)) as [|k]; [|destruct k; discriminate].
    injection Hi as <-. exact Hask.
  - apply Hframe. destruct (timers w !! t) as [tm|];
      [|apply no_new_socket_refl].
    destruct (timer_state tm); try apply no_new_socket_refl.
    unfold retry_callback. repeat case_match;
      try (apply no_new_socket_frame; reflexivity).
    eapply no_new_socket_trans; [|apply no_new_socket_openWs].
    apply no_new_socket_frame; reflexivity.
  - apply Hframe. destruct (sockets w !! i) as [s|] eqn:Hs;
      [|apply no_new_socket_refl].
    destruct (sock_state s); try apply no_new_socket_refl.
    destruct (sock_handlers s); unfold onopen;
      (eapply no_new_socket_trans;
       [apply (no_new_socket_set_state i s OPEN w Hs)|]);
      apply no_new_socket_frame; reflexivity.
  - apply Hframe. repeat case_match; try apply no_new_socket_refl.
    apply no_new_socket_frame; reflexivity.
  - apply Hframe. repeat case_match; try apply no_new_socket_refl;
      apply no_new_socket_frame; reflexivity.
  - apply Hframe. destruct (sockets w !! i) as [s|] eqn:Hs;
      [|apply no_new_socket_refl].
    destruct (sock_state s); try apply no_new_socket_refl;
      (destruct (sock_handlers s); unfold onclose;
       [eapply no_new_socket_trans;
        [apply (no_new_socket_set_state i s CLOSED w Hs)|];
        eapply no_new_socket_trans; [|apply no_new_socket_scheduleReconnect];
        apply no_new_socket_frame; reflexivity
       |apply (no_new_socket_set_state i s CLOSED w Hs)]).
Qed.

(** X19.  In every world the extension reaches, the address of every
    socket it has created is one for which it has requested a permission
    check, and that check has settled: no socket is created without
    asking [Scratch.canFetch] first, and none is created by a command,
    a timer or a socket event, which at most request a check. *)
Theorem no_socket_without_permission_check
    (wsBaseFromScript roomFromScript : jsstring) (evs : list Event) :
  let w := run evs (SmartteamLiveExtension wsBaseFromScript roomFromScript) in
  (forall i s, sockets w !! i = Some s ->
     exists c ck, checks w !! c = Some ck /\ check_url ck = sock_url s /\
                  check_pending ck = false) /\
  (forall ev, is_settle ev = false ->
     length (sockets (step ev w)) = length (sockets w)).
Proof.
  intros w. split.
  - change (sockets_asked w). unfold w. clear w.
    assert (H0 : sockets_asked
                   (SmartteamLiveExtension wsBaseFromScript roomFromScript)).
    { unfold SmartteamLiveExtension.
      destruct (negb (is_empty (normalizeRoom roomFromScript))).
      - unfold setRoomInternal. repeat case_match;
          try (intros i s Hi; discriminate).
        match goal with
        | |- sockets_asked (_openWs (_closeWs ?r (_clearReconnectTimer ?w0))) =>
            apply (sockets_asked_after w0);
              [apply no_new_socket_connect; reflexivity|]
        end.
        intros i s Hi; discriminate.
      - intros i s Hi; discriminate. }
    revert H0. generalize (SmartteamLiveExtension wsBaseFromScript roomFromScript).
    induction evs as [|ev evs IH]; intros w0 Hw0; [exact Hw0|].
    apply IH, sockets_asked_step, Hw0.
  - intros ev Hev.
    assert (Hlen : forall w', no_new_socket w w' ->
                     length (sockets w') = length (sockets w)).
    { intros w' [Hs _]. apply (f_equal (@length _)) in Hs.
      rewrite !length_map in Hs. exact Hs. }
    generalize w. clear w Hlen. intros w.
    assert (Hlen : forall w', no_new_socket w w' ->
                     length (sockets w') = length (sockets w)).
    { intros w' [Hs _]. apply (f_equal (@length _)) in Hs.
      rewrite !length_map in Hs. exact Hs. }
    destruct ev; try discriminate; clear Hev; cbn [step].
    + apply Hlen. unfold setRoom, setRoomInternal.
      destruct (is_empty (normalizeRoom ROOM)).
      * cbn [negb].
        eapply no_new_socket_trans; [|apply no_new_socket_closeWs].
        eapply no_new_socket_trans; [|apply no_new_socket_clearReconnectTimer].
        apply no_new_socket_frame; reflexivity.
      * match goal with |- context [if ?b then _ else _] => destruct b end.
        -- apply no_new_socket_frame; reflexivity.
        -- apply no_new_socket_connect; reflexivity.
    + apply Hlen. unfold reconnect. destruct (is_empty (_room (ext w))).
      * apply no_new_socket_frame; reflexivity.
      * apply no_new_socket_connect; reflexivity.
    + apply Hlen. unfold disconnect.
      eapply no_new_socket_trans; [|apply no_new_socket_frame; reflexivity].
      eapply no_new_socket_trans; [|apply no_new_socket_closeWs].
      eapply no_new_socket_trans; [|apply no_new_socket_clearReconnectTimer].
      apply no_new_socket_frame; reflexivity.
    + apply Hlen. destruct (timers w !! t) as [tm|];
        [|apply no_new_socket_refl].
      destruct (timer_state tm); try apply no_new_socket_refl.
      unfold retry_callback. repeat case_match;
        try (apply no_new_socket_frame; reflexivity).
      eapply no_new_socket_trans; [|apply no_new_socket_openWs].
      apply no_new_socket_frame; reflexivity.
    + repeat case_match; try reflexivity; unfold onopen;
        cbn [with_ext with_sockets sockets]; apply length_insert.
    + repeat case_match; reflexivity.
    + repeat case_match; reflexivity.
    + repeat case_match; try reflexivity; unfold onclose;
        rewrite ?(proj1 (scheduleReconnect_socket_part _));
        cbn [with_ext with_sockets sockets]; apply length_insert.
Qed.

(** ** Closing the socket held *)

Lemma sockets_openWs (w : World) :
  sockets (_openWs w) = sockets w /\ _ws (ext (_openWs w)) = _ws (ext w).
Proof.
  unfold _openWs. repeat case_match; try (split; reflexivity).
  match goal with |- context [_scheduleReconnect ?x] =>
    destruct (scheduleReconnect_socket_part x) as (-> & -> & _)
  end. split; reflexivity.
Qed.

Lemma closeWs_others (r : jsstring) (w : World) (i j : nat) :
  _ws (ext w) = Some i -> j <> i ->
  sockets (_closeWs r w) !! j = sockets w !! j.
Proof.
  intros Hi Hj. unfold _closeWs, detach_and_close. rewrite Hi.
  cbn [with_sockets with_ext sockets].
  apply list_lookup_alter_ne. congruence.
Qed.

(** The teardown of a connect sequence closes the socket held and lets
    go of it. *)
Lemma teardown_closes (r : jsstring) (w w0 : World) (i : nat) (s : Socket) :
  sockets w0 = sockets w -> _ws (ext w0) = _ws (ext w) ->
  _ws (ext w) = Some i -> sockets w !! i = Some s -> r <> [] ->
  let w' := _closeWs r (_clearReconnectTimer w0) in
  sockets w' !! i = Some (closed_for r s) /\
  (forall j, j <> i -> sockets w' !! j = sockets w !! j) /\
  _ws (ext w') = None.
Proof.
  intros Hs Hw Hi Hsi Hr w'.
  destruct (clearReconnectTimer_socket_part w0) as (Hs1 & _ & Hw1 & _).
  assert (Hi1 : _ws (ext (_clearReconnectTimer w0)) = Some i) by congruence.
  assert (Hsi1 : sockets (_clearReconnectTimer w0) !! i = Some s) by congruence.
  split; [|split].
  - apply closeWs_closes; assumption.
  - intros j Hj. unfold w'. rewrite (closeWs_others r _ i j Hi1 Hj).
    congruence.
  - unfold w'. rewrite ext_closeWs. reflexivity.
Qed.

(** X26.  Each way in which the extension lets go of the socket it
    holds closes that socket with code 1000 and a reason that names the
    cause, after detaching its handlers, and touches no other socket:
    [disconnect] with "manual disconnect", [reconnect] (while a room is
    set) with "manual reconnect", [setRoom] with a blank room with "room
    cleared", and [setRoom] with another room with "room changed". *)
Theorem teardown_closes_held_socket (w : World) (i : nat) (s : Socket) :
  _ws (ext w) = Some i -> sockets w !! i = Some s ->
  let closes (r : string) (w' : World) :=
    sockets w' !! i = Some (closed_for (str r) s) /\
    (forall j, j <> i -> sockets w' !! j = sockets w !! j) /\
    length (sockets w') = length (sockets w) in
  closes "manual disconnect"%string (step Disconnect w) /\
  (_room (ext w) <> [] -> closes "manual reconnect"%string (step Reconnect w)) /\
  (forall ROOM, blank ROOM = true ->
     closes "room cleared"%string (step (SetRoom ROOM) w)) /\
  (forall ROOM, blank ROOM = false -> normalizeRoom ROOM <> _room (ext w) ->
     closes "room changed"%string (step (SetRoom ROOM) w)).
Proof.
  intros Hi Hs closes.
  assert (Hgen : forall r w0,
            sockets w0 = sockets w -> _ws (ext w0) = _ws (ext w) ->
            str r <> [] ->
            forall w', sockets w' = sockets (_closeWs (str r)
                                      (_clearReconnectTimer w0)) ->
            closes r w').
  { intros r w0 H1 H2 Hr w' Hw'.
    destruct (teardown_closes (str r) w w0 i s H1 H2 Hi Hs Hr) as (Ha & Hb & _).
    unfold closes. rewrite Hw'. split; [exact Ha|]. split; [auto|].
    destruct (closeWs_timer_part (str r) (_clearReconnectTimer w0))
      as (_ & _ & _ & _ & _ & _ & ->).
    destruct (clearReconnectTimer_socket_part w0) as (-> & _). congruence. }
  split; [|split; [|split]].
  - apply (Hgen "manual disconnect"%string (with_ext (set_shouldReconnect false) w));
      [reflexivity|reflexivity|discriminate|reflexivity].
  - intros Hr. apply is_empty_false in Hr.
    apply (Hgen "manual reconnect"%string
             (with_ext (set_shouldReconnect true)
                (with_ext (set_backoffIndex 0) w)));
      [reflexivity|reflexivity|discriminate|].
    cbn [step]. unfold reconnect. rewrite Hr. apply sockets_openWs.
  - intros ROOM Hb. rewrite (setRoom_blank ROOM w Hb).
    apply (Hgen "room cleared"%string
             (with_ext (set_shouldReconnect false)
                (with_ext (set_connected false) (with_ext (set_room []) w))));
      [reflexivity|reflexivity|discriminate|reflexivity].
  - intros ROOM Hb Hne.
    assert (He : is_empty (normalizeRoom ROOM) = false).
    { destruct (is_empty (normalizeRoom ROOM)) eqn:He; [|reflexivity].
      apply is_empty_true, trim_blank in He. congruence. }
    assert (Hq : streq (normalizeRoom ROOM) (_room (ext w)) = false).
    { destruct (streq _ _) eqn:Hq; [|reflexivity].
      apply streq_eq in Hq. contradiction. }
    cbn [step]. unfold setRoom, setRoomInternal. rewrite He.
    cbn [with_ext ext set_defaultRoom _room _ws]. rewrite Hq. cbn [andb].
    match goal with
    | |- closes _ (_openWs (_closeWs _ (_clearReconnectTimer ?w0))) =>
        apply (Hgen "room changed"%string w0);
          [reflexivity|reflexivity|discriminate|apply sockets_openWs]
    end.
Qed.

(** ** The supervisor is never idle while it means to be connected *)

Lemma progress_ok_frame (w w' : World) :
  _shouldReconnect (ext w') = _shouldReconnect (ext w) ->
  _ws (ext w') = _ws (ext w) ->
  _reconnectTimer (ext w') = _reconnectTimer (ext w) ->
  checks w' = checks w ->
  progress_ok w -> progress_ok w'.
Proof.
  unfold progress_ok, check_in_flight. intros -> -> -> ->. auto.
Qed.

Lemma progress_ok_idle (w : World) :
  _shouldReconnect (ext w) = false -> progress_ok w.
Proof. intros Hi Hs. congruence. Qed.

Lemma progress_ok_held (w : World) (i : nat) :
  _ws (ext w) = Some i -> progress_ok w.
Proof. intros Hi _ Hn. congruence. Qed.

Lemma progress_ok_scheduleReconnect (w : World) :
  intent_ok w -> progress_ok (_scheduleReconnect w).
Proof.
  intros Hint. unfold _scheduleReconnect.
  destruct (negb (_shouldReconnect (ext w))) eqn:Hs.
  - apply progress_ok_idle. apply negb_true_iff, Hs.
  - apply negb_false_iff in Hs. specialize (Hint Hs).
    apply is_empty_false in Hint. rewrite Hint.
    destruct (_reconnectTimer (ext w)) eqn:Ht.
    + intros _ _. left. congruence.
    + intros _ _. left. discriminate.
Qed.

Lemma progress_ok_canFetch (u : jsstring) (w : World) :
  progress_ok (canFetch u w).
Proof.
  intros _ _. right. exists (length (checks w)). eexists.
  split; [apply list_lookup_middle; reflexivity|reflexivity].
Qed.

Lemma intent_ok_with_ext (f : Ext -> Ext) (w : World) :
  (forall e, _room (f e) = _room e) ->
  (forall e, _shouldReconnect (f e) = _shouldReconnect e) ->
  intent_ok w -> intent_ok (with_ext f w).
Proof.
  intros H1 H2. unfold intent_ok. cbn [with_ext ext]. rewrite H1, H2. auto.
Qed.

Lemma progress_ok_openWs (w : World) : intent_ok w -> progress_ok (_openWs w).
Proof.
  intros Hint. unfold _openWs.
  destruct (is_empty (_room (ext w))) eqn:He.
  { apply progress_ok_idle. cbn [with_ext ext set_connected _shouldReconnect].
    destruct (_shouldReconnect (ext w)) eqn:Hs; [|reflexivity].
    apply is_empty_true in He. destruct (Hint Hs He). }
  destruct (negb (_shouldReconnect (ext w))) eqn:Hs.
  { apply progress_ok_idle. apply negb_true_iff, Hs. }
  destruct (_buildWsUrl (ext w)); [apply progress_ok_canFetch|].
  destruct (_buildWsUrl _); [apply progress_ok_canFetch|].
  apply progress_ok_scheduleReconnect.
  repeat (apply intent_ok_with_ext; [reflexivity|reflexivity|]). exact Hint.
Qed.

Lemma progress_ok_resume (u : jsstring) (o : Settled) (w : World) :
  intent_ok w -> progress_ok (_openWsAsync_resume u o w).
Proof.
  intros Hint. unfold _openWsAsync_resume. destruct o as [[|]| |];
    try (apply progress_ok_scheduleReconnect;
         repeat (apply intent_ok_with_ext; [reflexivity|reflexivity|]);
         exact Hint).
  eapply progress_ok_held. reflexivity.
Qed.

Lemma progress_ok_connect (r : jsstring) (w : World) :
  intent_ok w -> progress_ok (_openWs (_closeWs r (_clearReconnectTimer w))).
Proof.
  intros Hw. apply progress_ok_openWs.
  apply (intent_ok_session w); [|exact Hw].
  rewrite session_part_closeWs, session_part_clearReconnectTimer.
  reflexivity.
Qed.

Lemma progress_ok_setRoomInternal (room : jsstring) (auto : bool) (w : World) :
  progress_ok w -> progress_ok (setRoomInternal room auto w).
Proof.
  intros Hw. unfold setRoomInternal. destruct (is_empty room) eqn:He.
  - destruct (negb auto).
    + apply progress_ok_idle.
      rewrite ext_closeWs, ext_clearReconnectTimer. reflexivity.
    + apply (progress_ok_frame w); [reflexivity..|exact Hw].
  - match goal with |- context [if ?b then _ else _] => destruct b end.
    + apply (progress_ok_frame w); [reflexivity..|exact Hw].
    + apply progress_ok_connect. intros _. cbn [with_ext ext set_shouldReconnect
        set_backoffIndex set_subscribers set_confidence set_gesture
        set_room _room]. apply is_empty_false, He.
Qed.

Lemma progress_ok_step (ev : Event) (w : World) :
  intent_ok w -> progress_ok w -> progress_ok (step ev w).
Proof.
  intros Hint Hw.
  assert (Hconn : forall r w0, intent_ok w0 ->
            progress_ok (_openWs (_closeWs r (_clearReconnectTimer w0))))
    by (intros; apply progress_ok_connect; assumption).
  destruct ev; cbn [step].
  - apply progress_ok_setRoomInternal, Hw.
  - unfold reconnect. destruct (is_empty (_room (ext w))) eqn:He.
    + apply (progress_ok_frame w); [reflexivity..|exact Hw].
    + apply Hconn. intros _. apply is_empty_false, He.
  - apply progress_ok_idle. unfold disconnect. cbn [with_ext ext
      set_connected _shouldReconnect].
    rewrite ext_closeWs, ext_clearReconnectTimer. reflexivity.
  - repeat case_match; try exact Hw. apply progress_ok_resume.
    apply (intent_ok_session w); [reflexivity|exact Hint].
  - repeat case_match; try exact Hw. unfold retry_callback.
    cbn [with_ext with_timers ext set_reconnectTimer _ws _shouldReconnect
         _room].
    destruct (_ws (ext w)) as [i|] eqn:Hi.
    + eapply progress_ok_held. cbn [with_ext with_timers ext set_reconnectTimer
        _ws]. exact Hi.
    + destruct (negb (_shouldReconnect (ext w))) eqn:Hs.
      * apply progress_ok_idle. apply negb_true_iff, Hs.
      * apply negb_false_iff in Hs. specialize (Hint Hs).
        apply is_empty_false in Hint as He. rewrite He.
        apply progress_ok_openWs. intros _. exact Hint.
  - repeat case_match; try exact Hw; unfold onopen;
      (apply (progress_ok_frame w); [reflexivity..|exact Hw]).
  - repeat case_match; try exact Hw.
    apply (progress_ok_frame w); [..|exact Hw]; try reflexivity;
      cbn [with_ext ext]; apply onmessage_control.
  - repeat case_match; try exact Hw;
      (apply (progress_ok_frame w); [reflexivity..|exact Hw]).
  - repeat case_match; try exact Hw;
      try (apply (progress_ok_frame w); [reflexivity..|exact Hw]);
      unfold onclose; apply progress_ok_scheduleReconnect;
      (apply (intent_ok_session w); [reflexivity|exact Hint]).
Qed.

(** X27.  In every world the extension reaches in which the intent
    flag is up and no socket is held, a retry timer is pending or a
    permission check is in flight: the extension never stops trying
    while it means to be connected. *)
Theorem never_idle_while_intent
    (wsBaseFromScript roomFromScript : jsstring) (evs : list Event) :
  let w := run evs (SmartteamLiveExtension wsBaseFromScript roomFromScript) in
  _shouldReconnect (ext w) = true -> _ws (ext w) = None ->
  (exists t tm, _reconnectTimer (ext w) = Some t /\
                timers w !! t = Some tm /\ timer_state tm = Pending) \/
  (exists c ck, checks w !! c = Some ck /\ check_pending ck = true).
Proof.
  intros w Hs Hn.
  assert (Hall : intent_ok w /\ retry_ok w /\ progress_ok w).
  { unfold w. clear.
    assert (H0 : intent_ok (SmartteamLiveExtension wsBaseFromScript roomFromScript)
                 /\ retry_ok (SmartteamLiveExtension wsBaseFromScript roomFromScript)
                 /\ progress_ok
                      (SmartteamLiveExtension wsBaseFromScript roomFromScript)).
    { destruct (intent_retry_new wsBaseFromScript roomFromScript) as [Hi Hr].
      split; [exact Hi|]. split; [exact Hr|].
      unfold SmartteamLiveExtension.
      destruct (negb (is_empty (normalizeRoom roomFromScript)));
        [apply progress_ok_setRoomInternal|];
        apply progress_ok_idle; reflexivity. }
    revert H0. generalize (SmartteamLiveExtension wsBaseFromScript roomFromScript).
    induction evs as [|ev evs IH]; intros w0 (Hi & Hr & Hp); [auto|].
    apply IH. split; [apply intent_ok_step, Hi|].
    split; [apply retry_ok_step, Hr|apply progress_ok_step; assumption]. }
  destruct Hall as (Hi & Hr & Hp).
  destruct (Hp Hs Hn) as [Ht|Hc]; [left|right; exact Hc].
  destruct (_reconnectTimer (ext w)) as [t|] eqn:Htm; [|congruence].
  destruct (Hr t Htm) as (_ & tm & H1 & H2). exists t, tm. auto.
Qed.

(** ** Where the extension connects to *)

Lemma lookup_map_eq {A B : Type} (f : A -> B) (l l' : list A) (i : nat) (x : A) :
  map f l' = map f l -> l' !! i = Some x ->
  exists y, l !! i = Some y /\ f y = f x.
Proof.
  intros Hm Hi.
  assert (Hu : map f l' !! i = Some (f x)).
  { change (map f) with (fmap (M := list) f).
    rewrite list_lookup_fmap, Hi. reflexivity. }
  rewrite Hm in Hu. change (map f) with (fmap (M := list) f) in Hu.
  rewrite list_lookup_fmap in Hu.
  destruct (l !! i) as [y|]; [|discriminate].
  injection Hu as Hu. exists y. auto.
Qed.

Lemma given_ok_moved (b : jsstring) (G : jsstring -> Prop) (w w' : World) :
  _wsBase (ext w') = _wsBase (ext w) ->
  (_room (ext w') <> [] -> G (_room (ext w'))) ->
  map check_url (checks w') = map check_url (checks w) ->
  map sock_url (sockets w') = map sock_url (sockets w) ->
  given_ok b G w -> given_ok b G w'.
Proof.
  intros Hb Hr Hc Hs (Hb0 & _ & Hc0 & Hs0).
  split; [rewrite Hb; exact Hb0|]. split; [exact Hr|]. split.
  - intros c ck Hl.
    destruct (lookup_map_eq check_url _ _ c ck Hc Hl) as (y & Hy & <-).
    apply (Hc0 c y Hy).
  - intros i s Hl.
    destruct (lookup_map_eq sock_url _ _ i s Hs Hl) as (y & Hy & <-).
    apply (Hs0 i y Hy).
Qed.

Lemma given_ok_same (b : jsstring) (G : jsstring -> Prop) (w w' : World) :
  same_place w w' -> given_ok b G w -> given_ok b G w'.
Proof.
  intros (Hb & Hr & Hc & Hs) Hw.
  apply (given_ok_moved b G w w'); try assumption.
  rewrite Hr. apply Hw.
Qed.

Lemma same_place_refl (w : World) : same_place w w.
Proof. repeat split. Qed.

Lemma same_place_trans (w w1 w2 : World) :
  same_place w w1 -> same_place w1 w2 -> same_place w w2.
Proof.
  intros (A1 & A2 & A3 & A4) (B1 & B2 & B3 & B4).
  repeat split; congruence.
Qed.

Lemma same_place_closeWs (r : jsstring) (w : World) :
  same_place w (_closeWs r w).
Proof.
  split; [rewrite ext_closeWs; reflexivity|].
  split; [rewrite ext_closeWs; reflexivity|]. split.
  - destruct (closeWs_timer_part r w) as (_ & -> & _). reflexivity.
  - apply no_new_socket_closeWs.
Qed.

Lemma same_place_clearReconnectTimer (w : World) :
  same_place w (_clearReconnectTimer w).
Proof.
  destruct (clearReconnectTimer_socket_part w) as (Hs & Hc & _).
  split; [rewrite ext_clearReconnectTimer; reflexivity|].
  split; [rewrite ext_clearReconnectTimer; reflexivity|].
  rewrite Hs, Hc. split; reflexivity.
Qed.

Lemma same_place_scheduleReconnect (w : World) :
  same_place w (_scheduleReconnect w).
Proof.
  unfold same_place, _scheduleReconnect, setTimeout.
  repeat case_match; repeat split.
Qed.

Lemma same_place_set_state (i : nat) (s : Socket) (st : ReadyState)
    (w : World) :
  sockets w !! i = Some s ->
  same_place w (with_sockets (<[i := set_sock_state st s]>) w).
Proof.
  intros Hs. repeat split.
  apply (no_new_socket_set_state i s st w Hs).
Qed.

Lemma built_canFetch (b : jsstring) (G : jsstring -> Prop) (u : jsstring)
    (w : World) :
  built b G u -> given_ok b G w -> given_ok b G (canFetch u w).
Proof.
  intros Hu (Hb & Hr & Hc & Hs).
  split; [exact Hb|]. split; [exact Hr|]. split; [|exact Hs].
  intros c ck. cbn [canFetch with_checks checks]. intros Hl.
  apply lookup_app_Some in Hl as [Hl|[_ Hl]]; [apply (Hc c ck Hl)|].
  destruct (c - length (checks w)) as [|k]; [|destruct k; discriminate].
  injection Hl as <-. exact Hu.
Qed.

Lemma given_ok_openWs (b : jsstring) (G : jsstring -> Prop) (w : World) :
  given_ok b G w -> given_ok b G (_openWs w).
Proof.
  intros Hw. unfold _openWs.
  destruct (is_empty (_room (ext w))) eqn:Hroom;
    [revert Hw; apply given_ok_same; repeat split|].
  destruct (negb (_shouldReconnect (ext w)));
    [revert Hw; apply given_ok_same; repeat split|].
  apply is_empty_false in Hroom.
  assert (HG : G (_room (ext w))) by (apply Hw, Hroom).
  destruct (_buildWsUrl (ext w)) as [u|] eqn:Hu.
  - apply built_canFetch; [|exact Hw].
    unfold _buildWsUrl in Hu. eexists _, (_room (ext w)).
    split; [|split; [exact HG|split; [exact Hroom|exact Hu]]].
    destruct (is_empty (_wsBase (ext w))); [right; reflexivity|apply Hw].
  - assert (Hw1 : given_ok b G (with_ext (set_wsBase DEFAULT_WS_BASE) w)).
    { destruct Hw as (_ & Hr & Hc & Hs).
      split; [right; reflexivity|]. split; [exact Hr|]. split; assumption. }
    destruct (_buildWsUrl (ext (with_ext (set_wsBase DEFAULT_WS_BASE) w)))
      as [u|] eqn:Hu1.
    + apply built_canFetch; [|exact Hw1].
      exists DEFAULT_WS_BASE, (_room (ext w)).
      split; [right; reflexivity|]. split; [exact HG|].
      split; [exact Hroom|exact Hu1].
    + revert Hw1. apply given_ok_same.
      eapply same_place_trans; [|apply same_place_scheduleReconnect].
      repeat split.
Qed.

Lemma given_ok_connect (b : jsstring) (G : jsstring -> Prop) (r : jsstring)
    (w : World) :
  given_ok b G w ->
  given_ok b G (_openWs (_closeWs r (_clearReconnectTimer w))).
Proof.
  intros Hw. apply given_ok_openWs.
  revert Hw. apply given_ok_same.
  eapply same_place_trans; [apply same_place_clearReconnectTimer|].
  apply same_place_closeWs.
Qed.

Lemma given_ok_setRoomInternal (b : jsstring) (G : jsstring -> Prop)
    (room : jsstring) (auto : bool) (w : World) :
  (room <> [] -> G room) ->
  given_ok b G w -> given_ok b G (setRoomInternal room auto w).
Proof.
  intros HG Hw. unfold setRoomInternal. destruct (is_empty room) eqn:He.
  - assert (Hw1 : given_ok b G
                    (with_ext (set_connected false)
                       (with_ext (set_room []) w))).
    { revert Hw. apply given_ok_moved; try reflexivity.
      intros Hn. exfalso. apply Hn. reflexivity. }
    destruct (negb auto); [|exact Hw1].
    revert Hw1. apply given_ok_same.
    eapply same_place_trans; [|apply same_place_closeWs].
    eapply same_place_trans; [|apply same_place_clearReconnectTimer].
    repeat split.
  - apply is_empty_false in He.
    match goal with |- context [if ?c then _ else _] => destruct c end.
    + revert Hw. apply given_ok_same. repeat split.
    + apply given_ok_connect. revert Hw.
      apply given_ok_moved; try reflexivity.
      intros _. apply HG, He.
Qed.

Lemma given_ok_step (b : jsstring) (G : jsstring -> Prop) (ev : Event)
    (w : World) :
  (forall ROOM, ev = SetRoom ROOM -> normalizeRoom ROOM <> [] ->
     G (normalizeRoom ROOM)) ->
  given_ok b G w -> given_ok b G (step ev w).
Proof.
  intros HG Hw.
  assert (Hsame : forall w', same_place w w' -> given_ok b G w')
    by (intros w' Hs; apply (given_ok_same b G w); assumption).
  destruct ev.
  - cbn [step]. unfold setRoom.
    apply given_ok_setRoomInternal; [apply (HG ROOM eq_refl)|exact Hw].
  - cbn [step]. unfold reconnect. destruct (is_empty (_room (ext w))).
    + apply Hsame. repeat split.
    + apply given_ok_connect. revert Hw. apply given_ok_same. repeat split.
  - cbn [step]. apply Hsame. unfold disconnect.
    eapply same_place_trans; [|repeat split].
    eapply same_place_trans; [|apply same_place_closeWs].
    eapply same_place_trans; [|apply same_place_clearReconnectTimer].
    repeat split.
  - cbn [step]. destruct (checks w !! c) as [ck|] eqn:Hc; [|exact Hw].
    destruct (check_pending ck) eqn:Hp; [|exact Hw].
    set (w1 := with_checks _ w).
    assert (H1 : same_place w w1).
    { repeat split. unfold w1. cbn [with_checks checks].
      change (map check_url) with (fmap (M := list) check_url).
      rewrite list_fmap_insert. apply list_insert_id.
      rewrite list_lookup_fmap, Hc. reflexivity. }
    assert (Hw1 : given_ok b G w1) by (apply Hsame, H1).
    unfold _openWsAsync_resume. destruct o as [[|]| |];
      try solve [revert Hw1; apply given_ok_same;
                 eapply same_place_trans; [|apply same_place_scheduleReconnect];
                 repeat split].
    destruct Hw1 as (Hb1 & Hr1 & Hc1 & Hs1).
    split; [exact Hb1|]. split; [exact Hr1|]. split; [exact Hc1|].
    intros i s. cbn [new_WebSocket with_ext with_sockets sockets].
    intros Hi. apply lookup_app_Some in Hi as [Hi|[_ Hi]];
      [apply (Hs1 i s Hi)|].
    destruct (i - length (sockets w1)) as [|k]; [|destruct k; discriminate].
    injection Hi as <-. apply (proj1 (proj2 (proj2 Hw)) c ck Hc).
  - cbn [step]. destruct (timers w !! t) as [tm|]; [|exact Hw].
    destruct (timer_state tm); try exact Hw.
    unfold retry_callback. repeat case_match;
      try solve [apply Hsame; repeat split].
    apply given_ok_openWs. apply Hsame. repeat split.
  - cbn [step]. apply Hsame. destruct (sockets w !! i) as [s|] eqn:Hs;
      [|apply same_place_refl].
    destruct (sock_state s); try apply same_place_refl.
    destruct (sock_handlers s); unfold onopen;
      (eapply same_place_trans;
       [apply (same_place_set_state i s OPEN w Hs)|]);
      repeat split.
  - destruct (step_message w i data) as [-> | ->]; [|exact Hw].
    apply Hsame. destruct (onmessage_control data (ext w)) as (_ & Hr & Hb & _).
    split; [exact Hb|]. split; [exact Hr|]. split; reflexivity.
  - cbn [step]. apply Hsame. repeat case_match; try apply same_place_refl;
      repeat split.
  - cbn [step]. apply Hsame. destruct (sockets w !! i) as [s|] eqn:Hs;
      [|apply same_place_refl].
    destruct (sock_state s); try apply same_place_refl;
      (destruct (sock_handlers s); unfold onclose;
       [eapply same_place_trans;
        [apply (same_place_set_state i s CLOSED w Hs)|];
        eapply same_place_trans; [|apply same_place_scheduleReconnect];
        repeat split
       |apply (same_place_set_state i s CLOSED w Hs)]).
Qed.

Lemma given_ok_run (b : jsstring) (G : jsstring -> Prop) (evs : list Event)
    (w : World) :
  (forall ROOM, In (SetRoom ROOM) evs -> normalizeRoom ROOM <> [] ->
     G (normalizeRoom ROOM)) ->
  given_ok b G w -> given_ok b G (run evs w).
Proof.
  revert w. induction evs as [|ev evs IH]; intros w HG Hw; [exact Hw|].
  apply IH.
  - intros ROOM Hin. apply HG. right. exact Hin.
  - apply given_ok_step; [|exact Hw].
    intros ROOM ->. apply HG. left. reflexivity.
Qed.

(** X28.  In every world the extension reaches, the address of every
    permission check it has requested and of every socket it has created
    has been put together by [_buildWsUrl] from the base address given
    in the script URL, normalized, or the default base, and a room that
    is not empty and is the one given in the script URL or one given to
    [setRoom], normalized.  No inbound frame, timer or socket event
    brings in another address. *)
Theorem addresses_come_from_given_rooms
    (wsBaseFromScript roomFromScript : jsstring) (evs : list Event) :
  let w := run evs (SmartteamLiveExtension wsBaseFromScript roomFromScript) in
  let given (u : jsstring) :=
    exists base room,
      (base = normalizeWsBase wsBaseFromScript \/ base = DEFAULT_WS_BASE) /\
      (room = normalizeRoom roomFromScript \/
       exists ROOM, In (SetRoom ROOM) evs /\ room = normalizeRoom ROOM) /\
      room <> [] /\ URL_with_room base room = Some u in
  (forall c ck, checks w !! c = Some ck -> given (check_url ck)) /\
  (forall i s, sockets w !! i = Some s -> given (sock_url s)).
Proof.
  intros w given.
  set (G := fun room : jsstring =>
              room = normalizeRoom roomFromScript \/
              exists ROOM, In (SetRoom ROOM) evs /\ room = normalizeRoom ROOM).
  assert (Hw : given_ok (normalizeWsBase wsBaseFromScript) G w).
  { unfold w. apply given_ok_run.
    - intros ROOM Hin _. right. exists ROOM. auto.
    - unfold SmartteamLiveExtension.
      match goal with
      | |- given_ok _ _ (if _ then setRoomInternal ?r ?a ?w0 else ?w1) =>
          assert (Hw0 : given_ok (normalizeWsBase wsBaseFromScript) G w0)
            by (split; [left; reflexivity|];
                split; [intros Hn; exfalso; apply Hn; reflexivity|];
                split; intros i x Hi; destruct i; discriminate);
          assert (Hw1 : given_ok (normalizeWsBase wsBaseFromScript) G w1)
            by (split; [left; reflexivity|];
                split; [intros Hn; exfalso; apply Hn; reflexivity|];
                split; intros i x Hi; destruct i; discriminate)
      end.
      destruct (negb (is_empty (normalizeRoom roomFromScript)));
        [|exact Hw1].
      apply given_ok_setRoomInternal; [|exact Hw0].
      intros _. left. reflexivity. }
  destruct Hw as (_ & _ & Hc & Hs). split.
  - intros c ck Hl. destruct (Hc c ck Hl) as (base & room & Hb & Hg & Hn & Hu).
    exists base, room. auto.
  - intros i s Hl. destruct (Hs i s Hl) as (base & room & Hb & Hg & Hn & Hu).
    exists base, room. auto.
Qed.

End Properties.

(* ===================================================================== *)
(** * The room in the editor's address                                    *)
(* ===================================================================== *)

Section Editor.
Import URLSearch Unsandboxed.

Ltac nbool :=
  repeat match goal with
    | H : (_ && _)%bool = true |- _ => apply andb_true_iff in H as [? ?]
    | H : negb _ = true |- _ => apply negb_true_iff in H
    | H : N.ltb _ _ = true |- _ => apply N.ltb_lt in H
    | H : N.eqb _ _ = false |- _ => apply N.eqb_neq in H
    | H : N.leb _ _ = true |- _ => apply N.leb_le in H
    end.

Ltac nfalse c :=
  match goal with
  | |- context [N.eqb c ?k] =>
      let E := fresh in
      destruct (N.eqb_spec c k) as [E|E];
      [first [lia | congruence]|]
  | |- context [N.leb ?k c] =>
      let E := fresh in
      destruct (N.leb_spec k c) as [E|E]; [lia|]
  | |- context [N.ltb c ?k] =>
      let E := fresh in
      destruct (N.ltb_spec c k) as [E|E]; [|lia]
  end.

(** ** ASCII passes through unchanged *)

Lemma to_scalars_ascii (s t : jsstring) :
  forallb ascii_unit s = true -> to_scalars (s ++ t) = s ++ to_scalars t.
Proof.
  induction s as [|c s IH]; [reflexivity|].
  simpl. intros [Hc Hs]%andb_true_iff. unfold ascii_unit in Hc. nbool.
  unfold is_lead, is_trail. repeat nfalse c. simpl. rewrite IH by exact Hs.
  reflexivity.
Qed.

Lemma utf8_encode_ascii (s t : list N) :
  forallb ascii_unit s = true -> utf8_encode (s ++ t) = s ++ utf8_encode t.
Proof.
  induction s as [|c s IH]; [reflexivity|].
  simpl. intros [Hc Hs]%andb_true_iff. unfold ascii_unit in Hc. nbool.
  unfold utf8_encode in *. simpl. unfold utf8_bytes at 1. nfalse c.
  simpl. rewrite IH by exact Hs. reflexivity.
Qed.

Lemma utf8_decode_ascii (s : list N) :
  forallb ascii_unit s = true -> utf8_decode s = s.
Proof.
  unfold utf8_decode. induction s as [|c s IH]; [reflexivity|].
  cbn [forallb]. intros [Hc Hs]%andb_true_iff. unfold ascii_unit in Hc. nbool.
  cbn [decode_from]. unfold decode_byte.
  change (N.eqb (bytes_needed decoder_start) 0) with true. cbn iota.
  unfold decode_first. destruct (N.leb_spec c 127); [|lia].
  rewrite IH by exact Hs. reflexivity.
Qed.

Lemma of_scalars_ascii (s : list N) :
  forallb ascii_unit s = true -> of_scalars s = s.
Proof.
  unfold of_scalars. induction s as [|c s IH]; [reflexivity|].
  cbn [forallb]. intros [Hc Hs]%andb_true_iff. unfold ascii_unit in Hc. nbool.
  cbn [flat_map]. unfold code_units at 1.
  destruct (N.ltb_spec c 65536); [|lia].
  rewrite IH by exact Hs. reflexivity.
Qed.

Lemma plain_ascii (s : jsstring) :
  forallb plain s = true -> forallb ascii_unit s = true.
Proof.
  induction s as [|c s IH]; [reflexivity|]. simpl.
  intros [Hc Hs]%andb_true_iff. rewrite IH by exact Hs.
  unfold plain in Hc. unfold ascii_unit.
  apply andb_true_iff in Hc as [Hc _]. apply andb_true_iff in Hc as [Hc _].
  apply andb_true_iff in Hc as [Hc _]. apply andb_true_iff in Hc as [Hc _].
  apply andb_true_iff in Hc as [Hc _]. rewrite Hc. reflexivity.
Qed.

(** ** Splitting *)

Lemma split_on_piece (sep : N) (s t cur : list N) :
  forallb (fun c => negb (N.eqb c sep)) s = true ->
  split_on sep (s ++ sep :: t) cur = (rev cur ++ s) :: split_on sep t [].
Proof.
  revert cur. induction s as [|c s IH]; intros cur.
  - intros _. simpl. rewrite N.eqb_refl, app_nil_r. reflexivity.
  - simpl. intros [Hc Hs]%andb_true_iff. apply negb_true_iff in Hc.
    rewrite Hc, IH by exact Hs. simpl. rewrite <- app_assoc. reflexivity.
Qed.

Lemma split_on_last (sep : N) (s cur : list N) :
  forallb (fun c => negb (N.eqb c sep)) s = true ->
  split_on sep s cur = [rev cur ++ s].
Proof.
  revert cur. induction s as [|c s IH]; intros cur.
  - intros _. simpl. rewrite app_nil_r. reflexivity.
  - simpl. intros [Hc Hs]%andb_true_iff. apply negb_true_iff in Hc.
    rewrite Hc, IH by exact Hs. simpl. rewrite <- app_assoc. reflexivity.
Qed.

Lemma split_first_at (sep : N) (n v : list N) :
  forallb (fun c => negb (N.eqb c sep)) n = true ->
  split_first sep (n ++ sep :: v) = Some (n, v).
Proof.
  induction n as [|c n IH]; simpl.
  - intros _. rewrite N.eqb_refl. reflexivity.
  - intros [Hc Hn]%andb_true_iff. apply negb_true_iff in Hc.
    rewrite Hc, IH by exact Hn. reflexivity.
Qed.

Lemma forallb_weaken {A} (p q : A -> bool) (l : list A) :
  (forall x, p x = true -> q x = true) ->
  forallb p l = true -> forallb q l = true.
Proof.
  intros Hpq. induction l as [|a l IH]; [reflexivity|]. simpl.
  intros [Ha Hl]%andb_true_iff. rewrite (Hpq a Ha), IH by exact Hl. reflexivity.
Qed.

Lemma plain_not (c : N) :
  plain c = true ->
  N.eqb c 38 = false /\ N.eqb c 61 = false /\ N.eqb c 43 = false /\
  N.eqb c 37 = false /\ N.eqb c 63 = false /\ N.ltb c 128 = true.
Proof.
  unfold plain. rewrite !andb_true_iff, !negb_true_iff. tauto.
Qed.

Lemma plus_to_space_plain (s : list N) :
  forallb plain s = true -> plus_to_space s = s.
Proof.
  unfold plus_to_space. induction s as [|c s IH]; [reflexivity|]. simpl.
  intros [Hc Hs]%andb_true_iff. apply plain_not in Hc as (_ & _ & -> & _).
  rewrite IH by exact Hs. reflexivity.
Qed.

Lemma percent_decode_plain (s : list N) :
  forallb plain s = true -> percent_decode s = s.
Proof.
  induction s as [|c s IH]; [reflexivity|]. simpl.
  intros [Hc Hs]%andb_true_iff. apply plain_not in Hc as (_ & _ & _ & -> & _).
  rewrite IH by exact Hs. reflexivity.
Qed.

Lemma decode_component_plain (s : list N) :
  forallb plain s = true -> decode_component s = s.
Proof.
  intros Hs. unfold decode_component.
  rewrite plus_to_space_plain, percent_decode_plain by exact Hs.
  rewrite utf8_decode_ascii, of_scalars_ascii by apply plain_ascii, Hs.
  reflexivity.
Qed.

Lemma name_plain (name : jsstring) :
  forallb plain name = true -> of_scalars (to_scalars name) = name.
Proof.
  intros Hn. apply plain_ascii in Hn.
  rewrite <- (app_nil_r name) at 1. rewrite to_scalars_ascii by exact Hn.
  simpl. rewrite app_nil_r. apply of_scalars_ascii, Hn.
Qed.

(** ** The tuples of a query string *)

Lemma URLSearchParams_question (q : jsstring) :
  URLSearchParams (63%N :: q) = tuples_of q.
Proof. reflexivity. Qed.

Lemma URLSearchParams_plain (q : jsstring) :
  head q <> Some 63%N -> URLSearchParams q = tuples_of q.
Proof.
  intros Hq. unfold URLSearchParams, tuples_of.
  destruct q as [|c q]; [reflexivity|].
  assert (Hc : c <> 63%N) by (intros ->; apply Hq; reflexivity).
  cbn [to_scalars]. unfold is_lead, is_trail.
  destruct (N.leb_spec 55296 c); destruct (N.leb_spec c 56319); cbn [andb].
  - destruct q as [|d q]; [reflexivity|].
    destruct (N.leb_spec 56320 d); destruct (N.leb_spec d 57343); cbn [andb];
      try reflexivity.
    destruct (N.eqb_spec (65536 + (c - 55296) * 1024 + (d - 56320)) 63);
      [lia|reflexivity].
  - destruct (N.leb_spec 56320 c); destruct (N.leb_spec c 57343); cbn [andb];
      try reflexivity; try lia.
    destruct (N.eqb_spec c 63); [lia|reflexivity].
  - destruct (N.leb_spec 56320 c); destruct (N.leb_spec c 57343); cbn [andb];
      try reflexivity; try lia.
    destruct (N.eqb_spec c 63); [congruence|reflexivity].
  - lia.
Qed.

Lemma bytes_ascii (s : jsstring) :
  forallb ascii_unit s = true -> utf8_encode (to_scalars s) = s.
Proof.
  intros Ha. rewrite <- (app_nil_r s) at 1.
  rewrite to_scalars_ascii, utf8_encode_ascii by exact Ha.
  apply app_nil_r.
Qed.

Lemma value_unit_ascii (s : list N) :
  forallb value_unit s = true -> forallb ascii_unit s = true.
Proof.
  apply forallb_weaken. intros c. unfold value_unit, ascii_unit.
  intros [Hc _]%andb_true_iff. exact Hc.
Qed.

Lemma plain_value_unit (s : list N) :
  forallb plain s = true -> forallb value_unit s = true.
Proof.
  apply forallb_weaken. intros c Hc.
  apply plain_not in Hc as (H1 & _ & _ & _ & _ & H2).
  unfold value_unit. rewrite H1, H2. reflexivity.
Qed.

(** The bytes of a parameter [name=value], and the tuple read from
    them. *)
Lemma param_bytes (name value : list N) :
  forallb plain name = true -> forallb value_unit value = true ->
  forallb ascii_unit (name ++ 61%N :: value) = true /\
  forallb (fun c => negb (N.eqb c 38)) (name ++ 61%N :: value) = true /\
  match name ++ 61%N :: value with
  | [] => []
  | _ :: _ =>
      let '(n, v) :=
        match split_first 61 (name ++ 61%N :: value) with
        | Some (n, v) => (n, v)
        | None => (name ++ 61%N :: value, [])
        end in
      [(decode_component n, decode_component v)]
  end = [(name, decode_component value)].
Proof.
  intros Hn Hv. split; [|split].
  - rewrite forallb_app. cbn [forallb]. rewrite (plain_ascii _ Hn).
    rewrite (value_unit_ascii _ Hv). reflexivity.
  - rewrite forallb_app. cbn [forallb].
    assert (H1 : forallb (fun c => negb (N.eqb c 38)) name = true).
    { revert Hn. apply forallb_weaken.
      intros c Hc. apply plain_not in Hc as (-> & _). reflexivity. }
    assert (H2 : forallb (fun c => negb (N.eqb c 38)) value = true).
    { revert Hv. apply forallb_weaken.
      intros c [_ Hc]%andb_true_iff. exact Hc. }
    rewrite H1, H2. reflexivity.
  - rewrite split_first_at.
    + rewrite (decode_component_plain name Hn).
      destruct name; reflexivity.
    + revert Hn. apply forallb_weaken.
      intros c Hc. apply plain_not in Hc as (_ & -> & _). reflexivity.
Qed.

Lemma tuples_cons (name value rest : jsstring) :
  forallb plain name = true -> forallb value_unit value = true ->
  tuples_of (name ++ 61%N :: value ++ 38%N :: rest) =
  (name, decode_component value) :: tuples_of rest.
Proof.
  intros Hn Hv. destruct (param_bytes name value Hn Hv) as (Ha & Hs & Ht).
  unfold tuples_of.
  replace (name ++ 61%N :: value ++ 38%N :: rest)
    with (((name ++ 61%N :: value) ++ [38%N]) ++ rest)
    by (rewrite <- !app_assoc; reflexivity).
  assert (Ha' : forallb ascii_unit ((name ++ 61%N :: value) ++ [38%N]) = true)
    by (rewrite forallb_app, Ha; reflexivity).
  rewrite to_scalars_ascii, utf8_encode_ascii by exact Ha'.
  rewrite <- app_assoc. cbn [app].
  unfold parse_urlencoded. rewrite split_on_piece by exact Hs.
  cbn [flat_map rev app]. rewrite Ht. reflexivity.
Qed.

Lemma tuples_single (name value : jsstring) :
  forallb plain name = true -> forallb value_unit value = true ->
  tuples_of (name ++ 61%N :: value) = [(name, decode_component value)].
Proof.
  intros Hn Hv. destruct (param_bytes name value Hn Hv) as (Ha & Hs & Ht).
  unfold tuples_of. rewrite bytes_ascii by exact Ha.
  unfold parse_urlencoded. rewrite split_on_last by exact Hs.
  cbn [flat_map rev app]. rewrite Ht. reflexivity.
Qed.

(** The first parameter of a query string, read by name. *)
Lemma first_param (name value rest : jsstring) :
  forallb plain name = true -> forallb value_unit value = true ->
  more_params rest ->
  getQueryParamFromSearch (63%N :: name ++ 61%N :: value ++ rest) name =
    decode_component value /\
  getQueryParamFromSearch (name ++ 61%N :: value ++ rest) name =
    decode_component value.
Proof.
  intros Hn Hv Hrest.
  assert (Hhead : head (name ++ 61%N :: value ++ rest) <> Some 63%N).
  { destruct name as [|c name]; [discriminate|]. cbn [forallb] in Hn.
    apply andb_true_iff in Hn as [Hc _].
    apply plain_not in Hc as (_ & _ & _ & _ & Hc & _).
    apply N.eqb_neq in Hc. simpl. congruence. }
  unfold getQueryParamFromSearch, URLSearchParams_get.
  rewrite URLSearchParams_question, (URLSearchParams_plain _ Hhead).
  rewrite (name_plain name Hn).
  destruct Hrest as [-> | [rest' ->]].
  - rewrite app_nil_r, tuples_single by assumption.
    cbn [first_named]. rewrite streq_refl. split; reflexivity.
  - rewrite tuples_cons by assumption.
    cbn [first_named]. rewrite streq_refl. split; reflexivity.
Qed.

(** X15.  [getQueryParamFromSearch] returns the value of the first
    parameter of the given name, with or without the leading [?]; it
    passes over parameters of other names; and it returns the empty
    string when the search string is empty or has no parameter of that
    name, and for a parameter that has no value. *)
Theorem getQueryParamFromSearch_reads (name value : jsstring) :
  forallb plain name = true -> forallb plain value = true ->
  (forall rest, more_params rest ->
     getQueryParamFromSearch (63%N :: name ++ 61%N :: value ++ rest) name
       = value /\
     getQueryParamFromSearch (name ++ 61%N :: value ++ rest) name = value) /\
  (forall other v rest,
     forallb plain other = true -> forallb plain v = true -> other <> name ->
     more_params rest ->
     getQueryParamFromSearch
       (63%N :: other ++ 61%N :: v ++ 38%N :: name ++ 61%N :: value ++ rest)
       name = value /\
     getQueryParamFromSearch (63%N :: other ++ 61%N :: v) name = []) /\
  getQueryParamFromSearch [] name = [] /\
  getQueryParamFromSearch [63%N] name = [] /\
  getQueryParamFromSearch (63%N :: name) name = [].
Proof.
  intros Hn Hv.
  assert (Hdec : forall v, forallb plain v = true ->
                           forallb value_unit v = true /\ decode_component v = v).
  { intros v Hp. split; [apply plain_value_unit, Hp|apply decode_component_plain, Hp]. }
  split; [|split; [|split; [|split]]].
  - intros rest Hrest. destruct (Hdec value Hv) as [Hv' Hd].
    destruct (first_param name value rest Hn Hv' Hrest) as [H1 H2].
    rewrite Hd in H1, H2. split; assumption.
  - intros other v rest Ho Hvo Hne Hrest.
    destruct (Hdec v Hvo) as [Hv' Hd].
    assert (Hneq : streq other name = false).
    { destruct (streq other name) eqn:He; [|reflexivity].
      apply streq_eq in He. contradiction. }
    unfold getQueryParamFromSearch, URLSearchParams_get.
    rewrite !URLSearchParams_question, (name_plain name Hn). split.
    + rewrite tuples_cons by assumption. cbn [first_named]. rewrite Hneq.
      destruct (Hdec value Hv) as [Hv2 Hd2].
      destruct Hrest as [-> | [rest' ->]].
      * rewrite app_nil_r, tuples_single by assumption.
        cbn [first_named]. rewrite streq_refl. exact Hd2.
      * rewrite tuples_cons by assumption.
        cbn [first_named]. rewrite streq_refl. exact Hd2.
    + rewrite tuples_single by assumption. cbn [first_named]. rewrite Hneq.
      reflexivity.
  - reflexivity.
  - reflexivity.
  - unfold getQueryParamFromSearch, URLSearchParams_get.
    rewrite URLSearchParams_question, (name_plain name Hn).
    unfold tuples_of. rewrite bytes_ascii by apply plain_ascii, Hn.
    unfold parse_urlencoded. rewrite split_on_last.
    + cbn [flat_map rev app]. destruct name as [|c name']; [reflexivity|].
      destruct (split_first 61 (c :: name')) as [[n v]|] eqn:Hsf.
      * exfalso. revert Hsf Hn. generalize (c :: name'). clear.
        intros l. revert n v. induction l as [|a l IH]; intros n v; [discriminate|].
        cbn [split_first forallb]. intros Hsf [Ha Hl]%andb_true_iff.
        apply plain_not in Ha as (_ & Ha & _). rewrite Ha in Hsf.
        destruct (split_first 61 l) as [[n' v']|]; [|discriminate].
        exact (IH n' v' eq_refl Hl).
      * cbn [app first_named].
        change (decode_component []) with (@nil N).
        rewrite (decode_component_plain _ Hn), streq_refl. reflexivity.
    + revert Hn. apply forallb_weaken.
      intros c Hc. apply plain_not in Hc as (-> & _). reflexivity.
Qed.

(** ** Escapes *)

Lemma hex_digit_spec (d : N) :
  (d < 16)%N ->
  hex_val (hex_digit d) = Some d /\ N.eqb (hex_digit d) 43 = false /\
  value_unit (hex_digit d) = true.
Proof.
  intros Hd. unfold hex_digit, hex_val, value_unit.
  destruct (N.ltb_spec d 10).
  - destruct (N.leb_spec 48 (48 + d)); [|lia].
    destruct (N.leb_spec (48 + d) 57); [|lia]. cbn [andb].
    destruct (N.eqb_spec (48 + d) 43); [lia|].
    destruct (N.ltb_spec (48 + d) 128); [|lia].
    destruct (N.eqb_spec (48 + d) 38); [lia|].
    repeat split. f_equal. lia.
  - destruct (N.leb_spec 48 (55 + d)); [|lia].
    destruct (N.leb_spec (55 + d) 57); [lia|]. cbn [andb].
    destruct (N.leb_spec 97 (55 + d)); [lia|]. cbn [andb].
    destruct (N.leb_spec 65 (55 + d)); [|lia].
    destruct (N.leb_spec (55 + d) 70); [|lia]. cbn [andb].
    destruct (N.eqb_spec (55 + d) 43); [lia|].
    destruct (N.ltb_spec (55 + d) 128); [|lia].
    destruct (N.eqb_spec (55 + d) 38); [lia|].
    repeat split. f_equal. lia.
Qed.

Lemma form_encode_unit_spec (c : N) (t : list N) :
  ascii_unit c = true ->
  forallb value_unit (form_encode_unit c) = true /\
  percent_decode (plus_to_space (form_encode_unit c ++ t)) =
  c :: percent_decode (plus_to_space t).
Proof.
  unfold ascii_unit. intros Hc%N.ltb_lt. unfold form_encode_unit.
  destruct (N.eqb_spec c 32) as [->|H32]; [split; reflexivity|].
  destruct (plain c) eqn:Hp.
  - apply plain_not in Hp as (H1 & _ & H3 & H4 & _ & H6). split.
    + cbn [forallb]. unfold value_unit. rewrite H1, H6. reflexivity.
    + cbn [app plus_to_space map percent_decode]. rewrite H3, H4. reflexivity.
  - assert (Hq : (c / 16 < 16)%N) by (apply N.Div0.div_lt_upper_bound; lia).
    assert (Hr : (c mod 16 < 16)%N) by (apply N.mod_lt; lia).
    destruct (hex_digit_spec _ Hq) as (Hq1 & Hq2 & Hq3).
    destruct (hex_digit_spec _ Hr) as (Hr1 & Hr2 & Hr3).
    split.
    + cbn [forallb]. rewrite Hq3, Hr3. reflexivity.
    + cbn [app plus_to_space map]. rewrite Hq2, Hr2.
      change (N.eqb 37 43) with false. cbn iota.
      cbn [percent_decode]. change (N.eqb 37 37) with true. cbn iota.
      rewrite Hq1, Hr1. f_equal.
      rewrite N.mul_comm. symmetry. apply N.div_mod. lia.
Qed.

Lemma form_encode_spec (v : jsstring) :
  forallb ascii_unit v = true ->
  forallb value_unit (form_encode v) = true /\
  decode_component (form_encode v) = v.
Proof.
  intros Hv.
  assert (H : forallb value_unit (form_encode v) = true /\
              percent_decode (plus_to_space (form_encode v)) = v).
  { induction v as [|c v IH]; [split; reflexivity|].
    cbn [forallb] in Hv. apply andb_true_iff in Hv as [Hc Hv].
    destruct (IH Hv) as [IH1 IH2].
    destruct (form_encode_unit_spec c (form_encode v) Hc) as [H1 H2].
    unfold form_encode in *. cbn [flat_map]. split.
    - rewrite forallb_app, H1, IH1. reflexivity.
    - rewrite H2, IH2. reflexivity. }
  destruct H as [H1 H2]. split; [exact H1|].
  unfold decode_component. rewrite H2.
  rewrite utf8_decode_ascii, of_scalars_ascii by exact Hv. reflexivity.
Qed.

Lemma decode_component_literal (s : list N) :
  forallb (fun c => plain c || N.eqb c 61)%bool s = true ->
  forallb value_unit s = true /\ decode_component s = s.
Proof.
  intros Hs.
  assert (H : forallb value_unit s = true /\ forallb ascii_unit s = true /\
              plus_to_space s = s /\ percent_decode s = s).
  { induction s as [|c s IH]; [repeat split|].
    cbn [forallb] in Hs. apply andb_true_iff in Hs as [Hc Hs].
    destruct (IH Hs) as (I1 & I2 & I3 & I4).
    assert (Hu : value_unit c = true /\ ascii_unit c = true /\
                 N.eqb c 43 = false /\ N.eqb c 37 = false).
    { apply orb_true_iff in Hc as [Hc|Hc].
      - apply plain_not in Hc as (H1 & _ & H3 & H4 & _ & H6).
        unfold value_unit, ascii_unit. rewrite H1, H6. auto.
      - apply N.eqb_eq in Hc. subst c. repeat split. }
    destruct Hu as (U1 & U2 & U3 & U4).
    cbn [forallb]. rewrite U1, U2, I1, I2.
    unfold plus_to_space in *. cbn [map percent_decode].
    rewrite U3, U4, I3, I4. repeat split. }
  destruct H as (H1 & H2 & H3 & H4). split; [exact H1|].
  unfold decode_component. rewrite H3, H4.
  rewrite utf8_decode_ascii, of_scalars_ascii by exact H2. reflexivity.
Qed.

(** X16.  [getQueryParamFromSearch] undoes the form encoding: a value
    of ASCII characters written with [+] for a space and with percent
    escapes for the characters that have a meaning in a query string is
    returned as it was before encoding; and an [=] inside a value belongs
    to the value. *)
Theorem getQueryParamFromSearch_decodes (name rest : jsstring) :
  forallb plain name = true -> more_params rest ->
  (forall value, forallb ascii_unit value = true ->
     getQueryParamFromSearch
       (63%N :: name ++ 61%N :: form_encode value ++ rest) name = value) /\
  (forall value,
     forallb (fun c => plain c || N.eqb c 61)%bool value = true ->
     getQueryParamFromSearch
       (63%N :: name ++ 61%N :: value ++ rest) name = value).
Proof.
  intros Hn Hrest. split.
  - intros value Hv. destruct (form_encode_spec value Hv) as [H1 H2].
    destruct (first_param name (form_encode value) rest Hn H1 Hrest) as [H _].
    rewrite H. exact H2.
  - intros value Hv. destruct (decode_component_literal value Hv) as [H1 H2].
    destruct (first_param name value rest Hn H1 Hrest) as [H _].
    rewrite H. exact H2.
Qed.

(** ** The room of the editor's address *)

Lemma indexOf_none (c : N) (h : jsstring) :
  forallb (fun x => negb (N.eqb x c)) h = true -> indexOf c h = None.
Proof.
  induction h as [|x h IH]; [reflexivity|]. cbn [forallb indexOf].
  intros [Hx Hh]%andb_true_iff. apply negb_true_iff in Hx.
  rewrite Hx, IH by exact Hh. reflexivity.
Qed.

Lemma indexOf_first (c : N) (p t : jsstring) :
  forallb (fun x => negb (N.eqb x c)) p = true ->
  indexOf c (p ++ c :: t) = Some (length p) /\
  slice (p ++ c :: t) (length p) = c :: t.
Proof.
  induction p as [|x p IH]; cbn [forallb app indexOf length].
  - intros _. rewrite N.eqb_refl. split; reflexivity.
  - intros [Hx Hp]%andb_true_iff. apply negb_true_iff in Hx.
    destruct (IH Hp) as [H1 H2]. rewrite Hx, H1. split; [reflexivity|exact H2].
Qed.

(** The room of the search string, whatever the hash. *)
Lemma getRoomFromWindow_search (room h rest : jsstring) :
  forallb plain room = true -> room <> [] -> more_params rest ->
  getRoomFromWindow
    {| search := 63%N :: str "room" ++ 61%N :: room ++ rest; hash := h |}
  = room.
Proof.
  intros Hr Hne Hrest. unfold getRoomFromWindow. cbn [search].
  assert (Hname : forallb plain (str "room") = true) by reflexivity.
  destruct (first_param (str "room") room rest Hname
              (plain_value_unit room Hr) Hrest) as [H1 _].
  rewrite H1, (decode_component_plain room Hr).
  apply is_empty_false in Hne. rewrite Hne. reflexivity.
Qed.

(** X17.  [getRoomFromWindow] takes the room from the search string
    when that has one, whatever the hash; where the search string, empty
    or not, gives no room, it takes it from the part of the hash that
    follows its first [?], and otherwise from the hash after its [#];
    with no room in the search string and no hash it returns the empty
    string. *)
Theorem getRoomFromWindow_sources (room : jsstring) :
  forallb plain room = true -> room <> [] ->
  (forall location,
     getQueryParamFromSearch (search location) (str "room") <> [] ->
     getRoomFromWindow location =
     getQueryParamFromSearch (search location) (str "room")) /\
  (forall h rest, more_params rest ->
     getRoomFromWindow
       {| search := 63%N :: str "room" ++ 61%N :: room ++ rest; hash := h |}
     = room) /\
  (forall s p rest,
     getQueryParamFromSearch s (str "room") = [] ->
     forallb (fun x => negb (N.eqb x 63)) p = true -> more_params rest ->
     getRoomFromWindow
       {| search := s;
          hash := p ++ 63%N :: str "room" ++ 61%N :: room ++ rest |} = room) /\
  (forall s rest,
     getQueryParamFromSearch s (str "room") = [] ->
     forallb (fun x => negb (N.eqb x 63)) rest = true -> more_params rest ->
     getRoomFromWindow
       {| search := s;
          hash := 35%N :: str "room" ++ 61%N :: room ++ rest |} = room) /\
  (forall s,
     getQueryParamFromSearch s (str "room") = [] ->
     getRoomFromWindow {| search := s; hash := [] |} = []).
Proof.
  intros Hr Hne.
  assert (Hname : forallb plain (str "room") = true) by reflexivity.
  assert (Hv : forallb value_unit room = true /\ decode_component room = room).
  { split; [apply plain_value_unit, Hr|apply decode_component_plain, Hr]. }
  destruct Hv as [Hv Hd].
  assert (Hnonempty : is_empty room = false) by (apply is_empty_false, Hne).
  split; [|split; [|split; [|split]]].
  - intros location Hs. unfold getRoomFromWindow.
    apply is_empty_false in Hs. rewrite Hs. reflexivity.
  - intros h rest Hrest. apply getRoomFromWindow_search; assumption.
  - intros s p rest Hs Hp Hrest. unfold getRoomFromWindow. cbn [search hash].
    rewrite Hs. cbn [is_empty negb].
    destruct (indexOf_first 63 p (str "room" ++ 61%N :: room ++ rest) Hp)
      as [-> ->].
    destruct (first_param (str "room") room rest Hname Hv Hrest) as [H1 _].
    rewrite H1, Hd, Hnonempty. reflexivity.
  - intros s rest Hs Hrest Hmore. unfold getRoomFromWindow.
    cbn [search hash]. rewrite Hs. cbn [is_empty negb].
    rewrite indexOf_none.
    + cbn [is_empty negb startsWith_hash]. change (N.eqb 35 35) with true.
      cbn iota. change (slice (35%N :: ?t) 1) with t.
      destruct (first_param (str "room") room rest Hname Hv Hmore) as [_ H2].
      rewrite H2, Hd, Hnonempty. reflexivity.
    + change (35%N :: str "room" ++ 61%N :: room ++ rest)
        with ((35%N :: str "room" ++ [61%N]) ++ room ++ rest).
      rewrite !forallb_app, Hrest.
      rewrite (forallb_weaken plain (fun x => negb (N.eqb x 63)) room).
      * reflexivity.
      * intros c Hc. apply plain_not in Hc as (_ & _ & _ & _ & -> & _).
        reflexivity.
      * exact Hr.
  - intros s Hs. unfold getRoomFromWindow. cbn [search hash].
    rewrite Hs. reflexivity.
Qed.

End Editor.

(* ===================================================================== *)
(** * The room probe                                                      *)
(* ===================================================================== *)

Section Probe.
Import URLSearch Unsandboxed.
Context `{Platform} `{HttpUrl}.

(** ** What leaves the probe alone *)

Lemma probe_part_with_ext (f : Ext -> Ext) (w : World) :
  (forall e, _roomProbeTimer (f e) = _roomProbeTimer e) ->
  probe_part (with_ext f w) = probe_part w.
Proof. intros Hf. unfold probe_part. simpl. rewrite Hf. reflexivity. Qed.

Lemma probe_part_clearReconnectTimer (w : World) :
  probe_part (_clearReconnectTimer w) = probe_part w.
Proof. unfold _clearReconnectTimer. case_match; reflexivity. Qed.

Lemma probe_part_closeWs (r : jsstring) (w : World) :
  probe_part (_closeWs r w) = probe_part w.
Proof. unfold _closeWs. case_match; reflexivity. Qed.

Lemma probe_part_scheduleReconnect (w : World) :
  probe_part (_scheduleReconnect w) = probe_part w.
Proof. unfold _scheduleReconnect, setTimeout. repeat case_match; reflexivity. Qed.

Lemma probe_part_check_permission (u : jsstring) (w : World) :
  probe_part (check_permission u w) = probe_part w.
Proof.
  unfold check_permission. case_match; [|reflexivity].
  rewrite probe_part_scheduleReconnect. reflexivity.
Qed.

Lemma probe_part_openWs (w : World) : probe_part (_openWs w) = probe_part w.
Proof.
  unfold _openWs. repeat case_match;
    rewrite ?probe_part_check_permission, ?probe_part_scheduleReconnect;
    reflexivity.
Qed.

Lemma probe_part_resume (u : jsstring) (o : Settled) (w : World) :
  probe_part (_openWsAsync_resume u o w) = probe_part w.
Proof.
  unfold _openWsAsync_resume. destruct o as [[|]| |];
    rewrite ?probe_part_scheduleReconnect; reflexivity.
Qed.

Lemma probe_part_onclose (w : World) : probe_part (onclose w) = probe_part w.
Proof. unfold onclose. rewrite probe_part_scheduleReconnect. reflexivity. Qed.

Lemma probe_part_retry_callback (w : World) :
  probe_part (retry_callback w) = probe_part w.
Proof.
  unfold retry_callback. repeat case_match;
    rewrite ?probe_part_openWs; reflexivity.
Qed.

Lemma probe_part_connect (r : jsstring) (w : World) :
  probe_part (_openWs (_closeWs r (_clearReconnectTimer w))) = probe_part w.
Proof.
  rewrite probe_part_openWs, probe_part_closeWs, probe_part_clearReconnectTimer.
  reflexivity.
Qed.

Lemma probe_part_setRoomInternal (room : jsstring) (auto : bool) (w : World) :
  probe_part (setRoomInternal room auto w) = probe_part w.
Proof.
  unfold setRoomInternal. destruct (is_empty room).
  - destruct (negb auto); [|reflexivity].
    rewrite probe_part_closeWs, probe_part_clearReconnectTimer. reflexivity.
  - match goal with |- context [if ?b then _ else _] => destruct b end;
      [reflexivity|].
    rewrite probe_part_connect. reflexivity.
Qed.

Lemma onmessage_roomProbeTimer (data : jsstring) (e : Ext) :
  _roomProbeTimer (fields_after (onmessage data e)) = _roomProbeTimer e /\
  _room (fields_after (onmessage data e)) = _room e.
Proof. unfold onmessage. repeat case_match; split; reflexivity. Qed.

(** Every event other than a tick of the probe and [disconnect] leaves
    the intervals and [_roomProbeTimer] as they are. *)
Lemma probe_part_step (ev : Event) (w : World) :
  match ev with ProbeTick _ _ _ | Disconnect => False | _ => True end ->
  probe_part (step ev w) = probe_part w.
Proof.
  destruct ev; try contradiction; intros _; cbn [step].
  - apply probe_part_setRoomInternal.
  - unfold reconnect. case_match; [reflexivity|].
    rewrite probe_part_connect. reflexivity.
  - repeat case_match; try reflexivity.
    rewrite probe_part_resume. reflexivity.
  - repeat case_match; try reflexivity.
    rewrite probe_part_retry_callback. reflexivity.
  - repeat case_match; reflexivity.
  - repeat case_match; try reflexivity.
    apply probe_part_with_ext. intros e. apply onmessage_roomProbeTimer.
  - repeat case_match; reflexivity.
  - repeat case_match; try reflexivity; rewrite probe_part_onclose; reflexivity.
Qed.

(** ** The probe stops *)

Lemma probe_ok_part (w w' : World) :
  probe_part w' = probe_part w -> probe_ok w -> probe_ok w'.
Proof. unfold probe_part, probe_ok. intros [= -> ->]. auto. Qed.

Lemma probe_over_part (w w' : World) :
  probe_part w' = probe_part w -> probe_over w -> probe_over w'.
Proof. unfold probe_part, probe_over. intros [= -> ->]. auto. Qed.

Lemma probe_over_ok (w : World) :
  length (intervals w) <= 1 ->
  (forall p iv, intervals w !! p = Some iv -> tries iv <= maxTries) ->
  probe_over w -> probe_ok w.
Proof.
  intros Hl Ht [Hh Hn]. split; [exact Hl|]. intros p iv Hp.
  split; [eauto|]. intros Hr. rewrite (Hn p iv Hp) in Hr. discriminate.
Qed.

(** [_stopRoomProbe] leaves no interval running. *)
Lemma stopRoomProbe_over (w : World) :
  length (intervals w) <= 1 ->
  (forall p iv, intervals w !! p = Some iv -> tries iv <= maxTries) ->
  (forall p iv, intervals w !! p = Some iv -> interval_running iv = true ->
                _roomProbeTimer (ext w) = Some p) ->
  probe_over (_stopRoomProbe w) /\ probe_ok (_stopRoomProbe w).
Proof.
  intros Hl Ht Hr.
  assert (Hover : probe_over (_stopRoomProbe w)).
  { unfold _stopRoomProbe. destruct (_roomProbeTimer (ext w)) as [p0|] eqn:Hh.
    - split; [reflexivity|]. intros p iv.
      cbn [with_ext clearInterval with_intervals intervals].
      destruct (decide (p0 = p)) as [<-|Hne].
      + rewrite list_lookup_alter_eq.
        destruct (intervals w !! p0); [|discriminate]. intros [= <-]. reflexivity.
      + rewrite list_lookup_alter_ne by exact Hne. intros Hp.
        destruct (interval_running iv) eqn:Hrun; [|reflexivity].
        pose proof (Hr p iv Hp Hrun). congruence.
    - split; [exact Hh|]. intros p iv Hp.
      destruct (interval_running iv) eqn:Hrun; [|reflexivity].
      pose proof (Hr p iv Hp Hrun). congruence. }
  split; [exact Hover|].
  apply probe_over_ok; [| |exact Hover].
  - unfold _stopRoomProbe. destruct (_roomProbeTimer (ext w)); [|exact Hl].
    cbn [with_ext clearInterval with_intervals intervals].
    rewrite length_alter. exact Hl.
  - unfold _stopRoomProbe. destruct (_roomProbeTimer (ext w)) as [p0|];
      [|exact Ht].
    intros p iv. cbn [with_ext clearInterval with_intervals intervals].
    destruct (decide (p0 = p)) as [<-|Hne].
    + rewrite list_lookup_alter_eq.
      destruct (intervals w !! p0) as [iv0|] eqn:Hiv0; [|discriminate].
      intros [= <-]. apply (Ht p0 iv0 Hiv0).
    + rewrite list_lookup_alter_ne by exact Hne. apply Ht.
Qed.

Lemma stopRoomProbe_rest (w : World) :
  ext (_stopRoomProbe w) = set_roomProbeTimer None (ext w) /\
  sockets (_stopRoomProbe w) = sockets w /\
  timers (_stopRoomProbe w) = timers w /\
  checks (_stopRoomProbe w) = checks w.
Proof.
  unfold _stopRoomProbe. destruct (_roomProbeTimer (ext w)) eqn:Hh;
    repeat split.
  destruct (ext w); simpl in *; subst; reflexivity.
Qed.

Lemma stopRoomProbe_idle (w : World) :
  _roomProbeTimer (ext w) = None -> _stopRoomProbe w = w.
Proof. unfold _stopRoomProbe. intros ->. reflexivity. Qed.

Lemma probe_ok_stop (w : World) :
  probe_ok w -> probe_over (_stopRoomProbe w) /\ probe_ok (_stopRoomProbe w).
Proof.
  intros [Hl Hok]. apply stopRoomProbe_over; [exact Hl| |].
  - intros p iv Hp. apply (Hok p iv Hp).
  - intros p iv Hp Hr. apply (Hok p iv Hp). exact Hr.
Qed.

(** The tick of a running interval, counted. *)
Lemma counted_weak (p : nat) (iv : Interval) (w : World) :
  probe_ok w -> intervals w !! p = Some iv -> interval_running iv = true ->
  intervals (counted p w) !! p =
    Some {| interval_ms := interval_ms iv; interval_running := true;
            tries := tries iv + 1 |} /\
  length (intervals (counted p w)) <= 1 /\
  (forall q iq, intervals (counted p w) !! q = Some iq ->
                tries iq <= maxTries) /\
  (forall q iq, intervals (counted p w) !! q = Some iq ->
                interval_running iq = true ->
                _roomProbeTimer (ext (counted p w)) = Some q) /\
  (forall q iq, intervals (counted p w) !! q = Some iq ->
                interval_running iq = true -> q = p).
Proof.
  intros [Hl Hok] Hp Hr. destruct (Hok p iv Hp) as [_ Hrun].
  destruct (Hrun Hr) as [Hlt Hheld].
  unfold counted. cbn [with_intervals intervals ext].
  split; [rewrite list_lookup_alter_eq, Hp; simpl; rewrite Hr; reflexivity|].
  split; [rewrite length_alter; exact Hl|].
  assert (Hq : forall q iq,
            alter (fun iv0 => {| interval_ms := interval_ms iv0;
                                 interval_running := interval_running iv0;
                                 tries := tries iv0 + 1 |}) p (intervals w) !! q
              = Some iq ->
            (q = p /\ tries iq = tries iv + 1) \/
            (q <> p /\ intervals w !! q = Some iq)).
  { intros q iq. destruct (decide (p = q)) as [<-|Hne].
    - rewrite list_lookup_alter_eq, Hp. simpl. intros [= <-]. left. auto.
    - rewrite list_lookup_alter_ne by exact Hne. intros Hiq. right. auto. }
  split; [|split].
  - intros q iq Hiq. destruct (Hq q iq Hiq) as [[_ ->]|[_ Hold]].
    + unfold maxTries in *. lia.
    + apply (Hok q iq Hold).
  - intros q iq Hiq Hrq. destruct (Hq q iq Hiq) as [[-> _]|[_ Hold]].
    + exact Hheld.
    + apply (Hok q iq Hold). exact Hrq.
  - intros q iq Hiq Hrq. destruct (Hq q iq Hiq) as [[-> _]|[Hne Hold]].
    + reflexivity.
    + destruct (Hok q iq Hold) as [_ Hrun']. destruct (Hrun' Hrq) as [_ Hh].
      congruence.
Qed.

Lemma probe_ok_tick (p : nat) (location : Location) (roomFromScript : jsstring)
    (w : World) :
  probe_ok w -> probe_ok (step (ProbeTick p location roomFromScript) w).
Proof.
  intros Hok. cbn [step].
  destruct (intervals w !! p) as [iv|] eqn:Hp; [|exact Hok].
  destruct (interval_running iv) eqn:Hr; [|exact Hok].
  destruct (counted_weak p iv w Hok Hp Hr) as (Hcp & Hl & Ht & Hh & Hone).
  unfold probe_callback. fold (counted p w).
  destruct (stopRoomProbe_over (counted p w) Hl Ht Hh) as [_ Hstop].
  destruct (negb (is_empty (_room (ext (counted p w))))); [exact Hstop|].
  destruct (negb (is_empty (room_found location roomFromScript))).
  - apply (probe_ok_part (_stopRoomProbe (counted p w)));
      [apply probe_part_setRoomInternal|exact Hstop].
  - rewrite Hcp. cbn [tries].
    destruct (Nat.leb_spec maxTries (tries iv + 1)); [exact Hstop|].
    split; [exact Hl|]. intros q iq Hiq. split; [apply (Ht q iq Hiq)|].
    intros Hrq. split; [|apply (Hh q iq Hiq Hrq)].
    rewrite (Hone q iq Hiq Hrq) in Hiq. rewrite Hcp in Hiq.
    injection Hiq as <-. simpl. lia.
Qed.

Lemma probe_part_disconnect (w : World) :
  probe_part (disconnect w) =
  probe_part (_stopRoomProbe
                (_clearReconnectTimer (with_ext (set_shouldReconnect false) w))).
Proof.
  unfold disconnect.
  rewrite probe_part_with_ext by reflexivity.
  apply probe_part_closeWs.
Qed.

Lemma probe_ok_step (ev : Event) (w : World) :
  probe_ok w -> probe_ok (step ev w).
Proof.
  intros Hok.
  destruct ev; try (apply (probe_ok_part w); [|exact Hok];
                    apply probe_part_step; exact I).
  - cbn [step]. eapply probe_ok_part; [apply probe_part_disconnect|].
    apply probe_ok_stop. apply (probe_ok_part w); [|exact Hok].
    rewrite probe_part_clearReconnectTimer. reflexivity.
  - apply probe_ok_tick, Hok.
Qed.

Lemma probe_over_step (ev : Event) (w : World) :
  probe_over w -> probe_over (step ev w) /\
  (match ev with ProbeTick _ _ _ => step ev w = w | _ => True end).
Proof.
  intros Hov.
  destruct ev; try (split; [|exact I]; apply (probe_over_part w); [|exact Hov];
                    apply probe_part_step; exact I).
  - split; [|exact I]. cbn [step].
    eapply probe_over_part; [apply probe_part_disconnect|].
    rewrite stopRoomProbe_idle.
    + apply (probe_over_part w); [|exact Hov].
      rewrite probe_part_clearReconnectTimer. reflexivity.
    + assert (Hpp : probe_part (_clearReconnectTimer
                                  (with_ext (set_shouldReconnect false) w))
                    = probe_part w)
        by (rewrite probe_part_clearReconnectTimer; reflexivity).
      unfold probe_part in Hpp. injection Hpp as _ ->. apply Hov.
  - cbn [step]. destruct (intervals w !! p) as [iv|] eqn:Hp; [|auto].
    destruct Hov as [Hh Hn]. rewrite (Hn p iv Hp). split; [split|]; auto.
Qed.

Lemma probe_ok_new (location : Location) (a b : jsstring) :
  probe_ok (SmartteamLiveExtension location a b).
Proof.
  unfold SmartteamLiveExtension.
  destruct (negb (is_empty (room_found location b))).
  - eapply probe_ok_part; [apply probe_part_setRoomInternal|].
    split; [simpl; lia|]. intros p iv Hp. destruct p; discriminate.
  - unfold _startRoomProbe. cbn [with_ext ext set_connected set_wsBase
      _roomProbeTimer setInterval with_intervals intervals].
    split; [simpl; lia|]. intros p iv.
    cbn [with_ext with_intervals intervals ext set_roomProbeTimer
         _roomProbeTimer app].
    destruct p as [|p]; [|destruct p; discriminate].
    intros [= <-]. unfold maxTries. simpl. split; [lia|]. intros _.
    split; [lia|reflexivity].
Qed.

Lemma probe_ok_run (evs : list Event) (w : World) :
  probe_ok w -> probe_ok (run evs w).
Proof.
  revert w. induction evs as [|ev evs IH]; intros w Hw; [exact Hw|].
  apply IH, probe_ok_step, Hw.
Qed.

(** X20.  In every world the second variant reaches there is at most
    one room probe; its callback has run at most 20 times; a probe that
    has not been cleared has run fewer than 20 times and is the one
    [_roomProbeTimer] holds: after 20 ticks at the latest the probe has
    cleared itself. *)
Theorem room_probe_stops
    (location : Location) (wsBaseFromScript roomFromScript : jsstring)
    (evs : list Event) :
  let w := run evs
             (SmartteamLiveExtension location wsBaseFromScript roomFromScript) in
  length (intervals w) <= 1 /\
  forall p iv, intervals w !! p = Some iv ->
    tries iv <= 20 /\
    (interval_running iv = true ->
     tries iv < 20 /\ _roomProbeTimer (ext w) = Some p) /\
    (tries iv = 20 -> interval_running iv = false).
Proof.
  intros w. assert (Hok : probe_ok w) by apply probe_ok_run, probe_ok_new.
  destruct Hok as [Hl Hok]. split; [exact Hl|].
  intros p iv Hp. destruct (Hok p iv Hp) as [Ht Hr]. unfold maxTries in *.
  split; [exact Ht|]. split; [exact Hr|].
  intros H20. destruct (interval_running iv); [|reflexivity].
  destruct (Hr eq_refl). lia.
Qed.

(** ** What a tick does *)

Lemma intent_part_clearReconnectTimer (w : World) :
  intent_part (_clearReconnectTimer w) = intent_part w.
Proof. unfold _clearReconnectTimer. case_match; reflexivity. Qed.

Lemma intent_part_closeWs (r : jsstring) (w : World) :
  intent_part (_closeWs r w) = intent_part w.
Proof. unfold _closeWs. case_match; reflexivity. Qed.

Lemma intent_part_scheduleReconnect (w : World) :
  intent_part (_scheduleReconnect w) = intent_part w.
Proof. unfold _scheduleReconnect, setTimeout. repeat case_match; reflexivity. Qed.

Lemma intent_part_openWs (w : World) : intent_part (_openWs w) = intent_part w.
Proof.
  unfold _openWs, check_permission. repeat case_match;
    rewrite ?intent_part_scheduleReconnect; reflexivity.
Qed.

(** [setRoomInternal] with a room that is not empty, on an extension
    that has none. *)
Lemma setRoomInternal_sets (room : jsstring) (auto : bool) (w : World) :
  room <> [] -> _room (ext w) = [] ->
  _room (ext (setRoomInternal room auto w)) = room /\
  _shouldReconnect (ext (setRoomInternal room auto w)) = true.
Proof.
  intros Hr Hw. unfold setRoomInternal.
  apply is_empty_false in Hr as He. rewrite He, Hw.
  destruct room as [|c room]; [congruence|]. cbn [streq andb].
  match goal with
  | |- context [_openWs (_closeWs ?r (_clearReconnectTimer ?x))] =>
      assert (Hp : intent_part (_openWs (_closeWs r (_clearReconnectTimer x)))
                   = intent_part x)
        by (rewrite intent_part_openWs, intent_part_closeWs,
              intent_part_clearReconnectTimer; reflexivity)
  end.
  unfold intent_part in Hp at 1. injection Hp as -> ->. split; reflexivity.
Qed.

(** X21.  A tick of the probe while a room is set ends the probe and
    does nothing else; a tick that finds a room in the address of the
    page or of the script ends the probe and sets that room as [setRoom]
    would; a tick that finds none only counts, and ends the probe when
    it is the twentieth. *)
Theorem room_probe_tick
    (location0 : Location) (wsBaseFromScript roomFromScript0 : jsstring)
    (evs : list Event)
    (p : nat) (iv : Interval) (location : Location)
    (roomFromScript : jsstring) :
  let w := run evs
             (SmartteamLiveExtension location0 wsBaseFromScript
                roomFromScript0) in
  intervals w !! p = Some iv -> interval_running iv = true ->
  let w' := step (ProbeTick p location roomFromScript) w in
  let found := room_found location roomFromScript in
  (_room (ext w) <> [] ->
   probe_over w' /\ ext w' = set_roomProbeTimer None (ext w) /\
   sockets w' = sockets w /\ timers w' = timers w /\ checks w' = checks w) /\
  (_room (ext w) = [] -> found <> [] ->
   probe_over w' /\
   w' = setRoomInternal found true (_stopRoomProbe (counted p w)) /\
   getRoom (ext w') = found /\ _shouldReconnect (ext w') = true) /\
  (_room (ext w) = [] -> found = [] ->
   _room (ext w') = [] /\
   sockets w' = sockets w /\ timers w' = timers w /\ checks w' = checks w /\
   intervals w' !! p =
     Some {| interval_ms := interval_ms iv;
             interval_running := negb (20 <=? tries iv + 1)%nat;
             tries := tries iv + 1 |}).
Proof.
  intros w Hp Hr w' found.
  assert (Hok : probe_ok w) by apply probe_ok_run, probe_ok_new.
  clearbody w.
  destruct (counted_weak p iv w Hok Hp Hr) as (Hcp & Hl & Ht & Hh & Hone).
  destruct (stopRoomProbe_over (counted p w) Hl Ht Hh) as [Hover Hstop].
  destruct (stopRoomProbe_rest (counted p w)) as (He & Hs & Htm & Hc).
  assert (Hw' : w' = probe_callback p location roomFromScript w).
  { unfold w'. cbn [step]. rewrite Hp, Hr. reflexivity. }
  unfold probe_callback in Hw'. fold (counted p w) in Hw'.
  change (_room (ext (counted p w))) with (_room (ext w)) in Hw'.
  fold found in Hw'.
  split; [|split].
  - intros Hroom. apply is_empty_false in Hroom. rewrite Hroom in Hw'.
    cbn [negb] in Hw'. rewrite Hw'. split; [exact Hover|].
    split; [exact He|]. split; [exact Hs|]. split; [exact Htm|exact Hc].
  - intros Hroom Hfound. apply is_empty_false in Hfound as Hf.
    rewrite Hroom, Hf in Hw'. cbn [is_empty negb] in Hw'.
    split; [|split; [exact Hw'|]].
    + rewrite Hw'. apply (probe_over_part (_stopRoomProbe (counted p w)));
        [apply probe_part_setRoomInternal|exact Hover].
    + rewrite Hw'. unfold getRoom. apply setRoomInternal_sets; [exact Hfound|].
      rewrite He. exact Hroom.
  - intros Hroom Hfound. rewrite Hroom, Hfound in Hw'.
    cbn [is_empty negb] in Hw'. rewrite Hcp in Hw'. cbn [tries] in Hw'.
    unfold maxTries in Hw'.
    destruct (20 <=? tries iv + 1)%nat eqn:H20; rewrite Hw'; cbn [negb].
    + rewrite He, Hs, Htm, Hc. split; [exact Hroom|].
      split; [reflexivity|]. split; [reflexivity|]. split; [reflexivity|].
      unfold _stopRoomProbe.
      replace (_roomProbeTimer (ext (counted p w))) with (Some p)
        by (symmetry; apply (Hh p _ Hcp); reflexivity).
      cbn [with_ext clearInterval with_intervals intervals].
      rewrite list_lookup_alter_eq, Hcp. reflexivity.
    + split; [exact Hroom|]. split; [reflexivity|]. split; [reflexivity|].
      split; [reflexivity|exact Hcp].
Qed.

(** X22.  [disconnect] ends the probe, and it stays ended: whatever
    happens afterwards, no interval is running, [_roomProbeTimer] is
    [null], and a tick changes nothing. *)
Theorem disconnect_stops_probe
    (location : Location) (wsBaseFromScript roomFromScript : jsstring)
    (before after : list Event) :
  let w := run after
             (step Disconnect
                (run before
                   (SmartteamLiveExtension location wsBaseFromScript
                      roomFromScript))) in
  _roomProbeTimer (ext w) = None /\
  (forall p iv, intervals w !! p = Some iv -> interval_running iv = false) /\
  (forall p loc r, step (ProbeTick p loc r) w = w).
Proof.
  intros w.
  assert (Hov : probe_over w).
  { unfold w. clear w.
    assert (H1 : probe_over
                   (step Disconnect
                      (run before
                         (SmartteamLiveExtension location wsBaseFromScript
                            roomFromScript)))).
    { cbn [step]. eapply probe_over_part; [apply probe_part_disconnect|].
      apply probe_ok_stop.
      eapply probe_ok_part;
        [|apply (probe_ok_run before), (probe_ok_new location)].
      rewrite probe_part_clearReconnectTimer. reflexivity. }
    revert H1. generalize (step Disconnect
                             (run before
                                (SmartteamLiveExtension location
                                   wsBaseFromScript roomFromScript))).
    induction after as [|ev evs IH]; intros w0 Hw0; [exact Hw0|].
    apply IH. apply (probe_over_step ev w0 Hw0). }
  split; [apply Hov|]. split; [apply Hov|].
  intros p loc r. exact (proj2 (probe_over_step (ProbeTick p loc r) w Hov)).
Qed.

(** X23.  Loaded in an editor whose search string names a room, the
    extension sets that room, normalized, raises the intent flag and
    starts no probe, whatever the hash and whatever room the script URL
    names; loaded where neither the address nor the script URL names a
    room, it sets no room, requests nothing, and starts one probe with
    an interval of 250 ms. *)
Theorem constructor_reads_editor_address
    (location : Location) (wsBaseFromScript roomFromScript : jsstring) :
  let w := SmartteamLiveExtension location wsBaseFromScript roomFromScript in
  (forall room,
     getQueryParamFromSearch (search location) (str "room") = room ->
     normalizeRoom room <> [] ->
     getRoom (ext w) = normalizeRoom room /\
     _shouldReconnect (ext w) = true /\
     intervals w = [] /\ _roomProbeTimer (ext w) = None) /\
  (room_found location roomFromScript = [] ->
   getRoom (ext w) = [] /\ _shouldReconnect (ext w) = false /\
   checks w = [] /\ sockets w = [] /\ timers w = [] /\
   intervals w = [{| interval_ms := 250; interval_running := true;
                     tries := 0 |}] /\
   _roomProbeTimer (ext w) = Some 0).
Proof.
  intros w. split.
  - intros room Hsearch Hroom.
    assert (Hfound : room_found location roomFromScript = normalizeRoom room).
    { unfold room_found.
      assert (Hne : room <> []) by (intros ->; apply Hroom; reflexivity).
      assert (Hg : getRoomFromWindow location = room).
      { unfold getRoomFromWindow. rewrite Hsearch.
        apply is_empty_false in Hne. rewrite Hne. reflexivity. }
      rewrite Hg.
      apply is_empty_false in Hroom. rewrite Hroom. reflexivity. }
    unfold w, SmartteamLiveExtension. rewrite Hfound.
    apply is_empty_false in Hroom as He. rewrite He. cbn [negb].
    match goal with
    | |- context [setRoomInternal ?r ?a ?w0] =>
        destruct (setRoomInternal_sets r a w0 Hroom eq_refl) as [H1 H2];
        pose proof (probe_part_setRoomInternal r a w0) as H3
    end.
    unfold getRoom. split; [exact H1|]. split; [exact H2|].
    unfold probe_part in H3. injection H3 as -> ->. split; reflexivity.
  - intros Hnone. unfold w, SmartteamLiveExtension. rewrite Hnone.
    cbn [is_empty negb]. repeat split.
Qed.

End Probe.

(* ===================================================================== *)
(** * The permission checks of the second variant                         *)
(* ===================================================================== *)

Section Permission.
Import URLSearch Unsandboxed.
Context `{Platform} `{HttpUrl}.

Lemma requests_refl (w : World) : requests w w.
Proof. split; [reflexivity|]. exists []. rewrite app_nil_r. auto. Qed.

Lemma requests_trans (w w1 w2 : World) :
  requests w w1 -> requests w1 w2 -> requests w w2.
Proof.
  intros [Hs1 (n1 & Hc1 & Hn1)] [Hs2 (n2 & Hc2 & Hn2)].
  split; [congruence|]. exists (n1 ++ n2).
  rewrite Hc2, Hc1, app_assoc. split; [reflexivity|].
  apply Forall_app. auto.
Qed.

Lemma requests_frame (w w' : World) :
  sockets w' = sockets w -> checks w' = checks w -> requests w w'.
Proof.
  intros Hs Hc. split; [rewrite Hs; reflexivity|].
  exists []. rewrite app_nil_r. auto.
Qed.

Lemma checked_after (w w' : World) :
  requests w w' -> checked w -> checked w'.
Proof.
  intros [Hs (new & Hc & Hnew)] [Hck Hsk]. split.
  - intros c ck. rewrite Hc. intros Hl.
    apply lookup_app_Some in Hl as [Hl|[_ Hl]]; [eauto|].
    rewrite Forall_lookup in Hnew. eauto.
  - intros i s' Hi.
    assert (Hu : map sock_url (sockets w') !! i = Some (sock_url s')).
    { change (map sock_url) with (fmap (M := list) sock_url).
      rewrite list_lookup_fmap, Hi. reflexivity. }
    rewrite Hs in Hu.
    change (map sock_url) with (fmap (M := list) sock_url) in Hu.
    rewrite list_lookup_fmap in Hu.
    destruct (sockets w !! i) as [s|] eqn:Hsi; [|discriminate].
    injection Hu as Hu. destruct (Hsk i s Hsi) as (c & ck & Hl & Hw & Hp).
    exists c, ck. rewrite Hc. split; [apply lookup_app_l_Some, Hl|].
    split; [congruence|exact Hp].
Qed.

Lemma requests_closeWs (r : jsstring) (w : World) : requests w (_closeWs r w).
Proof.
  split.
  - unfold _closeWs, detach_and_close. destruct (_ws (ext w)) as [i|];
      [|reflexivity].
    cbn [with_sockets with_ext sockets]. generalize (sockets w). clear.
    intros l. revert i. induction l as [|a l IH]; intros [|i]; simpl;
      try reflexivity. f_equal. apply IH.
  - exists []. rewrite app_nil_r. split; [|constructor].
    unfold _closeWs. destruct (_ws (ext w)); reflexivity.
Qed.

Lemma requests_clearReconnectTimer (w : World) :
  requests w (_clearReconnectTimer w).
Proof.
  apply requests_frame; unfold _clearReconnectTimer;
    destruct (_reconnectTimer (ext w)); reflexivity.
Qed.

Lemma requests_scheduleReconnect (w : World) :
  requests w (_scheduleReconnect w).
Proof.
  apply requests_frame; unfold _scheduleReconnect, setTimeout;
    repeat case_match; reflexivity.
Qed.

Lemma requests_stopRoomProbe (w : World) : requests w (_stopRoomProbe w).
Proof.
  apply requests_frame; unfold _stopRoomProbe;
    destruct (_roomProbeTimer (ext w)); reflexivity.
Qed.

Lemma requests_check_permission (u : jsstring) (w : World) :
  requests w (check_permission u w).
Proof.
  unfold check_permission. destruct (is_empty (toCanFetchUrl u)) eqn:He.
  - eapply requests_trans; [|apply requests_scheduleReconnect].
    apply requests_frame; reflexivity.
  - split; [reflexivity|]. eexists. split; [reflexivity|].
    constructor; [|constructor]. split; [reflexivity|].
    apply is_empty_false, He.
Qed.

Lemma requests_with_ext (f : Ext -> Ext) (w w' : World) :
  requests (with_ext f w) w' -> requests w w'.
Proof. intros Hr. exact Hr. Qed.

Lemma requests_openWs (w : World) : requests w (_openWs w).
Proof.
  unfold _openWs. repeat case_match;
    try (apply requests_frame; reflexivity);
    try apply requests_check_permission.
  - apply (requests_with_ext (set_wsBase DEFAULT_WS_BASE)).
    apply requests_check_permission.
  - eapply requests_trans; [|apply requests_scheduleReconnect].
    apply requests_frame; reflexivity.
Qed.

Lemma requests_connect (r : jsstring) (w w0 : World) :
  sockets w0 = sockets w -> checks w0 = checks w ->
  requests w (_openWs (_closeWs r (_clearReconnectTimer w0))).
Proof.
  intros Hs Hc.
  eapply requests_trans; [apply requests_frame; eassumption|].
  eapply requests_trans; [apply requests_clearReconnectTimer|].
  eapply requests_trans; [apply requests_closeWs|].
  apply requests_openWs.
Qed.

Lemma requests_setRoomInternal (room : jsstring) (auto : bool) (w : World) :
  requests w (setRoomInternal room auto w).
Proof.
  unfold setRoomInternal. destruct (is_empty room).
  - destruct (negb auto); [|apply requests_frame; reflexivity].
    eapply requests_trans; [|apply requests_closeWs].
    eapply requests_trans; [|apply requests_clearReconnectTimer].
    apply requests_frame; reflexivity.
  - match goal with |- context [if ?b then _ else _] => destruct b end.
    + apply requests_refl.
    + apply requests_connect; reflexivity.
Qed.

Lemma requests_set_state (i : nat) (s : Socket) (st : ReadyState) (w : World) :
  sockets w !! i = Some s ->
  requests w (with_sockets (<[i := set_sock_state st s]>) w).
Proof.
  intros Hs. split.
  - cbn [with_sockets sockets].
    change (map sock_url) with (fmap (M := list) sock_url).
    rewrite list_fmap_insert. apply list_insert_id.
    rewrite list_lookup_fmap, Hs. reflexivity.
  - exists []. rewrite app_nil_r. split; [reflexivity|constructor].
Qed.

Lemma checked_step (ev : Event) (w : World) :
  checked w -> checked (step ev w).
Proof.
  intros Hw.
  assert (Hframe : forall w', requests w w' -> checked w')
    by (intros w' Hn; apply (checked_after w); assumption).
  destruct ev; cbn [step].
  - apply Hframe, requests_setRoomInternal.
  - apply Hframe. unfold reconnect. destruct (is_empty (_room (ext w))).
    + apply requests_frame; reflexivity.
    + apply requests_connect; reflexivity.
  - apply Hframe. unfold disconnect.
    eapply requests_trans; [|apply requests_frame; reflexivity].
    eapply requests_trans; [|apply requests_closeWs].
    eapply requests_trans; [|apply requests_stopRoomProbe].
    eapply requests_trans; [|apply requests_clearReconnectTimer].
    apply requests_frame; reflexivity.
  - destruct (checks w !! c) as [ck|] eqn:Hc; [|exact Hw].
    destruct (check_pending ck) eqn:Hp; [|exact Hw].
    set (w1 := with_checks _ w).
    assert (Hat : checks w1 !! c =
                  Some {| check_url := check_url ck;
                          check_wsUrl := check_wsUrl ck;
                          check_pending := false |}).
    { unfold w1. cbn [with_checks checks].
      apply list_lookup_insert_eq. eapply lookup_lt_Some, Hc. }
    assert (H1 : checked w1).
    { destruct Hw as [Hck Hsk]. split.
      - intros c0 ck0. destruct (decide (c = c0)) as [<-|Hne].
        + rewrite Hat. intros [= <-]. apply (Hck c ck Hc).
        + unfold w1. cbn [with_checks checks].
          rewrite list_lookup_insert_ne by exact Hne. apply Hck.
      - intros i s Hi. destruct (Hsk i s Hi) as (c0 & ck0 & Hl & Hu & Hp0).
        exists c0, ck0. split; [|auto]. unfold w1. cbn [with_checks checks].
        rewrite list_lookup_insert_ne; [exact Hl|]. congruence. }
    unfold _openWsAsync_resume. destruct o as [[|]| |];
      try (apply (checked_after w1); [|exact H1];
           eapply requests_trans; [|apply requests_scheduleReconnect];
           apply requests_frame; reflexivity).
    destruct H1 as [Hck1 Hsk1]. split; [exact Hck1|].
    intros i s. cbn [new_WebSocket with_ext with_sockets sockets checks].
    intros Hi. apply lookup_app_Some in Hi as [Hi|[_ Hi]];
      [apply (Hsk1 i s Hi)|].
    destruct (i - length (sockets w1)) as [|k]; [|destruct k; discriminate].
    injection Hi as <-. eexists c, _. split; [exact Hat|]. split; reflexivity.
  - apply Hframe. destruct (timers w !! t) as [tm|]; [|apply requests_refl].
    destruct (timer_state tm); try apply requests_refl.
    unfold retry_callback. repeat case_match;
      try (apply requests_frame; reflexivity).
    eapply requests_trans; [|apply requests_openWs].
    apply requests_frame; reflexivity.
  - apply Hframe. destruct (intervals w !! p) as [iv|]; [|apply requests_refl].
    destruct (interval_running iv); [|apply requests_refl].
    unfold probe_callback. repeat case_match;
      try (apply requests_frame; reflexivity);
      try (eapply requests_trans; [|apply requests_stopRoomProbe];
           apply requests_frame; reflexivity).
    eapply requests_trans; [|apply requests_setRoomInternal].
    eapply requests_trans; [|apply requests_stopRoomProbe].
    apply requests_frame; reflexivity.
  - apply Hframe. destruct (sockets w !! i) as [s|] eqn:Hs;
      [|apply requests_refl].
    destruct (sock_state s); try apply requests_refl.
    destruct (sock_handlers s); unfold onopen;
      (eapply requests_trans; [apply (requests_set_state i s OPEN w Hs)|]);
      apply requests_frame; reflexivity.
  - apply Hframe. repeat case_match; try apply requests_refl.
    apply requests_frame; reflexivity.
  - apply Hframe. repeat case_match; try apply requests_refl;
      apply requests_frame; reflexivity.
  - apply Hframe. destruct (sockets w !! i) as [s|] eqn:Hs;
      [|apply requests_refl].
    destruct (sock_state s); try apply requests_refl;
      (destruct (sock_handlers s); unfold onclose;
       [eapply requests_trans; [apply (requests_set_state i s CLOSED w Hs)|];
        eapply requests_trans; [|apply requests_scheduleReconnect];
        apply requests_frame; reflexivity
       |apply (requests_set_state i s CLOSED w Hs)]).
Qed.

(** X29.  In every world the second variant reaches, every permission
    check has been requested for [toCanFetchUrl] of the address it is
    to open, the http form of that address, and never for an empty
    address; and every socket has been created with an address whose
    check has settled. *)
Theorem unsandboxed_checks_http_form
    (location : Location) (wsBaseFromScript roomFromScript : jsstring)
    (evs : list Event) :
  let w := run evs
             (SmartteamLiveExtension location wsBaseFromScript roomFromScript) in
  (forall c ck, checks w !! c = Some ck ->
     check_url ck = toCanFetchUrl (check_wsUrl ck) /\ check_url ck <> []) /\
  (forall i s, sockets w !! i = Some s ->
     exists c ck, checks w !! c = Some ck /\ check_wsUrl ck = sock_url s /\
                  check_pending ck = false).
Proof.
  intros w. change (checked w). unfold w. clear w.
  assert (H1 : checked
                 (SmartteamLiveExtension location wsBaseFromScript
                    roomFromScript)).
  { unfold SmartteamLiveExtension.
    match goal with
    | |- checked (if _ then setRoomInternal ?r ?a ?w0 else ?w1) =>
        assert (Hw0 : checked w0)
          by (split; intros i x Hi; destruct i; discriminate);
        assert (Hw1 : checked w1)
          by (unfold _startRoomProbe; cbn [with_ext ext set_connected
                set_wsBase _roomProbeTimer setInterval];
              split; intros i x Hi; destruct i; discriminate)
    end.
    destruct (negb (is_empty (room_found location roomFromScript)));
      [|exact Hw1].
    eapply checked_after; [apply requests_setRoomInternal|exact Hw0]. }
  revert H1. generalize (SmartteamLiveExtension location wsBaseFromScript
                           roomFromScript).
  induction evs as [|ev evs IH]; intros w0 Hw0; [exact Hw0|].
  apply IH, checked_step, Hw0.
Qed.

End Permission.

(* ===================================================================== *)
(** * Runs of the extension                                               *)
(* ===================================================================== *)

(** ** A permission check that settles after [disconnect] *)

(** C1.  [setRoom("ST-A")] requests a permission check; [disconnect()]
    returns before the check settles: the intent flag is down, no
    transport is live, no retry is pending.  Neither [setRoom] nor
    [reconnect] is called.  When the check now resolves to [true], the
    resumed [_openWsAsync] opens a transport all the same (it looks at
    neither the intent flag nor the room), and when that transport
    reports [open] the extension says it is connected.  The same happens
    after [setRoom("")]. *)
Theorem stale_check_opens_after_disconnect :
  let w := exrun [SetRoom room_A; Disconnect] in
  let w' := exstep (CanFetchSettles 0 (Allowed false)) w in
  let v := exrun [SetRoom room_A; SetRoom []] in
  let v' := exstep (CanFetchSettles 0 (Allowed false)) v in
  (_shouldReconnect (ext w) = false /\ live_transports w = [] /\
   pending_retries w = []) /\
  (_shouldReconnect (ext w') = false /\ length (live_transports w') = 1 /\
   _ws (ext w') = Some 0 /\ pending_retries w' = [] /\
   isConnected (ext (exstep (WsOpen 0) w')) = true) /\
  (_shouldReconnect (ext v) = false /\ getRoom (ext v) = [] /\
   live_transports v = []) /\
  (length (live_transports v') = 1 /\ _ws (ext v') = Some 0 /\
   getRoom (ext v') = [] /\
   isConnected (ext (exstep (WsOpen 0) v')) = true).
Proof. vm_compute. repeat split. Qed.

(** ** Two permission checks in flight *)

(** C2.  [setRoom("ST-A")] and then [setRoom("ST-B")] before the first
    permission check has settled: both checks are in flight.  When both
    resolve to [true], two transports are live, both with the
    extension's handlers attached, and the extension holds the second
    only; the first still drives the state (its [open] sets
    [_connected], its [close] makes the extension forget the second). *)
Theorem two_live_transports :
  let w := exrun [SetRoom room_A; SetRoom room_B;
                  CanFetchSettles 0 (Allowed false);
                  CanFetchSettles 1 (Allowed false)] in
  length (live_transports w) = 2 /\
  map sock_handlers (live_transports w) = [true; true] /\
  map sock_url (live_transports w) =
    [DEFAULT_WS_BASE ++ str "?room=ST-A"; DEFAULT_WS_BASE ++ str "?room=ST-B"] /\
  getRoom (ext w) = room_B /\
  _ws (ext w) = Some 1 /\
  pending_retries w = [] /\
  isConnected (ext (exstep (WsOpen 0) w)) = true /\
  _ws (ext (exstep (WsClose 0) w)) = None /\
  length (live_transports (exstep (WsClose 0) w)) = 1.
Proof. vm_compute. repeat split. Qed.

(** ** The backoff table *)

Lemma attempting_after_setRoom :
  @attempting example_platform
    (@run example_platform [SetRoom room_A]
       (@SmartteamLiveExtension example_platform [] [])).
Proof.
  unfold attempting. repeat split; try (vm_compute; congruence).
  - exists [], {| check_url := DEFAULT_WS_BASE ++ str "?room=" ++ room_A;
                  check_pending := true |}.
    split; vm_compute; reflexivity.
  - exists (DEFAULT_WS_BASE ++ str "?room=" ++ room_A). vm_compute. reflexivity.
Defined.

(** Six failed attempts in a row after [setRoom("ST-A")], one of each
    kind and one more: the delays are 1000, 2000, 3000, 5000, 5000,
    5000. *)
Lemma backoff_sequence_witness :
  let w := @run example_platform [SetRoom room_A]
             (@SmartteamLiveExtension example_platform [] []) in
  @attempting example_platform w /\
  _backoffIndex (ext w) = 0 /\
  scheduled_delays
    (@fail_repeatedly example_platform
       [PermissionRefused; ClosedBeforeOpen; ConstructorThrows;
        PermissionFailed; ErrorThenClosed; PermissionRefused] w) =
  [1000; 2000; 3000; 5000; 5000; 5000]%Z.
Proof.
  cbv zeta.
  assert (Hz : _backoffIndex
                 (ext (@run example_platform [SetRoom room_A]
                         (@SmartteamLiveExtension example_platform [] []))) = 0)
    by (vm_compute; reflexivity).
  split; [exact attempting_after_setRoom|]. split; [exact Hz|].
  rewrite (proj1 (@backoff_sequence example_platform) _
             [PermissionRefused; ClosedBeforeOpen; ConstructorThrows;
              PermissionFailed; ErrorThenClosed; PermissionRefused]
             attempting_after_setRoom Hz).
  vm_compute. reflexivity.
Defined.

(** C3 as stated fails: after one failed attempt a second attempt has
    created its socket, which has not opened yet, and the index is 1.
    An explicit [setRoom("ST-A")] is then a no-op, and the next failure,
    the close of that socket, is scheduled after 2000 ms, not 1000. *)
Lemma noop_setRoom_keeps_backoff_index :
  let w := exrun [SetRoom room_A; CanFetchSettles 0 (Allowed false); WsClose 0;
                  TimerFires 0; CanFetchSettles 1 (Allowed false)] in
  let w1 := exstep (SetRoom room_A) w in
  let w2 := exstep (WsClose 1) w1 in
  scheduled_delays w = [1000%Z] /\
  _backoffIndex (ext w1) = 1 /\
  scheduled_delays w1 = [1000%Z] /\
  scheduled_delays w2 = [1000%Z; 2000%Z].
Proof. vm_compute. repeat split. Qed.

(** ** Changing the room while connected *)

(** C4.  Connected to room ST-A, [setRoom("ST-B")]: when the call
    returns, label, confidence and subscriber count are reset, the old
    transport is closed and the new permission check has not settled, so
    that no transport is live, and [isConnected()] still answers
    [true]. *)
Theorem setRoom_new_room_stays_connected :
  let w := exrun [SetRoom room_A; CanFetchSettles 0 (Allowed false); WsOpen 0;
                  WsMessage 0 (json "{'type':'gesture','label':'wave','confidence':0.87}")] in
  let w' := exstep (SetRoom room_B) w in
  (getRoom (ext w) = room_A /\ isConnected (ext w) = true /\
   getGesture (ext w) = str "wave") /\
  (getRoom (ext w') = room_B /\ getGesture (ext w') = [] /\
   getConfidence (ext w') = Normal pos_zero /\
   getSubscribers (ext w') = Normal pos_zero /\
   live_transports w' = [] /\ _ws (ext w') = None /\
   map check_pending (checks w') = [false; true] /\
   isConnected (ext w') = true).
Proof. vm_compute. repeat split. Qed.

(** C10.  Connected to room ST-A, [reconnect()] closes the transport and
    leaves [_connected] set; no socket is held.  [setRoom("ST-A")] is
    then not a no-op: it resets label, confidence and subscriber count
    and the backoff index, sets the intent flag and requests a new
    permission check; but [_connected] stays set, although no transport
    is live. *)
Theorem setRoom_same_room_stays_connected :
  let w := exrun [SetRoom room_A; CanFetchSettles 0 (Allowed false); WsOpen 0;
                  WsMessage 0 (json "{'type':'presence','subscribers':3}");
                  Reconnect] in
  let w' := exstep (SetRoom room_A) w in
  (getRoom (ext w) = room_A /\ _ws (ext w) = None /\
   getSubscribers (ext w) = Normal (num_of_Z 3)) /\
  (getRoom (ext w') = room_A /\ getSubscribers (ext w') = Normal pos_zero /\
   _backoffIndex (ext w') = 0 /\ _shouldReconnect (ext w') = true /\
   pending_retries w' = [] /\ live_transports w' = [] /\
   length (checks w') = S (length (checks w)) /\
   isConnected (ext w') = true).
Proof. vm_compute. repeat split. Qed.

(** ** Setting the room it already has *)



(** ** Clearing the room *)

(** C8.  [setRoom("ST-A")] and then [setRoom("ST-B")] before the first
    permission check has settled; both checks resolve to [true], so two
    transports are live and the extension holds the second only.
    [setRoom("  ")] now clears the room, withdraws the intent and closes
    the transport it holds, with "room cleared"; the transport for ST-A
    is not closed: it is still live, with the extension's handlers
    attached, and when it reports [open] the extension says it is
    connected, with no room and no intent. *)
Theorem setRoom_empty_leaves_live_transport :
  let w := exrun [SetRoom room_A; SetRoom room_B;
                  CanFetchSettles 0 (Allowed false);
                  CanFetchSettles 1 (Allowed false)] in
  let w' := exstep (SetRoom (str "  ")) w in
  normalizeRoom (str "  ") = [] /\
  (length (live_transports w) = 2 /\ _ws (ext w) = Some 1) /\
  (getRoom (ext w') = [] /\ _shouldReconnect (ext w') = false /\
   pending_retries w' = [] /\ _ws (ext w') = None /\
   isConnected (ext w') = false) /\
  (sockets w' =
     [{| sock_url := DEFAULT_WS_BASE ++ str "?room=ST-A";
         sock_handlers := true; sock_state := CONNECTING;
         sock_close := None |};
      {| sock_url := DEFAULT_WS_BASE ++ str "?room=ST-B";
         sock_handlers := false; sock_state := CLOSED;
         sock_close := Some (1000%Z, str "room cleared") |}]) /\
  length (live_transports w') = 1 /\
  map sock_handlers (live_transports w') = [true] /\
  (isConnected (ext (exstep (WsOpen 0) w')) = true /\
   getRoom (ext (exstep (WsOpen 0) w')) = [] /\
   _shouldReconnect (ext (exstep (WsOpen 0) w')) = false).
Proof. vm_compute. repeat split. Qed.

(** The extension holds an open socket and says it is connected;
    [setRoom("  ")] closes that socket. *)
Lemma setRoom_empty_clears_witness :
  let w := exrun [SetRoom room_A; CanFetchSettles 0 (Allowed false); WsOpen 0] in
  let w' := exstep (SetRoom (str "  ")) w in
  normalizeRoom (str "  ") = [] /\
  (_ws (ext w) = Some 0 /\ isConnected (ext w) = true /\
   getRoom (ext w) = room_A) /\
  getRoom (ext w') = [] /\ _shouldReconnect (ext w') = false /\
  pending_retries w' = [] /\ isConnected (ext w') = false /\
  exists s', sockets w' !! 0 = Some s' /\ is_live s' = false /\
             sock_handlers s' = false /\
             sock_close s' = Some (1000%Z, str "room cleared").
Proof.
  cbv zeta. unfold exstep, exrun, fresh.
  assert (H0 : normalizeRoom (str "  ") = []) by (vm_compute; reflexivity).
  split; [exact H0|].
  split; [vm_compute; repeat split|].
  pose proof (@setRoom_empty_clears example_platform [] []
                [SetRoom room_A; CanFetchSettles 0 (Allowed false); WsOpen 0]
                (str "  ") H0)
    as (H1 & H2 & _ & H4 & _ & H6 & _ & _ & _ & H10 & _).
  split; [exact H1|]. split; [exact H2|]. split; [exact H4|].
  split; [exact H10|].
  destruct (H6 0) as (s & s' & _ & _ & Hs' & Hl & Hh & Hc);
    [vm_compute; reflexivity|].
  exists s'. auto.
Defined.

(** ** Inbound frames *)

Lemma discarded_frame_witness :
  let w := exrun [SetRoom room_A; CanFetchSettles 0 (Allowed false); WsOpen 0] in
  discarded_frame (str "not json") /\
  exstep (WsMessage 0 (str "not json")) w = w /\
  getSubscribers
    (ext (@run example_platform
            [WsMessage 0 (json "{'type':'presence','subscribers':3}");
             WsMessage 0 (str "not json")] w)) = Normal (num_of_Z 3).
Proof.
  cbv zeta. unfold exstep, exrun, fresh.
  assert (Hd : discarded_frame (str "not json")) by (vm_compute; exact I).
  split; [exact Hd|].
  pose proof (@discarded_frame_changes_nothing example_platform
                (@run example_platform
                   [SetRoom room_A; CanFetchSettles 0 (Allowed false); WsOpen 0]
                   (@SmartteamLiveExtension example_platform [] []))
                0 (str "not json") Hd) as (_ & H1 & H2).
  split; [exact H1|].
  apply (H2 {| sock_url := DEFAULT_WS_BASE ++ str "?room=" ++ room_A;
               sock_handlers := true; sock_state := OPEN;
               sock_close := None |});
    vm_compute; reflexivity.
Defined.

(** C7.  The frame
    [{"type":"gesture","label":"wave","confidence":{"toString":0}}]
    decodes to a keyed structure of kind ["gesture"] whose confidence is
    an object with a member [toString] of its own.  [Number(...)] has no
    callable [toString] to turn that object into a primitive and throws
    a TypeError; the handler ends there, before its first assignment:
    the label is not overwritten with ["wave"] and the confidence is not
    set to 0.  The same for a presence frame and for an array that
    contains such an object.  A gesture frame with a number stores label
    and confidence. *)
Theorem onmessage_throws_on_unconvertible_number :
  let w := exrun [SetRoom room_A; CanFetchSettles 0 (Allowed false); WsOpen 0;
                  WsMessage 0 (json "{'type':'gesture','label':'fist','confidence':0.5}");
                  WsMessage 0 (json "{'type':'presence','subscribers':3}")] in
  let bad := json "{'type':'gesture','label':'wave','confidence':{'toString':0}}" in
  let bad' := json "{'type':'presence','subscribers':[1,{'toString':0}]}" in
  let good := json "{'type':'gesture','label':'wave','confidence':0.87}" in
  (getGesture (ext w) = str "fist" /\
   getConfidence (ext w) = Normal (hundredth 50)) /\
  (onmessage bad (ext w) = Threw (ext w) /\
   exstep (WsMessage 0 bad) w = w /\
   getGesture (ext (exstep (WsMessage 0 bad) w)) = str "fist" /\
   getConfidence (ext (exstep (WsMessage 0 bad) w)) = Normal (hundredth 50)) /\
  onmessage bad' (ext w) = Threw (ext w) /\
  (getGesture (ext (exstep (WsMessage 0 good) w)) = str "wave" /\
   getConfidence (ext (exstep (WsMessage 0 good) w)) = Normal (hundredth 87)).
Proof. vm_compute. repeat split. Qed.

(** ** The confidence reporter *)

(** C9.  The frame
    [{"type":"gesture","label":"wave","confidence":1e307}] stores the
    finite number 1e307, which [toFiniteNumber] lets through, in the
    handler and again in the reporter.  [round2], whose comment reads
    "Round to 2 decimals for reporting", multiplies it by 100 before it
    rounds: the product overflows and the reporter returns +Infinity,
    which is not 1e307 rounded to two decimals (1e307 is an integer, and
    so its own rounding) and is no finite number at all. *)
Theorem getConfidence_overflow :
  let e := ext (exrun [SetRoom room_A; CanFetchSettles 0 (Allowed false);
                       WsOpen 0;
                       WsMessage 0 (json "{'type':'gesture','label':'wave','confidence':1e307}")]) in
  _confidence e = decimal_to_number false 1 307 /\
  Number_isFinite (_confidence e) = true /\
  toFiniteNumber (JNum (_confidence e)) pos_zero = Normal (_confidence e) /\
  getConfidence e = Normal pos_infinity /\
  Number_isFinite pos_infinity = false /\
  getConfidence (set_confidence (decimal_to_number false 1 306) e) =
    Normal (decimal_to_number false 1 306).
Proof. vm_compute. repeat split. Qed.

Lemma getConfidence_rounds_witness :
  let e := set_confidence (decimal_to_number true 1 (-5)) (ext fresh) in
  _confidence e = decimal_to_number true 1 (-5) /\
  getConfidence e = Normal pos_zero.
Proof.
  cbv zeta. split; [reflexivity|].
  destruct (getConfidence_rounds
              (set_confidence (decimal_to_number true 1 (-5)) (ext fresh)))
    as (r & Hr & _ & _ & _ & H5 & _).
  rewrite Hr. f_equal. apply H5. reflexivity.
Defined.

(** ** Rooms and base addresses *)

(** A blank room is normalized to the empty string. *)
Lemma normalizeRoom_strips_blanks_witness :
  blank (str "  ") = true /\ normalizeRoom (str "  ") = [].
Proof.
  split; [vm_compute; reflexivity|].
  apply (proj2 (proj2 (proj2 (normalizeRoom_strips_blanks (str "  "))))).
  vm_compute. reflexivity.
Defined.

(** [setRoom(" ST-A  ")] is [setRoom("ST-A")]. *)
Lemma setRoom_normalizes_witness :
  blank (str " ") = true /\ blank (str "  ") = true /\
  exstep (SetRoom (str " " ++ room_A ++ str "  ")) fresh =
  exstep (SetRoom room_A) fresh.
Proof.
  unfold exstep, fresh.
  assert (H1 : blank (str " ") = true) by (vm_compute; reflexivity).
  assert (H2 : blank (str "  ") = true) by (vm_compute; reflexivity).
  split; [exact H1|]. split; [exact H2|].
  exact (proj2 (proj2 (@setRoom_normalizes example_platform room_A
                         (@SmartteamLiveExtension example_platform [] [])))
           (str " ") (str "  ") H1 H2).
Defined.

(** An address with a protocol other than [ws:] or [wss:] is no URL for
    the sample platform and gives the default base; a [ws:] address is
    kept. *)
Lemma normalizeWsBase_allows_ws_only_witness :
  @normalizeWsBase example_platform (str "https://example.org/ws") =
    DEFAULT_WS_BASE /\
  @normalizeWsBase example_platform (str " ws://localhost:8787/ws ") =
    str "ws://localhost:8787/ws".
Proof.
  split.
  - apply (proj1 (proj2 (@normalizeWsBase_allows_ws_only example_platform
                           (str "https://example.org/ws")))).
    vm_compute. reflexivity.
  - apply (proj1 (proj2 (proj2 (proj2
             (@normalizeWsBase_allows_ws_only example_platform
                (str " ws://localhost:8787/ws "))))) (str "ws:")).
    + vm_compute. reflexivity.
    + vm_compute. reflexivity.
    + left. reflexivity.
Defined.

(** ** Coercion *)

Lemma toFiniteNumber_coerces_witness :
  blank (str "  ") = true /\
  toFiniteNumber (JStr (str "  ")) (num_of_Z 3) = Normal pos_zero.
Proof.
  assert (H1 : blank (str "  ") = true) by (vm_compute; reflexivity).
  split; [exact H1|].
  exact (proj1 (proj2 (proj2 (proj2 (proj2 (proj2
           (toFiniteNumber_coerces (num_of_Z 3)))))))
           (str "  ") H1).
Defined.

(** A frame that makes the handler throw leaves the fields as they
    were. *)
Lemma message_touches_facts_only_witness :
  let w := exrun [SetRoom room_A; CanFetchSettles 0 (Allowed false); WsOpen 0;
                  WsMessage 0 (json "{'type':'presence','subscribers':3}")] in
  let bad := json "{'type':'presence','subscribers':{'toString':0}}" in
  onmessage bad (ext w) = Threw (ext w) /\
  ext (exstep (WsMessage 0 bad) w) = ext w.
Proof.
  cbv zeta. unfold exstep, exrun, fresh.
  match goal with
  | |- ?a /\ _ => assert (H1 : a) by (vm_compute; reflexivity)
  end.
  split; [exact H1|].
  exact (proj2
           (proj2 (proj2 (proj2 (proj2 (proj2
              (@message_touches_facts_only example_platform
                 (@run example_platform
                    [SetRoom room_A; CanFetchSettles 0 (Allowed false); WsOpen 0;
                     WsMessage 0 (json "{'type':'presence','subscribers':3}")]
                    (@SmartteamLiveExtension example_platform [] []))
                 0 (json "{'type':'presence','subscribers':{'toString':0}}"))))))
              _ H1)).
Defined.

(** A frame that is a JSON array is ignored. *)
Lemma frame_without_brace_ignored_witness :
  head (skip_ws (json " [{'type':'presence','subscribers':3}]")) <> Some 123%N /\
  onmessage (json " [{'type':'presence','subscribers':3}]") (ext fresh) =
  Returned (ext fresh).
Proof.
  assert (H1 : head (skip_ws (json " [{'type':'presence','subscribers':3}]"))
               <> Some 123%N) by (vm_compute; discriminate).
  split; [exact H1|].
  exact (frame_without_brace_ignored _ (ext fresh) H1).
Defined.

(** ** The supervisor *)

(** After a refused permission check a retry is pending: the intent
    flag is up and the room is set. *)
Lemma retry_timer_invariant_witness :
  let w := exrun [SetRoom room_A; CanFetchSettles 0 Refused] in
  _reconnectTimer (ext w) <> None /\
  _shouldReconnect (ext w) = true /\ _room (ext w) <> [].
Proof.
  cbv zeta. unfold exrun, fresh.
  match goal with
  | |- ?a /\ _ => assert (H1 : a) by (vm_compute; discriminate)
  end.
  split; [exact H1|].
  exact (proj1 (proj2 (proj2
           (@retry_timer_invariant example_platform [] []
              [SetRoom room_A; CanFetchSettles 0 Refused]))) H1).
Defined.

(** The socket of a connect attempt that was allowed. *)
Lemma held_socket_is_live_witness :
  let w := exrun [SetRoom room_A; CanFetchSettles 0 (Allowed false)] in
  _ws (ext w) = Some 0 /\
  exists s, sockets w !! 0 = Some s /\ sock_handlers s = true /\
            sock_state s <> CLOSED.
Proof.
  cbv zeta. unfold exrun, fresh.
  match goal with
  | |- ?a /\ _ => assert (H1 : a) by (vm_compute; reflexivity)
  end.
  split; [exact H1|].
  exact (@held_socket_is_live example_platform [] []
           [SetRoom room_A; CanFetchSettles 0 (Allowed false)] 0 H1).
Defined.

(** A socket that reports an error and closes without having opened. *)
Lemma connected_only_by_open_witness :
  isConnected
    (ext (exrun [SetRoom room_A; CanFetchSettles 0 (Allowed false);
                 WsError 0; WsClose 0])) = false.
Proof.
  unfold exrun, fresh.
  apply (proj2 (@connected_only_by_open example_platform) [] []
           [SetRoom room_A; CanFetchSettles 0 (Allowed false);
            WsError 0; WsClose 0]).
  vm_compute. reflexivity.
Defined.

(** [setRoom(" ")] on a connected extension, then [reconnect]. *)
Lemma disconnect_and_clear_compose_witness :
  let w := exrun [SetRoom room_A; CanFetchSettles 0 (Allowed false); WsOpen 0] in
  blank (str " ") = true /\
  exstep Reconnect (exstep (SetRoom (str " ")) w) = exstep (SetRoom (str " ")) w.
Proof.
  cbv zeta. unfold exstep, exrun, fresh.
  assert (H1 : blank (str " ") = true) by (vm_compute; reflexivity).
  split; [exact H1|].
  exact (proj2 (proj2 (proj2 (proj2 (proj2 (proj2
           (proj2 (@disconnect_and_clear_compose example_platform (str " ")
                     (@run example_platform
                        [SetRoom room_A; CanFetchSettles 0 (Allowed false);
                         WsOpen 0]
                        (@SmartteamLiveExtension example_platform [] [])))
              H1))))))).
Defined.

(** The default of the [set room to] block once a room is set. *)
Lemma getInfo_default_room_witness :
  let w := exrun [SetRoom (str " ST-A ")] in
  getRoom (ext w) <> [] /\
  default_of (getInfo None (ext w)) (str "setRoom") (str "ROOM") =
  Some (getRoom (ext w)).
Proof.
  cbv zeta. unfold exrun, fresh.
  match goal with
  | |- ?a /\ _ => assert (H1 : a) by (vm_compute; discriminate)
  end.
  split; [exact H1|].
  exact (proj1 (proj2 (@getInfo_default_room example_platform None))
           [] [] [SetRoom (str " ST-A ")] H1).
Defined.

(** The close of the socket held changes neither the room nor the
    intent flag. *)
Lemma internal_events_keep_session_witness :
  let w := exrun [SetRoom room_A; CanFetchSettles 0 (Allowed false); WsOpen 0] in
  internal_event (WsClose 0) = true /\
  _room (ext (exstep (WsClose 0) w)) = _room (ext w) /\
  _shouldReconnect (ext (exstep (WsClose 0) w)) = _shouldReconnect (ext w).
Proof.
  cbv zeta. unfold exstep, exrun, fresh.
  split; [reflexivity|].
  destruct (proj1 (@internal_events_keep_session example_platform (WsClose 0)
                     (@run example_platform
                        [SetRoom room_A; CanFetchSettles 0 (Allowed false);
                         WsOpen 0]
                        (@SmartteamLiveExtension example_platform [] [])))
              eq_refl) as (H1 & _ & _ & _ & _ & H6).
  split; [exact H1|exact H6].
Defined.

(** A retry fires and requests a check: no socket is created. *)
Lemma no_socket_without_permission_check_witness :
  let w := exrun [SetRoom room_A; CanFetchSettles 0 Refused] in
  is_settle (TimerFires 0) = false /\
  length (sockets (exstep (TimerFires 0) w)) = length (sockets w).
Proof.
  cbv zeta. unfold exstep, exrun, fresh.
  split; [reflexivity|].
  exact (proj2 (@no_socket_without_permission_check example_platform [] []
                  [SetRoom room_A; CanFetchSettles 0 Refused])
           (TimerFires 0) eq_refl).
Defined.

(** Two [setRoom] calls whose permission checks settle at once. *)
Lemma one_live_transport_witness :
  let evs := [(SetRoom room_A, Allowed false); (SetRoom room_B, Allowed false)] in
  forallb (fun evo => negb (is_settle (fst evo))) evs = true /\
  length
    (live_transports
       (fold_left (@atomic_step example_platform) evs
          (@settle_now example_platform Refused fresh))) <= 1.
Proof.
  cbv zeta. unfold fresh.
  assert (H1 : forallb (fun evo : Event * Settled => negb (is_settle (fst evo)))
                 [(SetRoom room_A, Allowed false); (SetRoom room_B, Allowed false)]
               = true) by reflexivity.
  split; [exact H1|].
  exact (@one_live_transport_when_checks_settle_at_once example_platform [] []
           Refused
           [(SetRoom room_A, Allowed false); (SetRoom room_B, Allowed false)] H1).
Defined.

(** After [disconnect] the close of the socket schedules nothing. *)
Lemma no_retry_after_disconnect_witness :
  let before := [SetRoom room_A; CanFetchSettles 0 (Allowed false); WsOpen 0] in
  let after := [WsClose 0; TimerFires 0; WsError 0] in
  forallb no_command after = true /\
  pending_retries
    (@run example_platform after
       (exstep Disconnect (@run example_platform before fresh))) = [].
Proof.
  cbv zeta. unfold exstep, fresh.
  split; [reflexivity|].
  exact (proj1 (@no_retry_after_disconnect example_platform [] []
                  [SetRoom room_A; CanFetchSettles 0 (Allowed false); WsOpen 0]
                  [WsClose 0; TimerFires 0; WsError 0] eq_refl)).
Defined.

(** [disconnect] while a socket is open. *)
Lemma teardown_closes_held_socket_witness :
  let w := exrun [SetRoom room_A; CanFetchSettles 0 (Allowed false); WsOpen 0] in
  let s := {| sock_url := DEFAULT_WS_BASE ++ str "?room=" ++ room_A;
              sock_handlers := true; sock_state := OPEN;
              sock_close := None |} in
  _ws (ext w) = Some 0 /\ sockets w !! 0 = Some s /\
  sockets (exstep Disconnect w) !! 0 =
    Some {| sock_url := DEFAULT_WS_BASE ++ str "?room=" ++ room_A;
            sock_handlers := false; sock_state := CLOSED;
            sock_close := Some (1000%Z, str "manual disconnect") |}.
Proof.
  cbv zeta. unfold exstep, exrun, fresh.
  match goal with
  | |- ?a /\ ?b /\ _ =>
      assert (H1 : a) by (vm_compute; reflexivity);
      assert (H2 : b) by (vm_compute; reflexivity)
  end.
  split; [exact H1|]. split; [exact H2|].
  exact (proj1 (proj1 (@teardown_closes_held_socket example_platform _ 0 _
                         H1 H2))).
Defined.

(** A socket that closes without having opened: a retry is pending. *)
Lemma never_idle_while_intent_witness :
  let w := exrun [SetRoom room_A; CanFetchSettles 0 (Allowed false);
                  WsClose 0] in
  _shouldReconnect (ext w) = true /\ _ws (ext w) = None /\
  ((exists t tm, _reconnectTimer (ext w) = Some t /\
                 timers w !! t = Some tm /\ timer_state tm = Pending) \/
   (exists c ck, checks w !! c = Some ck /\ check_pending ck = true)).
Proof.
  cbv zeta. unfold exrun, fresh.
  match goal with
  | |- ?a /\ ?b /\ _ =>
      assert (H1 : a) by (vm_compute; reflexivity);
      assert (H2 : b) by (vm_compute; reflexivity)
  end.
  split; [exact H1|]. split; [exact H2|].
  exact (@never_idle_while_intent example_platform [] []
           [SetRoom room_A; CanFetchSettles 0 (Allowed false); WsClose 0]
           H1 H2).
Defined.

(** ** The editor's address *)

Lemma getQueryParamFromSearch_reads_witness :
  forallb plain (str "room") = true /\ forallb plain room_A = true /\
  Unsandboxed.getQueryParamFromSearch
    (str "?room=" ++ room_A ++ str "&wsBase=x") (str "room") = room_A.
Proof.
  assert (H1 : forallb plain (str "room") = true) by (vm_compute; reflexivity).
  assert (H2 : forallb plain room_A = true) by (vm_compute; reflexivity).
  split; [exact H1|]. split; [exact H2|].
  exact (proj1 (proj1 (getQueryParamFromSearch_reads (str "room") room_A H1 H2)
                  (str "&wsBase=x") (or_intror (ex_intro _ (str "wsBase=x") eq_refl)))).
Defined.

Lemma getQueryParamFromSearch_decodes_witness :
  forallb plain (str "room") = true /\
  forallb ascii_unit (str "ST 1&2=3") = true /\
  form_encode (str "ST 1&2=3") = str "ST+1%262%3D3" /\
  Unsandboxed.getQueryParamFromSearch
    (str "?room=" ++ form_encode (str "ST 1&2=3")) (str "room") =
  str "ST 1&2=3".
Proof.
  assert (H1 : forallb plain (str "room") = true) by (vm_compute; reflexivity).
  assert (H2 : forallb ascii_unit (str "ST 1&2=3") = true)
    by (vm_compute; reflexivity).
  split; [exact H1|]. split; [exact H2|].
  split; [vm_compute; reflexivity|].
  pose proof (proj1 (getQueryParamFromSearch_decodes (str "room") [] H1
                       (or_introl eq_refl)) (str "ST 1&2=3") H2) as H.
  rewrite app_nil_r in H. exact H.
Defined.

Lemma getRoomFromWindow_sources_witness :
  forallb plain room_A = true /\ room_A <> [] /\
  Unsandboxed.getRoomFromWindow
    {| Unsandboxed.search := [];
       Unsandboxed.hash := str "#/editor?room=" ++ room_A |} = room_A.
Proof.
  assert (H1 : forallb plain room_A = true) by (vm_compute; reflexivity).
  assert (H2 : room_A <> []) by (vm_compute; discriminate).
  split; [exact H1|]. split; [exact H2|].
  pose proof (proj1 (proj2 (proj2 (getRoomFromWindow_sources room_A H1 H2)))
                [] (str "#/editor") [] eq_refl eq_refl (or_introl eq_refl))
    as H.
  rewrite app_nil_r in H. exact H.
Defined.

(** ** The room probe *)

(** The extension is loaded where no room is named; the address of the
    page names one when the probe ticks for the third time. *)
Lemma room_probe_tick_witness :
  let nowhere := {| Unsandboxed.search := []; Unsandboxed.hash := [] |} in
  let editor :=
    {| Unsandboxed.search := str "?room=ST-A"; Unsandboxed.hash := [] |} in
  let w :=
    @Unsandboxed.run example_platform example_http
      [Unsandboxed.ProbeTick 0 nowhere []; Unsandboxed.ProbeTick 0 nowhere []]
      (@Unsandboxed.SmartteamLiveExtension example_platform example_http
         nowhere [] []) in
  let w' :=
    @Unsandboxed.step example_platform example_http
      (Unsandboxed.ProbeTick 0 editor []) w in
  Unsandboxed.intervals w !! 0 =
    Some {| Unsandboxed.interval_ms := 250;
            Unsandboxed.interval_running := true;
            Unsandboxed.tries := 2 |} /\
  Unsandboxed._room (Unsandboxed.ext w) = [] /\
  Unsandboxed.room_found editor [] <> [] /\
  Unsandboxed.getRoom (Unsandboxed.ext w') = room_A /\
  Unsandboxed._shouldReconnect (Unsandboxed.ext w') = true.
Proof.
  cbv zeta.
  match goal with
  | |- ?a /\ ?b /\ ?c /\ _ =>
      assert (H1 : a) by (vm_compute; reflexivity);
      assert (H2 : b) by (vm_compute; reflexivity);
      assert (H3 : c) by (vm_compute; discriminate)
  end.
  split; [exact H1|]. split; [exact H2|]. split; [exact H3|].
  destruct (proj1 (proj2
              (@room_probe_tick example_platform example_http
                 {| Unsandboxed.search := []; Unsandboxed.hash := [] |} [] []
                 [Unsandboxed.ProbeTick 0
                    {| Unsandboxed.search := []; Unsandboxed.hash := [] |} [];
                  Unsandboxed.ProbeTick 0
                    {| Unsandboxed.search := []; Unsandboxed.hash := [] |} []]
                 0 _
                 {| Unsandboxed.search := str "?room=ST-A";
                    Unsandboxed.hash := [] |} [] H1 eq_refl)) H2 H3)
    as (_ & _ & H5 & H6).
  split; [|exact H6].
  rewrite H5. vm_compute. reflexivity.
Defined.

(** The extension is loaded in an editor whose address names the
    room. *)
Lemma constructor_reads_editor_address_witness :
  let editor :=
    {| Unsandboxed.search := str "?room=ST-A&wsBase=x";
       Unsandboxed.hash := [] |} in
  Unsandboxed.getQueryParamFromSearch (Unsandboxed.search editor)
    (str "room") = room_A /\
  normalizeRoom room_A <> [] /\
  Unsandboxed.getRoom
    (Unsandboxed.ext
       (@Unsandboxed.SmartteamLiveExtension example_platform example_http
          editor [] room_B)) = room_A.
Proof.
  cbv zeta.
  assert (H1 : Unsandboxed.getQueryParamFromSearch
                 (str "?room=ST-A&wsBase=x") (str "room") = room_A)
    by (vm_compute; reflexivity).
  assert (H2 : normalizeRoom room_A <> []) by (vm_compute; discriminate).
  split; [exact H1|]. split; [exact H2|].
  destruct (proj1 (@constructor_reads_editor_address example_platform
                     example_http
                     {| Unsandboxed.search := str "?room=ST-A&wsBase=x";
                        Unsandboxed.hash := [] |} [] room_B)
              room_A H1 H2)
    as (H3 & _).
  rewrite H3. vm_compute. reflexivity.
Defined.
